(* ===== verification/_CoqProject ===== *)
-Q . S2P
Prelude.v
Kernel.v
ZonedRam.v
Zone.v
Allocator.v
GcPolicy.v
XArray.v
Bytes.v
Bio.v
Engine.v
RbTree.v
Memtable.v
Sstable.v
Super.v
Lsm.v
LsmIndex.v
LsmFlush.v
LsmIo.v
LsmRecovery.v
LsmView.v
LsmConcurrency.v
LsmRefine.v
Disk.v
LsmServe.v
LsmDisk.v
LsmHealth.v
LsmProgress.v
LsmRestart.v
LsmLifecycle.v
LsmService.v
LsmEngine.v
Append4k.v
Append4kAlloc.v
AppendRefine.v
Target.v
LsmTarget.v
