(* ===== verification/Prelude.v ===== *)
(** * dm-zns-base: a verification library

    (Header to be completed.) *)
From Stdlib Require Export ZArith Lia.
From stdpp Require Export base sorting numbers gmap list strings pretty.
#[export] Set Default Goal Selector "!".

Global Open Scope Z_scope.

(** ** Machine integers

    [sector_t] and [u64] are 64-bit, [unsigned int] and [u32] 32-bit unsigned
    integers; both wrap.  [int] is two's complement on 32 bits. *)

Definition u64 (z : Z) : Z := z mod 18446744073709551616.
Definition u32 (z : Z) : Z := z mod 4294967296.
Definition s32 (z : Z) : Z := (z + 2147483648) mod 4294967296 - 2147483648.

(** Membership in the range of a width. *)
Definition is_u64 (z : Z) : Prop := 0 <= z < 18446744073709551616.
Definition is_u32 (z : Z) : Prop := 0 <= z < 4294967296.

#[export] Instance is_u64_dec z : Decision (is_u64 z).
Proof. unfold is_u64. apply _. Defined.
#[export] Instance is_u32_dec z : Decision (is_u32 z).
Proof. unfold is_u32. apply _. Defined.

Definition UINT_MAX : Z := 4294967295.
Definition SECTOR_MAX : Z := 18446744073709551615.

(** ** Error codes

    A C function that returns [0] or a negative errno becomes a [result]: the
    success value carries the out-parameters, [Err e] carries the negative
    errno.  The numbers are those of the kernel's errno headers. *)

Definition EIO : Z := 5.
Definition ENOMEM : Z := 12.
Definition EBUSY : Z := 16.
Definition EEXIST : Z := 17.
Definition ENODEV : Z := 19.
Definition EINVAL : Z := 22.
Definition ENOSPC : Z := 28.
Definition ENODATA : Z := 61.
Definition EOVERFLOW : Z := 75.
Definition EOPNOTSUPP : Z := 95.

Inductive result (A : Type) : Type :=
| Ok (a : A)
| Err (e : Z).
Arguments Ok {A} a.
Arguments Err {A} e.

Definition is_ok {A} (r : result A) : bool :=
  match r with Ok _ => true | Err _ => false end.

(** The [int] a C caller sees. *)
Definition ret_code {A} (r : result A) : Z :=
  match r with Ok _ => 0 | Err e => e end.

#[export] Instance result_eq_dec {A} `{EqDecision A} : EqDecision (result A).
Proof. solve_decision. Defined.

(** ** A state monad with errors that keep the state

    Unlike an option-of-state monad, a failing operation hands back the state it
    leaves behind: kernel code that returns an errno has usually changed
    something already, and several properties below are about exactly that. *)

Definition M (S A : Type) : Type := S -> result A * S.

Definition ret {S A} (a : A) : M S A := fun s => (Ok a, s).
Definition fail {S A} (e : Z) : M S A := fun s => (Err e, s).
Definition bind {S A B} (m : M S A) (k : A -> M S B) : M S B :=
  fun s => match m s with
           | (Ok a, s') => k a s'
           | (Err e, s') => (Err e, s')
           end.
Definition get {S} : M S S := fun s => (Ok s, s).
Definition gets {S A} (f : S -> A) : M S A := fun s => (Ok (f s), s).
Definition modify {S} (f : S -> S) : M S unit := fun s => (Ok tt, f s).
(** Run [m] and hand its outcome, error or not, to the continuation. *)
Definition attempt {S A} (m : M S A) : M S (result A) :=
  fun s => let '(r, s') := m s in (Ok r, s').
(** Continue from an outcome that is already known. *)
Definition lift {S A} (r : result A) : M S A := fun s => (r, s).
(** Run an operation of a component on its part of a larger state. *)
Definition zoom {S T A} (get_part : S -> T) (set_part : T -> S -> S) (m : M T A) : M S A :=
  fun s => let '(r, t') := m (get_part s) in (r, set_part t' s).

Declare Scope zns_scope.
Delimit Scope zns_scope with zns.
Notation "x <- c ;; k" := (bind c (fun x => k))
  (at level 100, c at next level, right associativity) : zns_scope.
Notation "c ;;; k" := (bind c (fun _ => k))
  (at level 100, right associativity) : zns_scope.
Global Open Scope zns_scope.

(** ** Arrays indexed by machine integers *)

Notation "l .[ i ]" := (l !!! Z.to_nat i) (at level 1, format "l .[ i ]") : zns_scope.
Notation "l .[ i := x ]" := (<[Z.to_nat i := x]> l)
  (at level 1, format "l .[ i  :=  x ]") : zns_scope.

Definition zlen {A} (l : list A) : Z := Z.of_nat (length l).

(** ** Automation *)

Create HintDb zns discriminated.
Create Rewrite HintDb zns.

(** [u64]/[u32] of a number in range is the number itself. *)
Lemma u64_id z : 0 <= z < 18446744073709551616 -> u64 z = z.
Proof. apply Z.mod_small. Qed.

Lemma u32_id z : 0 <= z < 4294967296 -> u32 z = z.
Proof. apply Z.mod_small. Qed.

Lemma s32_id z : -2147483648 <= z < 2147483648 -> s32 z = z.
Proof. unfold s32. intros. rewrite Z.mod_small; lia. Qed.

Lemma u64_range z : is_u64 (u64 z).
Proof. apply Z.mod_pos_bound. lia. Qed.

Lemma u32_range z : is_u32 (u32 z).
Proof. apply Z.mod_pos_bound. lia. Qed.

#[export] Hint Resolve u64_range u32_range : zns.

(** Remove every wrap-around whose argument [lia] can bound. *)
Ltac unwrap :=
  repeat match goal with
  | |- context [u64 ?z] => rewrite (u64_id z) by lia
  | |- context [u32 ?z] => rewrite (u32_id z) by lia
  | H : context [u64 ?z] |- _ => rewrite (u64_id z) in H by lia
  | H : context [u32 ?z] |- _ => rewrite (u32_id z) in H by lia
  end.

(** Turn the boolean guards of the code into propositions. *)
Ltac guards :=
  repeat match goal with
  | H : _ && _ = true |- _ => apply andb_true_iff in H; destruct H
  | H : _ || _ = false |- _ => apply orb_false_iff in H; destruct H
  | H : negb _ = true |- _ => apply negb_true_iff in H
  | H : negb _ = false |- _ => apply negb_false_iff in H
  | H : (_ <? _) = true |- _ => apply Z.ltb_lt in H
  | H : (_ <? _) = false |- _ => apply Z.ltb_ge in H
  | H : (_ <=? _) = true |- _ => apply Z.leb_le in H
  | H : (_ <=? _) = false |- _ => apply Z.leb_gt in H
  | H : (_ =? _) = true |- _ => apply Z.eqb_eq in H
  | H : (_ =? _) = false |- _ => apply Z.eqb_neq in H
  | H : bool_decide _ = true |- _ => apply bool_decide_eq_true in H
  | H : bool_decide _ = false |- _ => apply bool_decide_eq_false in H
  end.

(** Case analysis on the next test of the code, keeping its outcome. *)
Ltac step_if :=
  match goal with
  | |- context [if ?b then _ else _] =>
      match b with
      | context [if _ then _ else _] => fail 1
      | _ => let E := fresh "E" in destruct b eqn:E
      end
  | H : context [if ?b then _ else _] |- _ =>
      match b with
      | context [if _ then _ else _] => fail 1
      | _ => let E := fresh "E" in destruct b eqn:E
      end
  end.

(** ** The monad laws *)

Lemma bind_ret_l {S A B} (a : A) (k : A -> M S B) s : bind (ret a) k s = k a s.
Proof. done. Qed.

Lemma bind_assoc {S A B C} (m : M S A) (k : A -> M S B) (h : B -> M S C) s :
  bind (bind m k) h s = bind m (fun a => bind (k a) h) s.
Proof. unfold bind. destruct (m s) as [[a|e] s']; done. Qed.

Lemma bind_Ok {S A B} (m : M S A) (k : A -> M S B) s b s'' :
  bind m k s = (Ok b, s'') <->
  exists a s', m s = (Ok a, s') /\ k a s' = (Ok b, s'').
Proof.
  unfold bind. destruct (m s) as [[a|e] s']; split.
  - eauto.
  - intros (?&?&?&?). by simplify_eq.
  - done.
  - intros (?&?&?&?). by simplify_eq.
Qed.

(** ** Invariants of operations

    [m] keeps [I], whatever its outcome.  One rule per combinator: a proof follows the
    text of the operation ([keeps] below), down to the operations it calls, whose own
    lemmas are in the hint database [keeps]. *)

Definition preserves {S A} (I : S -> Prop) (m : M S A) : Prop := forall s, I s -> I (snd (m s)).

Create HintDb keeps discriminated.

Section Preserves.
Context {S : Type} (I : S -> Prop).

Lemma preserves_ret {A} (a : A) : preserves I (ret a).
Proof. by intros s. Qed.

Lemma preserves_fail {A} e : preserves I (fail e : M S A).
Proof. by intros s. Qed.

Lemma preserves_lift {A} (r : result A) : preserves I (lift r).
Proof. by intros s. Qed.

Lemma preserves_get : preserves I get.
Proof. by intros s. Qed.

Lemma preserves_gets {A} (f : S -> A) : preserves I (gets f).
Proof. by intros s. Qed.

Lemma preserves_modify f : (forall s, I s -> I (f s)) -> preserves I (modify f).
Proof. by intros Hf s Hs; apply Hf. Qed.

Lemma preserves_bind {A B} (m : M S A) (k : A -> M S B) :
  preserves I m -> (forall a, preserves I (k a)) -> preserves I (bind m k).
Proof.
  intros Hm Hk s Hs. unfold bind. specialize (Hm s Hs). destruct (m s) as [[a|e] s']; [|done].
  by apply Hk.
Qed.

Lemma preserves_attempt {A} (m : M S A) : preserves I m -> preserves I (attempt m).
Proof. intros Hm s Hs. unfold attempt. specialize (Hm s Hs). by destruct (m s) as [r s']. Qed.

Lemma preserves_zoom {T A} (J : T -> Prop) get_part set_part (m : M T A) :
  (forall s, I s -> J (get_part s)) -> (forall t s, J t -> I s -> I (set_part t s)) ->
  preserves J m -> preserves I (zoom get_part set_part m).
Proof.
  intros Hg Hs Hm s HI. unfold zoom. specialize (Hm (get_part s) (Hg s HI)).
  destruct (m (get_part s)) as [r t]. by apply Hs.
Qed.

Lemma preserves_run {A} (m : M S A) s r s' : preserves I m -> m s = (r, s') -> I s -> I s'.
Proof. intros Hm Hr Hs. specialize (Hm s Hs). by rewrite Hr in Hm. Qed.

End Preserves.

#[export] Hint Resolve preserves_ret preserves_fail preserves_lift preserves_get preserves_gets : keeps.

(** Follow the text of an operation. *)
Ltac keeps :=
  repeat match goal with
  | |- preserves _ (bind _ _) => apply preserves_bind; [|intros ?]
  | |- preserves _ (attempt _) => apply preserves_attempt
  | |- preserves _ (let '(_, _) := ?x in _) => destruct x
  | |- preserves _ (if ?b then _ else _) => destruct b
  | |- preserves _ (match ?x with _ => _ end) => destruct x
  | |- preserves _ (let _ := _ in _) => cbv zeta
  | |- preserves _ _ => progress eauto 3 with keeps
  end.

(** ** Outcomes of operations

    [ends o ok err]: the outcome [o] is a success of which [ok] holds, or an error of
    which [err] holds.  Again one rule per combinator, so that the proof about an
    operation is made of the lemmas about what it calls. *)

Definition ends {S A} (o : result A * S) (ok : A -> S -> Prop) (err : Z -> S -> Prop) : Prop :=
  match o with (Ok a, s) => ok a s | (Err e, s) => err e s end.

Section Ends.
Context {S : Type}.

Lemma ends_weaken {A} (o : result A * S) (ok ok' : A -> S -> Prop) (err err' : Z -> S -> Prop) :
  ends o ok err -> (forall a s, ok a s -> ok' a s) -> (forall e s, err e s -> err' e s) ->
  ends o ok' err'.
Proof. destruct o as [[a|e] s]; cbn; auto. Qed.

Lemma ends_bind {A B} (m : M S A) (k : A -> M S B) s (ok : A -> S -> Prop) ok' err :
  ends (m s) ok err -> (forall a s', ok a s' -> ends (k a s') ok' err) -> ends (bind m k s) ok' err.
Proof. unfold bind. destruct (m s) as [[a|e] s']; cbn; auto. Qed.

Lemma ends_attempt {A B} (m : M S A) (k : result A -> M S B) s ok err ok' err' :
  ends (m s) ok err ->
  (forall a s', ok a s' -> ends (k (Ok a) s') ok' err') ->
  (forall e s', err e s' -> ends (k (Err e) s') ok' err') ->
  ends (bind (attempt m) k s) ok' err'.
Proof. unfold bind, attempt. destruct (m s) as [[a|e] s']; cbn; auto. Qed.

Lemma ends_gets {A B} (f : S -> A) (k : A -> M S B) s ok err :
  ends (k (f s) s) ok err -> ends (bind (gets f) k s) ok err.
Proof. done. Qed.

(** An operation that keeps [I] ends in it, if only successes count. *)
Lemma ends_preserved {A B} (I : S -> Prop) (m : M S A) (k : A -> M S B) s ok :
  preserves I m -> I s -> (forall a s', I s' -> ends (k a s') ok (fun _ _ => True)) ->
  ends (bind m k s) ok (fun _ _ => True).
Proof. intros Hm Hs Hk. unfold bind. specialize (Hm s Hs). destruct (m s) as [[a|e] s']; [by apply Hk|done]. Qed.

(** The conclusion of a rule for a larger state. *)
Lemma ends_zoom {T A} get_part set_part (m : M T A) (s : S) (ok : A -> S -> Prop) err :
  ends (m (get_part s)) (fun a t => ok a (set_part t s)) (fun e t => err e (set_part t s)) ->
  ends (zoom get_part set_part m s) ok err.
Proof. unfold zoom. by destruct (m (get_part s)) as [[a|e] t]. Qed.

End Ends.

(** ** Lists indexed by [Z] *)

Lemma zlen_nonneg {A} (l : list A) : 0 <= zlen l.
Proof. unfold zlen. lia. Qed.

Lemma zlookup_lt {A} `{Inhabited A} (l : list A) i :
  0 <= i < zlen l -> l !! Z.to_nat i = Some l.[i].
Proof. unfold zlen. intros. apply list_lookup_lookup_total_lt. lia. Qed.

Lemma zupdate_same {A} `{Inhabited A} (l : list A) i x :
  0 <= i < zlen l -> l.[i := x].[i] = x.
Proof. unfold zlen. intros. apply list_lookup_total_insert_eq. lia. Qed.

Lemma zupdate_other {A} `{Inhabited A} (l : list A) i j x :
  0 <= i -> 0 <= j -> i <> j -> l.[i := x].[j] = l.[j].
Proof. intros. apply list_lookup_total_insert_ne. lia. Qed.

Lemma zlen_update {A} (l : list A) i x : zlen l.[i := x] = zlen l.
Proof. unfold zlen. by rewrite length_insert. Qed.

#[export] Hint Rewrite @zlen_update : zns.

Lemma zupdate_lookup {A} `{Inhabited A} (l : list A) i j x :
  0 <= i < zlen l -> 0 <= j ->
  l.[i := x].[j] = if bool_decide (i = j) then x else l.[j].
Proof.
  intros. case_bool_decide; subst.
  - by apply zupdate_same.
  - apply zupdate_other; lia.
Qed.

Lemma zForall_lookup {A} `{Inhabited A} (P : A -> Prop) l i :
  Forall P l -> 0 <= i < zlen l -> P l.[i].
Proof.
  intros HP Hi. rewrite Forall_lookup in HP. eapply HP, zlookup_lt, Hi.
Qed.

(** Any index: an element of the list, or the default. *)
Lemma zlookup_cases {A} `{Inhabited A} (l : list A) i :
  (0 <= Z.max 0 i < zlen l /\ l.[i] = l.[Z.max 0 i]) \/ l.[i] = inhabitant.
Proof.
  unfold zlen. destruct (decide (Z.to_nat i < length l)%nat) as [Hi|Hi].
  - left. split; [lia|]. f_equal. lia.
  - right. rewrite list_lookup_total_alt, lookup_ge_None_2 by lia. done.
Qed.

(** Lists of the same length with the same elements. *)
Lemma zlist_ext {A} `{Inhabited A} (l1 l2 : list A) :
  zlen l1 = zlen l2 -> (forall i, 0 <= i < zlen l1 -> l1.[i] = l2.[i]) -> l1 = l2.
Proof.
  unfold zlen. intros Hl Hi. apply list_eq_same_length with (length l2); [lia|lia|].
  intros i x y Hlt Hx Hy. specialize (Hi (Z.of_nat i) ltac:(lia)). rewrite Nat2Z.id in Hi.
  apply list_lookup_total_correct in Hx, Hy. congruence.
Qed.

(** Aligned offsets inside a block-structured region. *)
Lemma mod_add_block x b : 0 < b -> x mod b = 0 -> (x + b) mod b = 0.
Proof.
  intros Hb H. rewrite <- (Z.mul_1_l b) at 1. by rewrite Z_mod_plus_full.
Qed.

#[export] Hint Resolve mod_add_block zlen_nonneg : zns.

(** ** Ordered association lists as maps *)

Lemma list_to_map_middle {A} (l r : list (Z * A)) k v :
  NoDup (fst <$> l ++ (k, v) :: r) ->
  (list_to_map (l ++ (k, v) :: r) : gmap Z A) = <[k := v]> (list_to_map (l ++ r)).
Proof.
  intros Hnd. rewrite (list_to_map_proper (l ++ (k, v) :: r) ((k, v) :: l ++ r)); [done..|].
  symmetry. apply Permutation_middle.
Qed.

Lemma list_to_map_overwrite {A} (l r : list (Z * A)) k v0 v :
  NoDup (fst <$> l ++ (k, v0) :: r) ->
  (list_to_map (l ++ (k, v) :: r) : gmap Z A) = <[k := v]> (list_to_map (l ++ (k, v0) :: r)).
Proof.
  intros Hnd. rewrite !list_to_map_middle; [by rewrite insert_insert_eq|done|].
  by rewrite !fmap_app, !fmap_cons in *.
Qed.

Lemma sorted_lt_NoDup (l : list Z) : StronglySorted Z.lt l -> NoDup l.
Proof.
  induction 1 as [|x l _ IH Hx]; constructor; [|done].
  intros Hin. rewrite list.Forall_forall in Hx. specialize (Hx x Hin). lia.
Qed.

(** Inserting between the smaller and the larger keys keeps a list sorted. *)
Lemma sorted_middle {A} (key : A -> Z) (l r : list A) (x : A) :
  StronglySorted Z.lt (key <$> l ++ r) ->
  Forall (fun y => key y < key x) l -> Forall (fun y => key x < key y) r ->
  StronglySorted Z.lt (key <$> l ++ x :: r).
Proof.
  induction l as [|y l IH]; cbn; intros Hs Hl Hr.
  - constructor; [done|]. rewrite Forall_fmap. exact Hr.
  - apply StronglySorted_inv in Hs as [Hs Hy]. apply Forall_cons_1 in Hl as [Hyx Hl].
    constructor; [by apply IH|].
    rewrite Forall_fmap in *. apply Forall_app in Hy as [Hyl Hyr].
    apply Forall_app. split; [done|]. by constructor.
Qed.
