(* ===== verification/Kernel.v ===== *)
(** The kernel services the module calls: memory allocation, the lower zoned
    block device, and the zone report it produces.  None of this is code of the
    repository, so the block device is an interface ([BlockDevice]) with the
    documented behaviour the module relies on as laws ([BlockDeviceLaws]);
    allocation is an oracle, so every theorem covers every pattern of allocation
    failures. *)
From coqutil Require Export Byte Word.LittleEndianList.
From S2P Require Import Prelude.

(** ** Memory allocation

    The outcomes of the coming allocations, in order; once the list is used up
    every allocation succeeds. *)
Abbreviation mem := (list bool).

(** [kmalloc], [kzalloc], [kcalloc], [kvcalloc], [vmalloc_array], [bio_alloc]. *)
Definition kmalloc : M mem unit := fun m =>
  match m with
  | false :: m' => (Err (- ENOMEM), m')
  | _ :: m' => (Ok tt, m')
  | [] => (Ok tt, [])
  end.

(** No allocation fails from here on. *)
Definition no_fail (m : mem) : Prop := Forall (eq true) m.

Lemma kmalloc_cases a :
  (exists a', kmalloc a = (Ok tt, a') /\ (no_fail a -> no_fail a')) \/
  (exists a', kmalloc a = (Err (- ENOMEM), a') /\ ~ no_fail a).
Proof.
  destruct a as [|[] a]; cbn.
  - left. by eexists.
  - left. eexists. split; [done|]. by intros [_ ?]%Forall_cons_1.
  - right. eexists. split; [done|]. by intros [? _]%Forall_cons_1.
Qed.

(** ** Zones as the device reports them *)

Inductive blk_zone_cond : Type :=
| BLK_ZONE_COND_NOT_WP
| BLK_ZONE_COND_EMPTY
| BLK_ZONE_COND_IMP_OPEN
| BLK_ZONE_COND_EXP_OPEN
| BLK_ZONE_COND_CLOSED
| BLK_ZONE_COND_READONLY
| BLK_ZONE_COND_FULL
| BLK_ZONE_COND_OFFLINE.

#[export] Instance blk_zone_cond_eq_dec : EqDecision blk_zone_cond.
Proof. solve_decision. Defined.

Inductive blk_zone_type : Type :=
| BLK_ZONE_TYPE_CONVENTIONAL
| BLK_ZONE_TYPE_SEQWRITE_REQ
| BLK_ZONE_TYPE_SEQWRITE_PREF.

#[export] Instance blk_zone_type_eq_dec : EqDecision blk_zone_type.
Proof. solve_decision. Defined.

Record blk_zone : Type := mk_blk_zone {
  bz_start : Z;
  bz_len : Z;
  bz_capacity : Z;
  bz_wp : Z;
  bz_type : blk_zone_type;
  bz_cond : blk_zone_cond;
}.

(** ** Requests to the lower device *)

Abbreviation block := (list Byte.byte).

(** [memset(block, 0, 4096)]. *)
Definition zero_block : block := replicate 4096 Byte.x00.

Lemma length_zero_block : length zero_block = 4096%nat.
Proof. apply length_replicate. Qed.

Lemma zero_block_bytes : zero_block = replicate 4096 Byte.x00.
Proof. done. Qed.

#[global] Opaque zero_block.

Inductive req_op : Type :=
| REQ_OP_READ
| REQ_OP_WRITE
| REQ_OP_FLUSH
| REQ_OP_OTHER. (* discard, zone management, ... *)

#[export] Instance req_op_eq_dec : EqDecision req_op.
Proof. solve_decision. Defined.

(** [bi_opf]: the operation and its flags (PREFLUSH, FUA, ...). *)
Record req_opf : Type := mk_opf { opf_op : req_op; opf_flags : Z }.

Definition opf (op : req_op) : req_opf := mk_opf op 0.

Record request : Type := mk_request {
  rq_opf : req_opf;
  rq_sector : Z;
  rq_data : block;
}.

Class BlockDevice : Type := {
  bdev : Type;
  (** [submit_bio_wait]: the outcome, and the data pages afterwards. *)
  submit_bio_wait : request -> M bdev block;
  (** Bytes [bio_add_page] accepts for this page. *)
  bio_add_page : bdev -> block -> Z;
  (** [blkdev_zone_mgmt] with [REQ_OP_ZONE_RESET] on start and length. *)
  blkdev_zone_reset : Z -> Z -> M bdev unit;
  (** [blkdev_report_zones] from a sector, at most so many zones: the zones
      handed to the callback, and the errno that ended the report (0: none). *)
  bdev_report : bdev -> Z -> Z -> list blk_zone * Z;
  bdev_is_zoned : bdev -> bool;
  bdev_nr_zones : bdev -> Z;
  bdev_nr_sectors : bdev -> Z;
}.

(** The memory and the device a running module works on. *)
Record world `{BlockDevice} : Type := mk_world { w_mem : mem; w_dev : bdev }.
Arguments mk_world {_} _ _.
Arguments w_mem {_} _.
Arguments w_dev {_} _.

Section Services.
Context `{BlockDevice}.

Definition set_mem (m : mem) (w : world) : world := mk_world m (w_dev w).
Definition set_dev (d : bdev) (w : world) : world := mk_world (w_mem w) d.

Definition on_mem {A} (m : M mem A) : M world A := zoom w_mem set_mem m.
Definition on_dev {A} (m : M bdev A) : M world A := zoom w_dev set_dev m.

(** [blkdev_report_zones] runs the callback on every reported zone with its
    index, stops at the first non-zero answer, and otherwise returns the
    number of zones. *)
Fixpoint report_loop {S} (cb : blk_zone -> Z -> M S unit)
    (zs : list blk_zone) (i : Z) : M S unit :=
  match zs with
  | [] => ret tt
  | z :: zs' => cb z i ;;; report_loop cb zs' (i + 1)
  end.

Definition blkdev_report_zones {S} (d : bdev) (sector nr : Z)
    (cb : blk_zone -> Z -> M S unit) : M S Z :=
  let '(zs, err) := bdev_report d sector nr in
  report_loop cb zs 0 ;;;
  (if err =? 0 then ret (zlen zs) else Prelude.fail err).
End Services.

(** ** What the module relies on

    [dev_block d s] is the 4 KiB of data stored at sector [s]. *)
Class BlockDeviceLaws `{BlockDevice} : Type := {
  dev_block : bdev -> Z -> block;
  (** A successful read returns the stored data. *)
  dev_read_ok : forall fl s buf d b d',
    submit_bio_wait (mk_request (mk_opf REQ_OP_READ fl) s buf) d = (Ok b, d') ->
    b = dev_block d s;
  (** Reads and flushes store nothing. *)
  dev_read_frame : forall fl s buf d r d' s',
    submit_bio_wait (mk_request (mk_opf REQ_OP_READ fl) s buf) d = (r, d') ->
    dev_block d' s' = dev_block d s';
  dev_flush_frame : forall fl s buf d r d' s',
    submit_bio_wait (mk_request (mk_opf REQ_OP_FLUSH fl) s buf) d = (r, d') ->
    dev_block d' s' = dev_block d s';
  (** A successful write stores its data; any write, even one that fails, leaves
      the blocks it does not overlap alone. *)
  dev_write_ok : forall fl s b d b' d',
    submit_bio_wait (mk_request (mk_opf REQ_OP_WRITE fl) s b) d = (Ok b', d') ->
    dev_block d' s = b;
  dev_write_frame : forall fl s b d r d' s',
    submit_bio_wait (mk_request (mk_opf REQ_OP_WRITE fl) s b) d = (r, d') ->
    s' + 8 <= s \/ s + 8 <= s' ->
    dev_block d' s' = dev_block d s';
  (** A zone reset, even one that fails, leaves the other zones alone. *)
  dev_reset_frame : forall start len d r d' s',
    blkdev_zone_reset start len d = (r, d') ->
    s' + 8 <= start \/ start + len <= s' ->
    dev_block d' s' = dev_block d s';
  (** The fields of a zone report are 64-bit integers. *)
  dev_report_range : forall d sector nr z, z ∈ fst (bdev_report d sector nr) ->
    is_u64 (bz_start z) /\ is_u64 (bz_len z) /\ is_u64 (bz_capacity z) /\ is_u64 (bz_wp z);
}.

(** ** Framing *)
Section Frames.
Context `{BlockDeviceLaws}.

(** Nothing outside the sectors from [lo] to [hi] changed. *)
Definition only_in (lo hi : Z) (d d' : bdev) : Prop :=
  forall s, s + 8 <= lo \/ hi <= s -> dev_block d' s = dev_block d s.

(** Nothing changed at all. *)
Definition same_blocks (d d' : bdev) : Prop := forall s, dev_block d' s = dev_block d s.

#[export] Instance same_blocks_equivalence : Equivalence same_blocks.
Proof.
  split.
  - intros d s. done.
  - intros d1 d2 Hd s. by rewrite Hd.
  - intros d1 d2 d3 H1 H2 s. by rewrite H2, H1.
Qed.

Lemma same_blocks_refl d : same_blocks d d.
Proof. intros s. done. Qed.

Lemma same_only_in lo hi d d' : same_blocks d d' -> only_in lo hi d d'.
Proof. intros Hs s _. apply Hs. Qed.

Lemma only_in_refl lo hi d : only_in lo hi d d.
Proof. intros s _. done. Qed.

Lemma only_in_trans lo hi d1 d2 d3 :
  only_in lo hi d1 d2 -> only_in lo hi d2 d3 -> only_in lo hi d1 d3.
Proof. intros H1 H2 s Hs. by rewrite H2, H1. Qed.

Lemma only_in_widen lo hi lo' hi' d d' :
  only_in lo hi d d' -> lo' <= lo -> hi <= hi' -> only_in lo' hi' d d'.
Proof. intros Ho Hl Hh s Hs. apply Ho. lia. Qed.

(** Memory does not touch the device. *)
Lemma on_mem_dev {A} (m : M mem A) w r w' :
  on_mem m w = (r, w') -> w_dev w' = w_dev w /\ exists a', m (w_mem w) = (r, a').
Proof.
  unfold on_mem, zoom. destruct (m (w_mem w)) as [r0 a'] eqn:E. intros [= <- <-].
  split; [done|by eexists].
Qed.

(** ** Progress of reads

    A set of device states in which every read is served, and which reads do not
    leave. *)
Definition reads_succeed (P : bdev -> Prop) : Prop :=
  forall d, P d -> (forall b, bio_add_page d b = 4096) /\
    forall fl s buf, exists b d',
      submit_bio_wait (mk_request (mk_opf REQ_OP_READ fl) s buf) d = (Ok b, d') /\ P d'.

(** The errors a block request can end with: no memory for the bio, a page that was
    not accepted, or whatever the device reports. *)
Definition dev_error (e : Z) : Prop :=
  exists rq d d', submit_bio_wait rq d = (Err e, d').
Definition io_error (e : Z) : Prop := e = - ENOMEM \/ e = - EIO \/ dev_error e.

(** [e] is such an error, and some allocation or some read may fail from here on.  A
    theorem that concludes [faulty w e] for an error says that the error did not come
    from the code. *)
Definition faulty (w : world) (e : Z) : Prop :=
  io_error e /\ (no_fail (w_mem w) -> forall P, reads_succeed P -> ~ P (w_dev w)).

(** Faults of the later state are faults of the earlier one. *)
Definition fault_free_step (w w' : world) : Prop := forall e, faulty w' e -> faulty w e.

Lemma fault_free_refl w : fault_free_step w w.
Proof. intros e. done. Qed.

Lemma fault_free_trans w1 w2 w3 :
  fault_free_step w1 w2 -> fault_free_step w2 w3 -> fault_free_step w1 w3.
Proof. intros H1 H2 e He. auto. Qed.

Lemma on_mem_outcome w r w' :
  on_mem kmalloc w = (r, w') ->
  w_dev w' = w_dev w /\ fault_free_step w w' /\
  match r with Ok _ => True | Err e => faulty w e end.
Proof.
  intros Hm. apply on_mem_dev in Hm as Hd. destruct Hd as [Hd _]. split; [done|].
  unfold on_mem, zoom in Hm. unfold fault_free_step, faulty, io_error.
  destruct (kmalloc_cases (w_mem w)) as [(a' & Hk & Hn)|(a' & Hk & Hn)]; rewrite Hk in Hm;
    injection Hm as <- <-; cbn.
  2:{ split; [intros e [He _]; split; [done|tauto]|]. split; [by left|tauto]. }
  split; [|done]. intros e [He Hf]. split; [done|]. intros Hnf. apply Hf; auto.
Qed.

(** A read of the device. *)
Lemma device_read_outcome fl s buf w r d' :
  submit_bio_wait (mk_request (mk_opf REQ_OP_READ fl) s buf) (w_dev w) = (r, d') ->
  same_blocks (w_dev w) d' /\ fault_free_step w (set_dev d' w) /\
  match r with Ok b => b = dev_block (w_dev w) s | Err e => faulty w e end.
Proof.
  intros Hs.
  assert (Hprog : forall P, reads_succeed P -> P (w_dev w) -> is_ok r = true /\ P d').
  { intros P HP Hw. destruct (HP _ Hw) as [_ Hrd]. destruct (Hrd fl s buf) as (b' & d2 & Hsv & ?).
    rewrite Hsv in Hs. by injection Hs as <- <-. }
  split; [intros a; by eapply dev_read_frame|]. split.
  - intros e [Hio Hf]. split; [done|]. intros Hnf P HP Hw. apply (Hf Hnf P HP). by apply (Hprog P HP Hw).
  - destruct r as [b|e]; [by eapply dev_read_ok|]. split; [right; right; by eexists _, _, _|].
    intros _ P HP Hw. by destruct (Hprog P HP Hw).
Qed.

End Frames.

#[export] Hint Resolve only_in_refl same_only_in same_blocks_refl fault_free_refl : zns.

(** Carry faults of later states back to the first one. *)
Ltac faults := unfold fault_free_step in *; solve [intros; eauto 10].

(** ** A device that works

    A host-managed zoned device no request of which fails for reasons of its own.
    [dev_zone d s] is the capacity and the write pointer of the zone that starts at
    sector [s].  Reads and flushes are served; a block that is written at the write
    pointer of a zone with room for it is stored and moves that write pointer; a reset
    rewinds it.  Zones a request does not address keep theirs. *)
Class ZonedDeviceLaws `{BlockDeviceLaws} : Type := {
  dev_works : bdev -> Prop;
  dev_zone : bdev -> Z -> option (Z * Z);
  zd_pages : forall d b, dev_works d -> bio_add_page d b = 4096;
  zd_works : forall rq, preserves dev_works (submit_bio_wait rq);
  zd_reset_works : forall start len, preserves dev_works (blkdev_zone_reset start len);
  zd_read : forall fl s b d, dev_works d ->
    is_ok (fst (submit_bio_wait (mk_request (mk_opf REQ_OP_READ fl) s b) d)) = true;
  zd_flush : forall fl s b d, dev_works d ->
    is_ok (fst (submit_bio_wait (mk_request (mk_opf REQ_OP_FLUSH fl) s b) d)) = true;
  zd_write : forall fl start cap wp b d, dev_works d -> dev_zone d start = Some (cap, wp) ->
    start <= wp -> wp + 8 <= start + cap -> zlen b = 4096 ->
    let '(r, d') := submit_bio_wait (mk_request (mk_opf REQ_OP_WRITE fl) wp b) d in
    is_ok r = true /\ dev_zone d' start = Some (cap, wp + 8);
  zd_frame : forall rq d start cap wp, dev_works d -> dev_zone d start = Some (cap, wp) ->
    opf_op (rq_opf rq) <> REQ_OP_WRITE \/ rq_sector rq < start \/ start + cap <= rq_sector rq ->
    dev_zone (snd (submit_bio_wait rq d)) start = Some (cap, wp);
  zd_reset : forall start len cap wp d, dev_works d -> dev_zone d start = Some (cap, wp) ->
    let '(r, d') := blkdev_zone_reset start len d in
    r = Ok tt /\ dev_zone d' start = Some (cap, start);
  zd_reset_frame : forall start len d s cap wp, dev_works d -> dev_zone d s = Some (cap, wp) ->
    0 < len -> s < start \/ start + len <= s ->
    dev_zone (snd (blkdev_zone_reset start len d)) s = Some (cap, wp);
}.

Section Works.
Context `{ZonedDeviceLaws}.

Lemma works_reads : reads_succeed dev_works.
Proof.
  intros d Hd. split; [intros b; by apply zd_pages|]. intros fl s buf.
  pose proof (zd_read fl s buf d Hd) as Hr. pose proof (zd_works (mk_request (mk_opf REQ_OP_READ fl) s buf) d Hd) as Hw.
  destruct (submit_bio_wait _ d) as [[b|e] d']; [|done]. by exists b, d'.
Qed.

(** A working machine has no faults. *)
Lemma works_no_fault w e : no_fail (w_mem w) -> dev_works (w_dev w) -> ~ faulty w e.
Proof. intros Hm Hd [_ Hf]. exact (Hf Hm dev_works works_reads Hd). Qed.

End Works.
