(* ===== verification/ZonedRam.v ===== *)
(** A concrete lower device: a memory-backed host-managed zoned device, like the
    [null_blk] instance the tests of the repository run on.  Writes are accepted
    only at a zone's write pointer; a script of faults makes chosen requests fail.
    It shows that the interface of Kernel can be met, and the witnesses of the
    theorems run on it. *)
From S2P Require Import Prelude Kernel.

Record ram : Type := mk_ram {
  rd_blocks : gmap Z block;
  rd_zones : list blk_zone;
  rd_faults : list Z; (* errno (negative) of the coming requests; 0: served *)
}.

Definition ram_block (d : ram) (s : Z) : block := default zero_block (rd_blocks d !! s).

(** Accept a write of 8 sectors at [s] if [s] is a write pointer. *)
Fixpoint ram_advance (s : Z) (zs : list blk_zone) : option (list blk_zone) :=
  match zs with
  | [] => None
  | z :: zs' =>
      if (bz_wp z =? s) && (s + 8 <=? bz_start z + bz_capacity z)
      then
        let wp := s + 8 in
        let cond := if wp =? bz_start z + bz_capacity z
                    then BLK_ZONE_COND_FULL else BLK_ZONE_COND_IMP_OPEN in
        Some (mk_blk_zone (bz_start z) (bz_len z) (bz_capacity z) wp (bz_type z) cond :: zs')
      else option_map (cons z) (ram_advance s zs')
  end.

Definition ram_serve (r : request) (d : ram) : result block * ram :=
  match opf_op (rq_opf r) with
  | REQ_OP_READ => (Ok (ram_block d (rq_sector r)), d)
  | REQ_OP_WRITE =>
      match ram_advance (rq_sector r) (rd_zones d) with
      | Some zs => (Ok (rq_data r),
                    mk_ram (<[rq_sector r := rq_data r]> (rd_blocks d)) zs (rd_faults d))
      | None => (Err (- EIO), d)
      end
  | REQ_OP_FLUSH => (Ok (rq_data r), d)
  | REQ_OP_OTHER => (Err (- EOPNOTSUPP), d)
  end.

(** [report] is how the driver reports a fault of the medium. *)
Section Driver.
Context (report : Z -> Z).

Definition ram_submit (r : request) : M ram block := fun d =>
  match rd_faults d with
  | e :: fs =>
      let d' := mk_ram (rd_blocks d) (rd_zones d) fs in
      if e <? 0 then (Err (report e), d') else ram_serve r d'
  | [] => ram_serve r d
  end.

Definition ram_reset_zone (start : Z) (z : blk_zone) : blk_zone :=
  if bz_start z =? start
  then mk_blk_zone (bz_start z) (bz_len z) (bz_capacity z) start (bz_type z) BLK_ZONE_COND_EMPTY
  else z.

Definition ram_reset (start len : Z) : M ram unit := fun d =>
  match rd_faults d with
  | e :: fs =>
      if e <? 0 then (Err e, mk_ram (rd_blocks d) (rd_zones d) fs)
      else (Ok tt, mk_ram (rd_blocks d) (ram_reset_zone start <$> rd_zones d) fs)
  | [] => (Ok tt, mk_ram (rd_blocks d) (ram_reset_zone start <$> rd_zones d) [])
  end.

(** A zone in the 64-bit fields of a report. *)
Definition report_zone (z : blk_zone) : blk_zone :=
  mk_blk_zone (u64 (bz_start z)) (u64 (bz_len z)) (u64 (bz_capacity z)) (u64 (bz_wp z))
    (bz_type z) (bz_cond z).

Definition ram_report (d : ram) (sector nr : Z) : list blk_zone * Z :=
  (report_zone <$> take (Z.to_nat nr)
     (filter (fun z => sector < bz_start z + bz_len z) (rd_zones d)), 0).

Definition ram_driver : BlockDevice := {|
  bdev := ram;
  submit_bio_wait := ram_submit;
  bio_add_page := fun _ b => Z.of_nat 4096;
  blkdev_zone_reset := ram_reset;
  bdev_report := ram_report;
  bdev_is_zoned := fun _ => true;
  bdev_nr_zones := fun d => zlen (rd_zones d);
  bdev_nr_sectors := fun d => foldr (fun z n => bz_len z + n) 0 (rd_zones d);
|}.

Lemma ram_advance_data r d b d' :
  ram_serve r d = (b, d') ->
  forall s', s' <> rq_sector r -> ram_block d' s' = ram_block d s'.
Proof.
  unfold ram_serve, ram_block. intros Hrun s' Hs.
  destruct (opf_op _); [by simplify_eq| |by simplify_eq|by simplify_eq].
  destruct (ram_advance _ _); simplify_eq; [|done]. cbn.
  by rewrite lookup_insert_ne by congruence.
Qed.

Lemma ram_submit_frame r d b d' s' :
  ram_submit r d = (b, d') -> s' <> rq_sector r -> ram_block d' s' = ram_block d s'.
Proof.
  unfold ram_submit. intros Hrun Hs.
  destruct (rd_faults d) as [|e fs]; [by eapply ram_advance_data; eauto|].
  destruct (e <? 0); [by simplify_eq|].
  by rewrite (ram_advance_data _ _ _ _ Hrun s' Hs).
Qed.

Lemma ram_submit_same r d b d' s' :
  opf_op (rq_opf r) <> REQ_OP_WRITE ->
  ram_submit r d = (b, d') -> ram_block d' s' = ram_block d s'.
Proof.
  unfold ram_submit, ram_serve, ram_block. intros Hop Hrun.
  destruct (rd_faults d) as [|e fs]; [|destruct (e <? 0)];
    destruct (opf_op _); by simplify_eq.
Qed.

Definition ram_driver_laws : @BlockDeviceLaws ram_driver.
Proof.
  refine (@Build_BlockDeviceLaws ram_driver ram_block _ _ _ _ _ _ _); cbn.
  - intros fl s buf d b d'. unfold ram_submit, ram_serve. cbn.
    destruct (rd_faults d) as [|e fs]; [by intros; simplify_eq|].
    by destruct (e <? 0); intros; simplify_eq.
  - intros fl s buf d r d' s' H. by apply (ram_submit_same _ _ _ _ s') in H.
  - intros fl s buf d r d' s' H. by apply (ram_submit_same _ _ _ _ s') in H.
  - intros fl s b d b' d'. unfold ram_submit, ram_serve, ram_block. cbn.
    destruct (rd_faults d) as [|e fs]; [|destruct (e <? 0); [done|]]; cbn;
      (destruct (ram_advance _ _); [|done]); intros; simplify_eq; cbn;
      by rewrite lookup_insert_eq.
  - intros fl s b d r d' s' H Hs. eapply ram_submit_frame; [exact H|]. cbn. lia.
  - intros start len d r d' s' H Hs. unfold ram_reset in H. unfold ram_block.
    destruct (rd_faults d) as [|e fs]; [by simplify_eq|].
    by destruct (e <? 0); simplify_eq.
  - intros d sector nr z (z' & -> & _)%list_elem_of_fmap. cbn. auto using u64_range.
Defined.

(** *** A driver without faults *)

Definition ram_extent (z : blk_zone) : Z * Z := (bz_start z, bz_capacity z).

(** The zones lie one behind the other, and no write pointer is before its zone. *)
Record ram_works (d : ram) : Prop := {
  rw_faults : rd_faults d = [];
  rw_zones : StronglySorted (fun x y => fst x + snd x <= fst y) (ram_extent <$> rd_zones d);
  rw_sane : Forall (fun z => 0 < bz_capacity z /\ bz_start z <= bz_wp z) (rd_zones d);
}.

Fixpoint ram_zone (start : Z) (zs : list blk_zone) : option (Z * Z) :=
  match zs with
  | [] => None
  | z :: zs' => if bz_start z =? start then Some (bz_capacity z, bz_wp z) else ram_zone start zs'
  end.

Lemma ram_advance_extent s zs zs' :
  ram_advance s zs = Some zs' -> ram_extent <$> zs' = ram_extent <$> zs.
Proof.
  revert zs'. induction zs as [|z zs IH]; intros zs'; [done|]. cbn [ram_advance].
  destruct (_ && _); [by intros [= <-]|]. destruct (ram_advance s zs) as [zs1|]; [|done].
  cbn. intros [= <-]. rewrite fmap_cons. f_equal. by apply IH.
Qed.

Lemma ram_advance_sane s zs zs' :
  ram_advance s zs = Some zs' -> Forall (fun z => 0 < bz_capacity z /\ bz_start z <= bz_wp z) zs ->
  Forall (fun z => 0 < bz_capacity z /\ bz_start z <= bz_wp z) zs'.
Proof.
  revert zs'. induction zs as [|z zs IH]; intros zs'; [done|]. cbn [ram_advance].
  intros Ha [Hz Hzs]%Forall_cons_1. destruct (_ && _) eqn:E.
  - injection Ha as <-. guards. constructor; [cbn; lia|done].
  - destruct (ram_advance s zs) as [zs1|]; [|done]. injection Ha as <-. constructor; [done|by apply IH].
Qed.

(** A zone the write does not address. *)
Lemma ram_advance_frame s zs zs' start cap wp :
  ram_advance s zs = Some zs' -> Forall (fun z => 0 < bz_capacity z /\ bz_start z <= bz_wp z) zs ->
  ram_zone start zs = Some (cap, wp) -> s < start \/ start + cap <= s ->
  ram_zone start zs' = Some (cap, wp).
Proof.
  revert zs'. induction zs as [|z zs IH]; intros zs'; [done|]. cbn [ram_advance ram_zone].
  intros Ha [Hz Hzs]%Forall_cons_1 Hl Hout. destruct (_ && _) eqn:E.
  - injection Ha as <-. guards. cbn. destruct (Z.eqb_spec (bz_start z) start); [|done].
    injection Hl as <- <-. lia.
  - destruct (ram_advance s zs) as [zs1|]; [|done]. injection Ha as <-. cbn.
    destruct (Z.eqb_spec (bz_start z) start); [done|]. by apply IH.
Qed.

(** The zone it addresses. *)
Lemma ram_advance_hit start cap wp zs :
  StronglySorted (fun x y => fst x + snd x <= fst y) (ram_extent <$> zs) ->
  Forall (fun z => 0 < bz_capacity z /\ bz_start z <= bz_wp z) zs ->
  ram_zone start zs = Some (cap, wp) -> start <= wp -> wp + 8 <= start + cap ->
  exists zs', ram_advance wp zs = Some zs' /\ ram_zone start zs' = Some (cap, wp + 8).
Proof.
  induction zs as [|z zs IH]; [done|]. rewrite fmap_cons. cbn [ram_advance ram_zone].
  intros [Hs Hle]%StronglySorted_inv [Hz Hzs]%Forall_cons_1 Hl Hlo Hhi.
  destruct (Z.eqb_spec (bz_start z) start) as [Heq|Hne].
  - injection Hl as <- <-. rewrite Z.eqb_refl, (proj2 (Z.leb_le _ _)) by lia. eexists. split; [done|].
    cbn. by rewrite Heq, Z.eqb_refl.
  - assert (Hin : (start, cap) ∈ ram_extent <$> zs).
    { clear -Hl. induction zs as [|y zs IH]; [done|]. cbn [ram_zone] in Hl. rewrite fmap_cons.
      destruct (Z.eqb_spec (bz_start y) start) as [<-|]; [injection Hl as <- <-; left|right; auto]. }
    rewrite list.Forall_forall in Hle. specialize (Hle _ Hin). cbn in Hle.
    assert (E : (bz_wp z =? wp) && (wp + 8 <=? bz_start z + bz_capacity z) = false).
    { apply andb_false_iff. destruct (Z.eqb_spec (bz_wp z) wp); [right; apply Z.leb_gt; lia|by left]. }
    rewrite E. destruct (IH Hs Hzs Hl Hlo Hhi) as (zs1 & -> & Hz1). eexists. split; [done|]. cbn.
    by rewrite (proj2 (Z.eqb_neq _ _) Hne).
Qed.

Lemma ram_serve_works rq : preserves ram_works (ram_serve rq).
Proof.
  intros d Hd. unfold ram_serve. destruct (opf_op _); try done.
  destruct (ram_advance _ _) as [zs|] eqn:E; [|done]. destruct Hd as [Hf Hs Hz].
  constructor; cbn; [done|by rewrite (ram_advance_extent _ _ _ E)|by eapply ram_advance_sane].
Qed.

Lemma ram_submit_works rq d : ram_works d -> ram_submit rq d = ram_serve rq d.
Proof. intros [Hf _ _]. unfold ram_submit. by rewrite Hf. Qed.

Lemma ram_reset_works start len d :
  ram_works d ->
  ram_reset start len d = (Ok tt, mk_ram (rd_blocks d) (ram_reset_zone start <$> rd_zones d) []).
Proof. intros [Hf _ _]. unfold ram_reset. by rewrite Hf. Qed.

Lemma ram_reset_zone_at start zs s :
  ram_zone s (ram_reset_zone start <$> zs) =
    (fun z => (fst z, if s =? start then start else snd z)) <$> ram_zone s zs.
Proof.
  induction zs as [|z zs IH]; [done|]. rewrite fmap_cons. cbn [ram_zone]. unfold ram_reset_zone at 1.
  destruct (Z.eqb_spec (bz_start z) start) as [Heq|Hne]; cbn [bz_start].
  - destruct (Z.eqb_spec (bz_start z) s) as [<-|]; [|done]. unfold ram_reset_zone. rewrite Heq, Z.eqb_refl. done.
  - destruct (Z.eqb_spec (bz_start z) s) as [<-|]; [|done]. unfold ram_reset_zone.
    by rewrite (proj2 (Z.eqb_neq _ _) Hne).
Qed.

Definition ram_zoned_laws : @ZonedDeviceLaws ram_driver ram_driver_laws.
Proof.
  refine (@Build_ZonedDeviceLaws ram_driver ram_driver_laws ram_works
    (fun (d : ram) s => ram_zone s (rd_zones d)) _ _ _ _ _ _ _ _ _); cbn.
  - done.
  - intros rq d Hd. rewrite ram_submit_works by done. by apply ram_serve_works.
  - intros start len d Hd. rewrite ram_reset_works by done. destruct Hd as [Hf Hs Hz].
    constructor; cbn; [done| |].
    + rewrite <- list_fmap_compose. erewrite list_fmap_ext; [exact Hs|]. intros i z _. unfold ram_reset_zone.
      cbn. by case_match.
    + apply Forall_fmap. eapply Forall_impl; [exact Hz|]. intros z [? ?]. unfold ram_reset_zone.
      cbn. destruct (bz_start z =? start) eqn:E; guards; cbn; lia.
  - intros fl s b d Hd. by rewrite ram_submit_works.
  - intros fl s b d Hd. by rewrite ram_submit_works.
  - intros fl start cap wp b d Hd Hz Hlo Hhi _. rewrite ram_submit_works by done. unfold ram_serve. cbn.
    destruct (ram_advance_hit start cap wp _ (rw_zones d Hd) (rw_sane d Hd) Hz Hlo Hhi) as (zs & -> & ?). done.
  - intros rq d start cap wp Hd Hz Hout. rewrite ram_submit_works by done. unfold ram_serve.
    destruct (opf_op _) eqn:E; try done. destruct (ram_advance _ _) as [zs|] eqn:Ea; [|done]. cbn.
    eapply ram_advance_frame; [exact Ea|apply Hd|exact Hz|]. by destruct Hout.
  - intros start len cap wp d Hd Hz. rewrite ram_reset_works by done. split; [done|]. cbn.
    by rewrite ram_reset_zone_at, Hz, Z.eqb_refl.
  - intros start len d s cap wp Hd Hz Hlen Hs. rewrite ram_reset_works by done. cbn.
    rewrite ram_reset_zone_at, Hz. cbn. by rewrite (proj2 (Z.eqb_neq _ _)) by lia.
Defined.

End Driver.

(** A driver that reports every error as it is, a medium error as [-ENODATA]. *)
#[export] Instance ram_device : BlockDevice := ram_driver (fun e => e).
#[export] Instance ram_device_laws : BlockDeviceLaws := ram_driver_laws (fun e => e).

(** A driver that reports every error of the medium as [-EIO]. *)
Definition eio_device : BlockDevice := ram_driver (fun _ => - EIO).
Definition eio_device_laws : @BlockDeviceLaws eio_device := ram_driver_laws _.
Definition eio_zoned_laws : @ZonedDeviceLaws eio_device eio_device_laws := ram_zoned_laws _.

Lemma eio_device_errors e : @dev_error eio_device e -> e = - EIO \/ e = - EOPNOTSUPP.
Proof.
  intros (rq & d & d' & Hs). cbn in Hs. unfold ram_submit in Hs.
  assert (Hserve : forall x y, ram_serve rq x = (Err e, y) -> e = - EIO \/ e = - EOPNOTSUPP).
  { intros x y. unfold ram_serve. destruct (opf_op _); try done.
    - destruct (ram_advance _ _); [done|]. intros [= <- _]. by left.
    - intros [= <- _]. by right. }
  destruct (rd_faults d) as [|f fs]; [by eapply Hserve|].
  destruct (f <? 0); [|by eapply Hserve]. injection Hs as <- _. by left.
Qed.

Lemma eio_device_no_enodata : ~ @dev_error eio_device (- ENODATA).
Proof. by intros [He|He]%eio_device_errors. Qed.

Lemma eio_device_no_einval : ~ @dev_error eio_device (- EINVAL).
Proof. by intros [He|He]%eio_device_errors. Qed.
