(* ===== verification/Zone.v ===== *)
(** Zone metadata: [src/zns-zone.h] and [src/zns-zone.c].  The table of zones is
    filled by the device's report, one callback per zone. *)
From S2P Require Import Prelude Kernel.

Record zns_zone : Type := mk_zone {
  z_id : Z;
  z_start_sector : Z;
  z_length : Z;
  z_capacity : Z;
  z_write_pointer : Z;
  z_condition : blk_zone_cond;
  z_active : bool;
}.

#[export] Instance zns_zone_eq_dec : EqDecision zns_zone.
Proof. solve_decision. Defined.

(** What [kcalloc] and [memset] leave: condition 0 is NOT_WP. *)
Definition zone_zero : zns_zone := mk_zone 0 0 0 0 0 BLK_ZONE_COND_NOT_WP false.

#[export] Instance zns_zone_inhabited : Inhabited zns_zone := populate zone_zero.

Definition set_write_pointer (wp : Z) (z : zns_zone) : zns_zone :=
  mk_zone (z_id z) (z_start_sector z) (z_length z) (z_capacity z) wp
    (z_condition z) (z_active z).
Definition set_condition (c : blk_zone_cond) (z : zns_zone) : zns_zone :=
  mk_zone (z_id z) (z_start_sector z) (z_length z) (z_capacity z)
    (z_write_pointer z) c (z_active z).
Definition set_active (b : bool) (z : zns_zone) : zns_zone :=
  mk_zone (z_id z) (z_start_sector z) (z_length z) (z_capacity z)
    (z_write_pointer z) (z_condition z) b.

Record zns_zone_table : Type := mk_zone_table {
  zt_zones : list zns_zone;
  zt_nr_zones : Z;
}.

Definition zone_table_empty : zns_zone_table := mk_zone_table [] 0.

(** The sector behind the writable part, as the code computes it. *)
Definition zone_end (z : zns_zone) : Z := u64 (z_start_sector z + z_capacity z).

Definition zns_zone_can_append (zone : zns_zone) (sectors_per_block : Z) : bool :=
  let end_ := u64 (z_start_sector zone + z_capacity zone) in
  negb (bool_decide (z_condition zone = BLK_ZONE_COND_FULL)) &&
  negb (bool_decide (z_condition zone = BLK_ZONE_COND_READONLY)) &&
  negb (bool_decide (z_condition zone = BLK_ZONE_COND_OFFLINE)) &&
  (z_write_pointer zone <=? end_) &&
  (sectors_per_block <=? u64 (end_ - z_write_pointer zone)).

Definition zns_zone_is_active (condition : blk_zone_cond) : bool :=
  bool_decide (condition = BLK_ZONE_COND_IMP_OPEN) ||
  bool_decide (condition = BLK_ZONE_COND_EXP_OPEN) ||
  bool_decide (condition = BLK_ZONE_COND_CLOSED).

Section ZoneReports.
Context `{BlockDevice}.

Definition zns_zone_report_cb (reported : blk_zone) (index : Z) : M zns_zone_table unit :=
  fun table =>
    if zt_nr_zones table <=? index then (Err (- EOVERFLOW), table)
    else
      let zone := mk_zone index (bz_start reported) (bz_len reported)
                    (bz_capacity reported) (bz_wp reported) (bz_cond reported)
                    (zns_zone_is_active (bz_cond reported)) in
      (Ok tt, mk_zone_table (zt_zones table).[index := zone] (zt_nr_zones table)).

Definition zns_zone_report_one_cb (reported : blk_zone) (index : Z) : M zns_zone unit :=
  fun zone =>
    if negb (index =? 0) ||
       negb (bool_decide (bz_type reported = BLK_ZONE_TYPE_SEQWRITE_REQ))
    then (Err (- EINVAL), zone)
    else
      (Ok tt, mk_zone (z_id zone) (bz_start reported) (bz_len reported)
                (bz_capacity reported) (bz_wp reported) (bz_cond reported)
                (zns_zone_is_active (bz_cond reported))).

(** Fails, or returns the zone the device reports for [sector]. *)
Definition zns_zone_report_one (d : bdev) (sector : Z) : result zns_zone :=
  match blkdev_report_zones d sector 1 zns_zone_report_one_cb zone_zero with
  | (Err e, _) => Err e
  | (Ok reported, zone) => if reported =? 1 then Ok zone else Err (- EIO)
  end.

(** A failing initialisation destroys the table: the caller gets none. *)
Definition zns_zone_table_init : M world zns_zone_table := fun w =>
  let d := w_dev w in
  if negb (bdev_is_zoned d) then (Err (- ENODEV), w)
  else
    let nr_zones := u32 (bdev_nr_zones d) in
    if nr_zones =? 0 then (Err (- ENODEV), w)
    else
      (on_mem kmalloc ;;;
       let table := mk_zone_table (replicate (Z.to_nat nr_zones) zone_zero) nr_zones in
       match blkdev_report_zones d 0 nr_zones zns_zone_report_cb table with
       | (Err e, _) => Prelude.fail e
       | (Ok reported, table') =>
           if negb (reported =? nr_zones) then Prelude.fail (- EIO) else ret table'
       end) w.
End ZoneReports.

(** The zone a report describes, as the table stores it at [index]. *)
Definition zone_of_report (index : Z) (r : blk_zone) : zns_zone :=
  mk_zone index (bz_start r) (bz_len r) (bz_capacity r) (bz_wp r) (bz_cond r)
    (zns_zone_is_active (bz_cond r)).

(** ** Correctness of the zone table *)
Section ZoneReportsCorrect.
Context `{BlockDevice}.

(** A table filled up to [i] with the reported zones. *)
Lemma report_loop_table zs done_ rest nr r t :
  zlen done_ + zlen rest = nr ->
  report_loop zns_zone_report_cb zs (zlen done_) (mk_zone_table (done_ ++ rest) nr)
    = (Ok r, t) ->
  zlen done_ + zlen zs <= nr /\
  t = mk_zone_table
        (done_ ++ imap (fun k z => zone_of_report (zlen done_ + Z.of_nat k) z) zs
           ++ drop (length zs) rest) nr.
Proof.
  revert done_ rest t. induction zs as [|z zs IH]; intros done_ rest t Hlen Hrun.
  - simpl in Hrun. unfold ret in Hrun. simplify_eq. cbn.
    split; [unfold zlen in *; simpl in *; lia|done].
  - cbn [report_loop] in Hrun. unfold bind, zns_zone_report_cb in Hrun.
    cbn [zt_nr_zones zt_zones] in Hrun.
    destruct (nr <=? zlen done_) eqn:Hle; [done|]. guards.
    destruct rest as [|z0 rest]; [unfold zlen in *; simpl in *; lia|].
    unfold zlen in Hrun at 2. rewrite Nat2Z.id in Hrun.
    rewrite insert_app_r_alt, Nat.sub_diag in Hrun by lia. cbn in Hrun.
    change (_ :: rest) with ([zone_of_report (zlen done_) z] ++ rest) in Hrun.
    rewrite app_assoc in Hrun.
    replace (zlen done_ + 1) with (zlen (done_ ++ [zone_of_report (zlen done_) z]))
      in Hrun by (unfold zlen; rewrite length_app; simpl; lia).
    apply IH in Hrun as [Hb ->].
    + split; [unfold zlen in *; rewrite length_app in *; simpl in *; lia|].
      rewrite imap_cons, <- app_assoc. cbn. rewrite Z.add_0_r.
      do 3 f_equal. f_equal. apply imap_ext. intros k x _. cbn. f_equal.
      unfold zlen. rewrite length_app. cbn. lia.
    + unfold zlen in *. rewrite length_app. simpl in *. lia.
Qed.

(** A successful [zns_zone_table_init] stores, for every zone the device has,
    exactly what the device reported for it, under its index; a short report
    is an error. *)
Lemma table_init_ok w t w' :
  zns_zone_table_init w = (Ok t, w') ->
  let zs := fst (bdev_report (w_dev w) 0 (zt_nr_zones t)) in
  zt_nr_zones t = u32 (bdev_nr_zones (w_dev w)) /\ zt_nr_zones t <> 0 /\
  zlen zs = zt_nr_zones t /\
  zt_zones t = imap (fun k z => zone_of_report (Z.of_nat k) z) zs /\
  w_dev w' = w_dev w.
Proof.
  unfold zns_zone_table_init. cbv zeta.
  destruct (bdev_is_zoned (w_dev w)); [|done]. cbn [negb].
  destruct (u32 (bdev_nr_zones (w_dev w)) =? 0) eqn:Hnr; [done|]. guards.
  set (nr := u32 _) in *. unfold bind at 1, on_mem, zoom.
  destruct (kmalloc (w_mem w)) as [[[]|e] m']; [|done].
  unfold blkdev_report_zones.
  destruct (bdev_report (w_dev w) 0 nr) as [zs err] eqn:Hrep.
  unfold bind.
  destruct (report_loop zns_zone_report_cb zs 0 _) as [[[]|e] t'] eqn:Hrun; [|done].
  destruct (err =? 0); [|done]. unfold ret.
  destruct (zlen zs =? nr) eqn:Hz; [|done]. cbn. guards.
  intros [= -> <-].
  assert (Hu : is_u32 nr) by apply u32_range. unfold is_u32 in Hu.
  apply (report_loop_table zs [] (replicate (Z.to_nat nr) zone_zero)) in Hrun as [Hb ->].
  - cbn. rewrite Hrep. cbn. repeat split; [done..|].
    rewrite drop_ge, app_nil_r; [done|]. rewrite length_replicate. unfold zlen in *. lia.
  - unfold zlen. cbn. rewrite length_replicate. lia.
Qed.
End ZoneReportsCorrect.
