(* ===== verification/Allocator.v ===== *)
(** The physical append allocator: [src/zns-allocator.h] and
    [src/zns-allocator.c].  Linear mode hands out one growing range; zoned mode
    appends at the write pointer of the active zone, wraps around the zones and
    never touches the garbage-collection reserve.  The spinlock makes each
    operation atomic, so an operation is one function on the allocator. *)
From S2P Require Import Prelude Kernel Zone.

Inductive zns_allocator_mode : Type :=
| ZNS_ALLOCATOR_LINEAR
| ZNS_ALLOCATOR_ZONED.

#[export] Instance zns_allocator_mode_eq_dec : EqDecision zns_allocator_mode.
Proof. solve_decision. Defined.

Record zns_allocator : Type := mk_allocator {
  a_next_sector : Z;
  a_physical_sectors : Z;
  a_zones : list zns_zone;
  a_nr_zones : Z;
  a_active_zone : Z;
  a_reserve_zone : Z;
  a_sectors_per_block : Z;
  a_mode : zns_allocator_mode;
}.

Definition set_next_sector (s : Z) (a : zns_allocator) : zns_allocator :=
  mk_allocator s (a_physical_sectors a) (a_zones a) (a_nr_zones a) (a_active_zone a)
    (a_reserve_zone a) (a_sectors_per_block a) (a_mode a).
Definition set_active_zone (i : Z) (a : zns_allocator) : zns_allocator :=
  mk_allocator (a_next_sector a) (a_physical_sectors a) (a_zones a) (a_nr_zones a) i
    (a_reserve_zone a) (a_sectors_per_block a) (a_mode a).
Definition set_reserve_zone (i : Z) (a : zns_allocator) : zns_allocator :=
  mk_allocator (a_next_sector a) (a_physical_sectors a) (a_zones a) (a_nr_zones a)
    (a_active_zone a) i (a_sectors_per_block a) (a_mode a).
(** [allocator->zones[i] = z] *)
Definition put_zone (i : Z) (z : zns_zone) (a : zns_allocator) : zns_allocator :=
  mk_allocator (a_next_sector a) (a_physical_sectors a) (a_zones a).[i := z]
    (a_nr_zones a) (a_active_zone a) (a_reserve_zone a) (a_sectors_per_block a) (a_mode a).

Definition zns_allocator_reset : zns_allocator :=
  mk_allocator 0 0 [] 0 0 UINT_MAX 0 ZNS_ALLOCATOR_LINEAR.

Definition zns_allocator_init (physical_sectors sectors_per_block : Z)
    : result zns_allocator :=
  if (sectors_per_block =? 0) || negb (physical_sectors mod sectors_per_block =? 0)
  then Err (- EINVAL)
  else Ok (mk_allocator 0 physical_sectors [] 0 0 UINT_MAX sectors_per_block
             ZNS_ALLOCATOR_LINEAR).

Definition zns_zone_is_writable (zone : zns_zone) : bool :=
  negb (bool_decide (z_condition zone = BLK_ZONE_COND_FULL)) &&
  negb (bool_decide (z_condition zone = BLK_ZONE_COND_READONLY)) &&
  negb (bool_decide (z_condition zone = BLK_ZONE_COND_OFFLINE)).

Definition zns_zone_metadata_valid (zone : zns_zone) : bool :=
  if (z_length zone =? 0) || (z_length zone <? z_capacity zone) then false
  else if u64 (SECTOR_MAX - z_start_sector zone) <? z_capacity zone then false
  else if zns_zone_is_writable zone &&
          ((z_write_pointer zone <? z_start_sector zone) ||
           (u64 (z_start_sector zone + z_capacity zone) <? z_write_pointer zone))
  then false
  else true.

Definition zns_allocator_init_zoned (zones : list zns_zone) (nr_zones sectors_per_block : Z)
    : M mem zns_allocator :=
  if (nr_zones =? 0) || (sectors_per_block =? 0) then Prelude.fail (- EINVAL)
  else if negb (forallb zns_zone_metadata_valid (take (Z.to_nat nr_zones) zones))
  then Prelude.fail (- EINVAL)
  else
    kmalloc ;;;
    ret (mk_allocator 0 0 (take (Z.to_nat nr_zones) zones) nr_zones 0 UINT_MAX
           sectors_per_block ZNS_ALLOCATOR_ZONED).

Definition zns_allocator_exit (_ : zns_allocator) : zns_allocator := zns_allocator_reset.

(** The first zone that starts at [start]: the search loop of resync. *)
Fixpoint find_zone_at (start : Z) (zones : list zns_zone) (i : Z) : option Z :=
  match zones with
  | [] => None
  | z :: zs => if z_start_sector z =? start then Some i else find_zone_at start zs (i + 1)
  end.

Definition zns_allocator_resync (failed_sector : Z) (reported : zns_zone)
    : M zns_allocator unit := fun a =>
  let block := a_sectors_per_block a in
  let eio := (Err (- EIO), a) in
  if negb (bool_decide (a_mode a = ZNS_ALLOCATOR_ZONED)) || (block =? 0) then eio
  else match find_zone_at (z_start_sector reported) (a_zones a) 0 with
  | None => eio
  | Some zone_id =>
    let zone := (a_zones a).[zone_id] in
    if negb (z_length reported =? z_length zone) ||
       negb (z_capacity reported =? z_capacity zone) ||
       negb (zns_zone_metadata_valid reported) then eio
    else
    let end_ := u64 (z_start_sector zone + z_capacity zone) in
    if (failed_sector <? z_start_sector zone) || (end_ <? failed_sector) ||
       (u64 (end_ - failed_sector) <? block) ||
       negb (failed_sector mod block =? 0) ||
       negb (z_write_pointer zone =? u64 (failed_sector + block)) then eio
    else
    (* Only an unchanged WP or consumption of this one block is recoverable. *)
    if negb (z_write_pointer reported =? failed_sector) &&
       negb (z_write_pointer reported =? u64 (failed_sector + block)) then eio
    else
    let accepted :=
      match z_condition reported with
      | BLK_ZONE_COND_EMPTY => z_write_pointer reported =? z_start_sector zone
      | BLK_ZONE_COND_IMP_OPEN | BLK_ZONE_COND_EXP_OPEN | BLK_ZONE_COND_CLOSED => true
      | BLK_ZONE_COND_FULL => z_write_pointer reported =? end_
      | _ => false
      end in
    if negb accepted then eio
    else
    let zone' := set_active (z_active reported)
                   (set_condition (z_condition reported)
                      (set_write_pointer (z_write_pointer reported) zone)) in
    let a' := set_active_zone zone_id (put_zone zone_id zone' a) in
    if bool_decide (z_condition zone' = BLK_ZONE_COND_FULL) ||
       (u64 (end_ - z_write_pointer zone') <? block)
    then (Ok tt, set_active_zone (u32 (zone_id + 1)) a')
    else (Ok tt, a')
  end.

(** The scan over at most [n] zones, from the active one, wrapping around. *)
Fixpoint alloc_scan (n : nat) (a : zns_allocator) : result Z * zns_allocator :=
  match n with
  | O => (Err (- ENOSPC), a)
  | S n' =>
      let zone := (a_zones a).[a_active_zone a] in
      let zone_end := u64 (z_start_sector zone + z_capacity zone) in
      if negb (a_active_zone a =? a_reserve_zone a) &&
         zns_zone_can_append zone (a_sectors_per_block a)
      then
        let physical_sector := z_write_pointer zone in
        let zone' := set_write_pointer
                       (u64 (z_write_pointer zone + a_sectors_per_block a)) zone in
        let a' := put_zone (a_active_zone a) zone' a in
        if u64 (zone_end - z_write_pointer zone') <? a_sectors_per_block a
        then (Ok physical_sector, set_active_zone (u32 (a_active_zone a + 1)) a')
        else (Ok physical_sector, a')
      else alloc_scan n' (set_active_zone (u32 (a_active_zone a + 1) mod a_nr_zones a) a)
  end.

Definition zns_allocator_alloc_zoned : M zns_allocator Z := fun a =>
  let a := if a_nr_zones a <=? a_active_zone a then set_active_zone 0 a else a in
  alloc_scan (Z.to_nat (a_nr_zones a)) a.

Definition zns_allocator_set_reserve (zone : Z) : M zns_allocator unit := fun a =>
  if negb (bool_decide (a_mode a = ZNS_ALLOCATOR_ZONED)) || (a_nr_zones a <=? zone)
  then (Err (- EINVAL), a)
  else
    let z := (a_zones a).[zone] in
    if negb (zns_zone_is_writable z) ||
       (z_capacity z <? a_sectors_per_block a) ||
       negb (z_write_pointer z =? z_start_sector z)
    then (Err (- ENOSPC), a)
    else (Ok tt, set_reserve_zone zone a).

Definition zns_allocator_has_space (a : zns_allocator) : bool :=
  existsb (fun i => negb (i =? a_reserve_zone a) &&
                    zns_zone_can_append (a_zones a).[i] (a_sectors_per_block a))
          (seqZ 0 (a_nr_zones a)).

Definition zns_allocator_alloc_gc : M zns_allocator Z := fun a =>
  if a_nr_zones a <=? a_reserve_zone a then (Err (- EINVAL), a)
  else
    let z := (a_zones a).[a_reserve_zone a] in
    if negb (zns_zone_can_append z (a_sectors_per_block a)) then (Err (- ENOSPC), a)
    else
      (Ok (z_write_pointer z),
       put_zone (a_reserve_zone a)
         (set_write_pointer (u64 (z_write_pointer z + a_sectors_per_block a)) z) a).

Definition zns_allocator_set_reserve_after_reset (victim : Z) : M zns_allocator unit := fun a =>
  if (a_nr_zones a <=? victim) || (victim =? a_reserve_zone a) then (Err (- EINVAL), a)
  else
    let z := (a_zones a).[victim] in
    let z' := set_condition BLK_ZONE_COND_EMPTY (set_write_pointer (z_start_sector z) z) in
    (Ok tt, set_reserve_zone victim (put_zone victim z' a)).

Definition zns_allocator_alloc : M zns_allocator Z := fun a =>
  if bool_decide (a_mode a = ZNS_ALLOCATOR_ZONED) then zns_allocator_alloc_zoned a
  else if (a_physical_sectors a <? a_next_sector a) ||
          (u64 (a_physical_sectors a - a_next_sector a) <? a_sectors_per_block a)
  then (Err (- ENOSPC), a)
  else (Ok (a_next_sector a),
        set_next_sector (u64 (a_next_sector a + a_sectors_per_block a)) a).

(** ** Well-formed allocators *)

(** What [zns_zone_metadata_valid] guarantees, without the wrap-around. *)
Record zone_wf (z : zns_zone) : Prop := {
  zwf_start : 0 <= z_start_sector z;
  zwf_capacity : 0 <= z_capacity z <= z_length z;
  zwf_end : z_start_sector z + z_capacity z < 18446744073709551616;
  zwf_wp : is_u64 (z_write_pointer z);
  zwf_writable : zns_zone_is_writable z = true ->
    z_start_sector z <= z_write_pointer z <= z_start_sector z + z_capacity z;
}.

(** The fields of a zone are in the range of their C types. *)
Definition zone_u64 (z : zns_zone) : Prop :=
  is_u64 (z_start_sector z) /\ is_u64 (z_length z) /\
  is_u64 (z_capacity z) /\ is_u64 (z_write_pointer z).

Record alloc_wf (a : zns_allocator) : Prop := {
  awf_mode : a_mode a = ZNS_ALLOCATOR_ZONED;
  awf_nr : a_nr_zones a = zlen (a_zones a);
  awf_nr_range : 0 < a_nr_zones a < 4294967296;
  awf_block : 0 < a_sectors_per_block a < 18446744073709551616;
  awf_active : 0 <= a_active_zone a <= a_nr_zones a;
  awf_reserve : is_u32 (a_reserve_zone a);
  awf_zones : Forall zone_wf (a_zones a);
}.

(** A zone ordinary allocation may append to. *)
Definition suitable (a : zns_allocator) (i : Z) : bool :=
  negb (i =? a_reserve_zone a) &&
  zns_zone_can_append (a_zones a).[i] (a_sectors_per_block a).

(** Appending one block to a zone. *)
Definition append_block (spb : Z) (z : zns_zone) : zns_zone :=
  set_write_pointer (u64 (z_write_pointer z + spb)) z.

(** The allocator after one block was handed out from zone [i]. *)
Definition allocated_from (i : Z) (a : zns_allocator) : zns_allocator :=
  let zone := (a_zones a).[i] in
  let zone' := append_block (a_sectors_per_block a) zone in
  let a' := put_zone i zone' (set_active_zone i a) in
  if u64 (zone_end zone - z_write_pointer zone') <? a_sectors_per_block a
  then set_active_zone (u32 (i + 1)) a' else a'.

Lemma metadata_valid_wf z :
  zone_u64 z -> zns_zone_metadata_valid z = true -> zone_wf z.
Proof.
  unfold zone_u64, is_u64, zns_zone_metadata_valid, SECTOR_MAX. intros Hr Hv.
  repeat (step_if; [done|]). guards. unwrap.
  constructor; unfold is_u64; try lia.
  intros Hw. rewrite Hw in *. cbn in *. guards. unwrap. lia.
Qed.

Lemma zone_end_wf z : zone_wf z -> zone_end z = z_start_sector z + z_capacity z.
Proof. intros []. unfold zone_end. by unwrap. Qed.

Lemma can_append_iff z spb :
  zone_wf z -> 0 <= spb ->
  zns_zone_can_append z spb = true <->
  zns_zone_is_writable z = true /\
  z_write_pointer z + spb <= z_start_sector z + z_capacity z.
Proof.
  intros Hwf Hs.
  change (zns_zone_can_append z spb) with
    (zns_zone_is_writable z && (z_write_pointer z <=? zone_end z) &&
     (spb <=? u64 (zone_end z - z_write_pointer z))).
  rewrite (zone_end_wf z Hwf). destruct Hwf as [? ? ? Hwp Hw]. unfold is_u64 in Hwp.
  split; intros Ha.
  - guards. specialize (Hw ltac:(done)). unwrap. split; [done|lia].
  - destruct Ha as [Hwr Hle]. rewrite Hwr. cbn.
    apply andb_true_iff. split; apply Z.leb_le; [lia|]. unwrap. lia.
Qed.

(** Appending a block keeps a zone well formed. *)
Lemma append_block_wf z spb :
  zone_wf z -> 0 <= spb -> zns_zone_can_append z spb = true ->
  zone_wf (append_block spb z) /\
  z_write_pointer (append_block spb z) = z_write_pointer z + spb.
Proof.
  intros Hwf Hs Ha. apply can_append_iff in Ha as [Hw Hle]; [|done..].
  destruct Hwf as [? ? ? Hwp Hr]. specialize (Hr Hw). unfold is_u64 in Hwp.
  unfold append_block, set_write_pointer. cbn. unwrap. split; [|done].
  constructor; unfold is_u64; cbn; lia.
Qed.

Lemma alloc_wf_zone a i :
  alloc_wf a -> 0 <= i < a_nr_zones a -> zone_wf (a_zones a).[i].
Proof. intros [] Hi. apply zForall_lookup; [done|lia]. Qed.

(** Replacing a zone and moving the cursors keeps the allocator well formed. *)
Lemma put_zone_wf a i z :
  alloc_wf a -> zone_wf z -> alloc_wf (put_zone i z a).
Proof.
  intros [] Hz. constructor; cbn; rewrite ?zlen_update; try done.
  by apply Forall_insert.
Qed.

Lemma set_active_zone_wf a i :
  alloc_wf a -> 0 <= i <= a_nr_zones a -> alloc_wf (set_active_zone i a).
Proof. intros [] Hi. constructor; cbn; try done; lia. Qed.

Lemma set_reserve_zone_wf a i :
  alloc_wf a -> 0 <= i < a_nr_zones a -> alloc_wf (set_reserve_zone i a).
Proof. intros [] Hi. constructor; cbn; try done. unfold is_u32. lia. Qed.

#[export] Hint Resolve put_zone_wf set_active_zone_wf set_reserve_zone_wf : zns.

Lemma allocated_from_wf a i :
  alloc_wf a -> 0 <= i < a_nr_zones a -> suitable a i = true ->
  alloc_wf (allocated_from i a).
Proof.
  intros Hwf Hi Hs. unfold suitable in Hs. guards.
  pose proof (awf_block a Hwf). pose proof (awf_nr_range a Hwf).
  destruct (append_block_wf (a_zones a).[i] (a_sectors_per_block a)) as [Hz _];
    [by apply alloc_wf_zone|lia|done|].
  assert (Ha : alloc_wf (put_zone i (append_block (a_sectors_per_block a) (a_zones a).[i])
                           (set_active_zone i a))).
  { apply put_zone_wf; [|done]. apply set_active_zone_wf; [done|lia]. }
  unfold allocated_from. step_if; [|done].
  apply set_active_zone_wf; [done|]. cbn. unwrap. lia.
Qed.

(** ** The scan *)

(** The [k]-th zone the scan looks at. *)
Definition scan_index (a : zns_allocator) (k : Z) : Z :=
  (a_active_zone a + k) mod a_nr_zones a.

Lemma scan_index_range a k : 0 < a_nr_zones a -> 0 <= scan_index a k < a_nr_zones a.
Proof. intros. apply Z.mod_pos_bound. lia. Qed.

(** Every zone is looked at within one turn. *)
Lemma scan_index_covers a i :
  0 < a_nr_zones a -> 0 <= a_active_zone a -> 0 <= i < a_nr_zones a ->
  exists k, 0 <= k < a_nr_zones a /\ scan_index a k = i.
Proof.
  intros Hn Ha Hi. exists ((i - a_active_zone a) mod a_nr_zones a).
  split; [by apply Z.mod_pos_bound|]. unfold scan_index.
  rewrite Zplus_mod_idemp_r. replace (_ + _) with i by lia. by apply Z.mod_small.
Qed.

Lemma scan_index_next a k :
  0 < a_nr_zones a < 4294967296 -> 0 <= a_active_zone a < a_nr_zones a ->
  scan_index (set_active_zone (u32 (a_active_zone a + 1) mod a_nr_zones a) a) k
  = scan_index a (k + 1).
Proof.
  intros Hn Ha. unfold scan_index. cbn. unwrap.
  rewrite Zplus_mod_idemp_l. f_equal. lia.
Qed.

Lemma alloc_scan_spec n a :
  0 < a_nr_zones a < 4294967296 -> 0 <= a_active_zone a < a_nr_zones a ->
  (exists k, 0 <= k < Z.of_nat n /\
     suitable a (scan_index a k) = true /\
     (forall j, 0 <= j < k -> suitable a (scan_index a j) = false) /\
     alloc_scan n a = (Ok (z_write_pointer (a_zones a).[scan_index a k]),
                       allocated_from (scan_index a k) a))
  \/ ((forall j, 0 <= j < Z.of_nat n -> suitable a (scan_index a j) = false) /\
      exists i, 0 <= i < a_nr_zones a /\
        alloc_scan n a = (Err (- ENOSPC), set_active_zone i a)).
Proof.
  revert a. induction n as [|n IH]; intros a Hn Ha.
  - right. split; [lia|]. exists (a_active_zone a). split; [lia|]. by destruct a.
  - assert (H0 : scan_index a 0 = a_active_zone a).
    { unfold scan_index. rewrite Z.add_0_r. apply Z.mod_small. lia. }
    destruct (suitable a (a_active_zone a)) eqn:Hs.
    + left. exists 0. rewrite H0. split; [lia|]. split; [done|]. split; [intros; lia|].
      cbn [alloc_scan]. fold (suitable a (a_active_zone a)). rewrite Hs.
      unfold allocated_from, append_block, zone_end. cbn.
      by step_if; destruct a.
    + set (a1 := set_active_zone (u32 (a_active_zone a + 1) mod a_nr_zones a) a).
      assert (Hstep : alloc_scan (S n) a = alloc_scan n a1).
      { cbn [alloc_scan]. fold (suitable a (a_active_zone a)). by rewrite Hs. }
      assert (Hnext : forall j, scan_index a1 j = scan_index a (j + 1)).
      { intros j. by apply scan_index_next. }
      destruct (IH a1) as [(k & Hk & Hks & Hbefore & Hrun)|(Hnone & i & Hi & Hrun)].
      * cbn. lia.
      * cbn. apply Z.mod_pos_bound. lia.
      * left. exists (k + 1). rewrite Hstep, Hrun. rewrite <- Hnext. split; [lia|].
        split; [exact Hks|]. split; [|done]. intros j Hj.
        destruct (decide (j = 0)) as [->|]; [by rewrite H0|].
        replace j with ((j - 1) + 1) by lia. rewrite <- Hnext. apply (Hbefore (j - 1)). lia.
      * right. split; [|exists i; rewrite Hstep, Hrun; done].
        intros j Hj. destruct (decide (j = 0)) as [->|]; [by rewrite H0|].
        replace j with ((j - 1) + 1) by lia. rewrite <- Hnext. apply (Hnone (j - 1)). lia.
Qed.

(** The active zone after the reset at the start of an allocation. *)
Lemma alloc_zoned_spec a :
  alloc_wf a ->
  (exists i, 0 <= i < a_nr_zones a /\ suitable a i = true /\
     zns_allocator_alloc a = (Ok (z_write_pointer (a_zones a).[i]), allocated_from i a))
  \/ ((forall i, 0 <= i < a_nr_zones a -> suitable a i = false) /\
      exists i, 0 <= i < a_nr_zones a /\
        zns_allocator_alloc a = (Err (- ENOSPC), set_active_zone i a)).
Proof.
  intros [Hm Hl Hn _ Ha _ _]. unfold zns_allocator_alloc.
  rewrite bool_decide_eq_true_2 by done. unfold zns_allocator_alloc_zoned.
  set (a0 := if a_nr_zones a <=? a_active_zone a then set_active_zone 0 a else a).
  assert (Hsame : a_nr_zones a0 = a_nr_zones a /\ 0 <= a_active_zone a0 < a_nr_zones a /\
    (forall i, suitable a0 i = suitable a i) /\ a_zones a0 = a_zones a /\
    (forall i, allocated_from i a0 = allocated_from i a) /\
    (forall i, set_active_zone i a0 = set_active_zone i a)).
  { subst a0. step_if; guards; cbn; repeat split; lia || done. }
  clearbody a0. destruct Hsame as (Hn0 & Ha0 & Hs0 & Hz0 & Hf0 & Hact).
  rewrite <- Hn0 in Hn |- *. rewrite <- Hn0 in Ha0.
  destruct (alloc_scan_spec (Z.to_nat (a_nr_zones a0)) a0)
    as [(k & Hk & Hs & _ & Hrun)|(Hnone & i & Hi & Hrun)]; [done..|lia| |].
  - left. exists (scan_index a0 k). rewrite <- Hs0, <- Hf0, <- Hz0.
    split; [apply scan_index_range; lia|done].
  - right. split; [|exists i; by rewrite <- Hact].
    intros j Hj. rewrite <- Hs0.
    destruct (scan_index_covers a0 j) as (k & Hk & <-); [lia..|].
    apply Hnone. lia.
Qed.

(** ** Properties of the operations *)

Lemma has_space_iff a :
  zns_allocator_has_space a = true <-> exists i, 0 <= i < a_nr_zones a /\ suitable a i = true.
Proof.
  unfold zns_allocator_has_space. rewrite existsb_exists. split.
  - intros (i & Hi & Hs). rewrite <- list_elem_of_In, elem_of_seqZ in Hi.
    exists i. split; [lia|done].
  - intros (i & Hi & Hs). exists i. rewrite <- list_elem_of_In, elem_of_seqZ.
    split; [lia|done].
Qed.

(** C21.  [zns_allocator_has_space] decides exactly whether the next allocation
    succeeds: however the zones are filled and wherever the active zone stands,
    the wrapping scan finds a zone if and only if one exists, and the only error
    is [-ENOSPC]. *)
Theorem alloc_succeeds_iff_has_space a :
  alloc_wf a ->
  is_ok (fst (zns_allocator_alloc a)) = zns_allocator_has_space a /\
  (zns_allocator_has_space a = false -> fst (zns_allocator_alloc a) = Err (- ENOSPC)).
Proof.
  intros Hwf. destruct (alloc_zoned_spec a Hwf) as [(i & Hi & Hs & ->)|(Hnone & i & Hi & ->)].
  - assert (Hsp : zns_allocator_has_space a = true) by (apply has_space_iff; eauto).
    by rewrite Hsp.
  - destruct (zns_allocator_has_space a) eqn:Hsp; [|done].
    apply has_space_iff in Hsp as (j & Hj & Hs). rewrite Hnone in Hs; done.
Qed.

Lemma a_zones_allocated_from i a :
  a_zones (allocated_from i a) =
  (a_zones a).[i := append_block (a_sectors_per_block a) (a_zones a).[i]].
Proof. unfold allocated_from. by step_if. Qed.

Lemma allocated_from_fields i a :
  a_nr_zones (allocated_from i a) = a_nr_zones a /\
  a_reserve_zone (allocated_from i a) = a_reserve_zone a /\
  a_sectors_per_block (allocated_from i a) = a_sectors_per_block a /\
  a_mode (allocated_from i a) = a_mode a.
Proof. unfold allocated_from. by step_if. Qed.

(** One block handed out by an operation: from the write pointer of a writable
    zone, whole inside its capacity, and the write pointer moves behind it. *)
Record handed_out (a : zns_allocator) (p i : Z) (a' : zns_allocator) : Prop := {
  ho_zone : 0 <= i < a_nr_zones a;
  ho_writable : zns_zone_is_writable (a_zones a).[i] = true;
  ho_sector : p = z_write_pointer (a_zones a).[i];
  ho_start : z_start_sector (a_zones a).[i] <= p;
  ho_end : p + a_sectors_per_block a <=
    z_start_sector (a_zones a).[i] + z_capacity (a_zones a).[i];
  ho_zones : a_zones a' =
    (a_zones a).[i := set_write_pointer (p + a_sectors_per_block a) (a_zones a).[i]];
  ho_nr : a_nr_zones a' = a_nr_zones a;
  ho_reserve : a_reserve_zone a' = a_reserve_zone a;
  ho_block : a_sectors_per_block a' = a_sectors_per_block a;
  ho_wf : alloc_wf a';
}.

Lemma handed_out_intro a i a' :
  alloc_wf a -> 0 <= i < a_nr_zones a ->
  zns_zone_can_append (a_zones a).[i] (a_sectors_per_block a) = true ->
  a_zones a' = (a_zones a).[i := append_block (a_sectors_per_block a) (a_zones a).[i]] ->
  a_nr_zones a' = a_nr_zones a -> a_reserve_zone a' = a_reserve_zone a ->
  a_sectors_per_block a' = a_sectors_per_block a -> alloc_wf a' ->
  handed_out a (z_write_pointer (a_zones a).[i]) i a'.
Proof.
  intros Hwf Hi Hap Hz Hn Hr Hb Hwf'.
  pose proof (alloc_wf_zone a i Hwf Hi) as Hzone. pose proof (awf_block a Hwf).
  destruct (append_block_wf _ (a_sectors_per_block a) Hzone ltac:(lia) Hap) as [_ Hwp].
  apply can_append_iff in Hap as [Hw Hle]; [|done|lia].
  destruct (zwf_writable _ Hzone Hw). constructor; try done.
  rewrite Hz, <- Hwp. done.
Qed.

Lemma alloc_handed_out a p a' :
  alloc_wf a -> zns_allocator_alloc a = (Ok p, a') ->
  exists i, i <> a_reserve_zone a /\ handed_out a p i a'.
Proof.
  intros Hwf Hrun.
  destruct (alloc_zoned_spec a Hwf) as [(i & Hi & Hs & Hrun')|(Hnone & i & Hi & Hrun')];
    rewrite Hrun' in Hrun; [|done]. simplify_eq.
  pose proof (allocated_from_wf a i Hwf Hi Hs). unfold suitable in Hs. guards.
  exists i. split; [done|].
  destruct (allocated_from_fields i a) as (? & ? & ? & _).
  apply handed_out_intro; try done. apply a_zones_allocated_from.
Qed.

Lemma alloc_fail_same a e a' :
  alloc_wf a -> zns_allocator_alloc a = (Err e, a') ->
  exists i, 0 <= i < a_nr_zones a /\ a' = set_active_zone i a.
Proof.
  intros Hwf Hrun.
  destruct (alloc_zoned_spec a Hwf) as [(i & Hi & Hs & Hrun')|(Hnone & i & Hi & Hrun')];
    rewrite Hrun' in Hrun; [done|]. simplify_eq. eauto.
Qed.

Lemma alloc_gc_cases a :
  alloc_wf a ->
  match zns_allocator_alloc_gc a with
  | (Ok p, a') => handed_out a p (a_reserve_zone a) a' /\
                  a_active_zone a' = a_active_zone a
  | (Err e, a') =>
      a' = a /\
      (if a_nr_zones a <=? a_reserve_zone a then e = - EINVAL
       else e = - ENOSPC /\
            zns_zone_can_append (a_zones a).[a_reserve_zone a] (a_sectors_per_block a) = false)
  end.
Proof.
  intros Hwf. unfold zns_allocator_alloc_gc.
  destruct (a_nr_zones a <=? a_reserve_zone a) eqn:Hr; [done|].
  destruct (zns_zone_can_append _ _) eqn:Hap; cbn [negb]; [|done]. guards.
  pose proof (awf_reserve a Hwf) as Hru. unfold is_u32 in Hru.
  split; [|done]. apply handed_out_intro; try done; [lia|].
  apply put_zone_wf; [done|]. eapply append_block_wf; [|pose proof (awf_block a Hwf); lia|done].
  apply alloc_wf_zone; [done|lia].
Qed.

(** C23.  A successful allocation returns a whole, block-sized range at the write
    pointer of a writable zone other than the reserve, inside the zone's
    capacity; it moves that write pointer behind the block and changes nothing
    else but the active zone.  A failing one leaves every zone as it was. *)
Theorem alloc_hands_out_block a r a' :
  alloc_wf a -> zns_allocator_alloc a = (r, a') ->
  match r with
  | Ok p => exists i, i <> a_reserve_zone a /\ handed_out a p i a'
  | Err _ => a_zones a' = a_zones a /\ a_reserve_zone a' = a_reserve_zone a /\ alloc_wf a'
  end.
Proof.
  intros Hwf Hrun. destruct r as [p|e]; [by apply alloc_handed_out|].
  apply alloc_fail_same in Hrun as (i & Hi & ->); [|done].
  split; [done|]. split; [done|]. apply set_active_zone_wf; [done|lia].
Qed.

(** C24.  A garbage-collection allocation takes its block from the reserve zone
    and from nowhere else; it fails with [-EINVAL] when no reserve was selected
    and with [-ENOSPC] when the reserve is full, and then changes nothing. *)
Theorem alloc_gc_only_reserve a r a' :
  alloc_wf a -> zns_allocator_alloc_gc a = (r, a') ->
  match r with
  | Ok p => handed_out a p (a_reserve_zone a) a' /\ a_active_zone a' = a_active_zone a
  | Err e =>
      a' = a /\
      (if a_nr_zones a <=? a_reserve_zone a then e = - EINVAL
       else e = - ENOSPC /\
            zns_zone_can_append (a_zones a).[a_reserve_zone a] (a_sectors_per_block a) = false)
  end.
Proof.
  intros Hwf Hrun. pose proof (alloc_gc_cases a Hwf) as Hc. by rewrite Hrun in Hc.
Qed.

Lemma set_reserve_cases zone a :
  (zns_allocator_set_reserve zone a = (Ok tt, set_reserve_zone zone a) /\
    zone < a_nr_zones a /\
    zns_zone_is_writable (a_zones a).[zone] = true /\
    a_sectors_per_block a <= z_capacity (a_zones a).[zone] /\
    z_write_pointer (a_zones a).[zone] = z_start_sector (a_zones a).[zone])
  \/ exists e, zns_allocator_set_reserve zone a = (Err e, a).
Proof.
  unfold zns_allocator_set_reserve.
  destruct (_ || (a_nr_zones a <=? zone)) eqn:E1; [right; eauto|].
  destruct (negb (zns_zone_is_writable _) || _ || _) eqn:E2; [right; eauto|].
  left. guards. done.
Qed.

(** ** Runs of the allocator

    The operations that hand out blocks or move the reserve, in any order. *)

Inductive alloc_op : Type :=
| OpAlloc
| OpAllocGc
| OpSetReserve (zone : Z).

Definition run_alloc_op (o : alloc_op) : M zns_allocator (option Z) :=
  match o with
  | OpAlloc => p <- zns_allocator_alloc ;; ret (Some p)
  | OpAllocGc => p <- zns_allocator_alloc_gc ;; ret (Some p)
  | OpSetReserve z => zns_allocator_set_reserve (u32 z) ;;; ret None
  end.

(** The sectors handed out along a run, oldest first. *)
Fixpoint run_allocs (ops : list alloc_op) (a : zns_allocator) : list Z * zns_allocator :=
  match ops with
  | [] => ([], a)
  | o :: ops' =>
      let '(r, a') := run_alloc_op o a in
      let '(ps, a'') := run_allocs ops' a' in
      (match r with Ok (Some p) => p :: ps | _ => ps end, a'')
  end.

(** The zones do not overlap. *)
Definition zones_disjoint (zs : list zns_zone) : Prop :=
  forall i j, 0 <= i < zlen zs -> 0 <= j < zlen zs -> i <> j ->
    z_start_sector zs.[i] + z_capacity zs.[i] <= z_start_sector zs.[j] \/
    z_start_sector zs.[j] + z_capacity zs.[j] <= z_start_sector zs.[i].

(** What a run keeps: geometry and size, and write pointers only grow. *)
Record alloc_grows (a a' : zns_allocator) : Prop := {
  ag_wf : alloc_wf a';
  ag_len : zlen (a_zones a') = zlen (a_zones a);
  ag_block : a_sectors_per_block a' = a_sectors_per_block a;
  ag_zone : forall i, 0 <= i < zlen (a_zones a) ->
    z_start_sector (a_zones a').[i] = z_start_sector (a_zones a).[i] /\
    z_capacity (a_zones a').[i] = z_capacity (a_zones a).[i] /\
    z_write_pointer (a_zones a).[i] <= z_write_pointer (a_zones a').[i];
}.

Lemma alloc_grows_refl a : alloc_wf a -> alloc_grows a a.
Proof. by constructor. Qed.

Lemma alloc_grows_trans a b c : alloc_grows a b -> alloc_grows b c -> alloc_grows a c.
Proof.
  intros [] []. constructor; [done|congruence|congruence|]. intros i Hi.
  destruct (ag_zone0 i Hi) as (? & ? & ?).
  destruct (ag_zone1 i ltac:(lia)) as (? & ? & ?). split; [congruence|]. split; [congruence|lia].
Qed.

(** A block inside the written part of some zone. *)
Definition block_written (a : zns_allocator) (i p : Z) : Prop :=
  0 <= i < zlen (a_zones a) /\
  z_start_sector (a_zones a).[i] <= p /\
  p + a_sectors_per_block a <= z_write_pointer (a_zones a).[i] /\
  p + a_sectors_per_block a <= z_start_sector (a_zones a).[i] + z_capacity (a_zones a).[i].

Lemma block_written_grows a a' i p :
  alloc_grows a a' -> block_written a i p -> block_written a' i p.
Proof.
  intros [] (Hi & ? & ? & ?). destruct (ag_zone0 i Hi) as (? & ? & ?).
  unfold block_written. rewrite ag_block0, ag_len0. repeat split; lia.
Qed.

Lemma handed_out_grows a p i a' :
  alloc_wf a -> handed_out a p i a' ->
  alloc_grows a a' /\ block_written a' i p /\ z_write_pointer (a_zones a).[i] = p.
Proof.
  intros Hwf []. pose proof (awf_block a Hwf). pose proof (awf_nr a Hwf) as Hnr.
  assert (Hlen : zlen (a_zones a') = zlen (a_zones a)) by (rewrite ho_zones0; apply zlen_update).
  assert (Hz : forall k, 0 <= k -> (a_zones a').[k] =
    if bool_decide (i = k) then set_write_pointer (p + a_sectors_per_block a) (a_zones a).[i]
    else (a_zones a).[k]).
  { intros k Hk. rewrite ho_zones0. apply zupdate_lookup; lia. }
  split; [|split; [|done]].
  - constructor; try done. intros k Hk. rewrite Hz by lia. case_bool_decide; subst; cbn; lia.
  - unfold block_written. rewrite Hlen, ho_block0, Hz by lia.
    rewrite bool_decide_eq_true_2 by done. cbn. lia.
Qed.

(** One operation: the written part grows, and a block it hands out starts at
    the write pointer of its zone. *)
Lemma run_alloc_op_grows o a :
  alloc_wf a ->
  let '(r, a') := run_alloc_op o a in
  alloc_grows a a' /\
  match r with
  | Ok (Some p) => exists i, block_written a' i p /\ z_write_pointer (a_zones a).[i] = p
  | _ => True
  end.
Proof.
  intros Hwf. destruct o as [| |z]; cbn; unfold bind, ret.
  - destruct (zns_allocator_alloc a) as [[p|e] a'] eqn:Hrun.
    + apply alloc_handed_out in Hrun as (i & _ & Hh); [|done].
      apply handed_out_grows in Hh as (? & ? & ?); [eauto|done].
    + apply alloc_fail_same in Hrun as (i & Hi & ->); [|done]. split; [|done].
      constructor; try done; apply set_active_zone_wf; [done|lia].
  - pose proof (alloc_gc_cases a Hwf) as Hc.
    destruct (zns_allocator_alloc_gc a) as [[p|e] a'].
    + destruct Hc as [Hh _]. apply handed_out_grows in Hh as (? & ? & ?); [eauto|done].
    + destruct Hc as [-> _]. split; [by apply alloc_grows_refl|done].
  - pose proof (u32_range z) as Hz. unfold is_u32 in Hz.
    destruct (set_reserve_cases (u32 z) a) as [(-> & Hlt & _)|(e & ->)];
      (split; [|done]); [|by apply alloc_grows_refl].
    constructor; try done. apply set_reserve_zone_wf; [done|lia].
Qed.

Lemma run_allocs_written ops a :
  alloc_wf a ->
  let '(ps, a') := run_allocs ops a in
  alloc_grows a a' /\
  forall p, p ∈ ps -> exists i, block_written a' i p /\ z_write_pointer (a_zones a).[i] <= p.
Proof.
  revert a. induction ops as [|o ops IH]; intros a Hwf; cbn [run_allocs].
  - split; [by apply alloc_grows_refl|]. intros p Hp. by apply elem_of_nil in Hp.
  - pose proof (run_alloc_op_grows o a Hwf) as Hop. destruct (run_alloc_op o a) as [r a1].
    destruct Hop as [Hg Hp]. specialize (IH a1 (ag_wf _ _ Hg)).
    destruct (run_allocs ops a1) as [ps a']. destruct IH as [Hg' Hps].
    split; [by eapply alloc_grows_trans|].
    assert (Hold : forall p, p ∈ ps -> exists i, block_written a' i p /\
      z_write_pointer (a_zones a).[i] <= p).
    { intros p Hin. destruct (Hps p Hin) as (i & Hw & Hle). exists i. split; [done|].
      destruct Hw as (Hi & _). destruct (ag_zone _ _ Hg i) as (_ & _ & ?); [|lia].
      pose proof (ag_len _ _ Hg). pose proof (ag_len _ _ Hg'). lia. }
    destruct r as [[p|]|e]; [|done..].
    intros q [->|Hq]%elem_of_cons; [|by apply Hold].
    destruct Hp as (i & Hw & Hwp). exists i. split; [by eapply block_written_grows|lia].
Qed.

(** Blocks of different positions in a run do not overlap. *)
Definition no_overlap (b : Z) (ps : list Z) : Prop :=
  forall i j p q, ps !! i = Some p -> ps !! j = Some q -> (i < j)%nat ->
    p + b <= q \/ q + b <= p.

Lemma zones_disjoint_grows a a' :
  alloc_grows a a' -> zones_disjoint (a_zones a) -> zones_disjoint (a_zones a').
Proof.
  intros [] Hd i j Hi Hj Hij. rewrite ag_len0 in *.
  destruct (ag_zone0 i Hi) as (-> & -> & _). destruct (ag_zone0 j Hj) as (-> & -> & _).
  by apply Hd.
Qed.

(** C22.  Over any run of ordinary allocations, garbage-collection allocations and
    changes of the reserve, the blocks handed out never overlap: no sector is
    given away twice before a zone is reset. *)
Theorem run_allocs_no_overlap ops a :
  alloc_wf a -> zones_disjoint (a_zones a) ->
  no_overlap (a_sectors_per_block a) (fst (run_allocs ops a)).
Proof.
  revert a. induction ops as [|o ops IH]; intros a Hwf Hd; cbn [run_allocs fst].
  { intros ? ? ? ? H. by rewrite lookup_nil in H. }
  pose proof (run_alloc_op_grows o a Hwf) as Hop. destruct (run_alloc_op o a) as [r a1].
  destruct Hop as [Hg Hp]. pose proof (ag_wf _ _ Hg) as Hwf1.
  pose proof (zones_disjoint_grows _ _ Hg Hd) as Hd1.
  specialize (IH a1 Hwf1 Hd1). rewrite (ag_block _ _ Hg) in IH.
  pose proof (run_allocs_written ops a1 Hwf1) as Hwr.
  destruct (run_allocs ops a1) as [ps a']. destruct Hwr as [Hg' Hps]. cbn [fst] in *.
  destruct r as [[p|]|e]; [|done..]. destruct Hp as (i & Hw & _). cbn.
  intros [|k] [|l] x y Hx Hy Hkl; [lia| |lia|apply (IH k l); [done..|lia]].
  cbn in Hx, Hy. simplify_eq.
  destruct (Hps y ltac:(by eapply list_elem_of_lookup_2)) as (j & Hwj & Hle).
  destruct Hw as (Hi & Hs & Hwp & He). destruct Hwj as (Hj & Hsj & _ & Hej).
  rewrite (ag_block _ _ Hg) in Hwp, He.
  rewrite (ag_block _ _ Hg'), (ag_block _ _ Hg) in Hej.
  rewrite (ag_len _ _ Hg') in Hj.
  destruct (ag_zone _ _ Hg' j Hj) as (Hsj' & Hcj' & _). rewrite Hsj' in Hsj.
  rewrite Hsj', Hcj' in Hej.
  destruct (decide (i = j)) as [->|Hij]; [lia|].
  destruct (Hd1 i j Hi Hj Hij); lia.
Qed.

(** ** Recovery of the write pointer after a failed write *)

Lemma find_zone_at_spec start zs i :
  match find_zone_at start zs i with
  | Some k => exists n, k = i + Z.of_nat n /\ (n < length zs)%nat /\
                z_start_sector (zs !!! n) = start
  | None => forall z, z ∈ zs -> z_start_sector z <> start
  end.
Proof.
  revert i. induction zs as [|z zs IH]; intros i; cbn [find_zone_at].
  { intros z Hz. by apply elem_of_nil in Hz. }
  destruct (z_start_sector z =? start) eqn:Hs; guards.
  { exists 0%nat. cbn. repeat split; [lia|lia|done]. }
  specialize (IH (i + 1)). destruct (find_zone_at start zs (i + 1)) as [k|].
  - destruct IH as (n & -> & Hn & Hst). exists (S n). cbn. repeat split; [lia|lia|done].
  - intros y [->|Hy]%elem_of_cons; [done|by apply IH].
Qed.

Lemma find_zone_at_distinct a i :
  alloc_wf a -> zones_disjoint (a_zones a) -> 0 <= i < a_nr_zones a ->
  0 < z_capacity (a_zones a).[i] ->
  (forall j, 0 <= j < a_nr_zones a -> 0 < z_capacity (a_zones a).[j]) ->
  find_zone_at (z_start_sector (a_zones a).[i]) (a_zones a) 0 = Some i.
Proof.
  intros Hwf Hd Hi Hc Hpos. pose proof (awf_nr a Hwf) as Hnr.
  pose proof (find_zone_at_spec (z_start_sector (a_zones a).[i]) (a_zones a) 0) as Hf.
  destruct (find_zone_at _ _ _) as [k|].
  - destruct Hf as (n & -> & Hn & Hs). f_equal.
    destruct (decide (0 + Z.of_nat n = i)) as [|Hne]; [done|]. exfalso.
    unfold zlen in Hnr. specialize (Hpos (Z.of_nat n) ltac:(lia)).
    destruct (Hd (Z.of_nat n) i) as [H|H]; unfold zlen; [lia..| |];
      rewrite Nat2Z.id in *; lia.
  - exfalso. apply (Hf (a_zones a).[i]); [|done].
    eapply list_elem_of_lookup_2, zlookup_lt. lia.
Qed.

(** A single-zone report is in range. *)
Lemma report_one_u64 `{BlockDeviceLaws} d sector z :
  zns_zone_report_one d sector = Ok z -> zone_u64 z.
Proof.
  unfold zns_zone_report_one, blkdev_report_zones.
  pose proof (dev_report_range d sector 1) as Hr.
  destruct (bdev_report d sector 1) as [zs err]. cbn [fst] in Hr.
  destruct zs as [|z0 [|z1 zs]]; cbn.
  - by destruct (err =? 0).
  - specialize (Hr z0 ltac:(apply list_elem_of_singleton; done)). unfold bind, zns_zone_report_one_cb. cbn.
    destruct (negb _); [done|]. destruct (err =? 0); [|done]. cbn. intros [= <-]. done.
  - unfold bind, zns_zone_report_one_cb. cbn. by destruct (negb _).
Qed.

(** The zone a successful resync leaves behind. *)
Definition resynced (reported zone : zns_zone) : zns_zone :=
  set_active (z_active reported)
    (set_condition (z_condition reported)
       (set_write_pointer (z_write_pointer reported) zone)).

Lemma resynced_wf reported zone :
  zone_wf zone -> zone_wf reported ->
  z_start_sector reported = z_start_sector zone ->
  z_capacity reported = z_capacity zone ->
  zone_wf (resynced reported zone).
Proof. intros [] [] Hs Hc. constructor; cbn; try done. rewrite <- Hs, <- Hc. done. Qed.

(** What an accepted report changes. *)
Lemma resync_cases a failed reported r a' :
  alloc_wf a -> zone_u64 reported -> is_u64 failed ->
  zns_allocator_resync failed reported a = (r, a') ->
  match r with
  | Err e => e = - EIO /\ a' = a
  | Ok _ => exists i, 0 <= i < a_nr_zones a /\
      z_start_sector reported = z_start_sector (a_zones a).[i] /\
      z_length reported = z_length (a_zones a).[i] /\
      z_capacity reported = z_capacity (a_zones a).[i] /\
      failed mod a_sectors_per_block a = 0 /\
      z_start_sector (a_zones a).[i] <= failed /\
      failed + a_sectors_per_block a <=
        z_start_sector (a_zones a).[i] + z_capacity (a_zones a).[i] /\
      z_write_pointer (a_zones a).[i] = failed + a_sectors_per_block a /\
      (z_write_pointer reported = failed \/
       z_write_pointer reported = failed + a_sectors_per_block a) /\
      a_zones a' = (a_zones a).[i := resynced reported (a_zones a).[i]] /\
      a_reserve_zone a' = a_reserve_zone a /\
      a_sectors_per_block a' = a_sectors_per_block a /\ alloc_wf a'
  end.
Proof.
  intros Hwf Hrep Hfail Hrun. unfold zns_allocator_resync in Hrun.
  destruct (_ || (a_sectors_per_block a =? 0)) eqn:E1; [by simplify_eq|].
  pose proof (find_zone_at_spec (z_start_sector reported) (a_zones a) 0) as Hf.
  destruct (find_zone_at _ _ _) as [i|]; [|by simplify_eq].
  destruct Hf as (n & -> & Hn & Hs). rewrite Z.add_0_l in Hrun.
  pose proof (awf_nr a Hwf) as Hnr. pose proof (awf_nr_range a Hwf).
  pose proof (awf_block a Hwf). unfold zlen in Hnr.
  assert (Hi : 0 <= Z.of_nat n < a_nr_zones a) by lia.
  assert (Hzi : (a_zones a) !!! n = (a_zones a).[Z.of_nat n]) by (by rewrite Nat2Z.id).
  rewrite Hzi in Hs. clear Hzi. set (i := Z.of_nat n) in *. clearbody i. cbv zeta in Hrun.
  destruct (negb (z_length reported =? _) || _ || _) eqn:E2; [by simplify_eq|].
  destruct (_ || negb (z_write_pointer (a_zones a).[i] =? _)) eqn:E3; [by simplify_eq|].
  destruct (negb (z_write_pointer reported =? failed) && _) eqn:E4; [by simplify_eq|].
  match type of Hrun with (if ?acc then _ else _) = _ => destruct acc eqn:E5 end;
    [by simplify_eq|].
  pose proof (alloc_wf_zone a i Hwf Hi) as Hz. fold (zone_end (a_zones a).[i]) in *.
  rewrite (zone_end_wf _ Hz) in *. guards.
  assert (Hrwf : zone_wf reported) by (by apply metadata_valid_wf).
  destruct Hz as [? ? ? Hwp ?]. unfold is_u64 in *.
  assert (Hin : failed + a_sectors_per_block a <=
    z_start_sector (a_zones a).[i] + z_capacity (a_zones a).[i]) by (unwrap; lia).
  assert (Hput : alloc_wf (set_active_zone i
    (put_zone i (resynced reported (a_zones a).[i]) a))).
  { apply set_active_zone_wf; [|cbn; lia]. apply put_zone_wf; [done|].
    apply resynced_wf; [by apply alloc_wf_zone|done..]. }
  fold (resynced reported (a_zones a).[i]) in Hrun.
  assert (Hu1 : u64 (failed + a_sectors_per_block a) = failed + a_sectors_per_block a).
  { by unwrap. }
  rewrite ?Hu1 in *.
  assert (Hwpr : z_write_pointer reported = failed \/
                 z_write_pointer reported = failed + a_sectors_per_block a).
  { apply andb_false_iff in E4 as [E4|E4]; guards; auto. }
  assert (Hadv : alloc_wf (set_active_zone (u32 (i + 1)) (set_active_zone i
    (put_zone i (resynced reported (a_zones a).[i]) a)))).
  { apply set_active_zone_wf; [done|cbn; unwrap; lia]. }
  match type of Hrun with (if ?b then _ else _) = _ => destruct b end;
    simplify_eq; exists i; do 9 (split; [first [by auto|lia]|]); cbn; auto.
Qed.

(** C26.  [zns_allocator_resync] accepts a report only for the zone whose last
    block is the one that failed, and only when the device kept its write pointer
    or consumed exactly that block; it then takes over the reported write pointer
    and condition for that zone alone.  A rejected report changes nothing. *)
Theorem resync_accepts_only_one_block a failed reported r a' :
  alloc_wf a -> zone_u64 reported -> is_u64 failed ->
  zns_allocator_resync failed reported a = (r, a') ->
  match r with
  | Err e => e = - EIO /\ a' = a
  | Ok _ => exists i, 0 <= i < a_nr_zones a /\
      z_start_sector reported = z_start_sector (a_zones a).[i] /\
      z_length reported = z_length (a_zones a).[i] /\
      z_capacity reported = z_capacity (a_zones a).[i] /\
      failed mod a_sectors_per_block a = 0 /\
      z_start_sector (a_zones a).[i] <= failed /\
      failed + a_sectors_per_block a <=
        z_start_sector (a_zones a).[i] + z_capacity (a_zones a).[i] /\
      z_write_pointer (a_zones a).[i] = failed + a_sectors_per_block a /\
      (z_write_pointer reported = failed \/
       z_write_pointer reported = failed + a_sectors_per_block a) /\
      a_zones a' = (a_zones a).[i := resynced reported (a_zones a).[i]] /\
      a_reserve_zone a' = a_reserve_zone a /\
      a_sectors_per_block a' = a_sectors_per_block a /\ alloc_wf a'
  end.
Proof. apply resync_cases. Qed.

Lemma alloc_at_active a :
  alloc_wf a -> a_active_zone a < a_nr_zones a -> suitable a (a_active_zone a) = true ->
  zns_allocator_alloc a =
    (Ok (z_write_pointer (a_zones a).[a_active_zone a]), allocated_from (a_active_zone a) a).
Proof.
  intros [Hm Hl Hn _ Ha _ _] Hlt Hs. unfold zns_allocator_alloc, zns_allocator_alloc_zoned.
  rewrite bool_decide_eq_true_2 by done.
  destruct (a_nr_zones a <=? a_active_zone a) eqn:E; guards; [lia|].
  destruct (alloc_scan_spec (Z.to_nat (a_nr_zones a)) a)
    as [(k & Hk & Hks & Hb & ->)|(Hnone & _)]; [lia|lia| |].
  - assert (H0 : scan_index a 0 = a_active_zone a).
    { unfold scan_index. rewrite Z.add_0_r. apply Z.mod_small. lia. }
    destruct (decide (k = 0)) as [->|]; [by rewrite H0|].
    specialize (Hb 0 ltac:(lia)). rewrite H0 in Hb. congruence.
  - specialize (Hnone 0 ltac:(lia)). unfold scan_index in Hnone.
    rewrite Z.add_0_r, Z.mod_small in Hnone by lia. congruence.
Qed.

(** The report of a zone whose write pointer a failed write did not move. *)
Record reports_unmoved (zone reported : zns_zone) (p : Z) : Prop := {
  ru_start : z_start_sector reported = z_start_sector zone;
  ru_length : z_length reported = z_length zone;
  ru_capacity : z_capacity reported = z_capacity zone;
  ru_wp : z_write_pointer reported = p;
  ru_condition :
    zns_zone_is_active (z_condition reported) = true \/
    z_condition reported = BLK_ZONE_COND_EMPTY /\ p = z_start_sector zone;
}.

Lemma resync_unmoved a i p reported :
  alloc_wf a -> 0 <= i < a_nr_zones a ->
  find_zone_at (z_start_sector (a_zones a).[i]) (a_zones a) 0 = Some i ->
  reports_unmoved (a_zones a).[i] reported p ->
  z_start_sector (a_zones a).[i] <= p ->
  p + a_sectors_per_block a <= z_start_sector (a_zones a).[i] + z_capacity (a_zones a).[i] ->
  z_write_pointer (a_zones a).[i] = p + a_sectors_per_block a ->
  p mod a_sectors_per_block a = 0 ->
  zns_allocator_resync p reported a =
    (Ok tt, set_active_zone i (put_zone i (resynced reported (a_zones a).[i]) a)).
Proof.
  intros Hwf Hi Hfind [Hs Hl Hc Hwp Hcond] Hps Hpe Hz Hal.
  pose proof (alloc_wf_zone a i Hwf Hi) as Hzone. pose proof (awf_block a Hwf).
  unfold zns_allocator_resync. rewrite bool_decide_eq_true_2 by apply awf_mode, Hwf.
  replace (a_sectors_per_block a =? 0) with false by lia. cbn [negb orb].
  rewrite Hs, Hfind. cbv zeta. fold (zone_end (a_zones a).[i]).
  rewrite (zone_end_wf _ Hzone). destruct Hzone as [? ? ? Hwpz ?].
  assert (Hact : zns_zone_is_writable reported = true /\
    match z_condition reported with
    | BLK_ZONE_COND_EMPTY => z_write_pointer reported =? z_start_sector (a_zones a).[i]
    | BLK_ZONE_COND_IMP_OPEN | BLK_ZONE_COND_EXP_OPEN | BLK_ZONE_COND_CLOSED => true
    | BLK_ZONE_COND_FULL => z_write_pointer reported =?
        z_start_sector (a_zones a).[i] + z_capacity (a_zones a).[i]
    | _ => false
    end = true /\ z_condition reported <> BLK_ZONE_COND_FULL).
  { unfold zns_zone_is_writable. destruct Hcond as [Ha|[Ha ->]].
    - by destruct (z_condition reported).
    - rewrite Ha, Hwp. split; [done|]. split; [lia|done]. }
  destruct Hact as (Hw & Hacc & Hnf).
  assert (Hvalid : zns_zone_metadata_valid reported = true).
  { unfold zns_zone_metadata_valid, SECTOR_MAX. rewrite Hw, Hs, Hl, Hc, Hwp. unwrap.
    repeat (step_if; [exfalso; guards; lia|]). done. }
  rewrite Hvalid, Hl, Hc, !Z.eqb_refl. cbn [negb orb]. unwrap. rewrite Hz, Hal, !Z.eqb_refl.
  match goal with |- (if ?b then _ else _) = _ => destruct b eqn:E1 end; [exfalso|].
  { repeat (apply orb_true_iff in E1 as [E1|E1]); guards; lia || done. }
  rewrite Hwp, Z.eqb_refl. cbn [negb andb]. rewrite Hwp in Hacc. rewrite Hacc. cbn [negb].
  match goal with |- (if ?b then _ else _) = _ => destruct b eqn:E2 end.
  - exfalso. apply orb_true_iff in E2 as [E2|E2]; guards; [done|]. cbn in E2.
    unwrap. lia.
  - unfold resynced. by rewrite Hwp.
Qed.

(** C25.  A failed write that left the device's write pointer alone costs nothing:
    the resync with the reported zone succeeds, and the next allocation hands out
    the very sector the failed write was given. *)
Theorem failed_write_sector_is_reused a p a1 i reported :
  alloc_wf a -> zones_disjoint (a_zones a) ->
  (forall j, 0 <= j < a_nr_zones a -> 0 < z_capacity (a_zones a).[j]) ->
  zns_allocator_alloc a = (Ok p, a1) ->
  0 <= i < a_nr_zones a -> z_write_pointer (a_zones a).[i] = p ->
  z_write_pointer (a_zones a1).[i] <> p ->
  reports_unmoved (a_zones a).[i] reported p ->
  p mod a_sectors_per_block a = 0 ->
  exists a2, zns_allocator_resync p reported a1 = (Ok tt, a2) /\
    fst (zns_allocator_alloc a2) = Ok p.
Proof.
  intros Hwf Hd Hpos Hrun Hi Hwp Hmoved Hrep Hal.
  apply alloc_handed_out in Hrun as (i' & Hres & Hh); [|done].
  pose proof (handed_out_grows _ _ _ _ Hwf Hh) as (Hg & _ & _).
  destruct Hh as [Hzi Hw Hp Hs He Hz Hn Hr Hb Hwf1].
  pose proof (awf_nr a Hwf) as Hnr. pose proof (awf_nr a1 Hwf1) as Hnr1.
  pose proof (awf_block a Hwf) as Hblk.
  destruct (decide (i' = i)) as [->|Hne]; cycle 1.
  { exfalso. apply Hmoved. rewrite Hz, zupdate_other; [done|lia..]. }
  assert (Hz1 : (a_zones a1).[i] = set_write_pointer (p + a_sectors_per_block a) (a_zones a).[i]).
  { rewrite Hz. apply zupdate_same. lia. }
  assert (Hzw : zone_wf (a_zones a1).[i]) by (apply alloc_wf_zone; [done|lia]).
  assert (Hrun : zns_allocator_resync p reported a1 =
    (Ok tt, set_active_zone i (put_zone i (resynced reported (a_zones a1).[i]) a1))).
  { apply resync_unmoved; rewrite ?Hb, ?Hz1; try done; [lia| |by destruct Hrep].
    rewrite <- Hz1. apply find_zone_at_distinct; [done|by eapply zones_disjoint_grows|lia|..].
    - destruct (ag_zone _ _ Hg i ltac:(lia)) as (_ & -> & _). by apply Hpos.
    - intros j Hj. destruct (ag_zone _ _ Hg j ltac:(lia)) as (_ & -> & _). apply Hpos. lia. }
  eexists. split; [exact Hrun|].
  destruct Hrep as [Hs' Hl' Hc' Hwp' Hcond'].
  set (a2 := set_active_zone i (put_zone i (resynced reported (a_zones a1).[i]) a1)).
  assert (Hz2 : (a_zones a2).[i] = resynced reported (a_zones a1).[i]).
  { unfold a2. cbn. apply zupdate_same. lia. }
  assert (Hwr : zone_wf (resynced reported (a_zones a1).[i])).
  { destruct Hzw, (alloc_wf_zone a i Hwf Hi). rewrite Hz1 in *. cbn in *.
    constructor; cbn; try done; rewrite Hwp'; unfold is_u64 in *; lia. }
  assert (Hwf2 : alloc_wf a2).
  { apply set_active_zone_wf; [by apply put_zone_wf|cbn; lia]. }
  rewrite alloc_at_active; [cbn; f_equal|done|cbn; lia|].
  - fold a2 in Hz2. cbn in Hz2. rewrite Hz2. done.
  - unfold suitable. cbn [a_reserve_zone a2 set_active_zone put_zone a_active_zone].
    rewrite Hr. replace (i =? a_reserve_zone a) with false by lia. cbn [negb andb].
    fold a2. rewrite Hz2.
    apply can_append_iff; [done|cbn; lia|]. rewrite Hz1. cbn. rewrite Hwp', Hb.
    split; [|lia]. unfold zns_zone_is_writable. cbn.
    destruct Hcond' as [Ha|[-> _]]; [|done]. by destruct (z_condition reported).
Qed.

(** C27.  After a collection the reset victim is the new, completely empty reserve
    and the old reserve is ordinary space: if the old reserve can still take a
    block, the next allocation cannot run out of space. *)
Theorem reset_victim_becomes_reserve a victim :
  alloc_wf a -> 0 <= victim < a_nr_zones a -> victim <> a_reserve_zone a ->
  exists a', zns_allocator_set_reserve_after_reset victim a = (Ok tt, a') /\
    alloc_wf a' /\ a_reserve_zone a' = victim /\
    z_write_pointer (a_zones a').[victim] = z_start_sector (a_zones a).[victim] /\
    (a_sectors_per_block a <= z_capacity (a_zones a).[victim] ->
     fst (zns_allocator_alloc_gc a') = Ok (z_start_sector (a_zones a).[victim])) /\
    (forall i, 0 <= i -> i <> victim -> (a_zones a').[i] = (a_zones a).[i]) /\
    (a_reserve_zone a < a_nr_zones a ->
     zns_zone_can_append (a_zones a).[a_reserve_zone a] (a_sectors_per_block a) = true ->
     is_ok (fst (zns_allocator_alloc a')) = true).
Proof.
  intros Hwf Hv Hne. unfold zns_allocator_set_reserve_after_reset.
  replace (a_nr_zones a <=? victim) with false by lia.
  replace (victim =? a_reserve_zone a) with false by lia. cbn [orb].
  set (z' := set_condition BLK_ZONE_COND_EMPTY _).
  set (a' := set_reserve_zone victim (put_zone victim z' a)). exists a'. split; [done|].
  pose proof (awf_nr a Hwf) as Hnr. pose proof (awf_block a Hwf) as Hb.
  pose proof (alloc_wf_zone a victim Hwf Hv) as Hz.
  assert (Hz' : zone_wf z').
  { destruct Hz. constructor; cbn; unfold is_u64 in *; try done; lia. }
  assert (Hwf' : alloc_wf a') by (apply set_reserve_zone_wf; [by apply put_zone_wf|done]).
  assert (Hzv : (a_zones a').[victim] = z') by (unfold a'; cbn; apply zupdate_same; lia).
  assert (Hother : forall i, 0 <= i -> i <> victim -> (a_zones a').[i] = (a_zones a).[i]).
  { intros i Hi Hiv. unfold a'. cbn. apply zupdate_other; lia. }
  split; [done|]. split; [done|]. rewrite Hzv. split; [done|]. split; [|split; [done|]].
  - intros Hcap. unfold zns_allocator_alloc_gc. cbn [a_nr_zones a_reserve_zone a'
      set_reserve_zone put_zone]. replace (a_nr_zones a <=? victim) with false by lia.
    fold a'. rewrite Hzv. cbn [a_sectors_per_block a' set_reserve_zone put_zone].
    assert (Happ : zns_zone_can_append z' (a_sectors_per_block a) = true).
    { apply can_append_iff; [done|lia|]. cbn. split; [done|lia]. }
    by rewrite Happ.
  - intros Hr Happ. pose proof (awf_reserve a Hwf) as Hru. unfold is_u32 in Hru.
    assert (Hsp : zns_allocator_has_space a' = true).
    { apply has_space_iff. exists (a_reserve_zone a). split; [cbn; lia|].
      unfold suitable. rewrite Hother by lia. cbn [a_reserve_zone a_sectors_per_block a'
        set_reserve_zone put_zone].
      replace (a_reserve_zone a =? victim) with false by lia. done. }
    destruct (alloc_zoned_spec a' Hwf') as [(i & Hi & Hs & ->)|(Hnone & _)]; [done|].
    apply has_space_iff in Hsp as (i & Hi & Hs). rewrite Hnone in Hs; done.
Qed.

(** ** Concrete runs *)
Section Examples.
(** Three zones of four sectors, blocks of two, zone 2 the reserve. *)
Definition demo_zone (i wp : Z) (c : blk_zone_cond) : zns_zone :=
  mk_zone i (8 * i) 8 4 wp c false.
Definition demo (r : Z) (w0 w1 w2 : Z) : zns_allocator :=
  mk_allocator 0 0 [demo_zone 0 w0 BLK_ZONE_COND_EMPTY; demo_zone 1 w1 BLK_ZONE_COND_EMPTY;
                    demo_zone 2 w2 BLK_ZONE_COND_EMPTY] 3 0 r 2 ZNS_ALLOCATOR_ZONED.

Lemma demo_wf w0 : 0 <= w0 <= 4 -> alloc_wf (demo 2 w0 8 16).
Proof.
  intros Hw. constructor; cbn; unfold is_u32; try lia; try done.
  repeat apply Forall_cons_2; [..|apply Forall_nil_2];
    constructor; cbn; unfold is_u64; intros; lia.
Qed.

Lemma demo_disjoint : zones_disjoint (a_zones (demo 2 0 8 16)).
Proof.
  intros i j. change (zlen (a_zones (demo 2 0 8 16))) with 3. intros Hi Hj Hij.
  assert (Hi' : i = 0 \/ i = 1 \/ i = 2) by lia.
  assert (Hj' : j = 0 \/ j = 1 \/ j = 2) by lia.
  destruct Hi' as [->|[->| ->]], Hj' as [->|[->| ->]]; try done;
    (left; vm_compute; discriminate) || (right; vm_compute; discriminate).
Qed.

Example demo_run :
  fst (run_allocs [OpAlloc; OpAllocGc; OpAlloc; OpAlloc; OpAlloc; OpAlloc; OpAllocGc]
         (demo 2 0 8 16)) = [0; 16; 2; 8; 10; 18].
Proof. reflexivity. Qed.

Lemma alloc_succeeds_iff_has_space_witness :
  is_ok (fst (zns_allocator_alloc (demo 2 0 8 16))) = true.
Proof. apply (alloc_succeeds_iff_has_space (demo 2 0 8 16) (demo_wf 0 ltac:(lia))). Defined.

Lemma alloc_hands_out_block_witness :
  exists i, i <> 2 /\ handed_out (demo 2 0 8 16) 0 i
    (snd (zns_allocator_alloc (demo 2 0 8 16))).
Proof.
  apply (alloc_hands_out_block (demo 2 0 8 16) (Ok 0)); [by apply demo_wf|reflexivity].
Defined.

Lemma alloc_gc_only_reserve_witness :
  handed_out (demo 2 0 8 16) 16 2 (snd (zns_allocator_alloc_gc (demo 2 0 8 16))) /\
  a_active_zone (snd (zns_allocator_alloc_gc (demo 2 0 8 16))) = 0.
Proof.
  apply (alloc_gc_only_reserve (demo 2 0 8 16) (Ok 16)); [by apply demo_wf|reflexivity].
Defined.

Lemma run_allocs_no_overlap_witness :
  no_overlap 2 (fst (run_allocs [OpAlloc; OpAllocGc; OpAlloc; OpAlloc] (demo 2 0 8 16))).
Proof.
  apply (run_allocs_no_overlap _ (demo 2 0 8 16)); [by apply demo_wf|apply demo_disjoint].
Defined.

(** The write of sector 0 failed and the device still reports zone 0 empty. *)
Lemma resync_accepts_only_one_block_witness :
  exists i, 0 <= i < 3 /\ 2 = z_write_pointer (a_zones (demo 2 2 8 16)).[i].
Proof.
  assert (Hwf : alloc_wf (demo 2 2 8 16)) by (apply demo_wf; lia).
  destruct (resync_accepts_only_one_block (demo 2 2 8 16) 0
    (demo_zone 0 0 BLK_ZONE_COND_EMPTY) (Ok tt)
    (snd (zns_allocator_resync 0 (demo_zone 0 0 BLK_ZONE_COND_EMPTY) (demo 2 2 8 16))) Hwf) as (i & Hi & _ & _ & _ & _ & _ & _ & Hz & _);
    [unfold zone_u64, is_u64; cbn; lia|unfold is_u64; lia|reflexivity|].
  exists i. split; [exact Hi|]. rewrite Hz. reflexivity.
Defined.

Lemma failed_write_sector_is_reused_witness :
  exists a2, zns_allocator_resync 0 (demo_zone 0 0 BLK_ZONE_COND_EMPTY)
      (snd (zns_allocator_alloc (demo 2 0 8 16))) = (Ok tt, a2) /\
    fst (zns_allocator_alloc a2) = Ok 0.
Proof.
  apply (failed_write_sector_is_reused (demo 2 0 8 16) 0
    (snd (zns_allocator_alloc (demo 2 0 8 16))) 0);
    [by apply demo_wf|apply demo_disjoint| |reflexivity|cbn; lia|reflexivity
    |vm_compute; discriminate| |reflexivity].
  - intros j. change (a_nr_zones (demo 2 0 8 16)) with 3. intros Hj. assert (Hj' : j = 0 \/ j = 1 \/ j = 2) by lia.
    destruct Hj' as [->|[->| ->]]; reflexivity.
  - constructor; cbn; try reflexivity. right. split; reflexivity.
Defined.

Lemma reset_victim_becomes_reserve_witness :
  exists a', zns_allocator_set_reserve_after_reset 0 (demo 2 0 8 16) = (Ok tt, a') /\
    is_ok (fst (zns_allocator_alloc a')) = true.
Proof.
  destruct (reset_victim_becomes_reserve (demo 2 0 8 16) 0)
    as (a' & Hrun & _ & _ & _ & _ & _ & Hok); [by apply demo_wf|cbn; lia|cbn; lia|].
  exists a'. split; [exact Hrun|]. apply Hok; reflexivity.
Defined.
End Examples.
