(* ===== verification/GcPolicy.v ===== *)
(** Victim selection: [src/zns-gc.h] and the policies under [src/gc-policy/].
    The Makefile links exactly one policy into the module, so a policy is an
    instance of the class [ZnsGcPolicy]; [ZnsGcPolicyLaws] is the contract the
    collector of the LSM engine relies on, and every policy discharges it. *)
From S2P Require Import Prelude Kernel.

Record zns_gc_zone_info : Type := mk_zone_info {
  is_reserve : bool;
  resettable : bool;
  capacity_blocks : Z;
  free_blocks : Z;
  valid_blocks : Z;
}.

Record zns_gc_context : Type := mk_gc_context {
  gc_nr_zones : Z;
  has_write_space : bool;
  reserve_free_blocks : Z;
  get_zone_info : Z -> zns_gc_zone_info;
}.

Class ZnsGcPolicy : Type := {
  policy_name : string;
  should_gc : zns_gc_context -> bool;
  select_victim : zns_gc_context -> Z; (* a zone, or a negative errno *)
}.

(** ** The policies *)

Module Greedy.

Definition should_gc (ctx : zns_gc_context) : bool := negb (has_write_space ctx).

(** One iteration of the loop over the zones, on (fewest_valid, victim). *)
Definition consider (ctx : zns_gc_context) (best : Z * Z) (zone : Z) : Z * Z :=
  let '(fewest_valid, victim) := best in
  let info := get_zone_info ctx zone in
  if is_reserve info || negb (resettable info) || negb (free_blocks info =? 0) ||
     (capacity_blocks info <=? valid_blocks info) ||
     (reserve_free_blocks ctx <? valid_blocks info)
  then best
  else if valid_blocks info <? fewest_valid
  then (valid_blocks info, s32 zone)
  else best.

Definition select_victim (ctx : zns_gc_context) : Z :=
  snd (foldl (consider ctx) (SECTOR_MAX, - ENOSPC) (seqZ 0 (gc_nr_zones ctx))).

End Greedy.

Module NoGc.

Definition should_gc (ctx : zns_gc_context) : bool := false.

Definition select_victim (ctx : zns_gc_context) : Z := - ENOSPC.

End NoGc.

Module Simple.

Definition should_gc (ctx : zns_gc_context) : bool := negb (has_write_space ctx).

(** The loop from a zone on: the first match is returned. *)
Fixpoint first_match (ctx : zns_gc_context) (zones : list Z) : Z :=
  match zones with
  | [] => - ENOSPC
  | zone :: rest =>
      let info := get_zone_info ctx zone in
      if negb (is_reserve info) && resettable info && (free_blocks info =? 0) &&
         (valid_blocks info <? capacity_blocks info) &&
         (valid_blocks info <=? reserve_free_blocks ctx)
      then s32 zone
      else first_match ctx rest
  end.

Definition select_victim (ctx : zns_gc_context) : Z :=
  first_match ctx (seqZ 0 (gc_nr_zones ctx)).

End Simple.

Definition greedy_policy : ZnsGcPolicy := {|
  policy_name := "greedy"%string;
  should_gc := Greedy.should_gc; select_victim := Greedy.select_victim |}.
Definition none_policy : ZnsGcPolicy := {|
  policy_name := "none"%string;
  should_gc := NoGc.should_gc; select_victim := NoGc.select_victim |}.
Definition simple_policy : ZnsGcPolicy := {|
  policy_name := "simple"%string;
  should_gc := Simple.should_gc; select_victim := Simple.select_victim |}.

(** ** The contract *)

(** A zone worth collecting: full, resettable, holding garbage, and its live
    blocks fit into the reserve. *)
Definition eligible (ctx : zns_gc_context) (zone : Z) : bool :=
  let info := get_zone_info ctx zone in
  negb (is_reserve info) && resettable info && (free_blocks info =? 0) &&
  (valid_blocks info <? capacity_blocks info) &&
  (valid_blocks info <=? reserve_free_blocks ctx).

(** The zones of a context are numbered below [INT_MAX] and count in [sector_t]. *)
Record ctx_wf (ctx : zns_gc_context) : Prop := {
  cwf_nr : 0 <= gc_nr_zones ctx <= 2147483648;
  cwf_valid : forall zone, 0 <= valid_blocks (get_zone_info ctx zone);
  cwf_capacity : forall zone,
    capacity_blocks (get_zone_info ctx zone) <= SECTOR_MAX;
}.

Class ZnsGcPolicyLaws `{ZnsGcPolicy} : Prop := {
  (** A policy never collects while ordinary space is left. *)
  policy_lazy : forall ctx, has_write_space ctx = true -> should_gc ctx = false;
  (** A victim is an eligible zone; anything else is a negative errno. *)
  policy_sound : forall ctx, ctx_wf ctx -> 0 <= select_victim ctx ->
    select_victim ctx < gc_nr_zones ctx /\ eligible ctx (select_victim ctx) = true;
}.

(** A policy that gives up only when there is nothing to collect. *)
Class ZnsGcPolicyComplete `{ZnsGcPolicy} : Prop := {
  policy_eager : forall ctx, has_write_space ctx = false -> should_gc ctx = true;
  policy_complete : forall ctx zone, ctx_wf ctx ->
    0 <= zone < gc_nr_zones ctx -> eligible ctx zone = true ->
    0 <= select_victim ctx;
}.

(** ** Greedy *)

Lemma greedy_skip ctx best zone :
  Greedy.consider ctx best zone =
  if eligible ctx zone
  then if valid_blocks (get_zone_info ctx zone) <? fst best
       then (valid_blocks (get_zone_info ctx zone), s32 zone) else best
  else best.
Proof.
  destruct best as [f v]. unfold Greedy.consider, eligible.
  rewrite !Z.leb_antisym. set (info := get_zone_info ctx zone).
  by destruct (is_reserve info), (resettable info), (free_blocks info =? 0),
    (valid_blocks info <? capacity_blocks info),
    (reserve_free_blocks ctx <? valid_blocks info).
Qed.

(** What the greedy loop knows after the zones below [k]: either nothing eligible
    was seen, or the first zone with the fewest live blocks is remembered. *)
Definition greedy_best (ctx : zns_gc_context) (k : Z) (best : Z * Z) : Prop :=
  (best = (SECTOR_MAX, - ENOSPC) /\ forall z, 0 <= z < k -> eligible ctx z = false) \/
  (exists v, best = (valid_blocks (get_zone_info ctx v), v) /\ 0 <= v < k /\
     eligible ctx v = true /\
     (forall z, 0 <= z < k -> eligible ctx z = true ->
        valid_blocks (get_zone_info ctx v) <= valid_blocks (get_zone_info ctx z)) /\
     (forall z, 0 <= z < v -> eligible ctx z = true ->
        valid_blocks (get_zone_info ctx v) < valid_blocks (get_zone_info ctx z))).

Lemma eligible_bound ctx z :
  ctx_wf ctx -> eligible ctx z = true -> valid_blocks (get_zone_info ctx z) < SECTOR_MAX.
Proof.
  intros [_ _ Hc] He. unfold eligible in He. guards. specialize (Hc z). lia.
Qed.

Lemma greedy_loop ctx n :
  ctx_wf ctx -> Z.of_nat n <= gc_nr_zones ctx ->
  greedy_best ctx (Z.of_nat n)
    (foldl (Greedy.consider ctx) (SECTOR_MAX, - ENOSPC) (seqZ 0 (Z.of_nat n))).
Proof.
  intros Hwf. induction n as [|n IH]; intros Hn.
  { left. split; [done|lia]. }
  rewrite seqZ_S, foldl_app. cbn [foldl]. rewrite Z.add_0_l.
  specialize (IH ltac:(lia)). set (best := foldl _ _ _) in *. clearbody best.
  rewrite greedy_skip. rewrite s32_id by (pose proof (cwf_nr ctx Hwf); lia).
  set (k := Z.of_nat n) in *. rewrite Nat2Z.inj_succ. fold k.
  assert (Hsplit : forall z, 0 <= z < Z.succ k -> z = k \/ 0 <= z < k) by lia.
  destruct (eligible ctx k) eqn:He.
  - pose proof (eligible_bound ctx k Hwf He) as Hb.
    destruct IH as [[-> Hnone]|(v & -> & Hv & Hev & Hmin & Hfirst)]; cbn [fst].
    + rewrite (proj2 (Z.ltb_lt _ _) Hb). right. exists k.
      split; [done|]. split; [lia|]. split; [done|]. split.
      * intros z Hz Hez. destruct (Hsplit z Hz) as [->|?]; [lia|]. rewrite Hnone in Hez; done.
      * intros z Hz Hez. rewrite Hnone in Hez; done.
    + right. destruct (_ <? _) eqn:Hlt; guards.
      * exists k. split; [done|]. split; [lia|]. split; [done|]. split.
        -- intros z Hz Hez. destruct (Hsplit z Hz) as [->|Hz']; [lia|].
           specialize (Hmin z Hz' Hez). lia.
        -- intros z Hz Hez. specialize (Hmin z Hz Hez). lia.
      * exists v. split; [done|]. split; [lia|]. split; [done|]. split; [|done].
        intros z Hz Hez. destruct (Hsplit z Hz) as [->|Hz']; [lia|by apply Hmin].
  - destruct IH as [[-> Hnone]|(v & -> & Hv & Hev & Hmin & Hfirst)].
    + left. split; [done|]. intros z Hz.
      destruct (Hsplit z Hz) as [->|?]; [done|by apply Hnone].
    + right. exists v. split; [done|]. split; [lia|]. split; [done|]. split; [|done].
      intros z Hz Hez. destruct (Hsplit z Hz) as [->|Hz']; [congruence|by apply Hmin].
Qed.

Lemma greedy_select ctx :
  ctx_wf ctx ->
  greedy_best ctx (gc_nr_zones ctx)
    (foldl (Greedy.consider ctx) (SECTOR_MAX, - ENOSPC) (seqZ 0 (gc_nr_zones ctx))).
Proof.
  intros Hwf. pose proof (cwf_nr ctx Hwf).
  rewrite <- (Z2Nat.id (gc_nr_zones ctx)) by lia. apply greedy_loop; [done|lia].
Qed.

(** C37.  The greedy policy returns the eligible zone with the fewest live blocks,
    the lowest-numbered one among equals; it answers [-ENOSPC] exactly when no
    zone is eligible. *)
Theorem greedy_selects_fewest_valid ctx :
  ctx_wf ctx ->
  let v := Greedy.select_victim ctx in
  (v = - ENOSPC /\ forall z, 0 <= z < gc_nr_zones ctx -> eligible ctx z = false) \/
  (0 <= v < gc_nr_zones ctx /\ eligible ctx v = true /\
   (forall z, 0 <= z < gc_nr_zones ctx -> eligible ctx z = true ->
      valid_blocks (get_zone_info ctx v) <= valid_blocks (get_zone_info ctx z)) /\
   (forall z, 0 <= z < v -> eligible ctx z = true ->
      valid_blocks (get_zone_info ctx v) < valid_blocks (get_zone_info ctx z))).
Proof.
  intros Hwf. unfold Greedy.select_victim.
  destruct (greedy_select ctx Hwf) as [[-> Hnone]|(v & -> & Hv)]; [by left|by right].
Qed.

Lemma greedy_complete ctx z :
  ctx_wf ctx -> 0 <= z < gc_nr_zones ctx -> eligible ctx z = true ->
  0 <= Greedy.select_victim ctx /\
  valid_blocks (get_zone_info ctx (Greedy.select_victim ctx)) <=
  valid_blocks (get_zone_info ctx z).
Proof.
  intros Hwf Hz He. unfold Greedy.select_victim.
  destruct (greedy_select ctx Hwf) as [[_ Hnone]|(v & -> & Hv & _ & Hmin & _)].
  - rewrite Hnone in He; done.
  - cbn. split; [lia|by apply Hmin].
Qed.

(** ** Simple *)

Lemma first_match_spec ctx zones :
  ctx_wf ctx -> (forall z, z ∈ zones -> 0 <= z < gc_nr_zones ctx) ->
  (Simple.first_match ctx zones = - ENOSPC /\ forall z, z ∈ zones -> eligible ctx z = false) \/
  exists l v r, zones = l ++ v :: r /\ Simple.first_match ctx zones = v /\
    eligible ctx v = true /\ (forall z, z ∈ l -> eligible ctx z = false).
Proof.
  intros Hwf. induction zones as [|k zones IH]; intros Hr.
  { left. split; [done|]. intros z Hz. by apply elem_of_nil in Hz. }
  cbn [Simple.first_match]. fold (eligible ctx k).
  destruct (eligible ctx k) eqn:He.
  - right. exists [], k, zones. rewrite s32_id.
    + repeat split; [done|]. intros z Hz. by apply elem_of_nil in Hz.
    + specialize (Hr k (list_elem_of_here _ _)). pose proof (cwf_nr ctx Hwf). lia.
  - destruct IH as [[Heq Hnone]|(l & v & r & -> & Heq & Hv & Hl)].
    + intros z Hz. by apply Hr, elem_of_cons; right.
    + left. split; [done|]. intros z [->|Hz]%elem_of_cons; [done|by apply Hnone].
    + right. exists (k :: l), v, r. repeat split; [done..|].
      intros z [->|Hz]%elem_of_cons; [done|by apply Hl].
Qed.

(** The zones of a context split at [v] are those below [v]. *)
Lemma seqZ_split n l v r : seqZ 0 n = l ++ v :: r -> 0 <= v < n /\ forall z, 0 <= z < v -> z ∈ l.
Proof.
  intros H. assert (Hv : seqZ 0 n !! length l = Some v).
  { rewrite H, lookup_app_r, Nat.sub_diag by lia. done. }
  apply lookup_seqZ in Hv as [-> Hlt]. split; [lia|]. intros z Hz.
  apply (list_elem_of_lookup_2 _ (Z.to_nat z)).
  assert (Hz' : seqZ 0 n !! Z.to_nat z = Some z) by (apply lookup_seqZ; lia).
  rewrite H, lookup_app_l in Hz' by lia. done.
Qed.

Lemma simple_select ctx :
  ctx_wf ctx ->
  (Simple.select_victim ctx = - ENOSPC /\
   forall z, 0 <= z < gc_nr_zones ctx -> eligible ctx z = false) \/
  (0 <= Simple.select_victim ctx < gc_nr_zones ctx /\
   eligible ctx (Simple.select_victim ctx) = true /\
   forall z, 0 <= z < Simple.select_victim ctx -> eligible ctx z = false).
Proof.
  intros Hwf. unfold Simple.select_victim.
  destruct (first_match_spec ctx (seqZ 0 (gc_nr_zones ctx)) Hwf)
    as [[Heq Hnone]|(l & v & r & Hs & Heq & Hv & Hl)].
  - intros z Hz. apply elem_of_seqZ in Hz. lia.
  - left. split; [done|]. intros z Hz. apply Hnone, elem_of_seqZ. lia.
  - right. rewrite Heq. apply seqZ_split in Hs as [Hvr Hbelow].
    split; [done|]. split; [done|]. intros z Hz. by apply Hl, Hbelow.
Qed.

(** ** The policies keep the contract *)

#[export] Instance greedy_laws : @ZnsGcPolicyLaws greedy_policy.
Proof.
  constructor; cbn.
  - intros ctx H. unfold Greedy.should_gc. by rewrite H.
  - intros ctx Hwf Hge. unfold Greedy.select_victim in *.
    destruct (greedy_select ctx Hwf) as [[Heq _]|(v & Heq & Hv & He & _)];
      rewrite Heq in *; cbn in *; [unfold ENOSPC in *; lia|].
    split; [lia|done].
Qed.

#[export] Instance greedy_is_complete : @ZnsGcPolicyComplete greedy_policy.
Proof.
  constructor; cbn.
  - intros ctx H. unfold Greedy.should_gc. by rewrite H.
  - intros ctx z Hwf Hz He. by apply (greedy_complete ctx z).
Qed.

#[export] Instance simple_laws : @ZnsGcPolicyLaws simple_policy.
Proof.
  constructor; cbn.
  - intros ctx H. unfold Simple.should_gc. by rewrite H.
  - intros ctx Hwf Hge. destruct (simple_select ctx Hwf) as [[Heq _]|(? & ? & _)].
    + rewrite Heq in Hge. unfold ENOSPC in Hge. lia.
    + split; [lia|done].
Qed.

#[export] Instance simple_is_complete : @ZnsGcPolicyComplete simple_policy.
Proof.
  constructor; cbn.
  - intros ctx H. unfold Simple.should_gc. by rewrite H.
  - intros ctx z Hwf Hz He. destruct (simple_select ctx Hwf) as [[_ Hnone]|(? & _)]; [|lia].
    rewrite Hnone in He; done.
Qed.

#[export] Instance none_laws : @ZnsGcPolicyLaws none_policy.
Proof.
  constructor; cbn; [done|]. intros ctx _. unfold NoGc.select_victim, ENOSPC. lia.
Qed.

(** C38.  Greedy and first-fit agree on whether there is anything to collect, and a
    greedy victim never costs more relocations than the first-fit one; between
    zones of equal capacity it also frees at least as much. *)
Theorem greedy_never_worse_than_simple ctx :
  ctx_wf ctx ->
  let g := Greedy.select_victim ctx in
  let s := Simple.select_victim ctx in
  (0 <= g <-> 0 <= s) /\
  (0 <= s ->
   valid_blocks (get_zone_info ctx g) <= valid_blocks (get_zone_info ctx s) /\
   (capacity_blocks (get_zone_info ctx g) = capacity_blocks (get_zone_info ctx s) ->
    capacity_blocks (get_zone_info ctx s) - valid_blocks (get_zone_info ctx s) <=
    capacity_blocks (get_zone_info ctx g) - valid_blocks (get_zone_info ctx g))).
Proof.
  intros Hwf g s.
  destruct (simple_select ctx Hwf) as [[Hs Hnone]|(Hs & He & _)].
  - assert (Hg : g = - ENOSPC).
    { unfold g, Greedy.select_victim.
      destruct (greedy_select ctx Hwf) as [[-> _]|(v & -> & Hv & Hev & _)]; [done|].
      rewrite Hnone in Hev; done. }
    fold s in Hs. rewrite Hg, Hs. unfold ENOSPC. split; [lia|intros; lia].
  - destruct (greedy_complete ctx s Hwf Hs He) as [Hg Hle].
    fold g in Hg, Hle. fold s in Hs. split; [lia|]. intros _. split; [done|]. lia.
Qed.

Section Examples.

(** Four zones: a reserve, one without garbage, two full ones with garbage. *)
Definition demo_ctx : zns_gc_context :=
  mk_gc_context 4 false 8 (fun z =>
    if z =? 0 then mk_zone_info true true 8 8 0
    else if z =? 1 then mk_zone_info false true 8 0 8
    else if z =? 2 then mk_zone_info false true 8 0 5
    else mk_zone_info false true 8 0 2).

Lemma demo_ctx_wf : ctx_wf demo_ctx.
Proof.
  constructor; cbn; [lia| |]; intros zone;
    destruct (zone =? 0), (zone =? 1), (zone =? 2); cbn; unfold SECTOR_MAX; lia.
Qed.

Lemma greedy_selects_fewest_valid_witness :
  Greedy.select_victim demo_ctx = 3 /\ eligible demo_ctx 3 = true.
Proof.
  destruct (greedy_selects_fewest_valid demo_ctx demo_ctx_wf) as [[H _]|(_ & H & _)].
  - vm_compute in H. discriminate H.
  - split; [reflexivity|exact H].
Defined.

Lemma greedy_never_worse_than_simple_witness :
  Simple.select_victim demo_ctx = 2 /\
  valid_blocks (get_zone_info demo_ctx 3) <= valid_blocks (get_zone_info demo_ctx 2).
Proof.
  split; [reflexivity|].
  destruct (greedy_never_worse_than_simple demo_ctx demo_ctx_wf) as [_ H].
  destruct H as [Hle _]; [vm_compute; discriminate|exact Hle].
Defined.

End Examples.
