(* ===== verification/XArray.v ===== *)
(** The kernel's XArray as the LSM engine uses it ([<linux/xarray.h>]): a sparse
    array of pointer-sized entries.  It is not code of the repository, so it is an
    interface with the documented behaviour as laws; [xa_reserve] makes sure that a
    later [xa_store] at the same index needs no memory. *)
From S2P Require Import Prelude Kernel.

(** Tagged integers: [xa_mk_value] and [xa_to_value]. *)
Definition xa_mk_value (v : Z) : Z := u64 (Z.lor (Z.shiftl v 1) 1).
Definition xa_to_value (entry : Z) : Z := Z.shiftr entry 1.

Lemma xa_value_round_trip v :
  0 <= v < 9223372036854775808 -> xa_to_value (xa_mk_value v) = v.
Proof.
  intros Hv. unfold xa_to_value, xa_mk_value.
  assert (Hlor : Z.lor (Z.shiftl v 1) 1 = 2 * v + 1).
  { rewrite Z.shiftl_mul_pow2 by lia. change (2 ^ 1) with 2. rewrite (Z.mul_comm v 2).
    assert (Hland : Z.land (2 * v) 1 = 0).
    { apply Z.bits_inj'. intros n Hn. rewrite Z.land_spec, Z.bits_0.
      destruct (decide (n = 0)) as [->|]; [by rewrite Z.testbit_even_0|].
      rewrite (Z.bits_above_log2 1 n); [apply andb_false_r|lia|cbn; lia]. }
    rewrite <- Z.lxor_lor by done. symmetry. by apply Z.add_nocarry_lxor. }
  rewrite Hlor, u64_id by lia. rewrite Z.shiftr_div_pow2 by lia. change (2 ^ 1) with 2.
  symmetry. apply (Z.div_unique _ 2 v 1); lia.
Qed.

Class XArray : Type := {
  xarray : Type;
  xa_init : xarray;
  (** The entry at an index; NULL is [None]. *)
  xa_load : xarray -> Z -> option Z;
  xa_reserve : Z -> M (mem * xarray) unit;
  (** [xa_err] of [xa_store]. *)
  xa_store : Z -> Z -> M (mem * xarray) unit;
}.

Class XArrayLaws `{XArray} : Type := {
  (** A store at this index needs no memory. *)
  xa_reserved : xarray -> Z -> Prop;
  xa_load_init : forall k, xa_load xa_init k = None;
  (** Reserving is invisible to [xa_load]. *)
  xa_reserve_spec : forall k a x r a' x',
    xa_reserve k (a, x) = (r, (a', x')) ->
    (forall j, xa_load x' j = xa_load x j) /\ (no_fail a -> no_fail a') /\
    match r with
    | Ok _ => xa_reserved x' k
    | Err e => e = - ENOMEM /\ ~ no_fail a
    end;
  xa_store_spec : forall k v a x r a' x',
    xa_store k v (a, x) = (r, (a', x')) ->
    (no_fail a -> no_fail a') /\
    match r with
    | Ok _ => forall j, xa_load x' j = if bool_decide (j = k) then Some v else xa_load x j
    | Err e => (forall j, xa_load x' j = xa_load x j) /\ e = - ENOMEM /\
               ~ no_fail a /\ ~ xa_reserved x k
    end;
}.

(** A finite map from index to entry or reservation: the simplest implementation. *)
Definition map_reserve (k : Z) : M (mem * gmap Z (option Z)) unit := fun '(a, x) =>
  match x !! k with
  | Some _ => (Ok tt, (a, x))
  | None =>
      match kmalloc a with
      | (Ok _, a') => (Ok tt, (a', <[k := None]> x))
      | (Err e, a') => (Err e, (a', x))
      end
  end.

Definition map_store (k v : Z) : M (mem * gmap Z (option Z)) unit := fun '(a, x) =>
  match x !! k with
  | Some _ => (Ok tt, (a, <[k := Some v]> x))
  | None =>
      match kmalloc a with
      | (Ok _, a') => (Ok tt, (a', <[k := Some v]> x))
      | (Err e, a') => (Err e, (a', x))
      end
  end.

#[export] Instance map_xarray : XArray := {|
  xarray := gmap Z (option Z);
  xa_init := ∅;
  xa_load := fun x k => mjoin (x !! k);
  xa_reserve := map_reserve;
  xa_store := map_store;
|}.

#[export] Instance map_xarray_laws : XArrayLaws.
Proof.
  refine (@Build_XArrayLaws map_xarray (fun (x : gmap Z (option Z)) k => is_Some (x !! k)) _ _ _); cbn.
  - done.
  - intros k a x r a' x' Hr. unfold map_reserve in Hr.
    destruct (x !! k) as [o|] eqn:Hk; [simplify_eq; by rewrite Hk|].
    destruct (kmalloc_cases a) as [(a1 & Hm & Hn)|(a1 & Hm & Hn)]; rewrite Hm in Hr; simplify_eq;
      [|by split_and!].
    split_and!; [|done|by rewrite lookup_insert_eq]. intros j.
    destruct (decide (j = k)) as [->|]; [by rewrite lookup_insert_eq, Hk|].
    by rewrite lookup_insert_ne.
  - intros k v a x r a' x' Hr. unfold map_store in Hr.
    assert (Hins : forall j, mjoin (<[k := Some v]> x !! j) =
      if bool_decide (j = k) then Some v else mjoin (x !! j)).
    { intros j. case_bool_decide as Hj; [subst; by rewrite lookup_insert_eq|].
      by rewrite lookup_insert_ne. }
    destruct (x !! k) as [o|] eqn:Hk; [by simplify_eq|].
    destruct (kmalloc_cases a) as [(a1 & Hm & Hn)|(a1 & Hm & Hn)]; rewrite Hm in Hr; simplify_eq;
      [done|]. split; [done|]. split_and!; [done..|]. intros [o Ho]. congruence.
Defined.
