(* ===== verification/Bytes.v ===== *)
(** On-disk layouts: little-endian fields of a 4 KiB block, and the kernel's
    [crc32_le].  A packed struct laid over a block is read and written field by
    field at the offsets of its members, as the compiler does. *)
From S2P Require Import Prelude Kernel.

Definition ZNS_SST_BLOCK_BYTES : Z := 4096.
Definition ZNS_SST_BLOCK_SECTORS : Z := 8.

(** [leN_to_cpu] of the [n] bytes at an offset, and the store of [cpu_to_leN]. *)
Definition get_le (n : nat) (off : Z) (b : block) : Z :=
  le_combine (take n (drop (Z.to_nat off) b)).
Definition put_le (n : nat) (off v : Z) (b : block) : block :=
  take (Z.to_nat off) b ++ le_split n v ++ drop (Z.to_nat off + n) b.

Abbreviation get64 := (get_le 8).
Abbreviation get32 := (get_le 4).
Abbreviation put64 := (put_le 8).
Abbreviation put32 := (put_le 4).

Lemma length_put_le n off v b :
  (Z.to_nat off + n <= length b)%nat -> length (put_le n off v b) = length b.
Proof.
  intros Hl. unfold put_le. rewrite !length_app, length_take, length_le_split, length_drop.
  lia.
Qed.

Lemma get_put_same n off v b :
  (Z.to_nat off + n <= length b)%nat -> get_le n off (put_le n off v b) = v mod 2 ^ (Z.of_nat n * 8).
Proof.
  intros Hl. unfold get_le, put_le.
  rewrite drop_app_length' by (rewrite length_take; lia).
  rewrite take_app_length' by (by rewrite length_le_split). apply le_combine_split.
Qed.

(** A store leaves the fields it does not overlap alone. *)
Lemma get_put_other n m off off' v b :
  (Z.to_nat off' + m <= length b)%nat ->
  (Z.to_nat off + n <= Z.to_nat off' \/ Z.to_nat off' + m <= Z.to_nat off)%nat ->
  get_le n off (put_le m off' v b) = get_le n off b.
Proof.
  intros Hl Hd. unfold get_le, put_le. f_equal. apply list_eq. intros i.
  destruct (decide (i < n)%nat) as [Hi|]; [|by rewrite !lookup_take_ge by lia].
  rewrite !lookup_take_lt, !lookup_drop by done.
  destruct Hd as [Hd|Hd].
  - rewrite lookup_app_l by (rewrite length_take; lia). by rewrite lookup_take_lt by lia.
  - rewrite lookup_app_r by (rewrite length_take; lia).
    rewrite lookup_app_r by (rewrite length_le_split, length_take; lia).
    rewrite lookup_drop, length_le_split, length_take. f_equal. lia.
Qed.

Lemma get_le_range n off b : 0 <= get_le n off b < 2 ^ (8 * Z.of_nat n).
Proof.
  unfold get_le. pose proof (le_combine_bound (take n (drop (Z.to_nat off) b))) as Hb.
  split; [lia|]. eapply Z.lt_le_trans; [apply Hb|]. apply Z.pow_le_mono_r; [lia|].
  rewrite length_take. lia.
Qed.

Lemma get64_range off b : is_u64 (get64 off b).
Proof. apply (get_le_range 8). Qed.

Lemma get32_range off b : is_u32 (get32 off b).
Proof. apply (get_le_range 4). Qed.

#[export] Hint Resolve get64_range get32_range : zns.

(** Compute the field a block of stores holds at an offset; the offsets are
    literals and the block at the bottom has 4096 bytes. *)
Lemma length_put_block n off v b :
  length b = 4096%nat -> (Z.to_nat off + n <= 4096)%nat -> length (put_le n off v b) = 4096%nat.
Proof. intros Hb Hl. by rewrite length_put_le by lia. Qed.

Ltac block_length :=
  first [ exact length_zero_block | assumption
        | apply length_put_block; [block_length|lia] ].

Lemma get_put_same_block n off v b :
  length b = 4096%nat -> (Z.to_nat off + n <= 4096)%nat ->
  get_le n off (put_le n off v b) = v mod 2 ^ (Z.of_nat n * 8).
Proof. intros Hb Hl. apply get_put_same. lia. Qed.

Lemma get_put_other_block n m off off' v b :
  length b = 4096%nat -> (Z.to_nat off' + m <= 4096)%nat ->
  (Z.to_nat off + n <= Z.to_nat off' \/ Z.to_nat off' + m <= Z.to_nat off)%nat ->
  get_le n off (put_le m off' v b) = get_le n off b.
Proof. intros Hb Hl Hd. apply get_put_other; [lia|done]. Qed.

Ltac fields :=
  repeat first
    [ rewrite get_put_same_block by first [lia|block_length]
    | rewrite get_put_other_block by first [lia|block_length] ].

(** ** CRC-32 *)

(** [crc32_le] of <linux/crc32.h>: the running checksum and the bytes to add. *)
Class Crc32 : Type := {
  crc32_le : Z -> list Byte.byte -> Z;
  crc32_le_range : forall c bs, is_u32 (crc32_le c bs);
}.

(** The usual bit-serial computation, for concrete runs. *)
Fixpoint crc32_bits (n : nat) (c : Z) : Z :=
  match n with
  | O => c
  | S n' => crc32_bits n'
      (if Z.testbit c 0 then Z.lxor (Z.shiftr c 1) 3988292384 else Z.shiftr c 1)
  end.

#[export] Instance crc32_serial : Crc32 := {|
  crc32_le := fun c bs =>
    u32 (foldl (fun c b => crc32_bits 8 (Z.lxor c (byte.unsigned b))) c bs);
  crc32_le_range := fun _ _ => u32_range _;
|}.
