(* ===== verification/Bio.v ===== *)
(** Bios as the engines see them: an operation with its flags, a start sector, a
    size in bytes, and the data pages as a list of segments. *)
From S2P Require Import Prelude Kernel.

#[export] Instance byte_inhabited : Inhabited Byte.byte := populate Byte.x00.

Record bio : Type := mk_bio {
  bi_opf : req_opf;
  bi_sector : Z;
  bi_size : Z;
  bi_vecs : list (list Byte.byte);
}.

Definition bio_op (b : bio) : req_op := opf_op (bi_opf b).

Definition SECTOR_SHIFT : Z := 9.
Definition bio_sectors (b : bio) : Z := Z.shiftr (bi_size b) SECTOR_SHIFT.

Definition set_sector (s : Z) (b : bio) : bio := mk_bio (bi_opf b) s (bi_size b) (bi_vecs b).
Definition set_vecs (v : list (list Byte.byte)) (b : bio) : bio :=
  mk_bio (bi_opf b) (bi_sector b) (bi_size b) v.

(** The data of a bio, and the pages after data was put into them. *)
Definition gather (vecs : list (list Byte.byte)) : list Byte.byte := concat vecs.
Fixpoint scatter (data : list Byte.byte) (vecs : list (list Byte.byte)) : list (list Byte.byte) :=
  match vecs with
  | [] => []
  | v :: vs => take (length v) data :: scatter (drop (length v) data) vs
  end.

(** [zero_fill_bio]. *)
Definition zero_fill_bio (b : bio) : bio :=
  set_vecs ((fun v => replicate (length v) Byte.x00) <$> bi_vecs b) b.

(** The segments make up the size, and the size counts whole sectors. *)
Record bio_wf (b : bio) : Prop := {
  bwf_size : bi_size b = zlen (gather (bi_vecs b));
  bwf_sectors : bi_size b = 512 * bio_sectors b;
  bwf_start : 0 <= bi_sector b;
}.

Lemma gather_scatter data vecs :
  length data = length (gather vecs) -> gather (scatter data vecs) = data.
Proof.
  revert data. induction vecs as [|v vs IH]; intros data Hl; unfold gather in *; cbn in *.
  - by apply nil_length_inv in Hl.
  - rewrite length_app in Hl. rewrite IH.
    + apply take_drop.
    + rewrite length_drop. lia.
Qed.

Lemma length_scatter data vecs : length (scatter data vecs) = length vecs.
Proof. revert data. induction vecs; intros; cbn; auto. Qed.

Lemma gather_cons v vs : gather (v :: vs) = v ++ gather vs.
Proof. done. Qed.

Lemma zero_fill_gather vecs :
  gather ((fun v => replicate (length v) Byte.x00) <$> vecs) = replicate (length (gather vecs)) Byte.x00.
Proof.
  induction vecs as [|v vs IH]; [done|]. rewrite fmap_cons, !gather_cons, IH, length_app.
  by rewrite replicate_add.
Qed.

Lemma scatter_lengths data vecs :
  length data = length (gather vecs) -> length <$> scatter data vecs = length <$> vecs.
Proof.
  revert data. induction vecs as [|v vs IH]; intros data Hl; [done|].
  rewrite gather_cons, length_app in Hl. cbn. rewrite length_take, IH; [f_equal; lia|].
  rewrite length_drop. lia.
Qed.

(** [submit_bio_wait]: the bio with its pages as the device left them. *)
Definition submit_bio `{BlockDevice} (b : bio) : M world bio :=
  data <- on_dev (submit_bio_wait (mk_request (bi_opf b) (bi_sector b) (gather (bi_vecs b)))) ;;
  ret (set_vecs (scatter data (bi_vecs b)) b).

(** What the target's map function answers. *)
Inductive map_result : Type :=
| DM_MAPIO_REMAPPED (b : bio) (* to be submitted to the lower device *)
| DM_MAPIO_SUBMITTED (b : bio) (* completed or queued by the engine *)
| DM_MAPIO_KILL.
