(* ===== verification/Engine.v ===== *)
(** The engine interface: [src/zns-engine.h].  The Makefile links one engine into the
    module; the target in [Target] is written against this interface, and every engine
    is an instance of it. *)
From S2P Require Import Prelude Kernel Bio.

Definition ZNS_BASE_BLOCK_SECTORS : Z := 8.

(** [engine] is what [struct zns_engine] points to once it is initialised; a failed
    initialisation leaves nothing to point to. *)
Class ZnsEngine `{BlockDevice} : Type := {
  engine : Type;
  (** From logical sectors, physical sectors and sectors per block. *)
  zns_engine_init : Z -> Z -> Z -> M world engine;
  zns_engine_exit : engine -> M world unit;
  zns_engine_map : bio -> M (world * engine) map_result;
  (** The text an engine adds to a buffer of so many bytes. *)
  zns_engine_status : engine -> Z -> string;
  zns_engine_name : string;
  (** The usable sectors of the lower device; [0]: not usable. *)
  zns_engine_capacity : M world Z;
}.

(** ** Status lines

    [DMEMIT(...)] appends to a buffer of [maxlen] bytes, the terminator included, and
    cuts off what does not fit. *)

Fixpoint string_take (n : nat) (s : string) : string :=
  match n, s with
  | S n', String c s' => String c (string_take n' s')
  | _, _ => ""
  end.

Definition dmemit (maxlen : Z) (text : string) (result : string) : string :=
  result +:+ string_take (Z.to_nat (maxlen - 1 - Z.of_nat (String.length result))) text.

Lemma length_string_take n s : (String.length (string_take n s) <= n)%nat.
Proof.
  revert s. induction n as [|n IH]; intros [|c s]; cbn [string_take String.length]; try lia.
  apply le_n_S, IH.
Qed.

Lemma length_string_app s1 s2 :
  String.length (s1 +:+ s2) = (String.length s1 + String.length s2)%nat.
Proof. induction s1 as [|c s1 IH]; [done|]. exact (f_equal S IH). Qed.

(** The buffer is never overrun. *)
Lemma dmemit_fits maxlen text result :
  Z.of_nat (String.length result) < maxlen ->
  Z.of_nat (String.length (dmemit maxlen text result)) < maxlen.
Proof.
  intros Hl. unfold dmemit. rewrite length_string_app.
  pose proof (length_string_take (Z.to_nat (maxlen - 1 - Z.of_nat (String.length result))) text). lia.
Qed.

#[export] Hint Resolve dmemit_fits : zns.

(** What the target relies on in an engine: asking for the capacity cannot fail, and the
    status text leaves room for its terminator. *)
Class ZnsEngineLaws `{ZnsEngine} : Prop := {
  engine_capacity_total : forall w, exists c w', zns_engine_capacity w = (Ok c, w');
  engine_status_fits : forall e maxlen, 0 < maxlen ->
    Z.of_nat (String.length (zns_engine_status e maxlen)) < maxlen;
}.
