(* ===== verification/RbTree.v ===== *)
(** The kernel's red-black tree as the MemTable uses it.  The MemTable walks the
    links itself and calls [rb_link_node], [rb_insert_color], [rb_erase],
    [rb_first] and [rb_next]; the tree code is not part of the repository.
    Linking and walking follow the links of the tree; the two rebalancing
    operations are an interface ([RbTree]) with the one documented property that
    matters here, that rebalancing keeps the order of the nodes ([RbTreeLaws]). *)
From S2P Require Import Prelude.

(** A node keeps, besides its links and its entry, what rebalancing needs. *)
Inductive rb_tree (C E : Type) : Type :=
| rb_leaf
| rb_node (c : C) (l : rb_tree C E) (e : E) (r : rb_tree C E).
Arguments rb_leaf {C E}.
Arguments rb_node {C E} c l e r.

(** A node's position: the links taken from the root. *)
Inductive rb_link : Type := rb_left | rb_right.

Section Walk.
Context {C E : Type}.

(** The nodes in the order of [rb_first] and [rb_next]. *)
Fixpoint rb_inorder (t : rb_tree C E) : list E :=
  match t with
  | rb_leaf => []
  | rb_node _ l e r => rb_inorder l ++ e :: rb_inorder r
  end.

(** The descent [while ( *link )]: compare with each node on the way, stop on a
    match or at a null link. *)
Fixpoint rb_descend (cmp : E -> comparison) (t : rb_tree C E) : list rb_link * option E :=
  match t with
  | rb_leaf => ([], None)
  | rb_node _ l e r =>
      match cmp e with
      | Lt => let '(p, o) := rb_descend cmp l in (rb_left :: p, o)
      | Gt => let '(p, o) := rb_descend cmp r in (rb_right :: p, o)
      | Eq => ([], Some e)
      end
  end.

(** Writing through the pointer to the entry at a position. *)
Fixpoint rb_write (p : list rb_link) (f : E -> E) (t : rb_tree C E) : rb_tree C E :=
  match t, p with
  | rb_leaf, _ => rb_leaf
  | rb_node c l e r, [] => rb_node c l (f e) r
  | rb_node c l e r, rb_left :: p' => rb_node c (rb_write p' f l) e r
  | rb_node c l e r, rb_right :: p' => rb_node c l e (rb_write p' f r)
  end.

(** [rb_link_node]: hang a new node on the null link at a position. *)
Fixpoint rb_link_node (p : list rb_link) (c : C) (new : E) (t : rb_tree C E) : rb_tree C E :=
  match t, p with
  | rb_leaf, _ => rb_node c rb_leaf new rb_leaf
  | rb_node c0 l e r, [] => t
  | rb_node c0 l e r, rb_left :: p' => rb_node c0 (rb_link_node p' c new l) e r
  | rb_node c0 l e r, rb_right :: p' => rb_node c0 l e (rb_link_node p' c new r)
  end.

(** [rb_first]: the leftmost node. *)
Fixpoint rb_first (t : rb_tree C E) : option (list rb_link * E) :=
  match t with
  | rb_leaf => None
  | rb_node _ l e _ =>
      match rb_first l with
      | Some (p, e') => Some (rb_left :: p, e')
      | None => Some ([], e)
      end
  end.

(** The nodes before and after a position. *)
Fixpoint rb_around (p : list rb_link) (t : rb_tree C E) : list E * list E :=
  match t, p with
  | rb_leaf, _ => ([], [])
  | rb_node _ l e r, [] => (rb_inorder l, rb_inorder r)
  | rb_node _ l e r, rb_left :: p' =>
      let '(a, b) := rb_around p' l in (a, b ++ e :: rb_inorder r)
  | rb_node _ l e r, rb_right :: p' =>
      let '(a, b) := rb_around p' r in (rb_inorder l ++ e :: a, b)
  end.

End Walk.

Class RbTree : Type := {
  rb_color : Type;
  (** What [rb_link_node] stores in a fresh node. *)
  rb_new : rb_color;
  (** Rebalance after the node at the position was linked. *)
  rb_insert_color : forall {E}, list rb_link -> rb_tree rb_color E -> rb_tree rb_color E;
  (** Unlink the node at the position and rebalance. *)
  rb_erase : forall {E}, list rb_link -> rb_tree rb_color E -> rb_tree rb_color E;
}.

Class RbTreeLaws `{RbTree} : Prop := {
  rb_insert_color_order : forall E p (t : rb_tree rb_color E),
    rb_inorder (rb_insert_color p t) = rb_inorder t;
  rb_erase_order : forall E p (t : rb_tree rb_color E),
    rb_inorder (rb_erase p t) = fst (rb_around p t) ++ snd (rb_around p t);
}.

Section WalkFacts.
Context {C E : Type}.

Lemma rb_first_spec (t : rb_tree C E) :
  match rb_first t with
  | None => t = rb_leaf
  | Some (p, e) => rb_inorder t = e :: snd (rb_around p t) /\ fst (rb_around p t) = []
  end.
Proof.
  induction t as [|c l IHl e r _]; [done|]. cbn.
  destruct (rb_first l) as [[p e']|]; [|by subst].
  destruct IHl as [Heq Hb]. cbn. destruct (rb_around p l) as [a b]. cbn in *.
  by rewrite Heq.
Qed.

(** A descent by a key finds the node with that key, or the place where it
    belongs between the smaller and the larger keys. *)
Lemma rb_descend_spec (key : E -> Z) (k : Z) (t : rb_tree C E) :
  StronglySorted Z.lt (key <$> rb_inorder t) ->
  let '(p, o) := rb_descend (fun e => Z.compare k (key e)) t in
  match o with
  | Some e => key e = k /\ exists l r, rb_inorder t = l ++ e :: r /\
      forall f, rb_inorder (rb_write p f t) = l ++ f e :: r
  | None => exists l r, rb_inorder t = l ++ r /\
      Forall (fun e => key e < k) l /\ Forall (fun e => k < key e) r /\
      forall c new, rb_inorder (rb_link_node p c new t) = l ++ new :: r
  end.
Proof.
  induction t as [|c l IHl e r IHr]; intros Hs; cbn [rb_descend].
  { exists [], []. split; [done|]. split; [done|]. split; [done|]. intros. done. }
  cbn [rb_inorder] in Hs. rewrite fmap_app, fmap_cons in Hs.
  apply StronglySorted_app in Hs as (Hlr & Hsl & Hsr).
  apply StronglySorted_inv in Hsr as [Hsr Her].
  assert (Hle : Forall (fun x => key x < key e) (rb_inorder l)).
  { apply list.Forall_forall. intros x Hx. apply (Hlr (key x) (key e)).
    - apply list_elem_of_fmap. eauto.
    - apply list_elem_of_here. }
  assert (Hre : Forall (fun x => key e < key x) (rb_inorder r)).
  { rewrite Forall_fmap in Her. exact Her. }
  destruct (Z.compare_spec k (key e)) as [Heq|Hlt|Hgt].
  - split; [done|]. exists (rb_inorder l), (rb_inorder r). done.
  - specialize (IHl Hsl). destruct (rb_descend _ l) as [p [e'|]].
    + destruct IHl as (Hk & l' & r' & Heq & Hw). split; [done|].
      exists l', (r' ++ e :: rb_inorder r). cbn [rb_inorder rb_write].
      split; [by rewrite Heq, <- app_assoc|]. intros f. by rewrite Hw, <- app_assoc.
    + destruct IHl as (l' & r' & Heq & Hl' & Hr' & Hw).
      exists l', (r' ++ e :: rb_inorder r). cbn [rb_inorder rb_link_node].
      split; [by rewrite Heq, <- app_assoc|]. split; [done|]. split.
      * apply Forall_app. split; [done|]. constructor; [done|].
        eapply Forall_impl; [exact Hre|]. cbn. lia.
      * intros c' new. by rewrite Hw, <- app_assoc.
  - specialize (IHr Hsr). destruct (rb_descend _ r) as [p [e'|]].
    + destruct IHr as (Hk & l' & r' & Heq & Hw). split; [done|].
      exists (rb_inorder l ++ e :: l'), r'. cbn [rb_inorder rb_write].
      split; [by rewrite Heq, <- app_assoc|]. intros f. by rewrite Hw, <- app_assoc.
    + destruct IHr as (l' & r' & Heq & Hl' & Hr' & Hw).
      exists (rb_inorder l ++ e :: l'), r'. cbn [rb_inorder rb_link_node].
      split; [by rewrite Heq, <- app_assoc|]. split; [|split; [done|]].
      * apply Forall_app. split; [eapply Forall_impl; [exact Hle|]; cbn; lia|].
        by constructor.
      * intros c' new. by rewrite Hw, <- app_assoc.
Qed.

End WalkFacts.

(** A tree that is never rebalanced: the simplest implementation of the
    interface, for concrete runs. *)
Fixpoint plain_erase {E} (p : list rb_link) (t : rb_tree unit E) : rb_tree unit E :=
  match t, p with
  | rb_leaf, _ => rb_leaf
  | rb_node c l e r, rb_left :: p' => rb_node c (plain_erase p' l) e r
  | rb_node c l e r, rb_right :: p' => rb_node c l e (plain_erase p' r)
  | rb_node c l e r, [] =>
      (* hang the left subtree below the leftmost node of the right one *)
      (fix hang (t : rb_tree unit E) : rb_tree unit E :=
         match t with
         | rb_leaf => l
         | rb_node c' l' e' r' => rb_node c' (hang l') e' r'
         end) r
  end.

#[export] Instance plain_rb_tree : RbTree := {|
  rb_color := unit;
  rb_new := tt;
  rb_insert_color := fun _ _ t => t;
  rb_erase := fun _ p t => plain_erase p t;
|}.

#[export] Instance plain_rb_tree_laws : RbTreeLaws.
Proof.
  constructor; [done|]. intros E p t. cbn in *. revert p.
  induction t as [|c l IHl e r IHr]; intros [|[] p]; cbn; try done.
  - clear IHr. induction r as [|c' l' IHl' e' r' _]; cbn; [by rewrite app_nil_r|].
    by rewrite IHl', <- app_assoc.
  - rewrite IHl. destruct (rb_around p l) as [a b]. cbn. by rewrite <- app_assoc.
  - rewrite IHr. destruct (rb_around p r) as [a b]. cbn. by rewrite <- app_assoc.
Qed.
