(* ===== verification/Memtable.v ===== *)
(** The MemTable: [src/lsm-memtable.h] and [src/lsm-memtable.c].  An in-memory map
    from logical block to physical sector on the kernel's red-black tree, and the
    generations (active, immutable) a table moves through.

    A table pointer that may be NULL is an [option]; the slots of the engine are
    such pointers.  The mutexes and the spinlock make each operation atomic.  An
    operation that fails leaves the table it was given as it was, so tables are
    passed and returned by value. *)
From S2P Require Import Prelude Kernel RbTree.

Record lsm_entry : Type := mk_entry {
  e_logical_block : Z;
  e_physical_sector : Z;
  e_sequence : Z;
}.

Section Memtable.
Context `{RbTree}.

Record lsm_memtable : Type := mk_memtable {
  mt_root : rb_tree rb_color lsm_entry;
  mt_next_sequence : Z;
  mt_nr_entries : Z;
}.

(** The entries in the order [rb_first]/[rb_next] visit them. *)
Definition mt_entries (m : lsm_memtable) : list lsm_entry := rb_inorder (mt_root m).

(** Comparing the wanted block with an entry on the way down. *)
Definition by_block (logical_block : Z) (e : lsm_entry) : comparison :=
  Z.compare logical_block (e_logical_block e).

Definition memtable_init : lsm_memtable := mk_memtable rb_leaf 1 0.

Definition memtable_create : M mem (option lsm_memtable) :=
  r <- attempt kmalloc ;;
  match r with
  | Err _ => ret None
  | Ok _ => ret (Some memtable_init)
  end.

Definition memtable_find (memtable : lsm_memtable) (logical_block : Z) : option lsm_entry :=
  snd (rb_descend (by_block logical_block) (mt_root memtable)).

(** On success the physical sector and the sequence number. *)
Definition memtable_lookup (memtable : option lsm_memtable) (logical_block : Z)
    : result (Z * Z) :=
  match memtable with
  | None => Err (- EINVAL)
  | Some m =>
      match memtable_find m logical_block with
      | None => Err (- ENODATA)
      | Some entry => Ok (e_physical_sector entry, e_sequence entry)
      end
  end.

(** Link a new entry at a null link and rebalance. *)
Definition memtable_link (m : lsm_memtable) (p : list rb_link)
    (logical_block physical_sector : Z) : lsm_memtable :=
  let new_entry := mk_entry logical_block physical_sector (mt_next_sequence m) in
  mk_memtable (rb_insert_color p (rb_link_node p rb_new new_entry (mt_root m)))
    (u64 (mt_next_sequence m + 1)) (u32 (mt_nr_entries m + 1)).

(** Overwrite the entry at a position. *)
Definition memtable_overwrite (m : lsm_memtable) (p : list rb_link) (physical_sector : Z)
    : lsm_memtable :=
  mk_memtable
    (rb_write p (fun e => mk_entry (e_logical_block e) physical_sector (mt_next_sequence m))
       (mt_root m))
    (u64 (mt_next_sequence m + 1)) (mt_nr_entries m).

Definition memtable_insert (memtable : option lsm_memtable)
    (logical_block physical_sector : Z) : M mem lsm_memtable :=
  match memtable with
  | None => Prelude.fail (- EINVAL)
  | Some m =>
      kmalloc ;;;
      match rb_descend (by_block logical_block) (mt_root m) with
      | (_, Some _) => Prelude.fail (- EEXIST)
      | (p, None) => ret (memtable_link m p logical_block physical_sector)
      end
  end.

Definition memtable_update (memtable : option lsm_memtable)
    (logical_block physical_sector : Z) : result lsm_memtable :=
  match memtable with
  | None => Err (- EINVAL)
  | Some m =>
      match rb_descend (by_block logical_block) (mt_root m) with
      | (_, None) => Err (- ENODATA)
      | (p, Some _) => Ok (memtable_overwrite m p physical_sector)
      end
  end.

Definition memtable_put (memtable : option lsm_memtable)
    (logical_block physical_sector : Z) : M mem lsm_memtable :=
  match memtable with
  | None => Prelude.fail (- EINVAL)
  | Some m =>
      kmalloc ;;;
      match rb_descend (by_block logical_block) (mt_root m) with
      | (p, Some _) => ret (memtable_overwrite m p physical_sector)
      | (p, None) => ret (memtable_link m p logical_block physical_sector)
      end
  end.

(** The loop of [memtable_destroy], bounded by a number of iterations: the entries
    freed, in order, and the tree that is left. *)
Fixpoint destroy_loop (fuel : nat) (t : rb_tree rb_color lsm_entry)
    : list lsm_entry * rb_tree rb_color lsm_entry :=
  match fuel with
  | O => ([], t)
  | S fuel' =>
      match rb_first t with
      | None => ([], t)
      | Some (p, entry) =>
          let '(freed, t') := destroy_loop fuel' (rb_erase p t) in
          (entry :: freed, t')
      end
  end.

(** One iteration per entry is enough ([destroy_frees_everything] below). *)
Definition memtable_destroy (memtable : option lsm_memtable)
    : list lsm_entry * option lsm_memtable :=
  match memtable with
  | None => ([], None)
  | Some m =>
      let '(freed, t) := destroy_loop (length (mt_entries m)) (mt_root m) in
      (freed, Some (mk_memtable t (mt_next_sequence m) 0))
  end.

(** The entries [memtable_free] returns to the allocator. *)
Definition memtable_free (memtable : option lsm_memtable) : list lsm_entry :=
  fst (memtable_destroy memtable).

Definition memtable_size (memtable : option lsm_memtable) : Z :=
  match memtable with
  | None => 0
  | Some m => mt_nr_entries m
  end.

(** ** Compaction *)

Abbreviation memtable_compact_put_fn := (option lsm_memtable -> Z -> Z -> M mem lsm_memtable).
Abbreviation memtable_compact_fn :=
  (option lsm_memtable -> option lsm_memtable -> M mem lsm_memtable).
Abbreviation memtable_create_fn := (M mem (option lsm_memtable)).

Fixpoint copy_entries (source : list lsm_entry) (destination : lsm_memtable)
    (put : memtable_compact_put_fn) : M mem lsm_memtable :=
  match source with
  | [] => ret destination
  | entry :: rest =>
      destination' <- put (Some destination) (e_logical_block entry)
                        (e_physical_sector entry) ;;
      copy_entries rest destination' put
  end.

Definition memtable_compact_copy (source : lsm_memtable) (destination : lsm_memtable)
    (put : memtable_compact_put_fn) : M mem lsm_memtable :=
  copy_entries (mt_entries source) destination put.

(** On an error the half-filled merged table is freed: none is returned. *)
Definition memtable_compact_with_put (older newer : option lsm_memtable)
    (put : memtable_compact_put_fn) : M mem lsm_memtable :=
  match older, newer with
  | Some older, Some newer =>
      merged <- memtable_create ;;
      match merged with
      | None => Prelude.fail (- ENOMEM)
      | Some merged =>
          merged <- memtable_compact_copy older merged put ;;
          memtable_compact_copy newer merged put
      end
  | _, _ => Prelude.fail (- EINVAL)
  end.

Definition memtable_compact (older newer : option lsm_memtable) : M mem lsm_memtable :=
  memtable_compact_with_put older newer memtable_put.

(** ** Generations *)

(** The (active, immutable) slots. *)
Abbreviation slots := (option lsm_memtable * option lsm_memtable)%type.

Definition memtable_freeze_prepared_locked (s : slots) (new_active : option lsm_memtable)
    : result slots :=
  let '(active, immutable) := s in
  match new_active, active, immutable with
  | None, _, _ => Err (- ENOMEM)
  | _, None, _ => Err (- EINVAL)
  | _, _, Some _ => Err (- EBUSY)
  | Some _, Some _, None => Ok (new_active, active)
  end.

Definition memtable_freeze_prepared (s : slots) (new_active : option lsm_memtable)
    : result slots := memtable_freeze_prepared_locked s new_active.

(** A table prepared in vain is freed. *)
Definition memtable_freeze (s : slots) : M mem slots :=
  new_active <- memtable_create ;;
  match new_active with
  | None => Prelude.fail (- ENOMEM)
  | Some _ => lift (memtable_freeze_prepared s new_active)
  end.

Definition memtable_lookup_active_immutable (s : slots) (logical_block : Z) : result Z :=
  let '(active, immutable) := s in
  match active with
  | None => Err (- EINVAL)
  | Some _ =>
      match memtable_lookup active logical_block, immutable with
      | Err e, Some _ =>
          if e =? - ENODATA
          then match memtable_lookup immutable logical_block with
               | Ok (p, _) => Ok p
               | Err e' => Err e'
               end
          else Err e
      | Ok (p, _), _ => Ok p
      | Err e, None => Err e
      end
  end.

(** The slots after the write; on an error they are as before.  Maintenance that
    fails keeps the stored write ("preserve_write"). *)
Definition memtable_put_active_with_ops (s : slots) (threshold logical_block physical_sector : Z)
    (compact : memtable_compact_fn) (create : memtable_create_fn) : M mem slots :=
  if threshold =? 0 then Prelude.fail (- EINVAL)
  else
  let '(active, immutable) := s in
  match active with
  | None => Prelude.fail (- EINVAL)
  | Some _ =>
      active <- memtable_put active logical_block physical_sector ;;
      if memtable_size (Some active) <? threshold then ret (Some active, immutable)
      else
      match immutable with
      | None =>
          new_active <- create ;;
          match new_active with
          | None => ret (Some active, immutable)
          | Some _ =>
              match memtable_freeze_prepared_locked (Some active, immutable) new_active with
              | Ok s' => ret s'
              | Err _ => ret (Some active, immutable)
              end
          end
      | Some _ =>
          merged <- attempt (compact immutable (Some active)) ;;
          match merged with
          | Err _ => ret (Some active, immutable)
          | Ok merged =>
              new_active <- create ;;
              match new_active with
              | None => ret (Some active, immutable)
              | Some _ => ret (new_active, Some merged)
              end
          end
      end
  end.

Definition memtable_put_active (s : slots) (threshold logical_block physical_sector : Z)
    : M mem slots :=
  memtable_put_active_with_ops s threshold logical_block physical_sector
    memtable_compact memtable_create.

End Memtable.

(** ** Well-formed tables and the map they stand for *)
Section MemtableFacts.
Context `{RbTreeLaws}.

Record mt_wf (m : lsm_memtable) : Prop := {
  mwf_sorted : StronglySorted Z.lt (e_logical_block <$> mt_entries m);
  mwf_size : mt_nr_entries m = u32 (zlen (mt_entries m));
}.

(** A pair of the mapping. *)
Definition entry_pair (e : lsm_entry) : Z * Z := (e_logical_block e, e_physical_sector e).

(** Logical block to physical sector. *)
Definition mt_map (m : lsm_memtable) : gmap Z Z := list_to_map (entry_pair <$> mt_entries m).

(** The mapping of a slot: an absent table maps nothing. *)
Definition slot_map (o : option lsm_memtable) : gmap Z Z :=
  match o with Some m => mt_map m | None => ∅ end.

Definition slot_wf (o : option lsm_memtable) : Prop :=
  match o with Some m => mt_wf m | None => True end.

Lemma fst_entry_pairs (es : list lsm_entry) :
  fst <$> (entry_pair <$> es) = e_logical_block <$> es.
Proof. rewrite <- list_fmap_compose. done. Qed.

Lemma mt_wf_NoDup m : mt_wf m -> NoDup (fst <$> (entry_pair <$> mt_entries m)).
Proof. intros [Hs _]. rewrite fst_entry_pairs. by apply sorted_lt_NoDup. Qed.

Lemma memtable_init_wf : mt_wf memtable_init /\ mt_map memtable_init = ∅.
Proof. split; [constructor; [constructor|done]|done]. Qed.

(** The walk decides the mapping. *)
Lemma memtable_find_map m k :
  mt_wf m -> e_physical_sector <$> memtable_find m k = mt_map m !! k.
Proof.
  intros Hwf. unfold memtable_find.
  pose proof (rb_descend_spec e_logical_block k (mt_root m) (mwf_sorted m Hwf)) as Hd.
  pose proof (mt_wf_NoDup m Hwf) as Hnd.
  unfold by_block. destruct (rb_descend _ _) as [p [e|]]; cbn.
  - destruct Hd as (Hk & l & r & Heq & _). symmetry. apply elem_of_list_to_map; [done|].
    apply list_elem_of_fmap. exists e. split; [by unfold entry_pair; rewrite Hk|].
    unfold mt_entries. rewrite Heq. apply elem_of_app. right. apply list_elem_of_here.
  - destruct Hd as (l & r & Heq & Hl & Hr & _). symmetry. apply not_elem_of_list_to_map.
    rewrite fst_entry_pairs. intros (e & -> & He)%list_elem_of_fmap.
    unfold mt_entries in He. rewrite Heq in He. rewrite list.Forall_forall in Hl, Hr.
    apply elem_of_app in He as [He|He]; [specialize (Hl e He)|specialize (Hr e He)];
      cbn in *; lia.
Qed.

Lemma memtable_lookup_map m k :
  mt_wf m ->
  match mt_map m !! k with
  | Some p => exists s, memtable_lookup (Some m) k = Ok (p, s)
  | None => memtable_lookup (Some m) k = Err (- ENODATA)
  end.
Proof.
  intros Hwf. pose proof (memtable_find_map m k Hwf) as Hf. unfold memtable_lookup.
  destruct (memtable_find m k) as [e|]; cbn in Hf; rewrite <- Hf; [by eexists|done].
Qed.

(** Overwriting and linking. *)
Lemma u32_succ z : u32 (u32 z + 1) = u32 (z + 1).
Proof. unfold u32. by rewrite Zplus_mod_idemp_l. Qed.

Lemma memtable_overwrite_wf m k v p e :
  mt_wf m -> rb_descend (by_block k) (mt_root m) = (p, Some e) ->
  mt_wf (memtable_overwrite m p v) /\
  mt_map (memtable_overwrite m p v) = <[k := v]> (mt_map m) /\
  is_Some (mt_map m !! k).
Proof.
  intros Hwf Hd.
  pose proof (rb_descend_spec e_logical_block k (mt_root m) (mwf_sorted m Hwf)) as Hs.
  pose proof (mt_wf_NoDup m Hwf) as Hnd. pose proof (memtable_find_map m k Hwf) as Hfind.
  unfold memtable_find in Hfind. fold (by_block k) in Hs. rewrite Hd in Hs, Hfind.
  destruct Hs as (Hk & l & r & Heq & Hw). cbn in Hfind. destruct Hwf as [Hsort Hsize].
  unfold mt_entries in *. split; [|split; [|by rewrite <- Hfind]].
  - constructor; unfold mt_entries; cbn; rewrite Hw.
    + rewrite Heq in Hsort. by rewrite fmap_app, fmap_cons in *.
    + rewrite Hsize, Heq. unfold zlen. by rewrite !length_app.
  - unfold mt_map, mt_entries. cbn. rewrite Hw, Heq. rewrite Heq in Hnd.
    rewrite !fmap_app, !fmap_cons in *.
    assert (He : entry_pair e = (k, e_physical_sector e)) by (unfold entry_pair; by rewrite Hk).
    rewrite He in *. unfold entry_pair at 2. cbn [e_logical_block e_physical_sector].
    rewrite Hk. apply list_to_map_overwrite. by rewrite fmap_app, fmap_cons.
Qed.

Lemma memtable_link_wf m k v p :
  mt_wf m -> rb_descend (by_block k) (mt_root m) = (p, None) ->
  mt_wf (memtable_link m p k v) /\
  mt_map (memtable_link m p k v) = <[k := v]> (mt_map m) /\
  mt_map m !! k = None.
Proof.
  intros Hwf Hd.
  pose proof (rb_descend_spec e_logical_block k (mt_root m) (mwf_sorted m Hwf)) as Hs.
  pose proof (memtable_find_map m k Hwf) as Hfind.
  unfold memtable_find in Hfind. fold (by_block k) in Hs. rewrite Hd in Hs, Hfind.
  destruct Hs as (l & r & Heq & Hl & Hr & Hw). cbn in Hfind. destruct Hwf as [Hsort Hsize].
  unfold mt_entries in *.
  assert (Hsort' : StronglySorted Z.lt (e_logical_block <$>
    mt_entries (memtable_link m p k v))).
  { unfold mt_entries. cbn. rewrite rb_insert_color_order, Hw.
    apply sorted_middle; [by rewrite <- Heq|done..]. }
  split; [|split; [|done]].
  - constructor; [done|]. unfold mt_entries. cbn.
    rewrite rb_insert_color_order, Hw, Hsize, Heq, u32_succ. f_equal.
    unfold zlen. rewrite !length_app. cbn. lia.
  - apply sorted_lt_NoDup in Hsort'. rewrite <- fst_entry_pairs in Hsort'.
    unfold mt_map, mt_entries in *. cbn in *. rewrite rb_insert_color_order, Hw in *.
    rewrite fmap_app, fmap_cons in Hsort'. rewrite Heq, !fmap_app, fmap_cons.
    by apply list_to_map_middle.
Qed.

Lemma memtable_put_cases m k v a :
  mt_wf m ->
  match memtable_put (Some m) k v a with
  | (Ok m', a') => (no_fail a -> no_fail a') /\ mt_wf m' /\
                   mt_map m' = <[k := v]> (mt_map m) /\
                   zlen (mt_entries m') = zlen (mt_entries m) +
                     (if bool_decide (is_Some (mt_map m !! k)) then 0 else 1)
  | (Err e, a') => e = - ENOMEM /\ ~ no_fail a
  end.
Proof.
  intros Hwf. cbn. unfold bind.
  destruct (kmalloc_cases a) as [(a' & -> & Hnf)|(a' & -> & Hf)]; [|done].
  pose proof (rb_descend_spec e_logical_block k (mt_root m) (mwf_sorted m Hwf)) as Hs.
  fold (by_block k) in Hs.
  destruct (rb_descend (by_block k) (mt_root m)) as [p [e|]] eqn:Hd; cbn.
  - destruct (memtable_overwrite_wf m k v p e Hwf Hd) as (Hw & Hm & Hin).
    split; [done|]. split; [done|]. split; [done|]. rewrite bool_decide_eq_true_2 by done.
    destruct Hs as (_ & l & r & Heq & Hwr).
    unfold mt_entries. cbn. rewrite Hwr, Heq. unfold zlen. rewrite !length_app. cbn. lia.
  - destruct (memtable_link_wf m k v p Hwf Hd) as (Hw & Hm & Hin).
    split; [done|]. split; [done|]. split; [done|]. rewrite Hin, bool_decide_eq_false_2.
    2:{ by intros []. }
    destruct Hs as (l & r & Heq & _ & _ & Hwr).
    unfold mt_entries. cbn. rewrite rb_insert_color_order, Hwr, Heq. unfold zlen.
    rewrite !length_app. cbn. lia.
Qed.

(** The physical sector a lookup returns. *)
Definition looked_up (m : lsm_memtable) (k : Z) : option Z :=
  match memtable_lookup (Some m) k with
  | Ok (p, _) => Some p
  | Err _ => None
  end.

Lemma looked_up_map m k : mt_wf m -> looked_up m k = mt_map m !! k.
Proof.
  intros Hwf. unfold looked_up. pose proof (memtable_lookup_map m k Hwf) as Hl.
  destruct (mt_map m !! k); [by destruct Hl as [s ->]|by rewrite Hl].
Qed.

(** C34.  [memtable_put] on a well-formed table either fails with [-ENOMEM],
    because its one allocation failed, or leaves a well-formed table in which the
    block reads back the new sector and every other block reads as before; the
    entry count grows by one exactly when the block was not mapped. *)
Theorem memtable_put_maps_block m k v a :
  mt_wf m ->
  match memtable_put (Some m) k v a with
  | (Ok m', _) =>
      mt_wf m' /\ looked_up m' k = Some v /\
      (forall k', k' <> k -> looked_up m' k' = looked_up m k') /\
      zlen (mt_entries m') = zlen (mt_entries m) +
        (if bool_decide (is_Some (looked_up m k)) then 0 else 1)
  | (Err e, _) => e = - ENOMEM /\ ~ no_fail a
  end.
Proof.
  intros Hwf. pose proof (memtable_put_cases m k v a Hwf) as Hp.
  destruct (memtable_put (Some m) k v a) as [[m'|e] a']; [|done].
  destruct Hp as (_ & Hwf' & Hm & Hlen). split; [done|].
  rewrite !looked_up_map by done. rewrite Hm. split; [apply lookup_insert_eq|].
  split; [|done]. intros k' Hk. rewrite !looked_up_map, Hm by done.
  by rewrite lookup_insert_ne.
Qed.

(** [memtable_insert] refuses a mapped block with [-EEXIST] and
    [memtable_update] an unmapped one with [-ENODATA]; otherwise both store the
    mapping and keep the table well formed. *)
Theorem memtable_insert_update_guards m k v a :
  mt_wf m -> no_fail a ->
  match mt_map m !! k with
  | Some _ => fst (memtable_insert (Some m) k v a) = Err (- EEXIST)
  | None => exists m', fst (memtable_insert (Some m) k v a) = Ok m' /\
              mt_wf m' /\ mt_map m' = <[k := v]> (mt_map m)
  end /\
  match mt_map m !! k with
  | None => memtable_update (Some m) k v = Err (- ENODATA)
  | Some _ => exists m', memtable_update (Some m) k v = Ok m' /\
                mt_wf m' /\ mt_map m' = <[k := v]> (mt_map m)
  end.
Proof.
  intros Hwf Hk. cbn. unfold bind.
  destruct (kmalloc_cases a) as [(a' & -> & _)|(a' & -> & Hf)]; [|done].
  destruct (rb_descend (by_block k) (mt_root m)) as [p [e|]] eqn:Hd; cbn.
  - destruct (memtable_overwrite_wf m k v p e Hwf Hd) as (Hw & Hm & [x Hx]).
    rewrite Hx. split; [done|by eexists].
  - destruct (memtable_link_wf m k v p Hwf Hd) as (Hw & Hm & Hin).
    rewrite Hin. split; [by eexists|done].
Qed.

(** ** Compaction *)

(** Later pairs win. *)
Definition put_all (es : list lsm_entry) (m : gmap Z Z) : gmap Z Z :=
  foldl (fun m e => <[e_logical_block e := e_physical_sector e]> m) m es.

Lemma put_all_union es (m : gmap Z Z) :
  NoDup (e_logical_block <$> es) ->
  put_all es m = (list_to_map (entry_pair <$> es) : gmap Z Z) ∪ m.
Proof.
  unfold put_all. revert m. induction es as [|e es IH]; intros m Hnd; cbn [foldl].
  { symmetry. apply (left_id_L ∅ (∪)). }
  rewrite fmap_cons in *. apply NoDup_cons in Hnd as [Hni Hnd]. rewrite IH by done.
  change (entry_pair e) with (e_logical_block e, e_physical_sector e).
  rewrite list_to_map_cons, <- insert_union_l. symmetry. apply insert_union_r.
  apply not_elem_of_list_to_map. by rewrite fst_entry_pairs.
Qed.

Lemma copy_entries_map es m a :
  mt_wf m ->
  match copy_entries es m memtable_put a with
  | (Ok m', a') => (no_fail a -> no_fail a') /\ mt_wf m' /\ mt_map m' = put_all es (mt_map m)
  | (Err e, _) => e = - ENOMEM /\ ~ no_fail a
  end.
Proof.
  revert m a. induction es as [|e es IH]; intros m a Hwf; [done|].
  cbn [copy_entries]. unfold bind.
  pose proof (memtable_put_cases m (e_logical_block e) (e_physical_sector e) a Hwf) as Hp.
  destruct (memtable_put _ _ _ a) as [[m1|er] a1]; [|done].
  destruct Hp as (Hk & Hwf1 & Hm1 & _). specialize (IH m1 a1 Hwf1).
  destruct (copy_entries es m1 memtable_put a1) as [[m2|er] a2].
  - rewrite Hm1 in IH. destruct IH as (? & ? & ?). auto.
  - destruct IH as [-> Hnf]. auto.
Qed.

Lemma memtable_create_cases a :
  (exists a', memtable_create a = (Ok (Some memtable_init), a') /\ (no_fail a -> no_fail a')) \/
  (exists a', memtable_create a = (Ok None, a') /\ ~ no_fail a).
Proof.
  unfold memtable_create, bind, attempt.
  destruct (kmalloc_cases a) as [(a' & -> & Hin)|(a' & -> & ?)]; [left|right]; by eexists.
Qed.

Lemma memtable_compact_map o n a :
  mt_wf o -> mt_wf n ->
  match memtable_compact (Some o) (Some n) a with
  | (Ok m, a') => (no_fail a -> no_fail a') /\ mt_wf m /\ mt_map m = mt_map n ∪ mt_map o
  | (Err e, _) => e = - ENOMEM /\ ~ no_fail a
  end.
Proof.
  intros Ho Hn. unfold memtable_compact, memtable_compact_with_put, bind.
  destruct (memtable_create_cases a) as [(a1 & -> & Hnf)|(a1 & -> & ?)]; [|done].
  unfold memtable_compact_copy. destruct memtable_init_wf as [Hwf0 Hm0].
  pose proof (copy_entries_map (mt_entries o) memtable_init a1 Hwf0) as Hc.
  destruct (copy_entries (mt_entries o) _ _ a1) as [[m1|e] a2].
  2:{ destruct Hc as [-> Hf]. split; [done|]. tauto. }
  destruct Hc as (Hnf1 & Hwf1 & Hm1).
  pose proof (copy_entries_map (mt_entries n) m1 a2 Hwf1) as Hc2.
  destruct (copy_entries (mt_entries n) m1 _ a2) as [[m2|e] a3].
  - destruct Hc2 as (Hnf2 & Hwf2 & Hm2). split; [auto|]. split; [done|].
    rewrite Hm2, Hm1, Hm0, !put_all_union, (right_id_L ∅ (∪)); [done|..];
      by apply sorted_lt_NoDup, mwf_sorted.
  - destruct Hc2 as [-> Hf]. split; [done|]. tauto.
Qed.


(** C31.  Compacting two generations yields a well-formed table in which the newer
    generation wins on every block and the older one answers for the rest, whatever
    the sequence numbers stored in the entries; the only failure is [-ENOMEM]. *)
Theorem memtable_compact_newer_wins o n a :
  mt_wf o -> mt_wf n ->
  match memtable_compact (Some o) (Some n) a with
  | (Ok m, _) =>
      mt_wf m /\
      forall k, looked_up m k =
        match looked_up n k with Some p => Some p | None => looked_up o k end
  | (Err e, _) => e = - ENOMEM /\ ~ no_fail a
  end.
Proof.
  intros Ho Hn. pose proof (memtable_compact_map o n a Ho Hn) as Hc.
  destruct (memtable_compact _ _ a) as [[m|e] a']; [|done].
  destruct Hc as (_ & Hwf & Hm). split; [done|]. intros k.
  rewrite !looked_up_map, Hm, lookup_union by done.
  by destruct (mt_map n !! k), (mt_map o !! k).
Qed.

(** ** The two generations together *)

Abbreviation slots := (option lsm_memtable * option lsm_memtable)%type.

Definition slots_wf (s : slots) : Prop := slot_wf (fst s) /\ slot_wf (snd s).

(** What a reader of the slots sees: the active table first. *)
Definition slots_view (s : slots) : gmap Z Z := slot_map (fst s) ∪ slot_map (snd s).

Lemma compact_view o n m :
  mt_map m = mt_map n ∪ mt_map o ->
  slots_view (Some memtable_init, Some m) = slots_view (Some n, Some o).
Proof.
  intros Hm. unfold slots_view. cbn. rewrite Hm. apply (left_id_L ∅ (∪)).
Qed.

(** Every mapping of the new slots was in the old ones, or is the given one. *)
Definition slots_from (s : slots) (new : Z * Z) (s' : slots) : Prop :=
  forall j q, slot_map (fst s') !! j = Some q \/ slot_map (snd s') !! j = Some q ->
    (j, q) = new \/ slot_map (fst s) !! j = Some q \/ slot_map (snd s) !! j = Some q.

Lemma insert_from (m : gmap Z Z) k v j q :
  <[k := v]> m !! j = Some q -> (j, q) = (k, v) \/ m !! j = Some q.
Proof. intros [[-> ->]|[_ ?]]%lookup_insert_Some; auto. Qed.

Lemma put_active_cases s th k v a :
  slots_wf s -> 0 <= th ->
  match memtable_put_active s th k v a with
  | (Ok s', a') =>
      (no_fail a -> no_fail a') /\ slots_wf s' /\ is_Some (fst s') /\
      slots_view s' = <[k := v]> (slots_view s) /\
      slots_from s (k, v) s' /\
      (no_fail a -> memtable_size (fst s') < th)
  | (Err e, _) =>
      (e = - EINVAL /\ (th = 0 \/ fst s = None)) \/ (e = - ENOMEM /\ ~ no_fail a)
  end.
Proof.
  destruct s as [[act|] imm]; intros [Hact Himm] Hth; unfold memtable_put_active,
    memtable_put_active_with_ops; destruct (Z.eqb_spec th 0) as [->|Hne];
    cbn [fst snd slot_wf] in Hact, Himm |- *.
  1, 3, 4: cbn; by auto.
  pose proof (memtable_put_cases act k v a Hact) as Hp. unfold bind at 1.
  destruct (memtable_put (Some act) k v a) as [[act'|e] a1]; [|by right].
  destruct Hp as (Hnf1 & Hwf1 & Hm1 & _).
  assert (Hview : slots_view (Some act', imm) = <[k := v]> (slots_view (Some act, imm))).
  { unfold slots_view. cbn. rewrite Hm1. symmetry. apply insert_union_l. }
  assert (Hfrom : slots_from (Some act, imm) (k, v) (Some act', imm)).
  { intros j q [Hj|Hj]; cbn in *; [|by auto]. rewrite Hm1 in Hj.
    apply insert_from in Hj as [?|?]; auto. }
  assert (Hkeep : forall a2, (no_fail a -> False) -> (no_fail a -> no_fail a2) /\
    slots_wf (Some act', imm) /\ is_Some (Some act') /\
    slots_view (Some act', imm) = <[k := v]> (slots_view (Some act, imm)) /\
    slots_from (Some act, imm) (k, v) (Some act', imm) /\
    (no_fail a -> mt_nr_entries act' < th)).
  { intros a2 Hf. split_and!; [tauto|done|done|done|done|tauto]. }
  cbn [memtable_size]. destruct (Z.ltb_spec (mt_nr_entries act') th) as [Hlt|Hge].
  { cbn. split; [done|]. by split_and!. }
  destruct imm as [imm|].
  - unfold bind, attempt. pose proof (memtable_compact_map imm act' a1 Himm Hwf1) as Hc.
    destruct (memtable_compact _ _ a1) as [[mg|e] a2]; [|cbn; apply Hkeep; tauto].
    destruct Hc as (Hnf2 & Hwf2 & Hm2).
    destruct (memtable_create_cases a2) as [(a3 & -> & Hnf3)|(a3 & -> & ?)];
      [|cbn; apply Hkeep; tauto].
    cbn. split; [tauto|]. split; [split; [apply memtable_init_wf|done]|]. split; [done|].
    split; [rewrite <- Hview; by apply compact_view|]. split; [|lia].
    intros j q [Hj|Hj]; cbn in *; [done|]. rewrite Hm2, Hm1, lookup_union_Some_raw in Hj.
    destruct Hj as [Hj|[_ Hj]]; [apply insert_from in Hj as [?|?]|]; auto.
  - unfold bind. destruct (memtable_create_cases a1) as [(a3 & -> & Hnf3)|(a3 & -> & ?)];
      [|cbn; apply Hkeep; tauto].
    cbn. split; [tauto|]. split; [split; [apply memtable_init_wf|done]|]. split; [done|].
    split; [|split; [|lia]].
    + rewrite <- Hview. unfold slots_view. cbn.
      rewrite (left_id_L ∅ (∪)). symmetry. apply (right_id_L ∅ (∪)).
    + intros j q [Hj|Hj]; cbn in *; [done|]. rewrite Hm1 in Hj.
      apply insert_from in Hj as [?|?]; auto.
Qed.

Lemma lookup_active_immutable_view s k :
  slots_wf s -> is_Some (fst s) ->
  memtable_lookup_active_immutable s k =
    match slots_view s !! k with Some p => Ok p | None => Err (- ENODATA) end.
Proof.
  destruct s as [[act|] imm]; intros [Hact Himm] [x Hx]; [|done].
  unfold slots_view, memtable_lookup_active_immutable. cbn [fst snd slot_map] in *.
  pose proof (memtable_lookup_map act k Hact) as Ha. rewrite lookup_union.
  destruct (mt_map act !! k) as [p|].
  { destruct Ha as [q ->]. by destruct (slot_map imm !! k). }
  rewrite Ha, (left_id_L None (∪)). destruct imm as [imm|]; [|by cbn].
  pose proof (memtable_lookup_map imm k Himm) as Hi. cbn in *.
  destruct (mt_map imm !! k) as [p|]; [by destruct Hi as [q ->]|by rewrite Hi].
Qed.

(** C29.  A write through [memtable_put_active] is visible and disturbs nothing else:
    when it succeeds, a lookup of the slots returns the new sector for the written
    block and the old answer for every other block, whichever of the maintenance
    paths (none, freeze, compaction, or one that failed and was abandoned) was
    taken.  It fails only on a zero threshold, an absent active table, or the one
    allocation of the write itself; and when no allocation fails the active table is
    below the threshold afterwards. *)
Theorem put_active_then_lookup s th k v a :
  slots_wf s -> 0 <= th ->
  match memtable_put_active s th k v a with
  | (Ok s', _) =>
      slots_wf s' /\ memtable_lookup_active_immutable s' k = Ok v /\
      (forall k', k' <> k ->
         memtable_lookup_active_immutable s' k' = memtable_lookup_active_immutable s k') /\
      (no_fail a -> memtable_size (fst s') < th)
  | (Err e, _) =>
      (e = - EINVAL /\ (th = 0 \/ fst s = None)) \/ (e = - ENOMEM /\ ~ no_fail a)
  end.
Proof.
  intros Hwf Hth. pose proof (put_active_cases s th k v a Hwf Hth) as Hp.
  destruct (memtable_put_active s th k v a) as [[s'|e] a'] eqn:E; [|done].
  destruct Hp as (_ & Hwf' & Hact' & Hv & _ & Hlt).
  assert (Hact : is_Some (fst s)).
  { destruct s as [[act|] imm]; [done|]. unfold memtable_put_active,
      memtable_put_active_with_ops in E. by destruct (th =? 0). }
  rewrite lookup_active_immutable_view, Hv, lookup_insert_eq by done.
  split; [done|]. split; [done|]. split; [|done]. intros k' Hk.
  by rewrite !lookup_active_immutable_view, Hv, lookup_insert_ne by done.
Qed.

(** ** Freezing *)

(** Freezing moves the active generation aside and never loses one: it succeeds
    exactly when there is an active table, the immutable slot is free and the new
    table could be allocated; the view is then unchanged.  The refusals are
    [-ENOMEM], [-EINVAL] and [-EBUSY], in that order of precedence. *)
Theorem memtable_freeze_keeps_view s a :
  slots_wf s ->
  match memtable_freeze s a with
  | (Ok s', _) =>
      slots_wf s' /\ slots_view s' = slots_view s /\
      fst s' = Some memtable_init /\ snd s' = fst s /\ snd s = None /\ is_Some (fst s)
  | (Err e, _) =>
      (e = - ENOMEM /\ ~ no_fail a) \/ (e = - EINVAL /\ fst s = None) \/
      (e = - EBUSY /\ is_Some (fst s) /\ is_Some (snd s))
  end.
Proof.
  intros [Hact Himm]. unfold memtable_freeze, bind, lift.
  destruct (memtable_create_cases a) as [(a1 & -> & _)|(a1 & -> & ?)]; [|by left].
  destruct s as [[act|] [imm|]]; cbn in *; [by auto 6| |by auto..].
  split; [split; [apply memtable_init_wf|done]|]. split; [|done].
  unfold slots_view. cbn. rewrite (left_id_L ∅ (∪)). symmetry. apply (right_id_L ∅ (∪)).
Qed.

(** ** Destroying *)

Lemma destroy_loop_spec n (t : rb_tree rb_color lsm_entry) :
  length (rb_inorder t) = n ->
  destroy_loop n t = (rb_inorder t, rb_leaf).
Proof.
  revert t. induction n as [|n IH]; intros t Hn; cbn [destroy_loop].
  - apply nil_length_inv in Hn. rewrite Hn. destruct t; [done|]. cbn in Hn.
    by destruct (rb_inorder t1).
  - pose proof (rb_first_spec t) as Hf. destruct (rb_first t) as [[p e]|].
    + destruct Hf as [Heq Hb]. pose proof (rb_erase_order _ p t) as He.
      rewrite Hb in He. cbn in He. rewrite IH, He, Heq; [done|].
      rewrite He. rewrite Heq in Hn. cbn in Hn. lia.
    + by subst.
Qed.

(** C39.  Destroying a table frees each of its entries exactly once, in order, and
    the loop stops with the tree empty: it leaves a well-formed empty table. *)
Theorem memtable_destroy_frees_everything m :
  memtable_destroy (Some m) =
    (mt_entries m, Some (mk_memtable rb_leaf (mt_next_sequence m) 0)) /\
  (forall fuel, (length (mt_entries m) <= fuel)%nat ->
     destroy_loop fuel (mt_root m) = (mt_entries m, rb_leaf)).
Proof.
  split.
  - unfold memtable_destroy, mt_entries. by rewrite (destroy_loop_spec _ _ eq_refl).
  - unfold mt_entries. intros fuel. generalize (mt_root m) as t.
    induction fuel as [|fuel IH]; intros t Hf.
    + apply (destroy_loop_spec 0). lia.
    + cbn. pose proof (rb_first_spec t) as Hs. destruct (rb_first t) as [[p e]|]; [|by subst].
      destruct Hs as [Heq Hb]. pose proof (rb_erase_order _ p t) as He.
      rewrite Hb in He. cbn in He. rewrite IH, He, Heq; [done|].
      rewrite He. rewrite Heq in Hf. cbn in Hf. lia.
Qed.

End MemtableFacts.

(** ** Concrete runs, on trees that are never rebalanced *)
Module Examples.

(** The table after putting a list of pairs; no allocation fails. *)
Fixpoint demo_put (m : lsm_memtable) (l : list (Z * Z)) : lsm_memtable :=
  match l with
  | [] => m
  | (k, v) :: l' =>
      match memtable_put (Some m) k v [] with
      | (Ok m', _) => demo_put m' l'
      | (Err _, _) => m
      end
  end.

Lemma demo_put_wf l m : mt_wf m -> mt_wf (demo_put m l).
Proof.
  revert m. induction l as [|[k v] l IH]; intros m Hwf; [done|]. cbn [demo_put].
  pose proof (memtable_put_cases m k v [] Hwf) as Hp.
  destruct (memtable_put (Some m) k v []) as [[m'|e] a']; [|done]. apply IH. tauto.
Qed.

Definition old_table : lsm_memtable := demo_put memtable_init [(5, 80); (3, 40)].
Definition new_table : lsm_memtable := demo_put memtable_init [(3, 48); (9, 56)].

Lemma old_wf : mt_wf old_table.
Proof. apply demo_put_wf, memtable_init_wf. Qed.
Lemma new_wf : mt_wf new_table.
Proof. apply demo_put_wf, memtable_init_wf. Qed.

Lemma memtable_put_maps_block_witness :
  match memtable_put (Some old_table) 3 64 [] with
  | (Ok m', _) => looked_up m' 3 = Some 64 /\ zlen (mt_entries m') = 2
  | (Err _, _) => False
  end.
Proof.
  pose proof (memtable_put_maps_block old_table 3 64 [] old_wf) as H.
  destruct (memtable_put (Some old_table) 3 64 []) as [[m'|e] a'] eqn:E; [|discriminate E].
  destruct H as (_ & H1 & _ & H2). split; [exact H1|]. rewrite H2. reflexivity.
Defined.

Lemma memtable_insert_update_guards_witness :
  fst (memtable_insert (Some old_table) 5 1 []) = Err (- EEXIST) /\
  memtable_update (Some old_table) 7 1 = Err (- ENODATA).
Proof.
  split.
  - apply (memtable_insert_update_guards old_table 5 1 [] old_wf). constructor.
  - apply (memtable_insert_update_guards old_table 7 1 [] old_wf). constructor.
Defined.

(** Block 3 is in both tables: the newer sector wins although both entries carry
    small sequence numbers of their own tables. *)
Lemma memtable_compact_newer_wins_witness :
  match memtable_compact (Some old_table) (Some new_table) [] with
  | (Ok m, _) => looked_up m 3 = Some 48 /\ looked_up m 5 = Some 80
  | (Err _, _) => False
  end.
Proof.
  pose proof (memtable_compact_newer_wins old_table new_table [] old_wf new_wf) as H.
  destruct (memtable_compact (Some old_table) (Some new_table) []) as [[m|e] a'] eqn:E;
    [|discriminate E].
  destruct H as [_ H]. rewrite !H. split; reflexivity.
Defined.

(** Threshold 3: the third block fills the active table, which is then merged into
    the immutable one. *)
Lemma put_active_then_lookup_witness :
  match memtable_put_active (Some new_table, Some old_table) 3 7 72 [] with
  | (Ok s', _) => memtable_lookup_active_immutable s' 7 = Ok 72 /\
                  memtable_lookup_active_immutable s' 5 = Ok 80 /\ memtable_size (fst s') < 3
  | (Err _, _) => False
  end.
Proof.
  pose proof (put_active_then_lookup (Some new_table, Some old_table) 3 7 72 []
    (conj new_wf old_wf) ltac:(lia)) as H.
  destruct (memtable_put_active _ 3 7 72 []) as [[s'|e] a'] eqn:E; [|discriminate E].
  destruct H as (_ & H1 & H2 & H3). split; [exact H1|]. split.
  - rewrite H2 by lia. reflexivity.
  - apply H3. constructor.
Defined.

Lemma memtable_freeze_keeps_view_witness :
  match memtable_freeze (Some new_table, None) [] with
  | (Ok s', _) => slots_view s' = slots_view (Some new_table, None)
  | (Err _, _) => False
  end.
Proof.
  pose proof (memtable_freeze_keeps_view (Some new_table, None) [] (conj new_wf I)) as H.
  destruct (memtable_freeze (Some new_table, None) []) as [[s'|e] a'] eqn:E;
    [|discriminate E]. apply H.
Defined.

Lemma memtable_destroy_frees_everything_witness :
  destroy_loop 9 (mt_root old_table) = (mt_entries old_table, rb_leaf).
Proof.
  apply (memtable_destroy_frees_everything old_table). apply Nat.leb_le. reflexivity.
Defined.

End Examples.
