(* ===== verification/Sstable.v ===== *)
(** On-disk SSTables: [src/lsm-sstable.h] and [src/lsm-sstable.c].  A header block
    and blocks of sorted entries, written sequentially, found again by two nested
    binary searches. *)
From S2P Require Import Prelude Kernel ZonedRam Bytes RbTree Memtable.

Definition ZNS_SST_MAGIC : Z := 0x5a4e53535354424b.
Definition ZNS_SST_VERSION : Z := 1.
(** [sizeof(struct zns_sst_disk_entry)]. *)
Definition sizeof_disk_entry : Z := 16.
Definition ZNS_SST_ENTRIES_PER_BLOCK : Z := ZNS_SST_BLOCK_BYTES / sizeof_disk_entry.

(** [struct zns_sst_disk_header], packed: the offset of each member. *)
Definition h_magic : Z := 0.
Definition h_version : Z := 8.
Definition h_nr_entries : Z := 12.
Definition h_nr_blocks : Z := 16.
Definition h_payload_crc : Z := 20.
Definition h_seq : Z := 24.
Definition h_min_key : Z := 32.
Definition h_max_key : Z := 40.

(** [struct zns_sst_disk_entry]: the members of [entries[i]]. *)
Definition entry_logical_block (i : Z) : Z := sizeof_disk_entry * i.
Definition entry_physical_sector (i : Z) : Z := sizeof_disk_entry * i + 8.

Record zns_sstable : Type := mk_sst {
  s_start_sector : Z;
  s_nr_entries : Z;
  s_nr_blocks : Z;
  s_min_key : Z;
  s_max_key : Z;
  s_seq : Z;
  s_payload_crc : Z;
}.

#[export] Instance zns_sstable_eq_dec : EqDecision zns_sstable.
Proof. solve_decision. Defined.

(** What [kzalloc] returns. *)
Definition sst_zero : zns_sstable := mk_sst 0 0 0 0 0 0 0.

(** [DIV_ROUND_UP] by a [sizeof] quotient is computed on 64 bits. *)
Definition zns_sst_nr_blocks (nr_entries : Z) : Z :=
  u32 (1 + (nr_entries + ZNS_SST_ENTRIES_PER_BLOCK - 1) / ZNS_SST_ENTRIES_PER_BLOCK).

Definition zns_sst_entries_in_block (nr_entries block_index : Z) : Z :=
  let consumed := u32 (block_index * ZNS_SST_ENTRIES_PER_BLOCK) in
  if nr_entries <=? consumed then 0
  else Z.min (u32 (nr_entries - consumed)) ZNS_SST_ENTRIES_PER_BLOCK.

Definition zns_sst_encode_header (sst : zns_sstable) (payload_crc : Z) : block :=
  put64 h_max_key (s_max_key sst)
  (put64 h_min_key (s_min_key sst)
  (put64 h_seq (s_seq sst)
  (put32 h_payload_crc payload_crc
  (put32 h_nr_blocks (s_nr_blocks sst)
  (put32 h_nr_entries (s_nr_entries sst)
  (put32 h_version ZNS_SST_VERSION
  (put64 h_magic ZNS_SST_MAGIC zero_block))))))).

(** The decoded fields stored into [sst], and the payload checksum. *)
Definition zns_sst_decode_header (header : block) (sst : zns_sstable)
    : result (zns_sstable * Z) :=
  if negb (get64 h_magic header =? ZNS_SST_MAGIC) then Err (- EINVAL)
  else if negb (get32 h_version header =? ZNS_SST_VERSION) then Err (- EINVAL)
  else
    let nr_entries := get32 h_nr_entries header in
    let nr_blocks := get32 h_nr_blocks header in
    if (nr_entries =? 0) || negb (nr_blocks =? zns_sst_nr_blocks nr_entries)
    then Err (- EINVAL)
    else
      let seq := get64 h_seq header in
      let min_key := get64 h_min_key header in
      let max_key := get64 h_max_key header in
      if max_key <? min_key then Err (- EINVAL)
      else Ok (mk_sst (s_start_sector sst) nr_entries nr_blocks min_key max_key seq
                 (s_payload_crc sst),
               get32 h_payload_crc header).

Definition zns_sst_block_first_key (b : block) : Z := get64 (entry_logical_block 0) b.

(** The loop of [zns_sst_block_find], with an iteration bound. *)
Fixpoint find_loop (fuel : nat) (entries : block) (logical_block low high : Z) : result Z :=
  match fuel with
  | O => Err (- ENODATA)
  | S fuel' =>
      if low <? high then
        let mid := u32 (low + u32 (high - low) / 2) in
        let key := get64 (entry_logical_block mid) entries in
        if key <? logical_block then
          find_loop fuel' entries logical_block (u32 (mid + 1)) high
        else if logical_block <? key then
          find_loop fuel' entries logical_block low mid
        else Ok (get64 (entry_physical_sector mid) entries)
      else Err (- ENODATA)
  end.

(** The range shrinks in every round, so [nr_in_block] rounds are enough. *)
Definition zns_sst_block_find (b : block) (nr_in_block logical_block : Z) : result Z :=
  if (nr_in_block =? 0) || (ZNS_SST_ENTRIES_PER_BLOCK <? nr_in_block) then Err (- EINVAL)
  else find_loop (Z.to_nat nr_in_block) b logical_block 0 nr_in_block.

Section Sst.
Context `{BlockDevice} `{Crc32} `{RbTree}.

(** ** Block I/O *)

(** The page of [block] afterwards. *)
Definition zns_submit_block (sector : Z) (opf : req_opf) (b : block) : M world block :=
  on_mem kmalloc ;;;
  w <- get ;;
  if negb (bio_add_page (w_dev w) b =? ZNS_SST_BLOCK_BYTES) then Prelude.fail (- EIO)
  else on_dev (submit_bio_wait (mk_request opf sector b)).

Definition zns_block_read (sector : Z) (b : block) : M world block :=
  zns_submit_block sector (opf REQ_OP_READ) b.

Definition zns_block_write (sector : Z) (b : block) (opf : req_opf) : M world unit :=
  zns_submit_block sector opf b ;;; ret tt.

(** ** Writing *)

Record zns_sst_write_ctx : Type := mk_ctx {
  wc_sector : Z;
  wc_crc : Z;
  wc_write : bool;
}.

(** The world, and the context the walk updates. *)
Abbreviation emit_state := (world * zns_sst_write_ctx)%type.

(** A failing write leaves the updated checksum and the sector as it was. *)
Definition zns_sst_consume_block (b : block) : M emit_state unit := fun '(w, ctx) =>
  let crc := crc32_le (wc_crc ctx) b in
  if negb (wc_write ctx) then (Ok tt, (w, mk_ctx (wc_sector ctx) crc false))
  else
    match zns_block_write (wc_sector ctx) b (opf REQ_OP_WRITE) w with
    | (Err e, w') => (Err e, (w', mk_ctx (wc_sector ctx) crc true))
    | (Ok _, w') =>
        (Ok tt, (w', mk_ctx (u64 (wc_sector ctx + ZNS_SST_BLOCK_SECTORS)) crc true))
    end.

(** [entries[i] = entry]. *)
Definition store_entry (i : Z) (entry : lsm_entry) (b : block) : block :=
  put64 (entry_physical_sector i) (e_physical_sector entry)
    (put64 (entry_logical_block i) (e_logical_block entry) b).

(** The walk over the entries that are left, the block being filled and the
    number of entries in it. *)
Fixpoint emit_loop (es : list lsm_entry) (entries : block) (nr_in_block : Z)
    : M emit_state unit :=
  match es with
  | [] => if negb (nr_in_block =? 0) then zns_sst_consume_block entries else ret tt
  | entry :: es' =>
      let entries := store_entry nr_in_block entry entries in
      let nr_in_block := u32 (nr_in_block + 1) in
      if nr_in_block <? ZNS_SST_ENTRIES_PER_BLOCK then emit_loop es' entries nr_in_block
      else zns_sst_consume_block entries ;;; emit_loop es' zero_block 0
  end.

Definition zns_sst_emit_payload (memtable : lsm_memtable) : M emit_state unit :=
  emit_loop (mt_entries memtable) zero_block 0.

Definition scan_entry (sst : zns_sstable) (entry : lsm_entry) : zns_sstable :=
  mk_sst (s_start_sector sst) (u32 (s_nr_entries sst + 1)) (s_nr_blocks sst)
    (if s_nr_entries sst =? 0 then e_logical_block entry else s_min_key sst)
    (e_logical_block entry) (s_seq sst) (s_payload_crc sst).

Definition zns_sst_scan_memtable (memtable : lsm_memtable) (sst : zns_sstable) : zns_sstable :=
  foldl scan_entry
    (mk_sst (s_start_sector sst) 0 (s_nr_blocks sst) 0 0 (s_seq sst) (s_payload_crc sst))
    (mt_entries memtable).

Definition set_nr_blocks (n : Z) (sst : zns_sstable) : zns_sstable :=
  mk_sst (s_start_sector sst) (s_nr_entries sst) n (s_min_key sst) (s_max_key sst)
    (s_seq sst) (s_payload_crc sst).

(** The two passes over the table once every check has passed: the sectors that
    reached the zone come back also when the outcome is an error. *)
Definition sst_write_blocks (memtable : lsm_memtable) (sst : zns_sstable)
    : M world (result zns_sstable * Z) := fun w =>
  let start_sector := s_start_sector sst in
  let first := u64 (start_sector + ZNS_SST_BLOCK_SECTORS) in
  match zns_sst_emit_payload memtable (w, mk_ctx first 0 false) with
  | (Err e, (w, _)) => (Ok (Err e, 0), w)
  | (Ok _, (w, ctx)) =>
      let b := zns_sst_encode_header sst (wc_crc ctx) in
      match zns_block_write start_sector b (opf REQ_OP_WRITE) w with
      | (Err e, w) => (Ok (Err e, 0), w)
      | (Ok _, w) =>
          let '(r, (w, ctx)) := zns_sst_emit_payload memtable (w, mk_ctx first 0 true) in
          let consumed := u64 (wc_sector ctx - start_sector) in
          match r with
          | Err e => (Ok (Err e, consumed), w)
          | Ok _ => (Ok (Ok sst, consumed), w)
          end
      end
  end.

(** The outcome with [*consumed]. *)
Definition zns_sst_write (memtable : option lsm_memtable) (start_sector end_sector seq : Z)
    : M world (result zns_sstable * Z) :=
  match memtable with
  | None => ret (Err (- EINVAL), 0)
  | Some memtable =>
      if end_sector <=? start_sector then ret (Err (- ENOSPC), 0)
      else
        r <- attempt (on_mem kmalloc) ;;
        match r with
        | Err _ => ret (Err (- ENOMEM), 0)
        | Ok _ =>
            let sst := zns_sst_scan_memtable memtable
                         (mk_sst start_sector 0 0 0 0 seq 0) in
            if s_nr_entries sst =? 0 then ret (Err (- ENODATA), 0)
            else
              let sst := set_nr_blocks (zns_sst_nr_blocks (s_nr_entries sst)) sst in
              if u64 (end_sector - start_sector) <?
                 u64 (s_nr_blocks sst * ZNS_SST_BLOCK_SECTORS)
              then ret (Err (- ENOSPC), 0)
              else
                r <- attempt (on_mem kmalloc) ;;
                match r with
                | Err _ => ret (Err (- ENOMEM), 0)
                | Ok _ => sst_write_blocks memtable sst
                end
        end
  end.

(** ** Reading *)

Definition zns_sst_load (sector limit : Z) : M world zns_sstable :=
  if limit <=? sector then Prelude.fail (- EINVAL)
  else
    on_mem kmalloc ;;;
    on_mem kmalloc ;;;
    b <- zns_block_read sector zero_block ;;
    match zns_sst_decode_header b sst_zero with
    | Err e => Prelude.fail e
    | Ok (sst, payload_crc) =>
        if u64 (limit - sector) <? u64 (s_nr_blocks sst * ZNS_SST_BLOCK_SECTORS)
        then Prelude.fail (- EINVAL)
        else ret (mk_sst sector (s_nr_entries sst) (s_nr_blocks sst) (s_min_key sst)
                    (s_max_key sst) (s_seq sst) payload_crc)
    end.

(** The buffer and the index of the block it holds ([UINT_MAX]: none). *)
Abbreviation cached_block := (block * Z)%type.

Definition zns_sst_read_payload_block (sst : zns_sstable) (block_index : Z)
    (c : cached_block) : M world cached_block :=
  if snd c =? block_index then ret c
  else
    let sector := u64 (s_start_sector sst + u32 (block_index + 1) * ZNS_SST_BLOCK_SECTORS) in
    b <- zns_block_read sector (fst c) ;;
    ret (b, block_index).

(** The search for the last payload block whose first key is not above the
    wanted one: its index and the buffer. *)
Fixpoint lookup_loop (fuel : nat) (sst : zns_sstable) (logical_block : Z)
    (c : cached_block) (low high : Z) : M world (cached_block * Z) :=
  match fuel with
  | O => ret (c, low)
  | S fuel' =>
      if low <? high then
        let mid := u32 (low + u32 (u32 (high - low) + 1) / 2) in
        c <- zns_sst_read_payload_block sst mid c ;;
        if zns_sst_block_first_key (fst c) <=? logical_block
        then lookup_loop fuel' sst logical_block c mid high
        else lookup_loop fuel' sst logical_block c low (u32 (mid - 1))
      else ret (c, low)
  end.

(** The range shrinks in every round, so [nr_blocks] rounds are enough. *)
Definition zns_sst_lookup (sst : zns_sstable) (logical_block : Z) : M world Z :=
  if s_nr_blocks sst <? 2 then Prelude.fail (- EINVAL)
  else if (logical_block <? s_min_key sst) || (s_max_key sst <? logical_block)
  then Prelude.fail (- ENODATA)
  else
    on_mem kmalloc ;;;
    c <- lookup_loop (Z.to_nat (s_nr_blocks sst)) sst logical_block (zero_block, UINT_MAX)
           0 (u32 (s_nr_blocks sst - 2)) ;;
    let '(c, low) := c in
    c <- zns_sst_read_payload_block sst low c ;;
    lift (zns_sst_block_find (fst c) (zns_sst_entries_in_block (s_nr_entries sst) low)
            logical_block).

End Sst.

(** ** The layout *)

(** Number of payload blocks, without wrap-around. *)
Definition payload_blocks (n : Z) : Z := (n + 255) / 256.

Lemma nr_blocks_payload n : is_u32 n -> zns_sst_nr_blocks n = 1 + payload_blocks n.
Proof.
  intros Hn. unfold zns_sst_nr_blocks, payload_blocks, is_u32 in *.
  change ZNS_SST_ENTRIES_PER_BLOCK with 256.
  replace (n + 256 - 1) with (n + 255) by lia. apply u32_id. split.
  - assert (0 <= (n + 255) / 256) by (apply Z.div_pos; lia). lia.
  - assert ((n + 255) / 256 < 16777217) by (apply Z.div_lt_upper_bound; lia). lia.
Qed.

Lemma payload_blocks_pos n : 0 < n -> 0 < payload_blocks n.
Proof. intros. unfold payload_blocks. apply Z.div_str_pos. lia. Qed.

Lemma payload_blocks_bound n : is_u32 n -> 0 <= payload_blocks n <= 16777216.
Proof.
  unfold payload_blocks, is_u32. intros. split; [apply Z.div_pos; lia|].
  apply Z.lt_succ_r, Z.div_lt_upper_bound; lia.
Qed.

Lemma entries_in_block_value n b :
  is_u32 n -> 0 <= b < payload_blocks n ->
  zns_sst_entries_in_block n b = Z.min (n - 256 * b) 256 /\ 256 * b < n.
Proof.
  intros Hn Hb. assert (Hlt : 256 * b < n).
  { unfold payload_blocks in Hb. pose proof (Z.div_mod (n + 255) 256 ltac:(lia)) as Hd.
    pose proof (Z.mod_pos_bound (n + 255) 256 ltac:(lia)). lia. }
  unfold is_u32 in Hn. unfold zns_sst_entries_in_block.
  change ZNS_SST_ENTRIES_PER_BLOCK with 256. cbv zeta. unwrap.
  destruct (Z.leb_spec n (b * 256)); [lia|]. unwrap. split; [f_equal; lia|done].
Qed.

(** The payload blocks of a table partition its entries: every block but the
    last holds 256 entries, the last one at least one, the counts add up to the
    number of entries, and none lies beyond as long as the index times 256 stays
    within 32 bits. *)
Theorem entries_in_block_partition n :
  is_u32 n -> 0 < n ->
  let last := zns_sst_nr_blocks n - 2 in
  0 <= last /\
  (forall b, 0 <= b < last -> zns_sst_entries_in_block n b = 256) /\
  1 <= zns_sst_entries_in_block n last <= 256 /\
  256 * last + zns_sst_entries_in_block n last = n /\
  (n <= 4294967040 -> zns_sst_entries_in_block n (last + 1) = 0).
Proof.
  intros Hn Hpos. cbv zeta. rewrite nr_blocks_payload by done.
  pose proof (payload_blocks_pos n Hpos) as Hp. pose proof (payload_blocks_bound n Hn) as Hb.
  set (p := payload_blocks n) in *.
  assert (Hdef : 256 * (p - 1) < n <= 256 * p).
  { unfold p, payload_blocks. pose proof (Z.div_mod (n + 255) 256 ltac:(lia)) as Hd.
    pose proof (Z.mod_pos_bound (n + 255) 256 ltac:(lia)). lia. }
  destruct (entries_in_block_value n (p - 1) Hn ltac:(lia)) as [Hl _].
  replace (1 + p - 2) with (p - 1) by lia. rewrite Hl.
  split; [lia|]. split.
  { intros b Hb'. destruct (entries_in_block_value n b Hn ltac:(lia)) as [-> _]. lia. }
  split; [lia|]. split; [lia|]. intros Hn'.
  unfold zns_sst_entries_in_block. change ZNS_SST_ENTRIES_PER_BLOCK with 256. cbv zeta.
  unwrap. by rewrite (proj2 (Z.leb_le _ _)) by lia.
Qed.

Definition entry_bytes (e : lsm_entry) : list Byte.byte :=
  le_split 8 (e_logical_block e) ++ le_split 8 (e_physical_sector e).

Definition packed (es : list lsm_entry) : list Byte.byte := concat (entry_bytes <$> es).

(** The payload block holding these entries, zero padded. *)
Definition payload_block (es : list lsm_entry) : block :=
  packed es ++ drop (16 * length es) zero_block.

Lemma length_entry_bytes e : length (entry_bytes e) = 16%nat.
Proof. unfold entry_bytes. by rewrite length_app, !length_le_split. Qed.

Lemma packed_app es1 es2 : packed (es1 ++ es2) = packed es1 ++ packed es2.
Proof. unfold packed. by rewrite fmap_app, concat_app. Qed.

Lemma packed_cons e es : packed (e :: es) = entry_bytes e ++ packed es.
Proof. done. Qed.

Lemma length_packed es : length (packed es) = (16 * length es)%nat.
Proof.
  induction es as [|e es IH]; [done|].
  rewrite packed_cons, length_app, length_entry_bytes, IH. cbn. lia.
Qed.

Lemma length_payload_block es : (length es <= 256)%nat -> length (payload_block es) = 4096%nat.
Proof.
  intros Hl. unfold payload_block.
  rewrite length_app, length_packed, length_drop, length_zero_block. lia.
Qed.

(** Storing at the end of a prefix. *)
Lemma put64_at off v (p d : block) :
  length p = Z.to_nat off -> put64 off v (p ++ d) = p ++ le_split 8 v ++ drop 8 d.
Proof.
  intros Hl. unfold put_le. rewrite take_app_length' by done.
  rewrite drop_app_ge by lia. do 3 f_equal. lia.
Qed.

Lemma get64_at off v (p d : block) :
  length p = Z.to_nat off -> get64 off (p ++ le_split 8 v ++ d) = u64 v.
Proof.
  intros Hl. unfold get_le. rewrite drop_app_length' by done.
  rewrite take_app_length' by (by rewrite length_le_split). apply le_combine_split.
Qed.

Lemma store_entry_next es e :
  (length es < 256)%nat ->
  store_entry (zlen es) e (payload_block es) = payload_block (es ++ [e]).
Proof.
  intros Hl. unfold store_entry, payload_block, entry_logical_block, entry_physical_sector,
    sizeof_disk_entry, zlen.
  rewrite put64_at by (rewrite length_packed; lia). rewrite app_assoc, put64_at.
  2:{ rewrite length_app, length_packed, length_le_split. lia. }
  rewrite packed_app, length_app. unfold packed at 3. cbn [fmap list_fmap concat].
  unfold entry_bytes. rewrite !drop_drop, app_nil_r, <- !app_assoc. repeat f_equal. cbn. lia.
Qed.

Lemma payload_block_entry es i e :
  es !! i = Some e ->
  get64 (entry_logical_block (Z.of_nat i)) (payload_block es) = u64 (e_logical_block e) /\
  get64 (entry_physical_sector (Z.of_nat i)) (payload_block es) = u64 (e_physical_sector e).
Proof.
  intros Hi. unfold payload_block, entry_logical_block, entry_physical_sector, sizeof_disk_entry.
  pose proof (lookup_lt_Some _ _ _ Hi) as Hlen.
  rewrite <- (take_drop_middle es i e Hi) at 1 3.
  rewrite packed_app, packed_cons. unfold entry_bytes. rewrite <- !app_assoc. split.
  - apply get64_at. rewrite length_packed, length_take. lia.
  - rewrite app_assoc. apply get64_at.
    rewrite length_app, length_packed, length_take, length_le_split. lia.
Qed.

(** ** The two binary searches *)

(** The entries of a table: ascending keys, everything within 64 bits. *)
Record entries_wf (es : list lsm_entry) : Prop := {
  ew_sorted : StronglySorted Z.lt (e_logical_block <$> es);
  ew_keys : Forall (fun e => is_u64 (e_logical_block e)) es;
  ew_sectors : Forall (fun e => is_u64 (e_physical_sector e)) es;
}.

(** The sector of a block in a list of entries. *)
Definition assoc (es : list lsm_entry) (k : Z) : option Z :=
  (list_to_map (entry_pair <$> es) : gmap Z Z) !! k.

Lemma sorted_lookup_lt (l : list Z) i j x y :
  StronglySorted Z.lt l -> l !! i = Some x -> l !! j = Some y -> (i < j)%nat -> x < y.
Proof.
  intros Hs. revert i j. induction Hs as [|z l Hs IH Hz]; intros i j Hi Hj Hlt; [done|].
  destruct j as [|j]; [lia|]. cbn in Hj. destruct i as [|i]; cbn in Hi.
  - simplify_eq. rewrite list.Forall_forall in Hz. apply Hz. by eapply list_elem_of_lookup_2.
  - eapply IH; eauto. lia.
Qed.

Lemma assoc_lookup es i e :
  StronglySorted Z.lt (e_logical_block <$> es) -> es !! i = Some e ->
  assoc es (e_logical_block e) = Some (e_physical_sector e).
Proof.
  intros Hs Hi. apply elem_of_list_to_map.
  - rewrite fst_entry_pairs. by apply sorted_lt_NoDup.
  - apply list_elem_of_fmap. exists e. split; [done|]. by eapply list_elem_of_lookup_2.
Qed.

Lemma assoc_none es k :
  (forall i e, es !! i = Some e -> e_logical_block e <> k) -> assoc es k = None.
Proof.
  intros Hk. apply not_elem_of_list_to_map. rewrite fst_entry_pairs.
  intros (e & -> & (i & Hi)%list_elem_of_lookup_1)%list_elem_of_fmap. by eapply Hk.
Qed.

Lemma find_loop_correct es k fuel low high :
  entries_wf es -> zlen es <= 256 -> 0 <= low -> high <= zlen es ->
  high - low <= Z.of_nat fuel ->
  (forall i e, es !! i = Some e -> Z.of_nat i < low -> e_logical_block e < k) ->
  (forall i e, es !! i = Some e -> high <= Z.of_nat i -> k < e_logical_block e) ->
  find_loop fuel (payload_block es) k low high =
    match assoc es k with Some p => Ok p | None => Err (- ENODATA) end.
Proof.
  intros Hwf Hlen. pose proof (ew_sorted es Hwf) as Hs. revert low high.
  induction fuel as [|fuel IH]; intros low high Hlow Hhigh Hf Hl Hh; cbn [find_loop].
  { rewrite assoc_none; [done|]. intros i e Hi.
    destruct (decide (Z.of_nat i < low)); [specialize (Hl i e Hi)|specialize (Hh i e Hi)]; lia. }
  destruct (Z.ltb_spec low high) as [Hlt|Hge].
  2:{ rewrite assoc_none; [done|]. intros i e Hi.
      destruct (decide (Z.of_nat i < low)); [specialize (Hl i e Hi)|specialize (Hh i e Hi)]; lia. }
  pose proof (Z.div_mod (high - low) 2 ltac:(lia)) as Hd.
  pose proof (Z.mod_pos_bound (high - low) 2 ltac:(lia)) as Hm.
  cbv zeta. rewrite (u32_id (high - low)), (u32_id (low + _)) by lia.
  set (mid := low + (high - low) / 2) in *.
  assert (Hmid : low <= mid < high) by lia. rewrite u32_id by lia.
  destruct (es !! Z.to_nat mid) as [e|] eqn:He.
  2:{ apply lookup_ge_None_1 in He. unfold zlen in Hhigh. lia. }
  destruct (payload_block_entry es _ e He) as [Hkey Hsec]. rewrite Z2Nat.id in Hkey, Hsec by lia.
  pose proof (ew_keys es Hwf) as Hk64. pose proof (ew_sectors es Hwf) as Hp64.
  rewrite Forall_lookup in Hk64, Hp64. specialize (Hk64 _ _ He). specialize (Hp64 _ _ He).
  rewrite (u64_id (e_logical_block e)) in Hkey by done.
  rewrite (u64_id (e_physical_sector e)) in Hsec by done. rewrite Hkey, Hsec.
  assert (Hcmp : forall i e', es !! i = Some e' ->
    (Z.of_nat i <= mid -> e_logical_block e' <= e_logical_block e) /\
    (mid <= Z.of_nat i -> e_logical_block e <= e_logical_block e')).
  { intros i e' Hi. destruct (decide (i = Z.to_nat mid)) as [->|]; [by simplify_eq|].
    split; intros ?; apply Z.lt_le_incl.
    - apply (sorted_lookup_lt _ i (Z.to_nat mid) _ _ Hs);
        [by rewrite list_lookup_fmap, ?Hi, ?He..|lia].
    - apply (sorted_lookup_lt _ (Z.to_nat mid) i _ _ Hs);
        [by rewrite list_lookup_fmap, ?Hi, ?He..|lia]. }
  destruct (Z.ltb_spec (e_logical_block e) k) as [Hek|Hek].
  { apply IH; [lia..| |done]. intros i e' Hi Hlt'. destruct (Hcmp i e' Hi). lia. }
  destruct (Z.ltb_spec k (e_logical_block e)) as [Hke|Hke].
  { apply IH; [lia..|done|]. intros i e' Hi Hlt'. destruct (Hcmp i e' Hi). lia. }
  assert (k = e_logical_block e) as -> by lia. by erewrite assoc_lookup.
Qed.

Lemma block_find_assoc es k :
  entries_wf es -> 0 < zlen es <= 256 ->
  zns_sst_block_find (payload_block es) (zlen es) k =
    match assoc es k with Some p => Ok p | None => Err (- ENODATA) end.
Proof.
  intros Hwf Hlen. unfold zns_sst_block_find. change ZNS_SST_ENTRIES_PER_BLOCK with 256.
  rewrite (proj2 (Z.eqb_neq _ _)), (proj2 (Z.ltb_ge _ _)) by lia. cbn [orb].
  apply find_loop_correct; [done|lia..| |]; intros i e Hi ?; [lia|].
  apply lookup_lt_Some in Hi. unfold zlen in *. lia.
Qed.

(** C32.  Searching a payload block finds exactly the entries it holds: for every
    sorted run of at most 256 entries and every key, the search returns the sector
    stored for that key or [-ENODATA]; a count of zero or beyond a block's capacity
    is refused. *)
Theorem block_find_correct es k :
  entries_wf es -> 0 < zlen es <= 256 ->
  zns_sst_block_find (payload_block es) (zlen es) k =
    match assoc es k with Some p => Ok p | None => Err (- ENODATA) end /\
  zns_sst_block_find (payload_block es) 0 k = Err (- EINVAL) /\
  (forall b n, 256 < n -> zns_sst_block_find b n k = Err (- EINVAL)).
Proof.
  intros Hwf Hlen. split; [|split; [done|]].
  - by apply block_find_assoc.
  - intros b n Hn. unfold zns_sst_block_find. change ZNS_SST_ENTRIES_PER_BLOCK with 256.
    by rewrite (proj2 (Z.eqb_neq _ _)), (proj2 (Z.ltb_lt _ _)) by lia.
Qed.

(** ** Block I/O *)
Section SstFacts.
Context `{BlockDeviceLaws} `{Crc32} `{RbTreeLaws}.

Lemma submit_block_cases sector o b w r w' :
  zns_submit_block sector o b w = (r, w') ->
  (exists e, r = Err e /\ w_dev w' = w_dev w) \/
  exists d', submit_bio_wait (mk_request o sector b) (w_dev w) = (r, d') /\ w_dev w' = d'.
Proof.
  unfold zns_submit_block, bind. destruct (on_mem kmalloc w) as [[[]|e] w1] eqn:E.
  2:{ intros [= <- <-]. left. apply on_mem_dev in E as [-> _]. by eexists. }
  apply on_mem_dev in E as [Hd _]. cbn. rewrite <- Hd.
  destruct (negb _); [intros [= <- <-]; left; by eexists|].
  unfold on_dev, zoom. destruct (submit_bio_wait _ _) as [r0 d'] eqn:Es.
  intros [= <- <-]. right. by eexists.
Qed.

Lemma block_read_spec sector b w r w' :
  zns_block_read sector b w = (r, w') ->
  same_blocks (w_dev w) (w_dev w') /\
  match r with Ok b' => b' = dev_block (w_dev w) sector | Err _ => True end.
Proof.
  intros [(e & -> & ->)|(d' & Hs & ->)]%submit_block_cases; [done|].
  split; [intros s; by eapply dev_read_frame|].
  destruct r; [by eapply dev_read_ok|done].
Qed.

Lemma block_read_outcome sector b w r w' :
  zns_block_read sector b w = (r, w') ->
  same_blocks (w_dev w) (w_dev w') /\ fault_free_step w w' /\
  match r with Ok b' => b' = dev_block (w_dev w) sector | Err e => faulty w e end.
Proof.
  intros Hr. unfold zns_block_read, zns_submit_block, bind in Hr.
  destruct (on_mem kmalloc w) as [r1 w1] eqn:E. apply on_mem_outcome in E as (Hd & Hf & He).
  destruct r1 as [[]|e]; [|injection Hr as <- <-; rewrite Hd; auto with zns].
  cbn in Hr. rewrite <- Hd. destruct (negb _) eqn:Ep.
  - injection Hr as <- <-. split; [apply same_blocks_refl|]. split; [done|]. apply Hf.
    split; [by right; left|]. intros _ P HP Hw. guards. destruct (HP _ Hw) as [Hadd _].
    by rewrite Hadd in Ep.
  - unfold on_dev, zoom in Hr. destruct (submit_bio_wait _ (w_dev w1)) as [r0 d'] eqn:Es.
    apply device_read_outcome in Es as (Hs2 & Hf2 & Hr2). injection Hr as <- <-.
    split; [done|]. split; [faults|]. destruct r0; [done|faults].
Qed.

Lemma block_write_spec sector b fl w r w' :
  zns_block_write sector b (mk_opf REQ_OP_WRITE fl) w = (r, w') ->
  only_in sector (sector + 8) (w_dev w) (w_dev w') /\
  match r with Ok _ => dev_block (w_dev w') sector = b | Err _ => True end.
Proof.
  unfold zns_block_write, bind.
  destruct (zns_submit_block sector (mk_opf REQ_OP_WRITE fl) b w) as [r0 w0] eqn:Es.
  intros Hr. assert (Hw : w' = w0 /\ (is_ok r = true -> is_ok r0 = true)).
  { destruct r0; injection Hr as <- <-; done. }
  destruct Hw as [-> Hok]. clear Hr.
  apply submit_block_cases in Es as [(e & -> & ->)|(d' & Hs & ->)].
  - split; [apply only_in_refl|]. by destruct r; [discriminate (Hok eq_refl)|].
  - split; [intros s Hout; by eapply dev_write_frame|].
    destruct r; [|done]. destruct r0; [by eapply dev_write_ok|discriminate (Hok eq_refl)].
Qed.

(** ** Writing the payload *)

(** The entries of payload block [i]. *)
Definition chunk (i : nat) (es : list lsm_entry) : list lsm_entry :=
  take 256 (drop (256 * i) es).

(** The payload blocks of a table, in order, and their checksum. *)
Definition payload (es : list lsm_entry) : list block :=
  (fun i => payload_block (chunk i es)) <$> seq 0 (Z.to_nat (payload_blocks (zlen es))).
Definition payload_crc (es : list lsm_entry) : Z := foldl crc32_le 0 (payload es).

Abbreviation emit_state := (world * zns_sst_write_ctx)%type.

Fixpoint consume_all (bs : list block) : M emit_state unit :=
  match bs with
  | [] => ret tt
  | b :: bs' => zns_sst_consume_block b ;;; consume_all bs'
  end.

Lemma payload_nil : payload [] = [].
Proof. done. Qed.

Lemma payload_short es : es <> [] -> (length es < 256)%nat -> payload es = [payload_block es].
Proof.
  intros Hne Hl. unfold payload, chunk. destruct es as [|e es]; [done|].
  replace (payload_blocks _) with 1.
  - change (Z.to_nat 1) with 1%nat. cbn [seq fmap list_fmap].
    by rewrite Nat.mul_0_r, drop_0, take_ge by lia.
  - symmetry. unfold payload_blocks, zlen. cbn [length] in *.
    symmetry. apply (Z.div_unique _ 256 _ (Z.of_nat (S (length es)) - 1)); lia.
Qed.

Lemma payload_full c es :
  length c = 256%nat -> payload (c ++ es) = payload_block c :: payload es.
Proof.
  intros Hc. unfold payload.
  replace (payload_blocks (zlen (c ++ es))) with (1 + payload_blocks (zlen es)).
  2:{ unfold payload_blocks, zlen. rewrite length_app, Hc.
      replace (Z.of_nat (256 + length es) + 255) with (Z.of_nat (length es) + 255 + 1 * 256) by lia.
      rewrite Z.div_add by lia. lia. }
  assert (0 <= payload_blocks (zlen es)) by (apply Z.div_pos; unfold zlen; lia).
  rewrite Z2Nat.inj_add by lia. change (Z.to_nat 1) with 1%nat.
  cbn [Init.Nat.add seq fmap list_fmap].
  f_equal.
  - f_equal. unfold chunk. rewrite Nat.mul_0_r, drop_0. by rewrite take_app_length' by done.
  - rewrite <- fmap_S_seq, <- list_fmap_compose. apply list_fmap_ext. intros _ i _.
    unfold compose, chunk. do 2 f_equal. rewrite drop_app_ge by lia. f_equal. lia.
Qed.

Lemma emit_loop_payload es pre s :
  (length pre < 256)%nat ->
  emit_loop es (payload_block pre) (zlen pre) s = consume_all (payload (pre ++ es)) s.
Proof.
  revert pre s. induction es as [|e es IH]; intros pre s Hl; cbn [emit_loop].
  - rewrite app_nil_r. destruct pre as [|x pre]; [done|]. rewrite payload_short by done.
    cbn [consume_all length zlen]. rewrite (proj2 (Z.eqb_neq _ _)) by (unfold zlen; cbn; lia).
    cbn [negb]. unfold bind, ret. by destruct (zns_sst_consume_block _ s) as [[[]|] ?].
  - rewrite store_entry_next by done.
    assert (Hz : u32 (zlen pre + 1) = zlen (pre ++ [e])).
    { unfold zlen in *. rewrite length_app. cbn. rewrite u32_id; lia. }
    rewrite Hz. change ZNS_SST_ENTRIES_PER_BLOCK with 256.
    assert (Hsplit : pre ++ e :: es = (pre ++ [e]) ++ es) by (by rewrite <- app_assoc).
    rewrite Hsplit.
    destruct (Z.ltb_spec (zlen (pre ++ [e])) 256) as [Hlt|Hge].
    + apply IH. unfold zlen in Hlt. lia.
    + rewrite payload_full.
      2:{ unfold zlen in Hge. rewrite length_app in *. cbn in *. lia. }
      cbn [consume_all]. unfold bind. destruct (zns_sst_consume_block _ s) as [[[]|] s']; [|done].
      apply (IH [] s'). cbn. lia.
Qed.

Lemma emit_payload_blocks m s :
  zns_sst_emit_payload m s = consume_all (payload (mt_entries m)) s.
Proof. apply (emit_loop_payload _ [] s). cbn. lia. Qed.

(** The checksum pass touches nothing. *)
Lemma consume_all_crc bs w sector crc :
  consume_all bs (w, mk_ctx sector crc false) =
    (Ok tt, (w, mk_ctx sector (foldl crc32_le crc bs) false)).
Proof. revert crc. induction bs as [|b bs IH]; intros crc; [done|]. cbn. apply IH. Qed.

(** The writing pass stores a prefix of the blocks and reports its length. *)
Lemma consume_all_write bs w sector crc r w' ctx :
  0 <= sector -> sector + 8 * zlen bs < 18446744073709551616 ->
  consume_all bs (w, mk_ctx sector crc true) = (r, (w', ctx)) ->
  exists j : nat,
    (if is_ok r then j = length bs else (j < length bs)%nat) /\
    wc_sector ctx = sector + 8 * Z.of_nat j /\
    (forall i b, (i < j)%nat -> bs !! i = Some b ->
       dev_block (w_dev w') (sector + 8 * Z.of_nat i) = b) /\
    only_in sector (sector + 8 * zlen bs) (w_dev w) (w_dev w').
Proof.
  revert w sector crc. induction bs as [|b bs IH]; intros w sector crc Hs Hmax Hrun.
  - cbn in Hrun. unfold ret in Hrun. simplify_eq. exists 0%nat. cbn.
    split_and!; [done|lia|lia|apply only_in_refl].
  - cbn [consume_all] in Hrun. unfold bind, zns_sst_consume_block in Hrun.
    cbn [wc_write wc_sector wc_crc negb] in Hrun.
    assert (Hz : zlen (b :: bs) = 1 + zlen bs) by (unfold zlen; cbn; lia).
    pose proof (zlen_nonneg bs). rewrite Hz in *.
    destruct (zns_block_write sector b _ w) as [r1 w1] eqn:Hw.
    apply block_write_spec in Hw as [Hf Hb]. destruct r1 as [[]|e].
    2:{ simplify_eq. exists 0%nat. cbn. split_and!; [lia|lia|lia|].
        eapply only_in_widen; [exact Hf|lia..]. }
    change ZNS_SST_BLOCK_SECTORS with 8 in Hrun. rewrite u64_id in Hrun by lia.
    apply IH in Hrun as (j & Hj & Hsec & Hst & Ho); [|lia..].
    exists (S j). split_and!.
    + destruct (is_ok r); cbn; lia.
    + lia.
    + intros [|i] b' Hi Hlk; cbn in Hlk.
      * simplify_eq. rewrite Z.add_0_r. apply Ho. lia.
      * replace (sector + 8 * Z.of_nat (S i)) with (sector + 8 + 8 * Z.of_nat i) by lia.
        apply Hst; [lia|done].
    + eapply only_in_trans; eapply only_in_widen; [exact Hf|lia|lia|exact Ho|lia|lia].
Qed.

(** ** The header *)

Definition sst_in_range (sst : zns_sstable) : Prop :=
  is_u32 (s_nr_entries sst) /\ is_u32 (s_nr_blocks sst) /\ is_u64 (s_min_key sst) /\
  is_u64 (s_max_key sst) /\ is_u64 (s_seq sst).

Lemma encoded_header_fields sst crc :
  sst_in_range sst -> is_u32 crc ->
  let h := zns_sst_encode_header sst crc in
  get64 h_magic h = ZNS_SST_MAGIC /\ get32 h_version h = ZNS_SST_VERSION /\
  get32 h_nr_entries h = s_nr_entries sst /\ get32 h_nr_blocks h = s_nr_blocks sst /\
  get32 h_payload_crc h = crc /\ get64 h_seq h = s_seq sst /\
  get64 h_min_key h = s_min_key sst /\ get64 h_max_key h = s_max_key sst.
Proof.
  intros (Hn & Hb & Hmin & Hmax & Hseq) Hcrc. cbv zeta. unfold zns_sst_encode_header,
    h_magic, h_version, h_nr_entries, h_nr_blocks, h_payload_crc, h_seq, h_min_key, h_max_key.
  split_and!; fields; try reflexivity; by apply Z.mod_small.
Qed.

Definition with_start_crc (start crc : Z) (sst : zns_sstable) : zns_sstable :=
  mk_sst start (s_nr_entries sst) (s_nr_blocks sst) (s_min_key sst) (s_max_key sst)
    (s_seq sst) crc.

(** The header fields of a complete table. *)
Definition sst_consistent (sst : zns_sstable) : Prop :=
  s_nr_entries sst <> 0 /\ s_nr_blocks sst = zns_sst_nr_blocks (s_nr_entries sst) /\
  s_min_key sst <= s_max_key sst.

Lemma decode_encoded sst crc into :
  sst_in_range sst -> is_u32 crc -> sst_consistent sst ->
  zns_sst_decode_header (zns_sst_encode_header sst crc) into =
    Ok (with_start_crc (s_start_sector into) (s_payload_crc into) sst, crc).
Proof.
  intros Hr Hcrc (Hn & Hb & Hk). unfold zns_sst_decode_header.
  destruct (encoded_header_fields sst crc Hr Hcrc) as (-> & -> & -> & -> & -> & -> & -> & ->).
  rewrite !Z.eqb_refl, (proj2 (Z.eqb_neq _ _) Hn), Hb, Z.eqb_refl. cbn [negb orb].
  rewrite (proj2 (Z.ltb_ge _ _) Hk). unfold with_start_crc. by rewrite Hb.
Qed.

(** The header round trip: what [zns_sst_encode_header] writes for a complete
    table, [zns_sst_decode_header] reads back field by field; and whatever block it
    is given, the decoder accepts only one whose magic, version and entry count are
    right, whose block count is the one its entry count needs and whose key range is
    not inverted. *)
Theorem header_round_trip sst crc into b sst' crc' :
  sst_in_range sst -> is_u32 crc -> sst_consistent sst ->
  zns_sst_decode_header (zns_sst_encode_header sst crc) into =
    Ok (with_start_crc (s_start_sector into) (s_payload_crc into) sst, crc) /\
  (zns_sst_decode_header b into = Ok (sst', crc') ->
   get64 h_magic b = ZNS_SST_MAGIC /\ get32 h_version b = ZNS_SST_VERSION /\
   sst_in_range sst' /\ sst_consistent sst' /\ crc' = get32 h_payload_crc b).
Proof.
  intros Hr Hcrc Hc. split; [by apply decode_encoded|]. unfold zns_sst_decode_header.
  destruct (get64 h_magic b =? ZNS_SST_MAGIC) eqn:Em; [|done]. cbn [negb].
  destruct (get32 h_version b =? ZNS_SST_VERSION) eqn:Ev; [|done]. cbn [negb]. cbv zeta.
  destruct (get32 h_nr_entries b =? 0) eqn:En; [done|]. cbn [orb].
  destruct (get32 h_nr_blocks b =? _) eqn:Eb; [|done]. cbn [negb].
  destruct (get64 h_max_key b <? _) eqn:Ek; [done|]. guards. intros [= <- <-].
  split_and!; auto; repeat split; cbn; auto with zns; apply get32_range || apply get64_range.
Qed.

(** ** A table on the device *)

Record sst_on_disk (d : bdev) (sst : zns_sstable) (es : list lsm_entry) : Prop := {
  sod_entries : entries_wf es;
  sod_count : is_u32 (zlen es);
  sod_nr_entries : s_nr_entries sst = zlen es;
  sod_nr_blocks : s_nr_blocks sst = 1 + payload_blocks (zlen es);
  sod_min : exists e, head es = Some e /\ s_min_key sst = e_logical_block e;
  sod_max : exists e, last es = Some e /\ s_max_key sst = e_logical_block e;
  sod_fits : 0 <= s_start_sector sst /\
    s_start_sector sst + 8 * s_nr_blocks sst < 18446744073709551616;
  sod_payload : forall i : nat, Z.of_nat i < payload_blocks (zlen es) ->
    dev_block d (s_start_sector sst + 8 * (Z.of_nat i + 1)) = payload_block (chunk i es);
}.

(** Its header is there too. *)
Definition header_on_disk (d : bdev) (sst : zns_sstable) (es : list lsm_entry) : Prop :=
  dev_block d (s_start_sector sst) = zns_sst_encode_header sst (payload_crc es).

(** Scanning an ordered table. *)
Lemma scan_entries start nb seq es :
  zlen es < 4294967296 ->
  foldl scan_entry (mk_sst start 0 nb 0 0 seq 0) es =
    mk_sst start (zlen es) nb
      (from_option e_logical_block 0 (head es)) (from_option e_logical_block 0 (last es)) seq 0.
Proof.
  induction es as [|e es IH] using rev_ind; [done|]. intros Hlen.
  unfold zlen in *. rewrite length_app in Hlen |- *. cbn [length] in *.
  rewrite foldl_app, IH by lia. cbn [foldl]. unfold scan_entry. cbn [s_nr_entries s_min_key
    s_start_sector s_nr_blocks s_seq s_payload_crc]. rewrite last_snoc. cbn [from_option].
  rewrite u32_id by lia. f_equal; [lia|]. destruct es as [|e0 es]; [done|].
  by rewrite (proj2 (Z.eqb_neq _ _)) by (cbn; lia).
Qed.

Lemma length_payload es : length (payload es) = Z.to_nat (payload_blocks (zlen es)).
Proof. unfold payload. by rewrite length_fmap, length_seq. Qed.

Lemma payload_lookup es i :
  Z.of_nat i < payload_blocks (zlen es) -> payload es !! i = Some (payload_block (chunk i es)).
Proof.
  intros Hi. unfold payload. rewrite list_lookup_fmap, lookup_seq_lt by lia. done.
Qed.

(** What reached the zone, whatever the outcome. *)
Definition written_prefix (d : bdev) (sst : zns_sstable) (es : list lsm_entry)
    (consumed : Z) : Prop :=
  consumed = 0 \/
  exists j : nat, consumed = 8 + 8 * Z.of_nat j /\ header_on_disk d sst es /\
    forall i : nat, (i < j)%nat -> Z.of_nat i < payload_blocks (zlen es) ->
      dev_block d (s_start_sector sst + 8 * (Z.of_nat i + 1)) = payload_block (chunk i es).

Lemma sst_write_blocks_spec m sst w o w' :
  let es := mt_entries m in
  let start := s_start_sector sst in
  let total := 8 * (1 + payload_blocks (zlen es)) in
  0 <= start -> start + total < 18446744073709551616 ->
  sst_write_blocks m sst w = (o, w') ->
  only_in start (start + total) (w_dev w) (w_dev w') /\
  exists r consumed, o = Ok (r, consumed) /\ written_prefix (w_dev w') sst es consumed /\
    match r with
    | Ok sst' => sst' = sst /\ consumed = total
    | Err _ => consumed < total
    end.
Proof.
  cbv zeta. intros Hs Hmax. unfold sst_write_blocks. cbv zeta.
  set (es := mt_entries m) in *. set (start := s_start_sector sst) in *.
  set (pb := payload_blocks (zlen es)) in *.
  assert (Hpb : 0 <= pb) by (apply Z.div_pos; unfold zlen; lia).
  assert (Hlen : zlen (payload es) = pb) by (unfold zlen at 1; rewrite length_payload; lia).
  change ZNS_SST_BLOCK_SECTORS with 8. rewrite (u64_id (start + 8)) by lia.
  rewrite emit_payload_blocks, consume_all_crc. cbn [wc_crc]. fold (payload_crc es).
  destruct (zns_block_write start _ _ w) as [r1 w1] eqn:Hw.
  apply block_write_spec in Hw as [Hf Hb]. destruct r1 as [[]|e].
  2:{ intros [= <- <-]. split; [eapply only_in_widen; [exact Hf|lia..]|].
      exists (Err e), 0. split; [done|]. split; [by left|lia]. }
  rewrite emit_payload_blocks. fold es. destruct (consume_all (payload es)
    (w1, mk_ctx (start + 8) 0 true)) as [r2 [w2 ctx]] eqn:Hc.
  apply consume_all_write in Hc as (j & Hj & Hsec & Hst & Ho); [|lia|rewrite Hlen; lia].
  rewrite Hsec, Hlen in *.
  assert (Hjle : Z.of_nat j <= pb).
  { rewrite length_payload in Hj. fold pb in Hj. destruct (is_ok r2); lia. }
  replace (start + 8 + 8 * Z.of_nat j - start) with (8 + 8 * Z.of_nat j) by lia.
  rewrite u64_id by lia. intros Hrun.
  assert (Hout : exists r, o = Ok (r, 8 + 8 * Z.of_nat j) /\ w' = w2 /\
    match r with Ok sst' => sst' = sst /\ 8 + 8 * Z.of_nat j = 8 * (1 + pb)
               | Err _ => 8 + 8 * Z.of_nat j < 8 * (1 + pb) end).
  { rewrite length_payload in Hj. fold pb in Hj.
    destruct r2; injection Hrun as <- <-; eexists; (split; [done|]); (split; [done|]);
      cbn in Hj; [split; [done|lia]|lia]. }
  destruct Hout as (r & -> & -> & Hr). split.
  { eapply only_in_trans; eapply only_in_widen; [exact Hf|lia|lia|exact Ho|lia|lia]. }
  exists r, (8 + 8 * Z.of_nat j). split; [done|]. split; [|done]. right. exists j.
  split; [done|]. split.
  - unfold header_on_disk. fold start. rewrite Ho by lia. exact Hb.
  - intros i Hi Hip. replace (start + _) with (start + 8 + 8 * Z.of_nat i) by lia.
    apply Hst; [done|]. by apply payload_lookup.
Qed.

(** The index a flush of these entries builds. *)
Definition sst_of (start seq : Z) (es : list lsm_entry) : zns_sstable :=
  mk_sst start (zlen es) (1 + payload_blocks (zlen es))
    (from_option e_logical_block 0 (head es)) (from_option e_logical_block 0 (last es)) seq 0.

Lemma sst_write_cases m start limit seq w o w' :
  let es := mt_entries m in
  let sst := sst_of start seq es in
  let total := 8 * s_nr_blocks sst in
  is_u64 start -> is_u64 limit -> is_u32 (zlen es) ->
  zns_sst_write (Some m) start limit seq w = (o, w') ->
  only_in start limit (w_dev w) (w_dev w') /\
  exists r consumed, o = Ok (r, consumed) /\ written_prefix (w_dev w') sst es consumed /\
    match r with
    | Ok sst' => sst' = sst /\ consumed = total /\ start + total <= limit /\ es <> []
    | Err e => consumed = 0 \/ (consumed < total /\ start + total <= limit)
    end.
Proof.
  cbv zeta. intros Hs Hl Hn. unfold zns_sst_write. set (es := mt_entries m) in *.
  unfold is_u64 in Hs, Hl. assert (Hn' := Hn). unfold is_u32 in Hn'.
  assert (Hnone : forall e w2, w_dev w2 = w_dev w -> o = Ok (Err e, 0) -> w' = w2 ->
    only_in start limit (w_dev w) (w_dev w') /\
    exists r consumed, o = Ok (r, consumed) /\
      written_prefix (w_dev w') (sst_of start seq es) es consumed /\
      match r with
      | Ok sst' => sst' = sst_of start seq es /\
          consumed = 8 * s_nr_blocks (sst_of start seq es) /\
          start + 8 * s_nr_blocks (sst_of start seq es) <= limit /\ es <> []
      | Err e => consumed = 0 \/ (consumed < 8 * s_nr_blocks (sst_of start seq es) /\
          start + 8 * s_nr_blocks (sst_of start seq es) <= limit)
      end).
  { intros e w2 Hd -> ->. rewrite Hd. split; [apply only_in_refl|]. exists (Err e), 0.
    split; [done|]. split; by left. }
  destruct (Z.leb_spec limit start) as [Hle|Hlt].
  { intros [= <- <-]. by eapply Hnone. }
  unfold bind at 1, attempt. destruct (on_mem kmalloc w) as [r1 w1] eqn:E1.
  apply on_mem_dev in E1 as [Hd1 _]. destruct r1 as [[]|e].
  2:{ intros [= <- <-]. by eapply Hnone. }
  unfold zns_sst_scan_memtable. fold es. cbn [s_start_sector s_nr_blocks s_seq s_payload_crc].
  rewrite scan_entries by lia. cbn [s_nr_entries]. destruct (Z.eqb_spec (zlen es) 0) as [Hz|Hz].
  { intros [= <- <-]. by eapply Hnone. }
  cbv zeta. unfold set_nr_blocks. cbn [s_start_sector s_nr_entries s_nr_blocks s_min_key
    s_max_key s_seq s_payload_crc].
  rewrite nr_blocks_payload by done. change ZNS_SST_BLOCK_SECTORS with 8.
  pose proof (payload_blocks_bound _ Hn) as Hpb. unwrap.
  destruct (Z.ltb_spec (limit - start) ((1 + payload_blocks (zlen es)) * 8)) as [Hbig|Hfit].
  { intros [= <- <-]. by eapply Hnone. }
  unfold bind. destruct (on_mem kmalloc w1) as [r2 w2] eqn:E2.
  apply on_mem_dev in E2 as [Hd2 _]. rewrite Hd1 in Hd2. destruct r2 as [[]|e].
  2:{ intros [= <- <-]. by eapply Hnone. }
  subst es. intros Hrun. apply (sst_write_blocks_spec m (sst_of start seq (mt_entries m))) in Hrun
    as (Ho & r & consumed & -> & Hp & Hr); cbn [s_start_sector sst_of] in *; [|lia..].
  rewrite Hd2 in Ho. split; [eapply only_in_widen; [exact Ho|lia..]|].
  exists r, consumed. split; [done|]. split; [done|]. cbn [s_nr_blocks sst_of].
  destruct r; [|right; lia]. destruct Hr as [-> ->]. split; [done|]. split; [done|].
  split; [lia|]. intros Hnil. by rewrite Hnil in Hz.
Qed.

(** ** Loading *)

Lemma payload_crc_range es : is_u32 (payload_crc es).
Proof.
  unfold payload_crc. generalize 0, (ltac:(done) : is_u32 0). generalize (payload es).
  induction l as [|b bs IH]; intros c Hc; [done|]. cbn. apply IH, crc32_le_range.
Qed.

Lemma sst_load_outcome sst es limit w r w' :
  header_on_disk (w_dev w) sst es -> sst_in_range sst -> sst_consistent sst ->
  0 <= s_start_sector sst -> is_u64 limit ->
  s_start_sector sst + 8 * s_nr_blocks sst <= limit ->
  zns_sst_load (s_start_sector sst) limit w = (r, w') ->
  same_blocks (w_dev w) (w_dev w') /\ fault_free_step w w' /\
  match r with
  | Ok sst' => sst' = with_start_crc (s_start_sector sst) (payload_crc es) sst
  | Err e => faulty w e
  end.
Proof.
  intros Hh Hr Hc Hs Hl Hfit. unfold is_u64 in Hl.
  assert (Hnb : 0 < s_nr_blocks sst < 4294967296).
  { destruct Hr as (Hn32 & Hb & _), Hc as (Hn & Hb' & _). unfold is_u32 in Hb.
    enough (s_nr_blocks sst <> 0) by lia. intros Hz. rewrite Hb', nr_blocks_payload in Hz by done.
    pose proof (payload_blocks_bound _ Hn32). lia. }
  unfold zns_sst_load. rewrite (proj2 (Z.leb_gt _ _)) by lia. unfold bind.
  destruct (on_mem kmalloc w) as [r1 w1] eqn:E1. apply on_mem_outcome in E1 as (Hd1 & Hf1 & He1).
  destruct r1 as [[]|e]; [|intros [= <- <-]; rewrite Hd1; split_and!; [apply same_blocks_refl|faults|faults]].
  destruct (on_mem kmalloc w1) as [r2 w2] eqn:E2. apply on_mem_outcome in E2 as (Hd2 & Hf2 & He2).
  rewrite Hd1 in Hd2. destruct r2 as [[]|e]; [|intros [= <- <-]; rewrite Hd2; split_and!; [apply same_blocks_refl|faults|faults]].
  destruct (zns_block_read _ _ w2) as [r3 w3] eqn:E3.
  apply block_read_outcome in E3 as (Hsame & Hf3 & Hb). rewrite Hd2 in *.
  destruct r3 as [b|e]; [|intros [= <- <-]; split_and!; [done|faults|faults]].
  rewrite Hb, Hh, (decode_encoded sst _ _ Hr (payload_crc_range es) Hc).
  cbn [s_nr_blocks with_start_crc s_nr_entries s_min_key s_max_key s_seq].
  change ZNS_SST_BLOCK_SECTORS with 8. unwrap. rewrite (proj2 (Z.ltb_ge _ _)) by lia.
  unfold ret. intros [= <- <-]. split_and!; [done|faults|done].
Qed.

(** ** Looking up *)

Lemma chunk_lookup es i j :
  chunk i es !! j = if decide (j < 256)%nat then es !! (256 * i + j)%nat else None.
Proof.
  unfold chunk. case_decide.
  - by rewrite lookup_take_lt, lookup_drop by done.
  - by rewrite lookup_take_ge by lia.
Qed.

Lemma chunk_length es i :
  is_u32 (zlen es) -> Z.of_nat i < payload_blocks (zlen es) ->
  zlen (chunk i es) = zns_sst_entries_in_block (zlen es) (Z.of_nat i) /\
  0 < zlen (chunk i es) <= 256.
Proof.
  intros Hn Hi. destruct (entries_in_block_value (zlen es) (Z.of_nat i)) as [-> Hlt]; [done|lia|].
  unfold zlen, chunk in *. rewrite length_take, length_drop. lia.
Qed.

Lemma chunk_wf es i : entries_wf es -> entries_wf (chunk i es).
Proof.
  intros [Hs Hk Hp]. unfold chunk. constructor; [|by apply Forall_take, Forall_drop..].
  rewrite <- (take_drop (256 * i) es) in Hs. rewrite fmap_app in Hs.
  apply StronglySorted_app in Hs as (_ & _ & Hs).
  rewrite <- (take_drop 256 (drop (256 * i) es)) in Hs. rewrite fmap_app in Hs.
  by apply StronglySorted_app in Hs as (_ & Hs & _).
Qed.

(** A table stays on the device as long as its own blocks do. *)
Lemma sst_on_disk_frame d d' sst es :
  sst_on_disk d sst es ->
  (forall s, s_start_sector sst + 8 <= s -> s + 8 <= s_start_sector sst + 8 * s_nr_blocks sst ->
     dev_block d' s = dev_block d s) ->
  sst_on_disk d' sst es.
Proof.
  intros [] Hf. constructor; auto. intros i Hi. rewrite Hf; auto; lia.
Qed.

Lemma sst_on_disk_same d d' sst es :
  same_blocks d d' -> sst_on_disk d sst es -> sst_on_disk d' sst es.
Proof. intros Hs Hd. eapply sst_on_disk_frame; [exact Hd|]. auto. Qed.

(** What the buffer of a search holds. *)
Definition cache_ok (es : list lsm_entry) (c : block * Z) : Prop :=
  snd c = UINT_MAX \/
  exists i : nat, snd c = Z.of_nat i /\ Z.of_nat i < payload_blocks (zlen es) /\
    fst c = payload_block (chunk i es).

Lemma read_payload_block_outcome sst es i c w r w' :
  sst_on_disk (w_dev w) sst es -> cache_ok es c ->
  0 <= i < payload_blocks (zlen es) ->
  zns_sst_read_payload_block sst i c w = (r, w') ->
  same_blocks (w_dev w) (w_dev w') /\ fault_free_step w w' /\
  match r with
  | Ok c' => c' = (payload_block (chunk (Z.to_nat i) es), i) /\ cache_ok es c'
  | Err e => faulty w e
  end.
Proof.
  intros Hd Hc Hi. pose proof (payload_blocks_bound _ (sod_count _ _ _ Hd)) as Hpb.
  pose proof (sod_fits _ _ _ Hd) as Hfit. rewrite (sod_nr_blocks _ _ _ Hd) in Hfit.
  assert (Hok : cache_ok es (payload_block (chunk (Z.to_nat i) es), i)).
  { right. exists (Z.to_nat i). cbn. rewrite Z2Nat.id by lia. auto with lia. }
  unfold zns_sst_read_payload_block. destruct (Z.eqb_spec (snd c) i) as [Heq|Hne].
  - unfold ret. intros [= <- <-]. split_and!; [apply same_blocks_refl|faults| |done].
    destruct c as [b idx]. cbn in Heq. subst idx.
    destruct Hc as [Hm|(j & Hj & _ & Hb)]; cbn in *; [unfold UINT_MAX in Hm; lia|].
    subst b i. by rewrite Nat2Z.id.
  - unfold bind. change ZNS_SST_BLOCK_SECTORS with 8. unwrap.
    destruct (zns_block_read _ _ w) as [r1 w1] eqn:E.
    apply block_read_outcome in E as (Hs & Hf & Hb). destruct r1 as [b|e].
    + unfold ret. intros [= <- <-]. split; [done|]. split; [done|]. subst b.
      pose proof (sod_payload _ _ _ Hd (Z.to_nat i) ltac:(lia)) as Hp.
      rewrite Z2Nat.id in Hp by lia.
      replace (s_start_sector sst + (i + 1) * 8) with (s_start_sector sst + 8 * (i + 1)) by lia.
      by rewrite Hp.
    + intros [= <- <-]. auto.
Qed.

(** The key a payload block starts with. *)
Definition first_key (es : list lsm_entry) (i : Z) : Z :=
  from_option e_logical_block 0 (es !! Z.to_nat (256 * i)).

Lemma first_key_entry es i :
  is_u32 (zlen es) -> 0 <= i < payload_blocks (zlen es) ->
  exists e, es !! Z.to_nat (256 * i) = Some e /\ first_key es i = e_logical_block e.
Proof.
  intros Hn Hi. destruct (entries_in_block_value _ _ Hn Hi) as [_ Hlt]. unfold first_key.
  destruct (es !! Z.to_nat (256 * i)) as [e|] eqn:He; [by eexists|].
  apply lookup_ge_None_1 in He. unfold zlen in Hlt. lia.
Qed.

(** Keys grow with the index. *)
Lemma entry_keys_mono es i j e e' :
  entries_wf es -> es !! i = Some e -> es !! j = Some e' -> (i <= j)%nat ->
  e_logical_block e <= e_logical_block e'.
Proof.
  intros Hwf Hi Hj Hle. destruct (decide (i = j)) as [->|]; [simplify_eq; lia|].
  apply Z.lt_le_incl, (sorted_lookup_lt _ i j _ _ (ew_sorted es Hwf));
    [by rewrite list_lookup_fmap, ?Hi, ?Hj..|lia].
Qed.

Lemma first_key_mono es i j :
  entries_wf es -> is_u32 (zlen es) -> 0 <= i <= j -> j < payload_blocks (zlen es) ->
  first_key es i <= first_key es j.
Proof.
  intros Hwf Hn Hij Hj.
  destruct (first_key_entry es i Hn ltac:(lia)) as (e & He & ->).
  destruct (first_key_entry es j Hn ltac:(lia)) as (e' & He' & ->).
  eapply entry_keys_mono; [done|exact He|exact He'|lia].
Qed.

Lemma block_first_key es i :
  entries_wf es -> is_u32 (zlen es) -> 0 <= i < payload_blocks (zlen es) ->
  zns_sst_block_first_key (payload_block (chunk (Z.to_nat i) es)) = first_key es i.
Proof.
  intros Hwf Hn Hi. unfold zns_sst_block_first_key.
  destruct (first_key_entry es i Hn Hi) as (e & He & ->).
  assert (Hc : chunk (Z.to_nat i) es !! 0%nat = Some e).
  { rewrite chunk_lookup. cbn [decide]. rewrite decide_True by lia. rewrite <- He. f_equal. lia. }
  apply payload_block_entry in Hc as [Hk _]. change (entry_logical_block 0) with (entry_logical_block (Z.of_nat 0)).
  rewrite Hk. cbn.
  apply u64_id. pose proof (ew_keys es Hwf) as Hks. rewrite Forall_lookup in Hks.
  by apply (Hks _ _ He).
Qed.

Lemma lookup_loop_outcome fuel sst es k c low high w r w' :
  sst_on_disk (w_dev w) sst es -> cache_ok es c ->
  0 <= low <= high -> high < payload_blocks (zlen es) -> high - low <= Z.of_nat fuel ->
  (low = 0 \/ first_key es low <= k) ->
  (forall i, high < i < payload_blocks (zlen es) -> k < first_key es i) ->
  lookup_loop fuel sst k c low high w = (r, w') ->
  same_blocks (w_dev w) (w_dev w') /\ fault_free_step w w' /\
  match r with
  | Ok (c', i) => cache_ok es c' /\ 0 <= i < payload_blocks (zlen es) /\
      (i = 0 \/ first_key es i <= k) /\
      forall j, i < j < payload_blocks (zlen es) -> k < first_key es j
  | Err e => faulty w e
  end.
Proof.
  revert c low high w. induction fuel as [|fuel IH]; intros c low high w Hd Hc Hlh Hp Hf Hlow Hhigh;
    cbn [lookup_loop].
  { unfold ret. intros [= <- <-]. assert (low = high) as -> by lia.
    split_and!; auto with zns; lia. }
  destruct (Z.ltb_spec low high) as [Hlt|Hge].
  2:{ unfold ret. intros [= <- <-]. assert (low = high) as -> by lia.
      split_and!; auto with zns; lia. }
  pose proof (payload_blocks_bound _ (sod_count _ _ _ Hd)) as Hpb.
  pose proof (Z.div_mod (high - low + 1) 2 ltac:(lia)) as Hdm.
  pose proof (Z.mod_pos_bound (high - low + 1) 2 ltac:(lia)) as Hm.
  cbv zeta. rewrite (u32_id (high - low)), (u32_id (high - low + 1)), (u32_id (low + _)) by lia.
  set (mid := low + (high - low + 1) / 2) in *. assert (Hmid : low < mid <= high) by lia.
  unfold bind. destruct (zns_sst_read_payload_block sst mid c w) as [r1 w1] eqn:E.
  apply (read_payload_block_outcome sst es) in E as (Hs & Hf1 & Hr); [|done|done|lia].
  destruct r1 as [c1|e]; [|intros [= <- <-]; auto]. destruct Hr as [-> Hc1].
  cbn [fst]. rewrite block_first_key; [|apply Hd|apply Hd|lia].
  rewrite u32_id by lia. apply (sst_on_disk_same _ (w_dev w1)) in Hd; [|done].
  destruct (Z.leb_spec (first_key es mid) k) as [Hle|Hgt]; intros Hrun.
  - apply IH in Hrun as (Hs2 & Hf2 & Hr2); auto; [|lia..].
    split; [by transitivity (w_dev w1)|]. split; [faults|].
    destruct r as [[c' i]|]; [done|faults].
  - apply IH in Hrun as (Hs2 & Hf2 & Hr2); auto; [|lia..|].
    { split; [by transitivity (w_dev w1)|]. split; [faults|].
      destruct r as [[c' i]|]; [done|faults]. }
    intros i Hi. eapply Z.lt_le_trans; [exact Hgt|].
    apply first_key_mono; [apply Hd|apply Hd|lia..].
Qed.

(** A key can only be in the last block that starts at or below it. *)
Lemma assoc_chunk es k i :
  entries_wf es -> is_u32 (zlen es) -> 0 <= i < payload_blocks (zlen es) ->
  (i = 0 \/ first_key es i <= k) ->
  (forall j, i < j < payload_blocks (zlen es) -> k < first_key es j) ->
  assoc (chunk (Z.to_nat i) es) k = assoc es k.
Proof.
  intros Hwf Hn Hi Hle Hgt. pose proof (chunk_wf es (Z.to_nat i) Hwf) as Hcwf.
  destruct (assoc (chunk (Z.to_nat i) es) k) as [p|] eqn:Hc.
  { unfold assoc in Hc. apply elem_of_list_to_map_2, list_elem_of_fmap in Hc as (e & He & Hin).
    apply list_elem_of_lookup_1 in Hin as [j Hj]. rewrite chunk_lookup in Hj.
    case_decide; [|done]. injection He as -> ->. symmetry. by eapply assoc_lookup; [apply Hwf|]. }
  symmetry. apply assoc_none. intros j e Hj <-.
  assert (Hblk : Z.of_nat j / 256 = i).
  { pose proof (Z.div_mod (Z.of_nat j) 256 ltac:(lia)) as Hdm.
    pose proof (Z.mod_pos_bound (Z.of_nat j) 256 ltac:(lia)) as Hm.
    set (b := Z.of_nat j / 256) in *. assert (Hb : 0 <= b < payload_blocks (zlen es)).
    { apply lookup_lt_Some in Hj. unfold payload_blocks, zlen. split; [lia|].
      apply Z.le_succ_l, Z.div_le_lower_bound; lia. }
    destruct (Z.lt_trichotomy b i) as [Hlt|[Heq|Hlt]]; [|done|].
    - destruct Hle as [->|Hle]; [lia|].
      destruct (first_key_entry es i Hn Hi) as (e' & He' & Hk).
      assert (e_logical_block e < e_logical_block e'); [|lia].
      apply (sorted_lookup_lt _ j (Z.to_nat (256 * i)) _ _ (ew_sorted es Hwf));
        [by rewrite list_lookup_fmap, ?Hj, ?He'..|lia].
    - specialize (Hgt b ltac:(lia)). destruct (first_key_entry es b Hn Hb) as (e' & He' & Hk).
      pose proof (entry_keys_mono es _ _ _ _ Hwf He' Hj ltac:(lia)). lia. }
  assert (Hin : chunk (Z.to_nat i) es !! Z.to_nat (Z.of_nat j mod 256) = Some e).
  { pose proof (Z.div_mod (Z.of_nat j) 256 ltac:(lia)) as Hdm.
    pose proof (Z.mod_pos_bound (Z.of_nat j) 256 ltac:(lia)) as Hm.
    rewrite chunk_lookup, decide_True by lia. rewrite <- Hj. f_equal. lia. }
  erewrite assoc_lookup in Hc; [done|apply Hcwf|exact Hin].
Qed.

(** The answer a table gives for a block. *)
Definition answer (o : option Z) : result Z :=
  match o with Some p => Ok p | None => Err (- ENODATA) end.

Lemma assoc_out_of_range d sst es k :
  sst_on_disk d sst es -> k < s_min_key sst \/ s_max_key sst < k -> assoc es k = None.
Proof.
  intros Hd Hk. apply assoc_none. intros i e Hi <-.
  destruct (sod_min _ _ _ Hd) as (e0 & H0' & Hmin). destruct (sod_max _ _ _ Hd) as (e1 & H1' & Hmax).
  rewrite head_lookup in H0'. rewrite last_lookup in H1'. apply lookup_lt_Some in Hi as Hlen.
  pose proof (entry_keys_mono es _ _ _ _ (sod_entries _ _ _ Hd) H0' Hi ltac:(lia)).
  pose proof (entry_keys_mono es _ _ _ _ (sod_entries _ _ _ Hd) Hi H1' ltac:(lia)). lia.
Qed.

Lemma sst_lookup_outcome sst es k w r w' :
  sst_on_disk (w_dev w) sst es -> zns_sst_lookup sst k w = (r, w') ->
  same_blocks (w_dev w) (w_dev w') /\ fault_free_step w w' /\
  (r = answer (assoc es k) \/ exists e, r = Err e /\ faulty w e).
Proof.
  intros Hd. pose proof (payload_blocks_bound _ (sod_count _ _ _ Hd)) as Hpb.
  assert (Hpos : 0 < payload_blocks (zlen es)).
  { destruct (sod_min _ _ _ Hd) as (e & He & _). destruct es; [done|].
    apply payload_blocks_pos. unfold zlen. cbn. lia. }
  unfold zns_sst_lookup. rewrite (sod_nr_blocks _ _ _ Hd), (proj2 (Z.ltb_ge _ _)) by lia.
  destruct (_ || _) eqn:Erange.
  { intros [= <- <-]. rewrite (assoc_out_of_range _ sst es k Hd).
    - split_and!; auto with zns.
    - apply orb_true_iff in Erange as [?%Z.ltb_lt|?%Z.ltb_lt]; auto. }
  unfold bind. destruct (on_mem kmalloc w) as [r1 w1] eqn:E1.
  apply on_mem_outcome in E1 as (Hd1 & Hf1 & He1).
  destruct r1 as [[]|e]; [|intros [= <- <-]; rewrite Hd1; split_and!; [apply same_blocks_refl|faults|right; faults]].
  rewrite u32_id by lia. destruct (lookup_loop _ _ _ _ _ _ w1) as [r2 w2] eqn:E2.
  apply (lookup_loop_outcome _ sst es) in E2 as (Hs2 & Hf2 & Hr2); rewrite ?Hd1;
    [|done|by left|lia..|by left|lia].
  rewrite Hd1 in Hs2. destruct r2 as [[c i]|e]; [|intros [= <- <-]; split_and!; [done|faults|right; faults]].
  destruct Hr2 as (Hc & Hi & Hle & Hgt).
  destruct (zns_sst_read_payload_block sst i c w2) as [r3 w3] eqn:E3.
  apply (read_payload_block_outcome sst es) in E3 as (Hs3 & Hf3 & Hr3);
    [|by eapply sst_on_disk_same|done|done].
  assert (Hs : same_blocks (w_dev w) (w_dev w3)) by (by transitivity (w_dev w2)).
  destruct r3 as [c3|e]; [|intros [= <- <-]; split_and!; [done|faults|right; faults]].
  destruct Hr3 as [-> _]. unfold lift. intros [= <- <-]. split_and!; [done|faults|]. left.
  cbn [fst]. rewrite (sod_nr_entries _ _ _ Hd).
  destruct (chunk_length es (Z.to_nat i) (sod_count _ _ _ Hd) ltac:(lia)) as [Hlen Hl].
  rewrite Z2Nat.id in Hlen by lia. rewrite <- Hlen.
  rewrite block_find_assoc; [|apply chunk_wf, Hd|done].
  by rewrite (assoc_chunk es k i (sod_entries _ _ _ Hd) (sod_count _ _ _ Hd) Hi Hle Hgt).
Qed.

(** The call itself always returns. *)
Lemma sst_write_total o start limit seq w :
  exists r c w', zns_sst_write o start limit seq w = (Ok (r, c), w').
Proof.
  unfold zns_sst_write. destruct o as [m|]; [|by do 3 eexists].
  destruct (limit <=? start); [by do 3 eexists|]. unfold bind at 1, attempt.
  destruct (on_mem kmalloc w) as [[[]|e1] w1]; [|by do 3 eexists].
  cbv zeta. destruct (_ =? 0); [by do 3 eexists|]. destruct (_ <? _); [by do 3 eexists|].
  unfold bind. destruct (on_mem kmalloc w1) as [[[]|e2] w2]; [|by do 3 eexists].
  unfold sst_write_blocks. cbv zeta.
  destruct (zns_sst_emit_payload m (w2, _)) as [[[]|e3] [w3 ctx]]; [|by do 3 eexists].
  destruct (zns_block_write _ _ _ w3) as [[[]|e4] w4]; [|by do 3 eexists].
  destruct (zns_sst_emit_payload m (w4, _)) as [[[]|e5] [w5 ctx5]]; by do 3 eexists.
Qed.

(** ** Where errors come from *)

Lemma submit_block_error sector o b w e w' :
  zns_submit_block sector o b w = (Err e, w') -> io_error e.
Proof.
  unfold zns_submit_block, bind. destruct (on_mem kmalloc w) as [[[]|e'] w1] eqn:E.
  2:{ intros [= <- <-]. apply on_mem_outcome in E as (_ & _ & [He _]). done. }
  cbn. destruct (negb _); [intros [= <- <-]; by right; left|].
  unfold on_dev, zoom. destruct (submit_bio_wait _ _) as [r0 d'] eqn:Es.
  intros [= -> <-]. right. right. by do 3 eexists.
Qed.

Lemma block_write_error sector b o w e w' :
  zns_block_write sector b o w = (Err e, w') -> io_error e.
Proof.
  unfold zns_block_write, bind.
  destruct (zns_submit_block sector o b w) as [[?|e'] w0] eqn:Es; [done|].
  intros [= <- <-]. by eapply submit_block_error.
Qed.

Lemma consume_all_error bs s e s' : consume_all bs s = (Err e, s') -> io_error e.
Proof.
  revert s. induction bs as [|b bs IH]; intros s; [done|]. cbn [consume_all]. unfold bind.
  destruct (zns_sst_consume_block b s) as [[[]|e'] s1] eqn:Ec; [apply IH|].
  intros [= <- <-]. destruct s as [w ctx]. unfold zns_sst_consume_block in Ec.
  destruct (wc_write ctx); [|done]. cbn in Ec.
  destruct (zns_block_write _ _ _ w) as [[[]|e2] w2] eqn:Ew; [done|].
  injection Ec as <- <-. by eapply block_write_error.
Qed.

(** A flush fails for lack of space, because the table is empty, or because of
    memory or the device. *)
Lemma sst_write_error m start limit seq w e c w' :
  is_u32 (zlen (mt_entries m)) ->
  zns_sst_write (Some m) start limit seq w = (Ok (Err e, c), w') ->
  e = - ENOSPC \/ (e = - ENODATA /\ mt_entries m = []) \/ io_error e.
Proof.
  intros Hn. unfold is_u32 in Hn. unfold zns_sst_write.
  destruct (limit <=? start); [intros [= <- <- <-]; by left|].
  assert (Hmem : io_error (- ENOMEM)) by (by left). unfold bind at 1, attempt.
  destruct (on_mem kmalloc w) as [[[]|e1] w1]; [|intros [= <- <- <-]; by right; right].
  unfold zns_sst_scan_memtable. cbn [s_start_sector s_nr_blocks s_seq s_payload_crc].
  rewrite scan_entries by lia. cbn [s_nr_entries].
  destruct (Z.eqb_spec (zlen (mt_entries m)) 0) as [Hz|_].
  { intros [= <- <- <-]. right; left. split; [done|]. apply nil_length_inv.
    unfold zlen in Hz. lia. }
  cbv zeta. destruct (_ <? _); [intros [= <- <- <-]; by left|].
  unfold bind. destruct (on_mem kmalloc w1) as [[[]|e2] w2]; [|intros [= <- <- <-]; by right; right].
  unfold sst_write_blocks. rewrite emit_payload_blocks, consume_all_crc.
  destruct (zns_block_write _ _ _ w2) as [[[]|e3] w3] eqn:Ew.
  2:{ intros [= <- <- <-]. right; right. by eapply block_write_error. }
  rewrite emit_payload_blocks. destruct (consume_all _ (w3, _)) as [[[]|e4] [w4 ctx]] eqn:Ec; [done|].
  intros [= <- <- <-]. right; right. by eapply consume_all_error.
Qed.

(** ** The round trip *)

(** The entries of a MemTable whose contents fit their C types. *)
Definition mt_storable (m : lsm_memtable) : Prop :=
  entries_wf (mt_entries m) /\ is_u32 (zlen (mt_entries m)).

Lemma sst_of_consistent start seq es :
  entries_wf es -> is_u32 (zlen es) -> is_u64 seq -> es <> [] ->
  sst_in_range (sst_of start seq es) /\ sst_consistent (sst_of start seq es).
Proof.
  intros Hwf Hn Hseq Hne. pose proof (payload_blocks_bound _ Hn) as Hpb.
  destruct es as [|e0 es]; [done|].
  destruct (last_is_Some (e0 :: es)) as [_ [e1 Hlast]]; [done|].
  assert (Hh : (e0 :: es) !! 0%nat = Some e0) by done.
  assert (Hl := Hlast). rewrite last_lookup in Hl.
  pose proof (entry_keys_mono _ _ _ _ _ Hwf Hh Hl ltac:(lia)) as Hle.
  pose proof (ew_keys _ Hwf) as Hk. rewrite Forall_lookup in Hk.
  pose proof (Hk _ _ Hh). pose proof (Hk _ _ Hl). unfold sst_in_range, sst_consistent, sst_of.
  cbn [s_nr_entries s_nr_blocks s_min_key s_max_key s_seq]. rewrite Hlast. cbn [head from_option].
  rewrite nr_blocks_payload by done. split_and!; try done.
  unfold is_u32. lia.
Qed.

Lemma written_on_disk d start seq es :
  entries_wf es -> is_u32 (zlen es) -> es <> [] -> 0 <= start ->
  start + 8 * s_nr_blocks (sst_of start seq es) < 18446744073709551616 ->
  written_prefix d (sst_of start seq es) es (8 * s_nr_blocks (sst_of start seq es)) ->
  sst_on_disk d (sst_of start seq es) es /\ header_on_disk d (sst_of start seq es) es.
Proof.
  intros Hwf Hn Hne Hs Hfit Hp. pose proof (payload_blocks_bound _ Hn) as Hpb.
  destruct Hp as [Hp|(j & Hj & Hh & Hst)]; [cbn in Hp; lia|]. split; [|done].
  cbn [s_nr_blocks sst_of] in Hj. constructor; try done.
  - destruct es as [|e es]; [done|]. by exists e.
  - destruct (last_is_Some es) as [_ Hl]. destruct (Hl Hne) as [e He]. exists e.
    split; [done|]. cbn. by rewrite He.
  - intros i Hi. apply Hst; lia.
Qed.

Lemma sst_on_disk_loaded d start crc sst es :
  start = s_start_sector sst ->
  sst_on_disk d sst es -> sst_on_disk d (with_start_crc start crc sst) es.
Proof. intros -> []. by constructor. Qed.

Lemma header_on_disk_frame d d' sst es :
  header_on_disk d sst es -> dev_block d' (s_start_sector sst) = dev_block d (s_start_sector sst) ->
  header_on_disk d' sst es.
Proof. unfold header_on_disk. congruence. Qed.

(** C28.  What a flush stores is what later lookups find.  When [zns_sst_write]
    succeeds, the table ends below the limit it was given; and on any later state of
    the device that still has these sectors, loading the table by its header alone
    and searching it returns, for every block, the mapping the MemTable had, also for
    blocks it had no mapping for.  A failure of either can only come from a failed
    allocation or a failed read. *)
Theorem sst_write_then_lookup m start limit seq w sst consumed w1 w2 limit' :
  mt_storable m -> is_u64 start -> is_u64 limit -> is_u64 seq -> is_u64 limit' ->
  zns_sst_write (Some m) start limit seq w = (Ok (Ok sst, consumed), w1) ->
  (forall s, start <= s -> s + 8 <= start + consumed ->
     dev_block (w_dev w2) s = dev_block (w_dev w1) s) ->
  start + consumed <= limit' ->
  start + consumed <= limit /\
  match zns_sst_load start limit' w2 with
  | (Ok sst', w3) => forall k,
      let '(r, _) := zns_sst_lookup sst' k w3 in
      r = answer (mt_map m !! k) \/ exists e, r = Err e /\ faulty w3 e
  | (Err e, _) => faulty w2 e
  end.
Proof.
  intros [Hwf Hn] Hs Hl Hseq Hl' Hrun Hkeep Hlim.
  apply sst_write_cases in Hrun as (_ & r & c & [= <- <-] & Hp & -> & -> & Hfit & Hne); [|done..].
  split; [done|]. unfold is_u64 in *.
  set (es := mt_entries m) in *. set (sst := sst_of start seq es) in *.
  destruct (written_on_disk (w_dev w1) start seq es) as [Hd Hh]; [done..|lia|fold sst; lia|done|].
  fold sst in Hd, Hh.
  destruct (sst_of_consistent start seq es) as [Hr Hc]; [done..|].
  destruct (zns_sst_load start limit' w2) as [r w3] eqn:Hload.
  assert (Hd2 : sst_on_disk (w_dev w2) sst es).
  { eapply sst_on_disk_frame; [exact Hd|]. intros s ? ?.
    change (s_start_sector sst) with start in *. apply Hkeep; lia. }
  assert (Hnb : 0 < s_nr_blocks sst).
  { pose proof (payload_blocks_bound _ Hn). unfold sst, sst_of. cbn [s_nr_blocks]. lia. }
  assert (Hh2 : header_on_disk (w_dev w2) sst es).
  { eapply header_on_disk_frame; [exact Hh|].
    change (s_start_sector sst) with start. apply Hkeep; lia. }
  apply (sst_load_outcome sst es) in Hload as (Hsame & _ & Hres);
    [|done|done|done|change (s_start_sector sst) with start; lia|done|done].
  destruct r as [sst'|e]; [|done]. intros k.
  destruct (zns_sst_lookup sst' k w3) as [r w4] eqn:Hlook.
  apply (sst_lookup_outcome sst' es) in Hlook as (_ & _ & Ho); [exact Ho|].
  rewrite Hres. apply sst_on_disk_loaded; [done|]. by eapply sst_on_disk_same.
Qed.


End SstFacts.

(** ** Concrete runs, on a small zoned device *)
Module SstExamples.
Import Memtable.Examples.

(** One zone of eight blocks. *)
Definition demo_ram (faults : list Z) : ram :=
  mk_ram ∅ [mk_blk_zone 0 64 64 0 BLK_ZONE_TYPE_SEQWRITE_REQ BLK_ZONE_COND_EMPTY] faults.
Definition demo_world (faults : list Z) : world := mk_world [] (demo_ram faults).

Lemma no_faults_readable : @reads_succeed ram_device (fun d : ram => rd_faults d = []).
Proof.
  intros d Hd. split; [done|]. intros fl s buf. cbn. unfold ram_submit, ram_serve. cbn.
  rewrite Hd. eauto.
Qed.

Lemma entries_in_block_partition_witness :
  zns_sst_nr_blocks 300 = 3 /\ zns_sst_entries_in_block 300 1 = 44.
Proof.
  assert (Hn : is_u32 300) by (vm_compute; split; [discriminate|reflexivity]).
  destruct (entries_in_block_partition 300 Hn ltac:(lia)) as (_ & _ & _ & H & _).
  split; [reflexivity|]. vm_compute in H. vm_compute. reflexivity.
Defined.

Lemma old_storable : mt_storable old_table.
Proof.
  assert (He : mt_entries old_table = [mk_entry 3 40 2; mk_entry 5 80 1]) by reflexivity.
  unfold mt_storable. rewrite He. unfold is_u32, zlen. split; [|cbn; lia].
  constructor; cbn; repeat constructor; unfold is_u64; cbn; lia.
Qed.

Lemma block_find_correct_witness :
  zns_sst_block_find (payload_block (mt_entries old_table)) 2 5 = Ok 80.
Proof.
  assert (Hlen : 0 < zlen (mt_entries old_table) <= 256)
    by (vm_compute; split; [reflexivity|discriminate]).
  destruct (block_find_correct (mt_entries old_table) 5 (proj1 old_storable) Hlen) as [H _].
  exact H.
Defined.

Lemma header_round_trip_witness :
  zns_sst_decode_header (zns_sst_encode_header (sst_of 0 7 (mt_entries old_table)) 99) sst_zero =
    Ok (with_start_crc 0 0 (sst_of 0 7 (mt_entries old_table)), 99).
Proof.
  destruct (sst_of_consistent 0 7 (mt_entries old_table)) as [Hr Hc];
    [apply old_storable|apply old_storable|vm_compute; split; [discriminate|reflexivity]
    |discriminate|].
  assert (H99 : is_u32 99) by (vm_compute; split; [discriminate|reflexivity]).
  exact (proj1 (header_round_trip (sst_of 0 7 (mt_entries old_table)) 99 sst_zero
    zero_block sst_zero 0 Hr H99 Hc)).
Defined.

Definition demo_flush : result (result zns_sstable * Z) * world :=
  zns_sst_write (Some old_table) 0 64 7 (demo_world []).

Lemma demo_flush_ok :
  demo_flush = (Ok (Ok (sst_of 0 7 (mt_entries old_table)), 16), snd demo_flush).
Proof. rewrite (surjective_pairing demo_flush) at 1. f_equal. Qed.

Lemma sst_write_then_lookup_witness :
  16 <= 64 /\
  match zns_sst_load 0 64 (snd demo_flush) with
  | (Ok sst', w3) => forall k,
      let '(r, _) := zns_sst_lookup sst' k w3 in
      r = answer (mt_map old_table !! k) \/ exists e, r = Err e /\ faulty w3 e
  | (Err e, _) => faulty (snd demo_flush) e
  end.
Proof.
  apply (sst_write_then_lookup old_table 0 64 7 (demo_world [])
    (sst_of 0 7 (mt_entries old_table)) 16 (snd demo_flush) (snd demo_flush) 64);
    [exact old_storable|vm_compute; split; [discriminate|reflexivity]..|exact demo_flush_ok
    |reflexivity|lia].
Defined.


(** The device answers the next read with [-ENODATA], its code for a medium
    error. *)
Definition bad_medium (w : world) : world :=
  mk_world [] (mk_ram (rd_blocks (w_dev w)) (rd_zones (w_dev w)) [- ENODATA]).


End SstExamples.
