(* ===== verification/Super.v ===== *)
(** The superblock of the metadata zone: [src/lsm-super.h] and
    [src/lsm-super.c].  It records the geometry a format was made with, so that a
    device of another shape is refused. *)
From S2P Require Import Prelude Kernel ZonedRam Bytes RbTree Memtable Sstable.

Definition ZNS_SUPER_MAGIC : Z := 0x5a4e535355504552.
Definition ZNS_SUPER_VERSION : Z := 1.

(** [struct zns_super_disk], packed: the offset of each member. *)
Definition d_magic : Z := 0.
Definition d_version : Z := 8.
Definition d_crc : Z := 12.
Definition d_uuid : Z := 16.
Definition d_logical_sectors : Z := 24.
Definition d_zone_size_sectors : Z := 32.
Definition d_nr_zones : Z := 40.
Definition d_meta_zone_id : Z := 44.
Definition d_sectors_per_block : Z := 48.

Record zns_super : Type := mk_super {
  su_uuid : Z;
  su_logical_sectors : Z;
  su_zone_size_sectors : Z;
  su_nr_zones : Z;
  su_meta_zone_id : Z;
  su_sectors_per_block : Z;
}.

#[export] Instance zns_super_eq_dec : EqDecision zns_super.
Proof. solve_decision. Defined.

Section Super.
Context `{BlockDevice} `{Crc32}.

Definition zns_super_crc (b : block) : Z := crc32_le 0 (drop (Z.to_nat d_uuid) b).

(** The block before the checksum is stored. *)
Definition super_fields (super : zns_super) : block :=
  put32 d_sectors_per_block (su_sectors_per_block super)
  (put32 d_meta_zone_id (su_meta_zone_id super)
  (put32 d_nr_zones (su_nr_zones super)
  (put64 d_zone_size_sectors (su_zone_size_sectors super)
  (put64 d_logical_sectors (su_logical_sectors super)
  (put64 d_uuid (su_uuid super)
  (put32 d_version ZNS_SUPER_VERSION
  (put64 d_magic ZNS_SUPER_MAGIC zero_block))))))).

Definition zns_super_encode (super : zns_super) : block :=
  let b := super_fields super in
  put32 d_crc (zns_super_crc b) b.

Definition zns_super_decode (b : block) : result zns_super :=
  if negb (get64 d_magic b =? ZNS_SUPER_MAGIC) then Err (- EINVAL)
  else if negb (get32 d_version b =? ZNS_SUPER_VERSION) then Err (- EINVAL)
  else if negb (get32 d_crc b =? zns_super_crc b) then Err (- EINVAL)
  else Ok (mk_super (get64 d_uuid b) (get64 d_logical_sectors b) (get64 d_zone_size_sectors b)
             (get32 d_nr_zones b) (get32 d_meta_zone_id b) (get32 d_sectors_per_block b)).

Definition zns_super_compare (on_disk device : Z) : result unit :=
  if on_disk =? device then Ok tt else Err (- EINVAL).

Definition zns_super_matches (on_disk device : zns_super) : result unit :=
  match zns_super_compare (su_sectors_per_block on_disk) (su_sectors_per_block device) with
  | Err e => Err e
  | Ok _ =>
  match zns_super_compare (su_nr_zones on_disk) (su_nr_zones device) with
  | Err e => Err e
  | Ok _ =>
  match zns_super_compare (su_zone_size_sectors on_disk) (su_zone_size_sectors device) with
  | Err e => Err e
  | Ok _ =>
  match zns_super_compare (su_meta_zone_id on_disk) (su_meta_zone_id device) with
  | Err e => Err e
  | Ok _ => zns_super_compare (su_logical_sectors on_disk) (su_logical_sectors device)
  end end end end.

Definition zns_super_write (sector : Z) (super : zns_super) : M world unit :=
  on_mem kmalloc ;;;
  zns_block_write sector (zns_super_encode super) (opf REQ_OP_WRITE).

Definition zns_super_read (sector : Z) : M world zns_super :=
  on_mem kmalloc ;;;
  b <- zns_block_read sector zero_block ;;
  lift (zns_super_decode b).

End Super.

(** ** Correctness *)
Section SuperFacts.
Context `{BlockDeviceLaws} `{Crc32}.

Definition super_in_range (s : zns_super) : Prop :=
  is_u64 (su_uuid s) /\ is_u64 (su_logical_sectors s) /\ is_u64 (su_zone_size_sectors s) /\
  is_u32 (su_nr_zones s) /\ is_u32 (su_meta_zone_id s) /\ is_u32 (su_sectors_per_block s).

Lemma length_super_fields s : length (super_fields s) = 4096%nat.
Proof. unfold super_fields. block_length. Qed.

Lemma length_super_encode s : zlen (zns_super_encode s) = 4096.
Proof.
  unfold zlen, zns_super_encode. cbv zeta. unfold put32, put_le.
  rewrite !length_app, length_take, length_drop, length_le_split, length_super_fields. done.
Qed.

(** The checksum field lies before the bytes it covers. *)
Lemma super_crc_put_crc v b :
  length b = 4096%nat -> zns_super_crc (put32 d_crc v b) = zns_super_crc b.
Proof.
  intros Hb. unfold zns_super_crc, put_le. f_equal. change (Z.to_nat d_uuid) with 16%nat.
  change (Z.to_nat d_crc) with 12%nat.
  rewrite app_assoc, drop_app_length'; [done|].
  rewrite length_app, length_take, length_le_split. lia.
Qed.

Lemma super_decode_encode s :
  super_in_range s -> zns_super_decode (zns_super_encode s) = Ok s.
Proof.
  intros (Hu & Hl & Hz & Hn & Hm & Hs). unfold zns_super_decode, zns_super_encode. cbv zeta.
  pose proof (length_super_fields s) as Hlen. rewrite super_crc_put_crc by done.
  set (crc := zns_super_crc _). assert (Hcrc : is_u32 crc) by apply crc32_le_range.
  assert (Hget : forall n off, (Z.to_nat off + n <= 12 \/ 16 <= Z.to_nat off)%nat ->
    get_le n off (put32 d_crc crc (super_fields s)) = get_le n off (super_fields s)).
  { intros n off Hoff. apply get_put_other_block; unfold d_crc; [done|lia|lia]. }
  unfold d_magic, d_version, d_uuid, d_logical_sectors, d_zone_size_sectors, d_nr_zones,
    d_meta_zone_id, d_sectors_per_block.
  rewrite !Hget by lia. unfold d_crc. rewrite get_put_same_block by (done || lia).
  rewrite Z.mod_small by done. unfold super_fields, d_magic, d_version, d_uuid,
    d_logical_sectors, d_zone_size_sectors, d_nr_zones, d_meta_zone_id, d_sectors_per_block.
  fields. rewrite !Z.eqb_refl. destruct s. cbn [su_uuid su_logical_sectors su_zone_size_sectors
    su_nr_zones su_meta_zone_id su_sectors_per_block] in *.
  cbn [negb]. rewrite !Z.mod_small by done. reflexivity.
Qed.

(** The five fields that describe the device; the uuid is not one of them. *)
Definition same_geometry (a b : zns_super) : Prop :=
  su_sectors_per_block a = su_sectors_per_block b /\ su_nr_zones a = su_nr_zones b /\
  su_zone_size_sectors a = su_zone_size_sectors b /\ su_meta_zone_id a = su_meta_zone_id b /\
  su_logical_sectors a = su_logical_sectors b.

Lemma super_matches_iff a b :
  (zns_super_matches a b = Ok tt <-> same_geometry a b) /\
  (~ same_geometry a b -> zns_super_matches a b = Err (- EINVAL)).
Proof.
  unfold zns_super_matches, zns_super_compare, same_geometry.
  repeat match goal with |- context [?x =? ?y] => destruct (Z.eqb_spec x y) end; split;
    intuition (congruence || done).
Qed.

Lemma super_write_spec sector s w r w' :
  zns_super_write sector s w = (r, w') ->
  only_in sector (sector + 8) (w_dev w) (w_dev w') /\
  match r with Ok _ => dev_block (w_dev w') sector = zns_super_encode s | Err _ => True end.
Proof.
  unfold zns_super_write, bind. destruct (on_mem kmalloc w) as [r1 w1] eqn:E1.
  apply on_mem_dev in E1 as [Hd _]. rewrite <- Hd.
  destruct r1; [apply block_write_spec|intros [= <- <-]; auto with zns].
Qed.

Lemma super_read_outcome sector w r w' :
  zns_super_read sector w = (r, w') ->
  same_blocks (w_dev w) (w_dev w') /\ fault_free_step w w' /\
  (r = zns_super_decode (dev_block (w_dev w) sector) \/ exists e, r = Err e /\ faulty w e).
Proof.
  unfold zns_super_read, bind. destruct (on_mem kmalloc w) as [r1 w1] eqn:E1.
  apply on_mem_outcome in E1 as (Hd & Hf & He). rewrite <- Hd.
  destruct r1 as [[]|e]; [|intros [= <- <-]; split_and!; [apply same_blocks_refl|faults|right; faults]].
  destruct (zns_block_read sector zero_block w1) as [r2 w2] eqn:E2.
  apply block_read_outcome in E2 as (Hs & Hf2 & Hb). destruct r2 as [b|e].
  - unfold lift. intros [= <- <-]. subst b. split_and!; [done|faults|by left].
  - intros [= <- <-]. split_and!; [done|faults|right; faults].
Qed.

(** C33.  A format is recognised on the device it was made for and refused on any
    other.  After a superblock was written, and as long as its block is kept, reading
    it back yields exactly what was written, unless an allocation or a read fails;
    and the comparison with the device in front of us succeeds if and only if all
    five geometry fields agree, whatever the two uuids, and is [-EINVAL] otherwise. *)
Theorem super_format_recognised sector s device w w1 w2 :
  super_in_range s ->
  zns_super_write sector s w = (Ok tt, w1) ->
  dev_block (w_dev w2) sector = dev_block (w_dev w1) sector ->
  (fst (zns_super_read sector w2) = Ok s \/
   exists e, fst (zns_super_read sector w2) = Err e /\ faulty w2 e) /\
  (zns_super_matches s device = Ok tt <-> same_geometry s device) /\
  (~ same_geometry s device -> zns_super_matches s device = Err (- EINVAL)).
Proof.
  intros Hr Hw Hkeep. split; [|apply super_matches_iff].
  apply super_write_spec in Hw as [_ Hb].
  destruct (zns_super_read sector w2) as [r w3] eqn:Hrd.
  apply super_read_outcome in Hrd as (_ & _ & Ho).
  by rewrite Hkeep, Hb, super_decode_encode in Ho.
Qed.

(** Nothing but an intact superblock is accepted: a block decodes only if its
    magic, its version and the checksum over everything behind the checksum field are
    right. *)
Theorem super_decode_checks b s :
  zns_super_decode b = Ok s ->
  get64 d_magic b = ZNS_SUPER_MAGIC /\ get32 d_version b = ZNS_SUPER_VERSION /\
  get32 d_crc b = crc32_le 0 (drop 16 b) /\ super_in_range s.
Proof.
  unfold zns_super_decode.
  destruct (get64 d_magic b =? _) eqn:Em; [|done]. cbn [negb].
  destruct (get32 d_version b =? _) eqn:Ev; [|done]. cbn [negb].
  destruct (get32 d_crc b =? _) eqn:Ec; [|done]. cbn [negb]. guards. intros [= <-].
  split_and!; try done. unfold super_in_range. cbn.
  split_and!; apply get32_range || apply get64_range.
Qed.

End SuperFacts.

Module SuperExamples.
Import SstExamples.

Definition demo_super : zns_super := mk_super 12345 96 32 4 3 8.

Definition demo_format : result unit * world := zns_super_write 0 demo_super (demo_world []).

Lemma super_format_recognised_witness :
  (fst (zns_super_read 0 (snd demo_format)) = Ok demo_super \/
   exists e, fst (zns_super_read 0 (snd demo_format)) = Err e /\ faulty (snd demo_format) e) /\
  zns_super_matches demo_super (mk_super 777 96 32 5 3 8) = Err (- EINVAL).
Proof.
  assert (Hr : super_in_range demo_super) by (vm_compute; repeat split; discriminate || reflexivity).
  assert (Hw : zns_super_write 0 demo_super (demo_world []) = (Ok tt, snd demo_format)).
  { fold demo_format. rewrite (surjective_pairing demo_format) at 1. f_equal. }
  destruct (super_format_recognised 0 demo_super (mk_super 777 96 32 5 3 8) (demo_world [])
    (snd demo_format) (snd demo_format) Hr Hw eq_refl) as (H1 & _ & H2).
  split; [exact H1|]. apply H2. intros (_ & Hz & _). discriminate Hz.
Defined.

Lemma super_decode_checks_witness :
  get64 d_magic (zns_super_encode demo_super) = ZNS_SUPER_MAGIC.
Proof.
  apply (super_decode_checks (zns_super_encode demo_super) demo_super).
  apply super_decode_encode. vm_compute; repeat split; discriminate || reflexivity.
Defined.

End SuperExamples.
