(* ===== verification/Lsm.v ===== *)
(** The state of the LSM engine and its garbage-collection index:
    [src/engines/zns-engine-lsm.c], first part.  The index consists of the XArray
    [latest] (logical block to current location) and, per data zone, the reverse map
    from block slot to logical block with a count of live blocks.

    The fields of [struct zns_lsm] are grouped by who guards them: the
    garbage-collection index and the attempt counters (only the ordered I/O worker),
    the MemTable generations ([table_lock]) and the metadata zone ([sst_lock]).  The
    allocator owns the zone array after its initialisation. *)
From S2P Require Import Prelude Kernel ZonedRam Zone Allocator GcPolicy XArray Bytes RbTree.
From S2P Require Import Memtable Sstable Super Bio Engine.

Definition ZNS_LSM_MEMTABLE_THRESHOLD : Z := 16384.
Definition ZNS_LSM_MAX_GC_MEMTABLE_ENTRIES : Z := 1048576.
Definition ZNS_LSM_METADATA_ZONES : Z := 1.
Definition ZNS_LSM_GC_RESERVE_ZONES : Z := 1.

(** The module parameters. *)
Record lsm_params : Type := mk_params {
  zns_lsm_memtable_threshold : Z;
  zns_lsm_fail_data_write_at : Z;
  zns_lsm_fail_gc_move_write_at : Z;
  zns_lsm_fail_gc_zone_reset_at : Z;
}.

Definition default_params : lsm_params := mk_params ZNS_LSM_MEMTABLE_THRESHOLD 0 0 0.

(** Zero denotes an unused reverse-map slot; logical block zero is valid. *)
Definition zns_gc_encode_logical_block (logical_block : Z) : Z := u64 (logical_block + 1).
Definition zns_gc_decode_logical_block (entry : Z) : Z := u64 (entry - 1).
Definition zns_gc_encode_physical_sector (physical_sector : Z) : Z :=
  xa_mk_value (u64 (physical_sector + 1)).
Definition zns_gc_decode_physical_sector (entry : Z) : Z := u64 (xa_to_value entry - 1).

Record zns_gc_zone : Type := mk_gc_zone {
  gz_logical_blocks : list Z;
  gz_nr_blocks : Z;
  gz_nr_valid_blocks : Z;
}.

#[export] Instance zns_gc_zone_inhabited : Inhabited zns_gc_zone := populate (mk_gc_zone [] 0 0).

Section State.
Context `{XArray} `{RbTree}.

Record gc_index : Type := mk_gc_index {
  gi_zones : list zns_gc_zone;
  gi_latest : xarray;
  gi_valid_blocks : Z;
  gi_runs : Z;
  gi_moved : Z;
  gi_resets : Z;
}.

Record generations : Type := mk_generations {
  g_active_memtable : option lsm_memtable;
  g_immutable_memtable : option lsm_memtable;
  g_flushing_memtable : option lsm_memtable;
  g_flush_in_flight : bool;
}.

Record metadata : Type := mk_metadata {
  m_sstables : list zns_sstable; (* newest first *)
  m_nr_sstables : Z;
  m_nr_sst_entries : Z;
  m_next_sst_seq : Z;
  m_meta_start : Z;
  m_meta_wp : Z;
  m_meta_end : Z;
  m_super : zns_super;
}.

Record attempts : Type := mk_attempts {
  t_data_write : Z;
  t_gc_move_write : Z;
  t_gc_zone_reset : Z;
  t_writes_stopped : bool;
}.

Record zns_lsm : Type := mk_lsm {
  l_allocator : zns_allocator;
  l_gc : gc_index;
  l_tables : generations;
  l_meta : metadata;
  l_attempts : attempts;
  l_memtable_threshold : Z;
  l_sectors_per_block : Z;
  l_flush_queued : bool; (* flush_work is pending on flush_wq *)
}.

Definition set_allocator (a : zns_allocator) (l : zns_lsm) : zns_lsm :=
  mk_lsm a (l_gc l) (l_tables l) (l_meta l) (l_attempts l) (l_memtable_threshold l)
    (l_sectors_per_block l) (l_flush_queued l).
Definition set_gc (g : gc_index) (l : zns_lsm) : zns_lsm :=
  mk_lsm (l_allocator l) g (l_tables l) (l_meta l) (l_attempts l) (l_memtable_threshold l)
    (l_sectors_per_block l) (l_flush_queued l).
Definition set_tables (t : generations) (l : zns_lsm) : zns_lsm :=
  mk_lsm (l_allocator l) (l_gc l) t (l_meta l) (l_attempts l) (l_memtable_threshold l)
    (l_sectors_per_block l) (l_flush_queued l).
Definition set_meta (m : metadata) (l : zns_lsm) : zns_lsm :=
  mk_lsm (l_allocator l) (l_gc l) (l_tables l) m (l_attempts l) (l_memtable_threshold l)
    (l_sectors_per_block l) (l_flush_queued l).
Definition set_attempts (t : attempts) (l : zns_lsm) : zns_lsm :=
  mk_lsm (l_allocator l) (l_gc l) (l_tables l) (l_meta l) t (l_memtable_threshold l)
    (l_sectors_per_block l) (l_flush_queued l).
Definition set_flush_queued (b : bool) (l : zns_lsm) : zns_lsm :=
  mk_lsm (l_allocator l) (l_gc l) (l_tables l) (l_meta l) (l_attempts l)
    (l_memtable_threshold l) (l_sectors_per_block l) b.

Definition set_gc_zones (zs : list zns_gc_zone) (g : gc_index) : gc_index :=
  mk_gc_index zs (gi_latest g) (gi_valid_blocks g) (gi_runs g) (gi_moved g) (gi_resets g).
Definition set_latest (x : xarray) (g : gc_index) : gc_index :=
  mk_gc_index (gi_zones g) x (gi_valid_blocks g) (gi_runs g) (gi_moved g) (gi_resets g).
Definition inc_valid_blocks (g : gc_index) : gc_index :=
  mk_gc_index (gi_zones g) (gi_latest g) (gi_valid_blocks g + 1) (gi_runs g) (gi_moved g)
    (gi_resets g).
Definition inc_gc_runs (g : gc_index) : gc_index :=
  mk_gc_index (gi_zones g) (gi_latest g) (gi_valid_blocks g) (gi_runs g + 1) (gi_moved g)
    (gi_resets g).
Definition inc_gc_moved (g : gc_index) : gc_index :=
  mk_gc_index (gi_zones g) (gi_latest g) (gi_valid_blocks g) (gi_runs g) (gi_moved g + 1)
    (gi_resets g).
Definition inc_gc_resets (g : gc_index) : gc_index :=
  mk_gc_index (gi_zones g) (gi_latest g) (gi_valid_blocks g) (gi_runs g) (gi_moved g)
    (gi_resets g + 1).

(** [zone->logical_blocks[slot] = entry] with the count changed by [delta]. *)
Definition put_slot (slot entry delta : Z) (z : zns_gc_zone) : zns_gc_zone :=
  mk_gc_zone (gz_logical_blocks z).[slot := entry] (gz_nr_blocks z)
    (u64 (gz_nr_valid_blocks z + delta)).

Definition put_gc_slot (zone slot entry delta : Z) (g : gc_index) : gc_index :=
  set_gc_zones (gi_zones g).[zone := put_slot slot entry delta (gi_zones g).[zone]] g.

(** ** Sectors and slots *)

Fixpoint slot_scan (zones : list zns_zone) (i sectors_per_block physical_sector : Z)
    : result (Z * Z) :=
  match zones with
  | [] => Err (- EINVAL)
  | z :: zs =>
      let end_ := u64 (z_start_sector z + z_capacity z) in
      if (physical_sector <? z_start_sector z) || (end_ <=? physical_sector)
      then slot_scan zs (i + 1) sectors_per_block physical_sector
      else if negb (u64 (physical_sector - z_start_sector z) mod sectors_per_block =? 0) ||
              (u64 (end_ - physical_sector) <? sectors_per_block) ||
              ((z_write_pointer z <=? physical_sector) &&
               negb (bool_decide (z_condition z = BLK_ZONE_COND_FULL)))
      then Err (- EINVAL)
      else Ok (i, u64 (physical_sector - z_start_sector z) / sectors_per_block)
  end.

(** Zone id and slot of a written data block. *)
Definition zns_lsm_physical_to_gc_slot (lsm : zns_lsm) (physical_sector : Z)
    : result (Z * Z) :=
  slot_scan (take (Z.to_nat (a_nr_zones (l_allocator lsm))) (a_zones (l_allocator lsm))) 0
    (l_sectors_per_block lsm) physical_sector.

End State.

Section Engine.
Context `{BlockDevice} `{Crc32} `{XArray} `{RbTree}.

(** ** Access to the parts of the state *)

Abbreviation E := (M (world * zns_lsm)).

Definition on_world {A} (m : M world A) : E A :=
  zoom fst (fun w s => (w, snd s)) m.
Definition lsm_get {A} (f : zns_lsm -> A) : E A := gets (fun s => f (snd s)).
Definition lsm_modify (f : zns_lsm -> zns_lsm) : E unit := modify (fun s => (fst s, f (snd s))).
Definition on_allocator {A} (m : M zns_allocator A) : E A :=
  zoom (fun s => l_allocator (snd s)) (fun a s => (fst s, set_allocator a (snd s))) m.
Definition on_latest {A} (m : M (mem * xarray) A) : E A :=
  zoom (fun s => (w_mem (fst s), gi_latest (l_gc (snd s))))
       (fun '(a, x) s => (set_mem a (fst s), set_gc (set_latest x (l_gc (snd s))) (snd s))) m.

(** ** Capacity *)

Definition capacity_step (acc : Z * Z) (z : zns_zone) : Z * Z :=
  let zone_capacity := z_capacity z in
  let usable_sectors := u64 (zone_capacity - zone_capacity mod ZNS_BASE_BLOCK_SECTORS) in
  (u64 (fst acc + usable_sectors), Z.max (snd acc) usable_sectors).

(** The usable logical sectors; [0] when the device cannot be used. *)
Definition lsm_engine_capacity : M world Z :=
  r <- attempt zns_zone_table_init ;;
  match r with
  | Err _ => ret 0
  | Ok table =>
      if zt_nr_zones table <=? ZNS_LSM_METADATA_ZONES + ZNS_LSM_GC_RESERVE_ZONES then ret 0
      else
        let '(data_sectors, largest_data_zone_sectors) :=
          foldl capacity_step (0, 0)
            (take (Z.to_nat (zt_nr_zones table - ZNS_LSM_METADATA_ZONES)) (zt_zones table)) in
        ret (u64 (data_sectors - largest_data_zone_sectors))
  end.

(** ** The reverse map *)

Fixpoint gc_map_zones (sectors_per_block : Z) (zones : list zns_zone)
    : M mem (list zns_gc_zone) :=
  match zones with
  | [] => ret []
  | z :: zs =>
      let nr_blocks := z_capacity z / sectors_per_block in
      kmalloc ;;;
      rest <- gc_map_zones sectors_per_block zs ;;
      ret (mk_gc_zone (replicate (Z.to_nat nr_blocks) 0) nr_blocks 0 :: rest)
  end.

(** A partly built map is freed by the caller: an error leaves none. *)
Definition zns_lsm_gc_map_init : E unit :=
  lsm <- lsm_get id ;;
  on_world (on_mem kmalloc) ;;;
  zones <- on_world (on_mem (gc_map_zones (l_sectors_per_block lsm)
             (take (Z.to_nat (a_nr_zones (l_allocator lsm))) (a_zones (l_allocator lsm))))) ;;
  lsm_modify (fun l => set_gc (set_gc_zones zones (l_gc l)) l).

Definition zns_lsm_gc_map_exit : E unit :=
  lsm_modify (fun l => set_gc (set_gc_zones [] (l_gc l)) l).

(** The old location of an overwritten block: its zone and slot, or none. *)
Definition old_location (lsm : zns_lsm) (logical_block : Z) : result (option (Z * Z)) :=
  match xa_load (gi_latest (l_gc lsm)) logical_block with
  | None => Ok None
  | Some old_entry =>
      match zns_lsm_physical_to_gc_slot lsm (zns_gc_decode_physical_sector old_entry) with
      | Err _ => Err (- EINVAL)
      | Ok (old_zone, old_slot) =>
          if negb ((gz_logical_blocks (gi_zones (l_gc lsm)).[old_zone]).[old_slot] =?
                   zns_gc_encode_logical_block logical_block)
          then Err (- EINVAL)
          else Ok (Some (old_zone, old_slot))
      end
  end.

Definition zns_lsm_update_gc_block_location (logical_block physical_sector : Z) : E unit :=
  lsm <- lsm_get id ;;
  let logical_entry := zns_gc_encode_logical_block logical_block in
  new <- lift (zns_lsm_physical_to_gc_slot lsm physical_sector) ;;
  let '(new_zone, new_slot) := new in
  if negb ((gz_logical_blocks (gi_zones (l_gc lsm)).[new_zone]).[new_slot] =? 0)
  then Prelude.fail (- EINVAL)
  else
    old <- lift (old_location lsm logical_block) ;;
    on_latest (xa_store logical_block (zns_gc_encode_physical_sector physical_sector)) ;;;
    (match old with
     | Some (old_zone, old_slot) =>
         lsm_modify (fun l => set_gc (put_gc_slot old_zone old_slot 0 (-1) (l_gc l)) l)
     | None => lsm_modify (fun l => set_gc (inc_valid_blocks (l_gc l)) l)
     end) ;;;
    lsm_modify (fun l => set_gc (put_gc_slot new_zone new_slot logical_entry 1 (l_gc l)) l).

(** One entry of an SSTable at recovery. *)
Definition zns_lsm_gc_restore_entry (logical_block physical_sector : Z) : E unit :=
  lsm <- lsm_get id ;;
  if su_logical_sectors (m_super (l_meta lsm)) / l_sectors_per_block lsm <=? logical_block
  then Prelude.fail (- EINVAL)
  else
    match xa_load (gi_latest (l_gc lsm)) logical_block with
    | Some _ => ret tt
    | None =>
        match zns_lsm_physical_to_gc_slot lsm physical_sector with
        | Err _ => Prelude.fail (- EINVAL)
        | Ok (zone, slot) =>
            if negb ((gz_logical_blocks (gi_zones (l_gc lsm)).[zone]).[slot] =? 0)
            then Prelude.fail (- EINVAL)
            else
              on_latest (xa_store logical_block (zns_gc_encode_physical_sector physical_sector)) ;;;
              lsm_modify (fun l => set_gc (inc_valid_blocks (put_gc_slot zone slot
                (zns_gc_encode_logical_block logical_block) 1 (l_gc l))) l)
        end
    end.

(** The entries [j], ..., [count - 1] of a payload block. *)
Fixpoint restore_entries (entries : block) (js : list Z) : E unit :=
  match js with
  | [] => ret tt
  | j :: js' =>
      zns_lsm_gc_restore_entry (get64 (entry_logical_block j) entries)
        (get64 (entry_physical_sector j) entries) ;;;
      restore_entries entries js'
  end.

(** The payload blocks [page], ... of a table: the running checksum. *)
Fixpoint rebuild_pages (sst : zns_sstable) (pages : list Z) (crc : Z) (b : block) : E Z :=
  match pages with
  | [] => ret crc
  | page :: pages' =>
      b <- on_world (zns_block_read
             (u64 (s_start_sector sst + u32 (u32 (page + 1) * ZNS_SST_BLOCK_SECTORS))) b) ;;
      let crc := crc32_le crc b in
      let count := zns_sst_entries_in_block (s_nr_entries sst) page in
      restore_entries b (seqZ 0 count) ;;;
      rebuild_pages sst pages' crc b
  end.

Fixpoint rebuild_tables (ssts : list zns_sstable) (b : block) : E unit :=
  match ssts with
  | [] => ret tt
  | sst :: ssts' =>
      crc <- rebuild_pages sst (seqZ 0 (s_nr_blocks sst - 1)) 0 b ;;
      if negb (crc =? s_payload_crc sst) then Prelude.fail (- EINVAL)
      else rebuild_tables ssts' b
  end.

Definition zns_lsm_gc_rebuild : E unit :=
  on_world (on_mem kmalloc) ;;;
  ssts <- lsm_get (fun l => m_sstables (l_meta l)) ;;
  rebuild_tables ssts zero_block.

End Engine.
