(* ===== verification/LsmIndex.v ===== *)
(** Correctness of the garbage-collection index of [Lsm]: the forward map [latest]
    and the per-zone reverse maps describe the same set of live blocks, and the
    counters count them. *)
From S2P Require Import Prelude Kernel ZonedRam Zone Allocator GcPolicy XArray Bytes RbTree.
From S2P Require Import Memtable Sstable Super Lsm.

(** ** Counting live slots *)

Definition live (slots : list Z) : Z := zlen (filter (fun v => v <> 0) slots).

Lemma live_cons v l : live (v :: l) = (if bool_decide (v = 0) then 0 else 1) + live l.
Proof.
  unfold live, zlen. rewrite filter_cons. case_decide; case_bool_decide; try done; cbn; lia.
Qed.

Lemma live_nonneg l : 0 <= live l.
Proof. apply zlen_nonneg. Qed.

Lemma live_replicate n : live (replicate n 0) = 0.
Proof. induction n as [|n IH]; [done|]. cbn [replicate]. rewrite live_cons, IH. done. Qed.

Lemma live_update (l : list Z) s v :
  0 <= s < zlen l ->
  live l.[s := v] =
    live l + (if bool_decide (v = 0) then 0 else 1) - (if bool_decide (l.[s] = 0) then 0 else 1).
Proof.
  intros Hs. unfold zlen in Hs. assert (Hn : (Z.to_nat s < length l)%nat) by lia.
  revert Hn. generalize (Z.to_nat s) as n. clear s Hs. induction l as [|x l IH]; intros n Hn; [cbn in Hn; lia|].
  destruct n as [|n].
  - change (<[0%nat := v]> (x :: l)) with (v :: l). rewrite !live_cons.
    change ((x :: l) !!! 0%nat) with x. lia.
  - change (<[S n := v]> (x :: l)) with (x :: <[n := v]> l). rewrite !live_cons, IH by (cbn in Hn; lia).
    change ((x :: l) !!! S n) with (l !!! n). lia.
Qed.

Lemma live_zero_iff l : live l = 0 <-> forall s, 0 <= s < zlen l -> l.[s] = 0.
Proof.
  induction l as [|x l IH]; [split; [unfold zlen; cbn; lia|done]|].
  rewrite live_cons. pose proof (live_nonneg l) as Hl. split.
  - intros Hz s Hs. case_bool_decide; [|lia]. subst.
    destruct (decide (s = 0)) as [->|]; [done|].
    replace (Z.to_nat s) with (S (Z.to_nat (s - 1))) by lia. cbn. apply IH; [lia|].
    unfold zlen in *. cbn in *. lia.
  - intros Hall. rewrite (bool_decide_eq_true_2 (x = 0)).
    + apply IH. intros s Hs. specialize (Hall (s + 1)).
      replace (Z.to_nat (s + 1)) with (S (Z.to_nat s)) in Hall by lia. cbn in Hall.
      apply Hall. unfold zlen in *. cbn. lia.
    + apply (Hall 0). unfold zlen. cbn. lia.
Qed.

(** Without an unused slot. *)
Lemma live_full l s : zlen l <= live l -> 0 <= s < zlen l -> l.[s] <> 0.
Proof.
  unfold live. intros Hl Hs Hz.
  assert (Hin : l.[s] ∈ l) by (eapply list_elem_of_lookup_2, zlookup_lt, Hs).
  pose proof (length_filter_lt (fun v => v <> 0) l _ Hin ltac:(auto)). unfold zlen in *. lia.
Qed.

(** Without a zero, everything counts. *)
Lemma live_all l : (forall s, 0 <= s < zlen l -> l.[s] <> 0) -> live l = zlen l.
Proof.
  induction l as [|x l IH]; intros Hall; [done|]. rewrite live_cons, IH.
  - rewrite bool_decide_eq_false_2; [unfold zlen; cbn; lia|]. apply (Hall 0). unfold zlen. cbn. lia.
  - intros s Hs. specialize (Hall (s + 1)). replace (Z.to_nat (s + 1)) with (S (Z.to_nat s)) in Hall by lia.
    cbn in Hall. apply Hall. unfold zlen in *. cbn. lia.
Qed.

(** ** Sectors and slots *)
Section Slots.
Context `{XArrayLaws} `{RbTreeLaws}.

(** The geometry an engine works on: the allocator and the engine agree on 8-sector
    blocks, the zones do not overlap, sectors fit XArray values, and the reverse map
    has one slot per block of every zone. *)
Record geometry (l : zns_lsm) : Prop := {
  ge_alloc : alloc_wf (l_allocator l);
  ge_block : a_sectors_per_block (l_allocator l) = 8;
  ge_spb : l_sectors_per_block l = 8;
  ge_disjoint : zones_disjoint (a_zones (l_allocator l));
  ge_small : forall i, 0 <= i < a_nr_zones (l_allocator l) ->
    z_start_sector (a_zones (l_allocator l)).[i] + z_capacity (a_zones (l_allocator l)).[i]
      <= 4611686018427387904;
  ge_gc_len : zlen (gi_zones (l_gc l)) = a_nr_zones (l_allocator l);
  ge_gc_slots : forall i, 0 <= i < a_nr_zones (l_allocator l) ->
    gz_nr_blocks (gi_zones (l_gc l)).[i] = z_capacity (a_zones (l_allocator l)).[i] / 8 /\
    zlen (gz_logical_blocks (gi_zones (l_gc l)).[i]) = gz_nr_blocks (gi_zones (l_gc l)).[i];
}.

(** Block [s] of zone [i] starts at [p], lies inside the zone and was written. *)
Record located (a : zns_allocator) (p i s : Z) : Prop := {
  lo_zone : 0 <= i < a_nr_zones a;
  lo_slot : 0 <= s;
  lo_sector : p = z_start_sector (a_zones a).[i] + 8 * s;
  lo_inside : p + 8 <= z_start_sector (a_zones a).[i] + z_capacity (a_zones a).[i];
  lo_written : p < z_write_pointer (a_zones a).[i] \/
    z_condition (a_zones a).[i] = BLK_ZONE_COND_FULL;
}.

Lemma slot_scan_sound zs i p j s :
  Forall zone_wf zs ->
  slot_scan zs i 8 p = Ok (j, s) ->
  exists n : nat, j = i + Z.of_nat n /\ (n < length zs)%nat /\
    let z := zs !!! n in
    0 <= s /\ p = z_start_sector z + 8 * s /\ p + 8 <= z_start_sector z + z_capacity z /\
    (p < z_write_pointer z \/ z_condition z = BLK_ZONE_COND_FULL).
Proof.
  revert i. induction zs as [|z zs IH]; intros i Hwf; [done|]. cbn [slot_scan]. cbv zeta.
  apply Forall_cons_1 in Hwf as [Hz Hzs]. fold (zone_end z). rewrite (zone_end_wf z Hz).
  destruct ((p <? _) || (_ <=? p)) eqn:Eout.
  { intros (n & -> & Hn & Hr)%IH; [|done]. exists (S n). split; [lia|]. split; [cbn; lia|done]. }
  destruct (negb _ || _ || _) eqn:Ebad; [done|]. guards. intros [= <- <-].
  destruct Hz as [? ? ? ? ?]. unwrap. exists 0%nat. split; [lia|]. split; [cbn; lia|]. cbn.
  pose proof (Z.div_mod (p - z_start_sector z) 8 ltac:(lia)) as Hd.
  split; [apply Z.div_pos; lia|]. split; [lia|]. split; [lia|].
  match goal with H : _ && _ = false |- _ => apply andb_false_iff in H as [Hw|Hc] end; guards;
    [left; lia|by right].
Qed.

Lemma slot_scan_complete zs i p n :
  Forall zone_wf zs -> (n < length zs)%nat ->
  (forall m, (m < n)%nat -> p < z_start_sector (zs !!! m) \/
     z_start_sector (zs !!! m) + z_capacity (zs !!! m) <= p) ->
  let z := zs !!! n in
  forall s, 0 <= s -> p = z_start_sector z + 8 * s ->
  p + 8 <= z_start_sector z + z_capacity z ->
  (p < z_write_pointer z \/ z_condition z = BLK_ZONE_COND_FULL) ->
  slot_scan zs i 8 p = Ok (i + Z.of_nat n, s).
Proof.
  revert i n. induction zs as [|z zs IH]; intros i n Hwf Hn Hbefore; [cbn in Hn; lia|].
  apply Forall_cons_1 in Hwf as [Hz Hzs]. cbn [slot_scan]. cbv zeta. fold (zone_end z).
  rewrite (zone_end_wf z Hz). intros s Hs Hp Hin Hw. destruct n as [|n].
  - cbn in Hp, Hin, Hw. destruct Hz as [? ? ? ? ?].
    rewrite (proj2 (Z.ltb_ge _ _)), (proj2 (Z.leb_gt _ _)) by lia. cbn [orb].
    unwrap. replace (p - z_start_sector z) with (s * 8) by lia.
    rewrite Z_mod_mult, Z_div_mult by lia. cbn [Z.eqb negb orb].
    rewrite (proj2 (Z.ltb_ge _ _)) by lia. cbn [orb].
    assert (Hcond : (z_write_pointer z <=? p) &&
      negb (bool_decide (z_condition z = BLK_ZONE_COND_FULL)) = false).
    { destruct Hw as [Hw| ->]; [by rewrite (proj2 (Z.leb_gt _ _)) by lia|].
      rewrite bool_decide_eq_true_2 by done. apply andb_false_r. }
    rewrite Hcond. f_equal. f_equal. lia.
  - pose proof (Hbefore 0%nat ltac:(lia)) as H0'. cbn in H0'.
    assert (Hout : (p <? z_start_sector z) || (z_start_sector z + z_capacity z <=? p) = true).
    { apply orb_true_iff. destruct H0'; [left; by apply Z.ltb_lt|right; by apply Z.leb_le]. }
    rewrite Hout. replace (i + Z.of_nat (S n)) with (i + 1 + Z.of_nat n) by lia.
    apply IH; try done; [cbn in Hn; lia|]. intros m Hm. apply (Hbefore (S m)). lia.
Qed.

Lemma take_all_zones a : alloc_wf a -> take (Z.to_nat (a_nr_zones a)) (a_zones a) = a_zones a.
Proof. intros Hwf. apply take_ge. rewrite (awf_nr a Hwf). unfold zlen. lia. Qed.

(** The scan of the code finds exactly the slot a sector is located at. *)
Lemma physical_to_gc_slot_iff l p i s :
  geometry l ->
  zns_lsm_physical_to_gc_slot l p = Ok (i, s) <-> located (l_allocator l) p i s.
Proof.
  intros [Hwf Hb Hspb Hd Hsm _ _]. unfold zns_lsm_physical_to_gc_slot.
  rewrite take_all_zones, Hspb by done. pose proof (awf_nr _ Hwf) as Hnr.
  split.
  - intros (n & -> & Hn & Hs & Hp & Hin & Hw)%slot_scan_sound; [|apply Hwf].
    unfold zlen in Hnr. constructor; rewrite ?Z.add_0_l, ?Nat2Z.id; try done. lia.
  - intros [Hi Hs Hp Hin Hw]. unfold zlen in Hnr.
    rewrite (slot_scan_complete _ 0 p (Z.to_nat i)) with (s := s); try done.
    + f_equal. f_equal. lia.
    + apply Hwf.
    + lia.
    + intros m Hm. destruct (Hd (Z.of_nat m) i) as [Hdj|Hdj]; unfold zlen; [lia..| |];
        rewrite Nat2Z.id in Hdj; lia.
Qed.

(** Two located sectors are the same slot or do not overlap. *)
Lemma located_unique l p i s j t :
  geometry l -> located (l_allocator l) p i s -> located (l_allocator l) p j t -> i = j /\ s = t.
Proof.
  intros Hg H1' H2'. apply (physical_to_gc_slot_iff _ _ _ _ Hg) in H1', H2'.
  rewrite H1' in H2'. by injection H2' as -> ->.
Qed.

Lemma located_apart l p q i s j t :
  geometry l -> located (l_allocator l) p i s -> located (l_allocator l) q j t ->
  p <> q -> p + 8 <= q \/ q + 8 <= p.
Proof.
  intros Hg [Hi Hs Hp Hin _] [Hj Ht Hq Hjn _] Hne.
  destruct (decide (i = j)) as [->|Hij]; [lia|].
  pose proof (awf_nr _ (ge_alloc l Hg)) as Hnr.
  destruct (ge_disjoint l Hg i j) as [Hd|Hd]; [lia|lia|done| |]; lia.
Qed.

Lemma located_slot_range l p i s :
  geometry l -> located (l_allocator l) p i s ->
  0 <= s < zlen (gz_logical_blocks (gi_zones (l_gc l)).[i]).
Proof.
  intros Hg [Hi Hs Hp Hin _]. destruct (ge_gc_slots l Hg i Hi) as [Hn ->]. rewrite Hn.
  split; [done|]. apply Z.le_succ_l, Z.div_le_lower_bound; lia.
Qed.

Lemma located_bounds l p i s :
  geometry l -> located (l_allocator l) p i s -> 0 <= p < 4611686018427387904.
Proof.
  intros Hg [Hi Hs Hp Hin _]. pose proof (ge_small l Hg i Hi).
  destruct (alloc_wf_zone _ i (ge_alloc l Hg) Hi). lia.
Qed.

(** A location determines its sector. *)
Lemma located_inj l p q i s :
  located (l_allocator l) p i s -> located (l_allocator l) q i s -> p = q.
Proof. intros [] []. congruence. Qed.

Lemma encode_physical_inj p q :
  0 <= p < 4611686018427387904 -> 0 <= q < 4611686018427387904 ->
  zns_gc_encode_physical_sector p = zns_gc_encode_physical_sector q -> p = q.
Proof.
  intros Hp Hq Heq. unfold zns_gc_encode_physical_sector in Heq. unwrap.
  apply (f_equal xa_to_value) in Heq. rewrite !xa_value_round_trip in Heq by lia. lia.
Qed.

Lemma decode_encode_physical p :
  0 <= p < 4611686018427387904 ->
  zns_gc_decode_physical_sector (zns_gc_encode_physical_sector p) = p.
Proof.
  intros Hp. unfold zns_gc_decode_physical_sector, zns_gc_encode_physical_sector. unwrap.
  rewrite xa_value_round_trip by lia. unwrap. lia.
Qed.

(** ** The index *)

Definition rev_slot (g : gc_index) (i s : Z) : Z := (gz_logical_blocks (gi_zones g).[i]).[s].

Definition valid_count (g : gc_index) (i : Z) : Z := gz_nr_valid_blocks (gi_zones g).[i].

(** The current location of a logical block, as the index knows it. *)
Definition current (l : zns_lsm) (k : Z) : option Z :=
  zns_gc_decode_physical_sector <$> xa_load (gi_latest (l_gc l)) k.

(** The two maps are inverse to each other on the [N] logical blocks, and every
    counter counts its zone. *)
Record index_wf (N : Z) (l : zns_lsm) : Prop := {
  ix_forward : forall k e, xa_load (gi_latest (l_gc l)) k = Some e ->
    0 <= k < N /\ exists p i s, e = zns_gc_encode_physical_sector p /\
      located (l_allocator l) p i s /\ rev_slot (l_gc l) i s = k + 1;
  ix_backward : forall i s, 0 <= i < a_nr_zones (l_allocator l) ->
    0 <= s < zlen (gz_logical_blocks (gi_zones (l_gc l)).[i]) ->
    rev_slot (l_gc l) i s <> 0 ->
    exists p, located (l_allocator l) p i s /\
      xa_load (gi_latest (l_gc l)) (rev_slot (l_gc l) i s - 1) =
        Some (zns_gc_encode_physical_sector p);
  ix_count : forall i, 0 <= i < a_nr_zones (l_allocator l) ->
    valid_count (l_gc l) i = live (gz_logical_blocks (gi_zones (l_gc l)).[i]);
}.

Lemma current_some N l k p :
  geometry l -> index_wf N l ->
  current l k = Some p <->
  xa_load (gi_latest (l_gc l)) k = Some (zns_gc_encode_physical_sector p) /\
  0 <= p < 4611686018427387904.
Proof.
  intros Hg Hx. unfold current. split.
  - destruct (xa_load _ k) as [e|] eqn:He; [|done]. intros [= Hd].
    destruct (ix_forward N l Hx k e He) as (_ & q & i & s & -> & Hl & _).
    pose proof (located_bounds l q i s Hg Hl). rewrite decode_encode_physical in Hd by done.
    by subst.
  - intros [-> Hp]. cbn. by rewrite decode_encode_physical.
Qed.

Lemma current_located N l k p :
  geometry l -> index_wf N l -> current l k = Some p ->
  0 <= k < N /\ exists i s, located (l_allocator l) p i s /\ rev_slot (l_gc l) i s = k + 1.
Proof.
  intros Hg Hx Hc. apply (current_some N l k p Hg Hx) in Hc as [He Hp].
  destruct (ix_forward N l Hx k _ He) as (Hk & q & i & s & Heq & Hl & Hr). split; [done|].
  apply encode_physical_inj in Heq; [|done|by eapply located_bounds]. subst q. eauto.
Qed.

(** Different blocks live at different sectors. *)
Lemma current_injective N l k k' p :
  geometry l -> index_wf N l -> current l k = Some p -> current l k' = Some p -> k = k'.
Proof.
  intros Hg Hx Hk Hk'.
  destruct (current_located N l k p Hg Hx Hk) as (_ & i & s & Hl & Hr).
  destruct (current_located N l k' p Hg Hx Hk') as (_ & i' & s' & Hl' & Hr').
  destruct (located_unique l p i s i' s' Hg Hl Hl') as [-> ->]. lia.
Qed.

(** A zone whose counter is zero holds no live block. *)
Lemma zero_count_no_live N l i k p s :
  geometry l -> index_wf N l -> valid_count (l_gc l) i = 0 ->
  current l k = Some p -> ~ located (l_allocator l) p i s.
Proof.
  intros Hg Hx Hz Hc Hl. destruct (current_located N l k p Hg Hx Hc) as (Hk & i' & s' & Hl' & Hr).
  destruct (located_unique l p i s i' s' Hg Hl Hl') as [<- <-].
  rewrite (ix_count N l Hx i (lo_zone _ _ _ _ Hl)) in Hz.
  apply (proj1 (live_zero_iff _)) with (s := s) in Hz; [|by eapply located_slot_range].
  unfold rev_slot in Hr. lia.
Qed.

(** *** Writing one slot *)

Lemma put_gc_slot_rev g i s v d j t :
  0 <= i < zlen (gi_zones g) -> 0 <= s < zlen (gz_logical_blocks (gi_zones g).[i]) ->
  0 <= j -> 0 <= t ->
  rev_slot (put_gc_slot i s v d g) j t =
    if bool_decide (i = j) && bool_decide (s = t) then v else rev_slot g j t.
Proof.
  intros Hi Hs Hj Ht. unfold rev_slot, put_gc_slot. cbn [gi_zones set_gc_zones].
  rewrite zupdate_lookup by done. destruct (decide (i = j)) as [<-|Hne].
  - rewrite (bool_decide_eq_true_2 (i = i)) by done. cbn [gz_logical_blocks put_slot andb].
    by apply zupdate_lookup.
  - by rewrite (bool_decide_eq_false_2 (i = j)) by done.
Qed.

Lemma put_gc_slot_zone g i s v d j :
  0 <= i < zlen (gi_zones g) -> 0 <= j ->
  gz_nr_blocks (gi_zones (put_gc_slot i s v d g)).[j] = gz_nr_blocks (gi_zones g).[j] /\
  zlen (gz_logical_blocks (gi_zones (put_gc_slot i s v d g)).[j]) =
    zlen (gz_logical_blocks (gi_zones g).[j]).
Proof.
  intros Hi Hj. unfold put_gc_slot. cbn [gi_zones set_gc_zones].
  rewrite zupdate_lookup by done. case_bool_decide; subst; [|done].
  cbn. by rewrite zlen_update.
Qed.

(** Marking a slot used or unused keeps the counters right. *)
Lemma put_gc_slot_count g i s v d j :
  0 <= i < zlen (gi_zones g) -> 0 <= s < zlen (gz_logical_blocks (gi_zones g).[i]) -> 0 <= j ->
  zlen (gz_logical_blocks (gi_zones g).[j]) < 18446744073709551615 ->
  (d = 1 /\ v <> 0 /\ rev_slot g i s = 0 \/ d = -1 /\ v = 0 /\ rev_slot g i s <> 0) ->
  valid_count g j = live (gz_logical_blocks (gi_zones g).[j]) ->
  valid_count (put_gc_slot i s v d g) j =
    live (gz_logical_blocks (gi_zones (put_gc_slot i s v d g)).[j]).
Proof.
  intros Hi Hs Hj Hlen Hd Hc. unfold valid_count, put_gc_slot in *. cbn [gi_zones set_gc_zones].
  rewrite zupdate_lookup by done. case_bool_decide as Hij; subst; [|done].
  cbn [gz_nr_valid_blocks gz_logical_blocks put_slot]. rewrite live_update, Hc by done.
  unfold rev_slot in Hd.
  pose proof (live_nonneg (gz_logical_blocks (gi_zones g).[j])).
  assert (live (gz_logical_blocks (gi_zones g).[j]) <= zlen (gz_logical_blocks (gi_zones g).[j])).
  { unfold live, zlen. pose proof (length_filter (fun v => v <> 0) (gz_logical_blocks (gi_zones g).[j])).
    lia. }
  destruct Hd as [(-> & Hv & Hr)|(-> & -> & Hr)].
  - rewrite (bool_decide_eq_false_2 (v = 0)), (bool_decide_eq_true_2 (_ = 0)) by done. unwrap. lia.
  - rewrite (bool_decide_eq_true_2 (0 = 0)), (bool_decide_eq_false_2 (_ = 0)) by done.
    assert (live (gz_logical_blocks (gi_zones g).[j]) <> 0).
    { intros Hz. apply (proj1 (live_zero_iff _)) with (s := s) in Hz; done. }
    unwrap. lia.
Qed.

(** *** Moving a block *)

(** The index after block [k] moved to slot [(i, s)] from its old slot, if any. *)
Definition moved_index (x : xarray) (old : option (Z * Z)) (i s k : Z) (g : gc_index) : gc_index :=
  put_gc_slot i s (k + 1) 1
    match old with
    | Some (oi, os) => put_gc_slot oi os 0 (-1) (set_latest x g)
    | None => inc_valid_blocks (set_latest x g)
    end.

(** The slot a block occupies, if it has one. *)
Definition occupies (l : zns_lsm) (k : Z) (old : option (Z * Z)) : Prop :=
  match old with
  | Some (oi, os) => exists q, current l k = Some q /\ located (l_allocator l) q oi os /\
                       rev_slot (l_gc l) oi os = k + 1
  | None => current l k = None
  end.

Lemma geometry_set_gc l g' :
  geometry l ->
  zlen (gi_zones g') = zlen (gi_zones (l_gc l)) ->
  (forall j, 0 <= j < zlen (gi_zones (l_gc l)) ->
     gz_nr_blocks (gi_zones g').[j] = gz_nr_blocks (gi_zones (l_gc l)).[j] /\
     zlen (gz_logical_blocks (gi_zones g').[j]) =
       zlen (gz_logical_blocks (gi_zones (l_gc l)).[j])) ->
  geometry (set_gc g' l).
Proof.
  intros [] Hlen Hz. constructor; cbn; auto; [congruence|]. intros i Hi.
  destruct (Hz i ltac:(lia)) as [-> ->]. auto.
Qed.

Lemma put_gc_slot_len g i s v d : zlen (gi_zones (put_gc_slot i s v d g)) = zlen (gi_zones g).
Proof. apply zlen_update. Qed.

Lemma moved_index_zone x old i s k l j :
  geometry l -> occupies l k old -> 0 <= i < a_nr_zones (l_allocator l) -> 0 <= j ->
  gz_nr_blocks (gi_zones (moved_index x old i s k (l_gc l))).[j] =
    gz_nr_blocks (gi_zones (l_gc l)).[j] /\
  zlen (gz_logical_blocks (gi_zones (moved_index x old i s k (l_gc l))).[j]) =
    zlen (gz_logical_blocks (gi_zones (l_gc l)).[j]).
Proof.
  intros Hg Ho Hi Hj. pose proof (ge_gc_len l Hg) as Hlen. unfold moved_index.
  destruct old as [[oi os]|].
  - destruct Ho as (q & _ & Hl & _). pose proof (lo_zone _ _ _ _ Hl).
    destruct (put_gc_slot_zone (put_gc_slot oi os 0 (-1) (set_latest x (l_gc l))) i s (k + 1) 1 j)
      as [-> ->]; [rewrite put_gc_slot_len; cbn; lia|done|].
    apply (put_gc_slot_zone (set_latest x (l_gc l))); cbn; lia.
  - apply (put_gc_slot_zone (inc_valid_blocks (set_latest x (l_gc l)))); cbn; lia.
Qed.

Lemma moved_index_geometry x old i s k l :
  geometry l -> occupies l k old -> 0 <= i < a_nr_zones (l_allocator l) ->
  geometry (set_gc (moved_index x old i s k (l_gc l)) l).
Proof.
  intros Hg Ho Hi. apply geometry_set_gc; [done| |].
  - unfold moved_index. rewrite put_gc_slot_len. destruct old as [[]|]; [|done].
    by rewrite put_gc_slot_len.
  - intros j Hj. apply moved_index_zone; [done..|lia].
Qed.

Lemma moved_index_rev x old i s k l j t :
  geometry l -> occupies l k old -> 0 <= i < a_nr_zones (l_allocator l) ->
  0 <= s < zlen (gz_logical_blocks (gi_zones (l_gc l)).[i]) -> 0 <= j -> 0 <= t ->
  rev_slot (moved_index x old i s k (l_gc l)) j t =
    if bool_decide (i = j) && bool_decide (s = t) then k + 1
    else if bool_decide (old = Some (j, t)) then 0 else rev_slot (l_gc l) j t.
Proof.
  intros Hg Ho Hi Hs Hj Ht. pose proof (ge_gc_len l Hg) as Hlen. unfold moved_index.
  destruct old as [[oi os]|].
  - destruct Ho as (q & _ & Hl & _). pose proof (lo_zone _ _ _ _ Hl).
    pose proof (located_slot_range l q oi os Hg Hl) as Hos.
    destruct (put_gc_slot_zone (set_latest x (l_gc l)) oi os 0 (-1) i) as [_ Hz]; [cbn; lia|lia|].
    rewrite put_gc_slot_rev; [|rewrite put_gc_slot_len; cbn; lia|rewrite Hz; done|done|done].
    rewrite put_gc_slot_rev; [|cbn; lia|done|done|done].
    destruct (bool_decide (i = j) && bool_decide (s = t)); [done|].
    destruct (decide (oi = j)) as [->|Hne1]; [destruct (decide (os = t)) as [->|Hne2]|].
    + by rewrite !bool_decide_eq_true_2 by done.
    + rewrite (bool_decide_eq_true_2 (j = j)), (bool_decide_eq_false_2 (os = t)),
        (bool_decide_eq_false_2 (Some _ = _)) by congruence. done.
    + rewrite (bool_decide_eq_false_2 (oi = j)), (bool_decide_eq_false_2 (Some _ = _)) by congruence.
      done.
  - by rewrite put_gc_slot_rev; [|cbn; lia|done|done|done].
Qed.

Lemma moved_index_count x old N i s k l j :
  geometry l -> index_wf N l -> occupies l k old -> 0 <= k ->
  0 <= i < a_nr_zones (l_allocator l) ->
  0 <= s < zlen (gz_logical_blocks (gi_zones (l_gc l)).[i]) ->
  rev_slot (l_gc l) i s = 0 -> 0 <= j < a_nr_zones (l_allocator l) ->
  valid_count (moved_index x old i s k (l_gc l)) j =
    live (gz_logical_blocks (gi_zones (moved_index x old i s k (l_gc l))).[j]).
Proof.
  intros Hg Hx Ho Hk Hi Hs Hfree Hj. pose proof (ge_gc_len l Hg) as Hlen.
  assert (Hbig : zlen (gz_logical_blocks (gi_zones (l_gc l)).[j]) < 18446744073709551615).
  { destruct (ge_gc_slots l Hg j Hj) as [Hn ->]. rewrite Hn. pose proof (ge_small l Hg j Hj).
    destruct (alloc_wf_zone _ j (ge_alloc l Hg) Hj). apply Z.div_lt_upper_bound; lia. }
  unfold moved_index. destruct old as [[oi os]|].
  - destruct Ho as (q & _ & Hl & Hr). pose proof (lo_zone _ _ _ _ Hl).
    pose proof (located_slot_range l q oi os Hg Hl) as Hos.
    destruct (put_gc_slot_zone (set_latest x (l_gc l)) oi os 0 (-1) i) as [_ Hz]; [cbn; lia|lia|].
    destruct (put_gc_slot_zone (set_latest x (l_gc l)) oi os 0 (-1) j) as [_ Hzj]; [cbn; lia|lia|].
    apply put_gc_slot_count.
    + rewrite put_gc_slot_len. cbn. lia.
    + by rewrite Hz.
    + lia.
    + by rewrite Hzj.
    + left. split; [done|]. split; [lia|].
      rewrite put_gc_slot_rev; [|cbn; lia|done|lia|lia].
      destruct (bool_decide (oi = i) && bool_decide (os = s)); [done|exact Hfree].
    + apply put_gc_slot_count; [cbn; lia|done|lia|done| |by apply (ix_count N l Hx)].
      right. split; [done|]. split; [done|]. change (rev_slot (l_gc l) oi os <> 0). lia.
  - apply put_gc_slot_count; [cbn; lia|done|lia|done| |by apply (ix_count N l Hx)].
    left. split; [done|]. split; [lia|exact Hfree].
Qed.

Lemma moved_index_latest x old i s k g : gi_latest (moved_index x old i s k g) = x.
Proof. by destruct old as [[]|]. Qed.

Lemma moved_index_wf x old N i s k p l :
  geometry l -> index_wf N l -> occupies l k old -> 0 <= k < N ->
  located (l_allocator l) p i s -> rev_slot (l_gc l) i s = 0 ->
  (forall j, xa_load x j = if bool_decide (j = k) then Some (zns_gc_encode_physical_sector p)
                           else xa_load (gi_latest (l_gc l)) j) ->
  index_wf N (set_gc (moved_index x old i s k (l_gc l)) l) /\
  forall j, current (set_gc (moved_index x old i s k (l_gc l)) l) j =
    if bool_decide (j = k) then Some p else current l j.
Proof.
  intros Hg Hx Ho Hk Hl Hfree Hload. pose proof (lo_zone _ _ _ _ Hl) as Hi.
  pose proof (located_slot_range l p i s Hg Hl) as Hs. pose proof (located_bounds l p i s Hg Hl).
  split.
  2:{ intros j. unfold current. cbn [l_gc set_gc]. rewrite moved_index_latest, Hload.
      case_bool_decide; [|done]. cbn. by rewrite decode_encode_physical. }
  constructor; cbn [l_gc l_allocator set_gc]; rewrite ?moved_index_latest.
  - intros j e He. rewrite Hload in He. case_bool_decide as Hj.
    + injection He as <-. subst j. split; [done|]. exists p, i, s. split; [done|]. split; [done|].
      rewrite moved_index_rev by (done || lia). by rewrite !bool_decide_eq_true_2 by done.
    + destruct (ix_forward N l Hx j e He) as (Hjk & q & i2 & s2 & -> & Hl2 & Hr2).
      split; [done|]. exists q, i2, s2. split; [done|]. split; [done|].
      pose proof (lo_zone _ _ _ _ Hl2). pose proof (lo_slot _ _ _ _ Hl2).
      rewrite moved_index_rev by (done || lia).
      destruct (decide (i = i2 /\ s = s2)) as [[-> ->]|Hne]; [lia|].
      rewrite (proj2 (andb_false_iff _ _)).
      2:{ destruct (decide (i = i2)); [right|left]; apply bool_decide_eq_false_2; tauto. }
      case_bool_decide as Hold; [|done]. subst old. destruct Ho as (? & _ & _ & Hr). lia.
  - intros i2 s2 Hi2 Hs2 Hr2.
    destruct (moved_index_zone x old i s k l i2 Hg Ho Hi ltac:(lia)) as [_ Hz]. rewrite Hz in Hs2.
    rewrite moved_index_rev in Hr2 |- * by (done || lia).
    destruct (bool_decide (i = i2) && bool_decide (s = s2)) eqn:Enew.
    { guards. subst i2 s2. exists p. split; [done|]. rewrite Hload.
      by rewrite bool_decide_eq_true_2 by lia. }
    case_bool_decide as Hold; [done|].
    destruct (ix_backward N l Hx i2 s2 Hi2 Hs2 Hr2) as (q & Hlq & Hlat). exists q. split; [done|].
    rewrite Hload. rewrite bool_decide_eq_false_2; [done|]. intros Hkk. rewrite Hkk in Hlat.
    assert (Hcur : current l k = Some q).
    { apply (current_some N l k q Hg Hx). split; [done|by eapply located_bounds]. }
    destruct old as [[oi os]|]; cbn in Ho; [|congruence].
    destruct Ho as (q' & Hq' & Hlq' & _). assert (q' = q) as -> by congruence.
    destruct (located_unique l q oi os i2 s2 Hg Hlq' Hlq) as [-> ->]. done.
  - intros j Hj. by eapply moved_index_count; eauto; lia.
Qed.

Lemma encode_logical_id k : 0 <= k < 18446744073709551615 -> zns_gc_encode_logical_block k = k + 1.
Proof. intros. unfold zns_gc_encode_logical_block. by unwrap. Qed.

Lemma old_location_ok N l k :
  geometry l -> index_wf N l -> N < 18446744073709551616 -> 0 <= k < N ->
  exists old, old_location l k = Ok old /\ occupies l k old.
Proof.
  intros Hg Hx HN Hk. unfold old_location.
  destruct (xa_load (gi_latest (l_gc l)) k) as [e|] eqn:He.
  - destruct (ix_forward N l Hx k e He) as (_ & q & i & s & -> & Hl & Hr).
    pose proof (located_bounds l q i s Hg Hl) as Hq. rewrite decode_encode_physical by done.
    rewrite (proj2 (physical_to_gc_slot_iff l q i s Hg) Hl). unfold rev_slot in Hr.
    rewrite Hr, encode_logical_id, Z.eqb_refl by lia. cbn [negb].
    eexists. split; [done|]. exists q. split; [|done]. apply (current_some N l k q Hg Hx). done.
  - eexists. split; [done|]. cbn. unfold current. by rewrite He.
Qed.

End Slots.

Section Update.
Context `{BlockDevice} `{Crc32} `{XArrayLaws} `{RbTreeLaws}.

(** Same index up to the representation of the XArray. *)
Definition same_index (l l' : zns_lsm) : Prop :=
  exists x, l' = set_gc (set_latest x (l_gc l)) l /\
    forall k, xa_load x k = xa_load (gi_latest (l_gc l)) k.

Lemma same_index_current l l' k : same_index l l' -> current l' k = current l k.
Proof. intros (x & -> & Hx). unfold current. cbn. by rewrite Hx. Qed.

Lemma same_index_wf N l l' : same_index l l' -> geometry l -> index_wf N l ->
  geometry l' /\ index_wf N l'.
Proof.
  intros (x & -> & Hx) [] [Hf Hb Hc]. split; [by constructor|].
  constructor; cbn; [|intros i s Hi Hs Hr|done].
  - intros k e He. rewrite Hx in He. by apply Hf.
  - rewrite Hx. by apply Hb.
Qed.

Lemma on_latest_store k v w l :
  match on_latest (xa_store k v) (w, l) with
  | (Ok _, (w', l')) =>
      w_dev w' = w_dev w /\ (no_fail (w_mem w) -> no_fail (w_mem w')) /\
      exists x, l' = set_gc (set_latest x (l_gc l)) l /\
        forall j, xa_load x j = if bool_decide (j = k) then Some v
                                else xa_load (gi_latest (l_gc l)) j
  | (Err e, (w', l')) =>
      w_dev w' = w_dev w /\ same_index l l' /\ e = - ENOMEM /\
      ~ no_fail (w_mem w) /\ ~ xa_reserved (gi_latest (l_gc l)) k
  end.
Proof.
  unfold on_latest, zoom. cbn [fst snd].
  destruct (xa_store k v (w_mem w, gi_latest (l_gc l))) as [r [a x]] eqn:Es.
  apply xa_store_spec in Es as [Hn Hr]. destruct r as [[]|e].
  - split; [done|]. split; [done|]. by exists x.
  - destruct Hr as (Hl & -> & Hf & Hres). split; [done|]. split; [by exists x|done].
Qed.

(** Recording a new location succeeds unless the store needs memory and gets none;
    in that case the index is as before. *)
Lemma update_gc_location_cases N w l k p i s :
  geometry l -> index_wf N l -> N < 18446744073709551616 -> 0 <= k < N ->
  located (l_allocator l) p i s -> rev_slot (l_gc l) i s = 0 ->
  match zns_lsm_update_gc_block_location k p (w, l) with
  | (Ok _, (w', l')) =>
      w_dev w' = w_dev w /\ (no_fail (w_mem w) -> no_fail (w_mem w')) /\
      (exists g, l' = set_gc g l) /\ geometry l' /\ index_wf N l' /\
      (forall j, current l' j = if bool_decide (j = k) then Some p else current l j) /\
      gi_valid_blocks (l_gc l') = gi_valid_blocks (l_gc l) +
        (if bool_decide (is_Some (current l k)) then 0 else 1)
  | (Err e, (w', l')) =>
      w_dev w' = w_dev w /\ same_index l l' /\ e = - ENOMEM /\
      ~ no_fail (w_mem w) /\ ~ xa_reserved (gi_latest (l_gc l)) k
  end.
Proof.
  intros Hg Hx HN Hk Hl Hfree. unfold zns_lsm_update_gc_block_location, lsm_get, gets, bind at 1.
  cbn [snd id]. unfold bind at 1, lift. rewrite (proj2 (physical_to_gc_slot_iff l p i s Hg) Hl).
  cbv zeta. unfold rev_slot in Hfree. rewrite Hfree. cbn [Z.eqb negb].
  destruct (old_location_ok N l k Hg Hx HN Hk) as (old & Hold & Hocc).
  unfold bind at 1. rewrite Hold. unfold bind at 1.
  pose proof (on_latest_store k (zns_gc_encode_physical_sector p) w l) as Hst.
  destruct (on_latest _ (w, l)) as [[[]|e] [w1 l1]]; [|done].
  destruct Hst as (Hd & Hnf & x & -> & Hload).
  assert (Hfinal : (bind match old with
      | Some (old_zone, old_slot) =>
          lsm_modify (fun l => set_gc (put_gc_slot old_zone old_slot 0 (-1) (l_gc l)) l)
      | None => lsm_modify (fun l => set_gc (inc_valid_blocks (l_gc l)) l)
      end (fun _ => lsm_modify (fun l =>
        set_gc (put_gc_slot i s (zns_gc_encode_logical_block k) 1 (l_gc l)) l)))
      (w1, set_gc (set_latest x (l_gc l)) l) =
    (Ok tt, (w1, set_gc (moved_index x old i s k (l_gc l)) l))).
  { rewrite encode_logical_id by lia. by destruct old as [[oi os]|]. }
  rewrite Hfinal. split; [done|]. split; [done|]. split; [by eexists|].
  split; [apply moved_index_geometry; [done..|apply Hl]|].
  destruct (moved_index_wf x old N i s k p l Hg Hx Hocc Hk Hl Hfree Hload) as [Hwf Hcur].
  split; [done|]. split; [done|].
  destruct old as [[oi os]|]; cbn in *.
  - destruct Hocc as (q & -> & _). rewrite bool_decide_eq_true_2 by done. lia.
  - rewrite Hocc, bool_decide_eq_false_2; [lia|by intros []].
Qed.

(** C14.  The garbage-collection index stays consistent.  When the index is consistent
    and a block is moved to a written, unoccupied slot, the update either succeeds,
    and then the index is consistent again, the block is at its new place and every
    other block where it was, and the count of live blocks grows exactly for a first
    copy; or it fails for lack of memory, which a reservation excludes, and then no
    block has moved. *)
Theorem gc_index_update_consistent N w l k p i s :
  geometry l -> index_wf N l -> N < 18446744073709551616 -> 0 <= k < N ->
  located (l_allocator l) p i s -> rev_slot (l_gc l) i s = 0 ->
  let '(r, (w', l')) := zns_lsm_update_gc_block_location k p (w, l) in
  geometry l' /\ index_wf N l' /\
  match r with
  | Ok _ =>
      (forall j, current l' j = if bool_decide (j = k) then Some p else current l j) /\
      gi_valid_blocks (l_gc l') = gi_valid_blocks (l_gc l) +
        (if bool_decide (is_Some (current l k)) then 0 else 1)
  | Err e =>
      (forall j, current l' j = current l j) /\
      e = - ENOMEM /\ ~ no_fail (w_mem w) /\ ~ xa_reserved (gi_latest (l_gc l)) k
  end.
Proof.
  intros Hg Hx HN Hk Hl Hfree.
  pose proof (update_gc_location_cases N w l k p i s Hg Hx HN Hk Hl Hfree) as Hc.
  destruct (zns_lsm_update_gc_block_location k p (w, l)) as [[[]|e] [w' l']].
  - tauto.
  - destruct Hc as (_ & Hsame & He). destruct (same_index_wf N l l' Hsame Hg Hx). split; [done|].
    split; [done|]. split; [|done]. intros j. by apply same_index_current.
Qed.

End Update.
