(* ===== verification/LsmFlush.v ===== *)
(** Looking mappings up and flushing MemTables: [src/engines/zns-engine-lsm.c],
    second part.  Lookups run on the I/O worker, flushes on a queue of their own;
    each operation below takes the lock that guards what it touches, so the two
    interleave operation by operation. *)
From S2P Require Import Prelude Kernel ZonedRam Zone Allocator GcPolicy XArray Bytes RbTree.
From S2P Require Import Memtable Sstable Super Lsm.

Section Flush.
Context `{BlockDevice} `{Crc32} `{XArray} `{RbTree}.

Abbreviation E := (M (world * zns_lsm)).

Definition modify_tables (f : generations -> generations) : E unit :=
  lsm_modify (fun l => set_tables (f (l_tables l)) l).
Definition modify_meta (f : metadata -> metadata) : E unit :=
  lsm_modify (fun l => set_meta (f (l_meta l)) l).

Definition set_slots (s : option lsm_memtable * option lsm_memtable) (g : generations)
    : generations :=
  mk_generations (fst s) (snd s) (g_flushing_memtable g) (g_flush_in_flight g).
Definition set_flushing (o : option lsm_memtable) (g : generations) : generations :=
  mk_generations (g_active_memtable g) (g_immutable_memtable g) o (g_flush_in_flight g).
Definition set_in_flight (b : bool) (g : generations) : generations :=
  mk_generations (g_active_memtable g) (g_immutable_memtable g) (g_flushing_memtable g) b.

Definition zns_lsm_freeze_memtable : E unit :=
  g <- lsm_get l_tables ;;
  s <- on_world (on_mem (memtable_freeze (g_active_memtable g, g_immutable_memtable g))) ;;
  modify_tables (set_slots s).

(** A table whose slot may be empty, after [-ENODATA] from the younger ones. *)
Definition lookup_next (r : result Z) (memtable : option lsm_memtable) (logical_block : Z)
    : result Z :=
  match r, memtable with
  | Err e, Some _ =>
      if e =? - ENODATA
      then match memtable_lookup memtable logical_block with
           | Ok (p, _) => Ok p
           | Err e' => Err e'
           end
      else Err e
  | _, _ => r
  end.

Definition lookup_generations (g : generations) (logical_block : Z) : result Z :=
  match g_active_memtable g with
  | None => Err (- EINVAL)
  | Some _ =>
      let r := match memtable_lookup (g_active_memtable g) logical_block with
               | Ok (p, _) => Ok p
               | Err e => Err e
               end in
      let r := lookup_next r (g_immutable_memtable g) logical_block in
      lookup_next r (g_flushing_memtable g) logical_block
  end.

Definition zns_lsm_lookup_memtables (logical_block : Z) : E Z :=
  g <- lsm_get l_tables ;;
  lift (lookup_generations g logical_block).

(** Newest first; only [-ENODATA] goes on to the next table. *)
Fixpoint lookup_tables (ssts : list zns_sstable) (logical_block : Z) : M world Z :=
  match ssts with
  | [] => Prelude.fail (- ENODATA)
  | sst :: ssts' =>
      r <- attempt (zns_sst_lookup sst logical_block) ;;
      match r with
      | Err e => if e =? - ENODATA then lookup_tables ssts' logical_block else Prelude.fail e
      | Ok p => ret p
      end
  end.

Definition zns_lsm_lookup_sstables (logical_block : Z) : E Z :=
  ssts <- lsm_get (fun l => m_sstables (l_meta l)) ;;
  on_world (lookup_tables ssts logical_block).

Definition zns_lsm_is_aligned_io (lsm : zns_lsm) (logical_sector sectors : Z) : bool :=
  (sectors =? l_sectors_per_block lsm) &&
  (logical_sector mod l_sectors_per_block lsm =? 0).

Definition zns_lsm_read (logical_sector sectors : Z) : E Z :=
  lsm <- lsm_get id ;;
  if negb (zns_lsm_is_aligned_io lsm logical_sector sectors) then Prelude.fail (- EINVAL)
  else
    let logical_block := logical_sector / l_sectors_per_block lsm in
    r <- attempt (zns_lsm_lookup_memtables logical_block) ;;
    match r with
    | Err e => if e =? - ENODATA then zns_lsm_lookup_sstables logical_block else Prelude.fail e
    | Ok p => ret p
    end.

(** ** The flush worker *)

Definition zns_lsm_claim_flush_victim : E (option lsm_memtable) :=
  modify_tables (fun g =>
    match g_flushing_memtable g with
    | Some _ => g
    | None => mk_generations (g_active_memtable g) None (g_immutable_memtable g)
                (g_flush_in_flight g)
    end) ;;;
  lsm_get (fun l => g_flushing_memtable (l_tables l)).

(** [memtable_free] of the victim has no effect that is left to see. *)
Definition zns_lsm_release_flush_victim : E unit := modify_tables (set_flushing None).

Definition zns_lsm_advance_meta_wp (start consumed : Z) : E unit :=
  modify_meta (fun m =>
    if m_meta_wp m <? u64 (start + consumed)
    then mk_metadata (m_sstables m) (m_nr_sstables m) (m_nr_sst_entries m) (m_next_sst_seq m)
           (m_meta_start m) (u64 (start + consumed)) (m_meta_end m) (m_super m)
    else m).

Definition zns_lsm_publish_sstable (sst : zns_sstable) : E unit :=
  modify_meta (fun m =>
    mk_metadata (sst :: m_sstables m) (u32 (m_nr_sstables m + 1))
      (u64 (m_nr_sst_entries m + s_nr_entries sst)) (u64 (m_next_sst_seq m + 1))
      (m_meta_start m) (m_meta_wp m) (m_meta_end m) (m_super m)).

Definition zns_lsm_maybe_queue_flush : E unit :=
  g <- lsm_get l_tables ;;
  let queue := negb (g_flush_in_flight g) &&
    (bool_decide (is_Some (g_immutable_memtable g)) ||
     bool_decide (is_Some (g_flushing_memtable g))) in
  if queue
  then modify_tables (set_in_flight true) ;;; lsm_modify (set_flush_queued true)
  else ret tt.

(** The loop of the worker; the answer is [failed].  Each round empties the flushing
    slot, which the immutable one refills at most once: three rounds are enough. *)
Fixpoint flush_loop (fuel : nat) : E bool :=
  match fuel with
  | O => ret false
  | S fuel' =>
      victim <- zns_lsm_claim_flush_victim ;;
      match victim with
      | None => ret false
      | Some victim =>
          m <- lsm_get l_meta ;;
          let start := m_meta_wp m in
          let seq := m_next_sst_seq m in
          r <- on_world (zns_sst_write (Some victim) start (m_meta_end m) seq) ;;
          let '(r, consumed) := r in
          (if negb (consumed =? 0) then zns_lsm_advance_meta_wp start consumed else ret tt) ;;;
          match r with
          | Err e =>
              if e =? - ENODATA
              then zns_lsm_release_flush_victim ;;; flush_loop fuel'
              else ret true
          | Ok sst =>
              zns_lsm_publish_sstable sst ;;;
              zns_lsm_release_flush_victim ;;;
              flush_loop fuel'
          end
      end
  end.

Definition zns_lsm_flush_worker : E unit :=
  failed <- flush_loop 3 ;;
  modify_tables (set_in_flight false) ;;;
  if failed then ret tt else zns_lsm_maybe_queue_flush.

End Flush.
