(* ===== verification/LsmIo.v ===== *)
(** Data I/O and garbage collection: [src/engines/zns-engine-lsm.c], third part.
    Everything here runs on the ordered I/O worker, one bio after the other. *)
From S2P Require Import Prelude Kernel ZonedRam Zone Allocator GcPolicy XArray Bytes RbTree.
From S2P Require Import Memtable Sstable Super Lsm LsmFlush Bio.

(** ** Copying between a bio and a buffer *)

(** [zns_lsm_copy_fragment] with [to_bio]: the segments afterwards. *)
Fixpoint copy_to_bio (vecs : list (list Byte.byte)) (offset : Z) (buffer : list Byte.byte)
    (bytes copied : Z) : result unit * list (list Byte.byte) :=
  match vecs with
  | [] => (Err (- EIO), [])
  | v :: vs =>
      if zlen v <=? offset then
        let '(r, vs') := copy_to_bio vs (offset - zlen v) buffer bytes copied in
        (r, v :: vs')
      else
        let chunk := Z.min (bytes - copied) (zlen v - offset) in
        let v' := take (Z.to_nat offset) v ++
                  take (Z.to_nat chunk) (drop (Z.to_nat copied) buffer) ++
                  drop (Z.to_nat (offset + chunk)) v in
        if copied + chunk =? bytes then (Ok tt, v' :: vs)
        else
          let '(r, vs') := copy_to_bio vs 0 buffer bytes (copied + chunk) in
          (r, v' :: vs')
  end.

(** [zns_lsm_copy_fragment] without [to_bio]: the buffer afterwards. *)
Fixpoint copy_from_bio (vecs : list (list Byte.byte)) (offset : Z) (buffer : list Byte.byte)
    (bytes copied : Z) : result unit * list Byte.byte :=
  match vecs with
  | [] => (Err (- EIO), buffer)
  | v :: vs =>
      if zlen v <=? offset then copy_from_bio vs (offset - zlen v) buffer bytes copied
      else
        let chunk := Z.min (bytes - copied) (zlen v - offset) in
        let buffer' := take (Z.to_nat copied) buffer ++
                       take (Z.to_nat chunk) (drop (Z.to_nat offset) v) ++
                       drop (Z.to_nat (copied + chunk)) buffer in
        if copied + chunk =? bytes then (Ok tt, buffer')
        else copy_from_bio vs 0 buffer' bytes (copied + chunk)
  end.

(** A bio with its own data, or a buffer with the flags of the request. *)
Inductive write_source : Type :=
| SrcClone (clone : bio)
| SrcBuffer (buffer : block) (opf : req_opf).

Section Io.
Context `{BlockDevice} `{Crc32} `{XArray} `{RbTree} `{ZnsGcPolicy}.
Context (params : lsm_params).

Abbreviation E := (M (world * zns_lsm)).

(** ** Partial reads *)

(** The whole block behind a sector, zeros if it was never written. *)
Definition read_block_or_zero (sector : Z) (buffer : block) : E block :=
  spb <- lsm_get l_sectors_per_block ;;
  r <- attempt (zns_lsm_read sector spb) ;;
  match r with
  | Err e => if e =? - ENODATA then ret zero_block else Prelude.fail e
  | Ok physical_sector => on_world (zns_block_read physical_sector buffer)
  end.

(** The loop of [zns_lsm_read_partial]; every round takes at least one sector. *)
Fixpoint read_partial_loop (fuel : nat) (sector remaining bio_offset : Z) (buffer : block)
    (vecs : list (list Byte.byte)) : E (list (list Byte.byte)) :=
  match fuel with
  | O => ret vecs
  | S fuel' =>
      if remaining =? 0 then ret vecs
      else
        spb <- lsm_get l_sectors_per_block ;;
        let offset := u32 (sector mod spb) in
        let sectors := Z.min remaining (u32 (spb - offset)) in
        let bytes := u32 (Z.shiftl sectors SECTOR_SHIFT) in
        buffer <- read_block_or_zero (u64 (sector - offset)) buffer ;;
        match copy_to_bio vecs bio_offset
                (drop (Z.to_nat (Z.shiftl offset SECTOR_SHIFT)) buffer) bytes 0 with
        | (Err e, _) => Prelude.fail e
        | (Ok _, vecs) =>
            read_partial_loop fuel' (u64 (sector + sectors)) (u32 (remaining - sectors))
              (u32 (bio_offset + bytes)) buffer vecs
        end
  end.

Definition zns_lsm_read_partial (b : bio) : E bio :=
  on_world (on_mem kmalloc) ;;;
  vecs <- read_partial_loop (Z.to_nat (bio_sectors b)) (bi_sector b) (bio_sectors b) 0
            zero_block (bi_vecs b) ;;
  ret (set_vecs vecs b).

(** ** Publishing a write *)

Definition stop_writes : E unit :=
  lsm_modify (fun l => set_attempts
    (mk_attempts (t_data_write (l_attempts l)) (t_gc_move_write (l_attempts l))
       (t_gc_zone_reset (l_attempts l)) true) l).

Definition enable_writes : E unit :=
  lsm_modify (fun l => set_attempts
    (mk_attempts (t_data_write (l_attempts l)) (t_gc_move_write (l_attempts l))
       (t_gc_zone_reset (l_attempts l)) false) l).

(** [memtable_put_active] on the engine's slots. *)
Definition put_mapping (logical_block physical_sector : Z) : E unit :=
  lsm <- lsm_get id ;;
  s <- on_world (on_mem (memtable_put_active
         (g_active_memtable (l_tables lsm), g_immutable_memtable (l_tables lsm))
         (l_memtable_threshold lsm) logical_block physical_sector)) ;;
  modify_tables (set_slots s).

Definition zns_lsm_publish_write (logical_sector physical_sector : Z) : E unit :=
  spb <- lsm_get l_sectors_per_block ;;
  let logical_block := logical_sector / spb in
  on_latest (xa_reserve logical_block) ;;;
  put_mapping logical_block physical_sector ;;;
  r <- attempt (zns_lsm_update_gc_block_location logical_block physical_sector) ;;
  match r with
  | Err e => stop_writes ;;; Prelude.fail e
  | Ok _ => zns_lsm_maybe_queue_flush
  end.

(** ** Garbage collection *)

Definition zns_lsm_zone_free_blocks (lsm : zns_lsm) (zone : zns_zone) : Z :=
  let end_ := u64 (z_start_sector zone + z_capacity zone) in
  if (z_write_pointer zone <? z_start_sector zone) || (end_ <? z_write_pointer zone) then 0
  else u64 (end_ - z_write_pointer zone) / l_sectors_per_block lsm.

Definition zns_lsm_gc_get_zone_info (lsm : zns_lsm) (id : Z) : zns_gc_zone_info :=
  let a := l_allocator lsm in
  let device_zone := (a_zones a).[id] in
  {| is_reserve := id =? a_reserve_zone a;
     resettable := negb (bool_decide (z_condition device_zone = BLK_ZONE_COND_READONLY)) &&
                   negb (bool_decide (z_condition device_zone = BLK_ZONE_COND_OFFLINE));
     capacity_blocks := z_capacity device_zone / l_sectors_per_block lsm;
     free_blocks := if zns_zone_can_append device_zone (l_sectors_per_block lsm)
                    then zns_lsm_zone_free_blocks lsm device_zone else 0;
     valid_blocks := gz_nr_valid_blocks (gi_zones (l_gc lsm)).[id] |}.

Definition zns_lsm_gc_validate_victim (lsm : zns_lsm) (id : Z) : result unit :=
  let a := l_allocator lsm in
  if (a_nr_zones a <=? id) || (id =? a_reserve_zone a) || (a_nr_zones a <=? a_reserve_zone a)
  then Err (- EINVAL)
  else
    let victim_zone := (a_zones a).[id] in
    let reserve_zone := (a_zones a).[a_reserve_zone a] in
    if bool_decide (z_condition victim_zone = BLK_ZONE_COND_READONLY) ||
       bool_decide (z_condition victim_zone = BLK_ZONE_COND_OFFLINE)
    then Err (- EINVAL)
    else if zns_lsm_zone_free_blocks lsm reserve_zone <?
            gz_nr_valid_blocks (gi_zones (l_gc lsm)).[id]
    then Err (- ENOSPC)
    else Ok tt.

Definition count_gc_move (t : attempts) : attempts :=
  mk_attempts (t_data_write t) (u64 (t_gc_move_write t + 1)) (t_gc_zone_reset t)
    (t_writes_stopped t).
Definition count_gc_reset (t : attempts) : attempts :=
  mk_attempts (t_data_write t) (t_gc_move_write t) (u64 (t_gc_zone_reset t + 1))
    (t_writes_stopped t).
Definition count_data_write (t : attempts) : attempts :=
  mk_attempts (u64 (t_data_write t + 1)) (t_gc_move_write t) (t_gc_zone_reset t)
    (t_writes_stopped t).
Definition modify_attempts (f : attempts -> attempts) : E unit :=
  lsm_modify (fun l => set_attempts (f (l_attempts l)) l).

(** The buffer afterwards. *)
Definition zns_lsm_gc_relocate_block (logical_block source_sector : Z) (buffer : block)
    : E block :=
  buffer <- on_world (zns_block_read source_sector buffer) ;;
  destination_sector <- on_allocator zns_allocator_alloc_gc ;;
  modify_attempts count_gc_move ;;;
  lsm <- lsm_get id ;;
  (if negb (zns_lsm_fail_gc_move_write_at params =? 0) &&
      (t_gc_move_write (l_attempts lsm) =? zns_lsm_fail_gc_move_write_at params)
   then Prelude.fail (- EIO)
   else on_world (zns_block_write destination_sector buffer (opf REQ_OP_WRITE))) ;;;
  zns_lsm_publish_write (u64 (logical_block * l_sectors_per_block lsm)) destination_sector ;;;
  lsm_modify (fun l => set_gc (inc_gc_moved (l_gc l)) l) ;;;
  ret buffer.

(** The relocation loop over the slots of the victim. *)
Fixpoint relocate_slots (id : Z) (slots : list Z) (buffer : block) : E unit :=
  match slots with
  | [] => ret tt
  | slot :: slots' =>
      lsm <- lsm_get (fun l => l) ;;
      let entry := (gz_logical_blocks (gi_zones (l_gc lsm)).[id]).[slot] in
      if entry =? 0 then relocate_slots id slots' buffer
      else
        let logical_block := zns_gc_decode_logical_block entry in
        let source_sector :=
          u64 (z_start_sector (a_zones (l_allocator lsm)).[id] + slot * l_sectors_per_block lsm) in
        buffer <- zns_lsm_gc_relocate_block logical_block source_sector buffer ;;
        relocate_slots id slots' buffer
  end.

(** From the first relocation to the confirmed reset: any error stops writes. *)
Definition gc_move_and_reset (id : Z) : E unit :=
  lsm <- lsm_get (fun l => l) ;;
  relocate_slots id (seqZ 0 (gz_nr_blocks (gi_zones (l_gc lsm)).[id])) zero_block ;;;
  lsm <- lsm_get (fun l => l) ;;
  if negb (gz_nr_valid_blocks (gi_zones (l_gc lsm)).[id] =? 0) then Prelude.fail (- EINVAL)
  else
    modify_attempts count_gc_reset ;;;
    lsm <- lsm_get (fun l => l) ;;
    let device_zone := (a_zones (l_allocator lsm)).[id] in
    (if negb (zns_lsm_fail_gc_zone_reset_at params =? 0) &&
        (t_gc_zone_reset (l_attempts lsm) =? zns_lsm_fail_gc_zone_reset_at params)
     then Prelude.fail (- EIO)
     else on_world (on_dev (blkdev_zone_reset (z_start_sector device_zone)
                              (z_length device_zone)))) ;;;
    lsm_modify (fun l => set_gc (inc_gc_resets (l_gc l)) l) ;;;
    on_allocator (zns_allocator_set_reserve_after_reset id) ;;;
    lsm_modify (fun l => set_gc (inc_gc_runs (l_gc l)) l).

Definition zns_lsm_gc_clean (id : Z) : E unit :=
  lsm <- lsm_get (fun l => l) ;;
  lift (zns_lsm_gc_validate_victim lsm id) ;;;
  on_world (on_mem kmalloc) ;;;
  r <- attempt (gc_move_and_reset id) ;;
  match r with
  | Ok _ => ret tt
  | Err e => stop_writes ;;; Prelude.fail e
  end.

Definition gc_context (lsm : zns_lsm) : zns_gc_context :=
  let a := l_allocator lsm in
  {| gc_nr_zones := a_nr_zones a;
     has_write_space := zns_allocator_has_space a;
     reserve_free_blocks := zns_lsm_zone_free_blocks lsm (a_zones a).[a_reserve_zone a];
     get_zone_info := zns_lsm_gc_get_zone_info lsm |}.

Definition zns_lsm_run_gc_if_needed : E unit :=
  lsm <- lsm_get (fun l => l) ;;
  if a_nr_zones (l_allocator lsm) <=? a_reserve_zone (l_allocator lsm)
  then Prelude.fail (- EINVAL)
  else
    let ctx := gc_context lsm in
    if negb (should_gc ctx) then ret tt
    else
      let victim := select_victim ctx in
      if victim <? 0 then Prelude.fail victim
      else zns_lsm_gc_clean (u32 victim).

(** ** Appending *)

(** Send one block to the lower device. *)
Definition send_block (src : write_source) (physical_sector : Z) : M world unit :=
  match src with
  | SrcClone clone => submit_bio (set_sector physical_sector clone) ;;; ret tt
  | SrcBuffer buffer opf => zns_block_write physical_sector buffer opf
  end.

(** A failed data write: writes stay stopped unless the zone could be resynced. *)
Definition recover_failed_write (physical_sector e : Z) : E unit :=
  stop_writes ;;;
  w <- gets fst ;;
  r <- attempt (match zns_zone_report_one (w_dev w) physical_sector with
                | Err e' => Prelude.fail e'
                | Ok reported => on_allocator (zns_allocator_resync physical_sector reported)
                end) ;;
  (match r with
   | Ok _ => enable_writes
   | Err _ => ret tt
   end) ;;;
  Prelude.fail e.

Definition zns_lsm_append_write (logical_sector : Z) (src : write_source) : E unit :=
  stopped <- lsm_get (fun l => t_writes_stopped (l_attempts l)) ;;
  if (stopped : bool) then Prelude.fail (- EIO)
  else
    zns_lsm_run_gc_if_needed ;;;
    physical_sector <- on_allocator zns_allocator_alloc ;;
    modify_attempts count_data_write ;;;
    attempt_nr <- lsm_get (fun l => t_data_write (l_attempts l)) ;;
    r <- attempt (if negb (zns_lsm_fail_data_write_at params =? 0) &&
                     (attempt_nr =? zns_lsm_fail_data_write_at params)
                  then Prelude.fail (- EIO)
                  else on_world (send_block src physical_sector)) ;;
    match r with
    | Err e => recover_failed_write physical_sector e
    | Ok _ => zns_lsm_publish_write logical_sector physical_sector
    end.

(** The loop of [zns_lsm_write_partial]; every round takes at least one sector. *)
Fixpoint write_partial_loop (fuel : nat) (b : bio) (sector remaining bio_offset : Z)
    (buffer : block) : E unit :=
  match fuel with
  | O => ret tt
  | S fuel' =>
      if remaining =? 0 then ret tt
      else
        spb <- lsm_get l_sectors_per_block ;;
        let offset := u32 (sector mod spb) in
        let sectors := Z.min remaining (u32 (spb - offset)) in
        let bytes := u32 (Z.shiftl sectors SECTOR_SHIFT) in
        buffer <- (if negb (offset =? 0) || negb (sectors =? spb)
                   then read_block_or_zero (u64 (sector - offset)) buffer
                   else ret buffer) ;;
        let at_ := Z.to_nat (Z.shiftl offset SECTOR_SHIFT) in
        match copy_from_bio (bi_vecs b) bio_offset (drop at_ buffer) bytes 0 with
        | (Err e, _) => Prelude.fail e
        | (Ok _, tail) =>
            let buffer := take at_ buffer ++ tail in
            zns_lsm_append_write (u64 (sector - offset)) (SrcBuffer buffer (bi_opf b)) ;;;
            write_partial_loop fuel' b (u64 (sector + sectors)) (u32 (remaining - sectors))
              (u32 (bio_offset + bytes)) buffer
        end
  end.

Definition zns_lsm_write_partial (b : bio) : E unit :=
  stopped <- lsm_get (fun l => t_writes_stopped (l_attempts l)) ;;
  if (stopped : bool) then Prelude.fail (- EIO)
  else
    on_world (on_mem kmalloc) ;;;
    write_partial_loop (Z.to_nat (bio_sectors b)) b (bi_sector b) (bio_sectors b) 0 zero_block.

(** ** The I/O worker *)

(** The clone shares the pages of the original. *)
Definition zns_lsm_clone_bio (b : bio) : E bio :=
  on_world (on_mem kmalloc) ;;;
  ret b.

(** The bio as completed; an error is its status. *)
Definition zns_lsm_io_worker (b : bio) : E bio :=
  lsm <- lsm_get (fun l => l) ;;
  let aligned := zns_lsm_is_aligned_io lsm (bi_sector b) (bio_sectors b) in
  if negb aligned && bool_decide (bio_op b = REQ_OP_READ) then zns_lsm_read_partial b
  else if negb aligned && bool_decide (bio_op b = REQ_OP_WRITE)
  then zns_lsm_write_partial b ;;; ret b
  else
    clone <- zns_lsm_clone_bio b ;;
    match bio_op b with
    | REQ_OP_READ =>
        r <- attempt (zns_lsm_read (bi_sector b) (bio_sectors b)) ;;
        match r with
        | Err e => if e =? - ENODATA then ret (zero_fill_bio b) else Prelude.fail e
        | Ok physical_sector =>
            clone <- on_world (submit_bio (set_sector physical_sector clone)) ;;
            ret (set_vecs (bi_vecs clone) b)
        end
    | REQ_OP_WRITE => zns_lsm_append_write (bi_sector b) (SrcClone clone) ;;; ret b
    | REQ_OP_FLUSH =>
        clone <- on_world (submit_bio (set_sector 0 clone)) ;;
        ret (set_vecs (bi_vecs clone) b)
    | REQ_OP_OTHER => Prelude.fail (- EOPNOTSUPP)
    end.

(** Queueing: [None] kills the bio, otherwise it joins the I/O queue. *)
Definition zns_lsm_queue_io (b : bio) : E (option bio) :=
  r <- attempt (on_world (on_mem kmalloc)) ;;
  match r with
  | Err _ => ret None
  | Ok _ => ret (Some b)
  end.

(** [zns_engine_map]: what happens to a bio of an attached target. *)
Definition lsm_engine_map (b : bio) : E map_result :=
  lsm <- lsm_get (fun l => l) ;;
  let logical_sectors := su_logical_sectors (m_super (l_meta lsm)) in
  let queue :=
    r <- zns_lsm_queue_io b ;;
    match r with
    | None => ret DM_MAPIO_KILL
    | Some b => ret (DM_MAPIO_SUBMITTED b)
    end in
  match bio_op b with
  | REQ_OP_FLUSH => queue
  | REQ_OP_READ | REQ_OP_WRITE =>
      if (bi_size b =? 0) ||
         negb (Z.land (bi_size b) (Z.shiftl 1 SECTOR_SHIFT - 1) =? 0) ||
         (logical_sectors <=? bi_sector b) ||
         (u64 (logical_sectors - bi_sector b) <? bio_sectors b)
      then ret DM_MAPIO_KILL
      else queue
  | REQ_OP_OTHER => ret DM_MAPIO_KILL
  end.

End Io.
