(* ===== verification/LsmRecovery.v ===== *)
(** Opening and closing an LSM target: [src/engines/zns-engine-lsm.c], last part.
    The metadata zone is formatted or recognised, the SSTables of an earlier run are
    adopted, the garbage-collection index is rebuilt from them; at shutdown the
    resident generations are written out, oldest first. *)
From S2P Require Import Prelude Kernel ZonedRam Zone Allocator GcPolicy XArray Bytes RbTree.
From S2P Require Import Memtable Sstable Super Lsm LsmFlush Bio LsmIo.

Section Recovery.
Context `{BlockDevice} `{Crc32} `{XArray} `{RbTree}.
Context (params : lsm_params).

Abbreviation E := (M (world * zns_lsm)).

Definition zns_lsm_free_sstables : E unit :=
  modify_meta (fun m => mk_metadata [] 0 0 (m_next_sst_seq m) (m_meta_start m) (m_meta_wp m)
                          (m_meta_end m) (m_super m)).

(** Adopting a table found on the device. *)
Definition adopt_sstable (sst : zns_sstable) (m : metadata) : metadata :=
  mk_metadata (sst :: m_sstables m) (u32 (m_nr_sstables m + 1))
    (u64 (m_nr_sst_entries m + s_nr_entries sst))
    (if m_next_sst_seq m <=? s_seq sst then u64 (s_seq sst + 1) else m_next_sst_seq m)
    (m_meta_start m) (m_meta_wp m) (m_meta_end m) (m_super m).

(** The walk over the log from [cursor]; every table is at least two blocks long. *)
Fixpoint recover_loop (fuel : nat) (cursor : Z) : E unit :=
  match fuel with
  | O => ret tt
  | S fuel' =>
      m <- lsm_get l_meta ;;
      if cursor <? m_meta_wp m then
        r <- attempt (on_world (zns_sst_load cursor (m_meta_wp m))) ;;
        match r with
        | Err e => if e =? - EINVAL then ret tt else Prelude.fail e
        | Ok sst =>
            modify_meta (adopt_sstable sst) ;;;
            recover_loop fuel' (u64 (cursor + u64 (s_nr_blocks sst * ZNS_SST_BLOCK_SECTORS)))
        end
      else ret tt
  end.

Definition zns_lsm_recover_sstables : E unit :=
  m <- lsm_get l_meta ;;
  recover_loop (S (Z.to_nat (m_meta_wp m - m_meta_start m)))
    (u64 (m_meta_start m + ZNS_SST_BLOCK_SECTORS)).

Definition set_meta_region (start end_ wp : Z) (super : zns_super) (m : metadata) : metadata :=
  mk_metadata (m_sstables m) (m_nr_sstables m) (m_nr_sst_entries m) (m_next_sst_seq m)
    start wp end_ super.

(** Only decides whether a warning is logged. *)
Definition zns_lsm_data_zones_dirty (table : zns_zone_table) : bool :=
  existsb (fun z => negb (z_write_pointer z =? z_start_sector z))
    (take (Z.to_nat (zt_nr_zones table - 1)) (zt_zones table)).

(** [uuid] is what [get_random_u64] returns. *)
Definition zns_lsm_open_metadata (table : zns_zone_table) (logical_sectors uuid : Z) : E unit :=
  if zt_nr_zones table <? 2 then Prelude.fail (- EINVAL)
  else
    let meta := (zt_zones table).[zt_nr_zones table - 1] in
    if z_capacity meta <? ZNS_SST_BLOCK_SECTORS then Prelude.fail (- EINVAL)
    else if z_write_pointer meta <? z_start_sector meta then Prelude.fail (- EINVAL)
    else
      spb <- lsm_get l_sectors_per_block ;;
      let meta_start := z_start_sector meta in
      let meta_end := u64 (z_start_sector meta + z_capacity meta) in
      let full := bool_decide (z_condition meta = BLK_ZONE_COND_FULL) in
      if negb full && (meta_end <? z_write_pointer meta) then Prelude.fail (- EINVAL)
      else
        let metadata_write_pointer := if full then meta_end else z_write_pointer meta in
        let device := mk_super 0 logical_sectors (z_length meta) (zt_nr_zones table)
                        (z_id meta) (u32 spb) in
        if negb (metadata_write_pointer =? meta_start) then
          on_disk <- on_world (zns_super_read meta_start) ;;
          lift (zns_super_matches on_disk device) ;;;
          modify_meta (set_meta_region meta_start meta_end metadata_write_pointer on_disk)
        else
          let super := mk_super uuid logical_sectors (z_length meta) (zt_nr_zones table)
                         (z_id meta) (u32 spb) in
          on_world (zns_super_write meta_start super) ;;;
          modify_meta (set_meta_region meta_start meta_end
                         (u64 (meta_start + ZNS_SST_BLOCK_SECTORS)) super).

(** The zones tried as reserve, from the last one down. *)
Fixpoint select_reserve (ids : list Z) : E unit :=
  match ids with
  | [] => Prelude.fail (- ENOSPC)
  | id :: ids' =>
      r <- attempt (on_allocator (zns_allocator_set_reserve id)) ;;
      match r with
      | Ok _ => ret tt
      | Err _ => select_reserve ids'
      end
  end.

Definition lsm_threshold (logical_sectors sectors_per_block : Z) : Z :=
  if zns_lsm_memtable_threshold params =? ZNS_LSM_MEMTABLE_THRESHOLD
  then Z.max ZNS_LSM_MEMTABLE_THRESHOLD
         (u32 (Z.min (u64 (logical_sectors / sectors_per_block + 1))
                 ZNS_LSM_MAX_GC_MEMTABLE_ENTRIES))
  else zns_lsm_memtable_threshold params.

(** The zeroed engine with the fields set before the device is touched. *)
Definition lsm_start (logical_sectors sectors_per_block : Z) : zns_lsm :=
  mk_lsm zns_allocator_reset
    (mk_gc_index [] xa_init 0 0 0 0)
    (mk_generations None None None false)
    (mk_metadata [] 0 0 1 0 0 0 (mk_super 0 0 0 0 0 0))
    (mk_attempts 0 0 0 false)
    (lsm_threshold logical_sectors sectors_per_block) sectors_per_block false.

(** The steps after the metadata zone was opened; the two workqueues are allocations. *)
Definition lsm_load (table : zns_zone_table) (sectors_per_block : Z) : E unit :=
  a <- on_world (on_mem (zns_allocator_init_zoned (zt_zones table)
                           (u32 (zt_nr_zones table - 1)) sectors_per_block)) ;;
  lsm_modify (set_allocator a) ;;;
  zns_lsm_gc_map_init ;;;
  zns_lsm_recover_sstables ;;;
  zns_lsm_gc_rebuild ;;;
  select_reserve (reverse (seqZ 0 (a_nr_zones a))) ;;;
  active <- on_world (on_mem memtable_create) ;;
  match active with
  | None => Prelude.fail (- ENOMEM)
  | Some _ =>
      modify_tables (set_slots (active, None)) ;;;
      on_world (on_mem kmalloc) ;;;
      on_world (on_mem kmalloc)
  end.

(** The steps after the zone table was read. *)
Definition lsm_bring_up (table : zns_zone_table) (logical_sectors sectors_per_block uuid : Z)
    : E unit :=
  zns_lsm_open_metadata table logical_sectors uuid ;;;
  lsm_load table sectors_per_block.

(** [zns_engine_init]: the engine, or an error that leaves none. *)
Definition lsm_engine_init (logical_sectors physical_sectors sectors_per_block uuid : Z)
    : M world zns_lsm := fun w =>
  if (sectors_per_block =? 0) || (zns_lsm_memtable_threshold params =? 0) ||
     negb (sectors_per_block =? ZNS_SST_BLOCK_SECTORS) ||
     negb (logical_sectors mod sectors_per_block =? 0) ||
     negb (physical_sectors mod sectors_per_block =? 0)
  then (Err (- EINVAL), w)
  else
    (on_mem kmalloc ;;;
     table <- zns_zone_table_init ;;
     fun w =>
       match lsm_bring_up table logical_sectors sectors_per_block uuid
               (w, lsm_start logical_sectors sectors_per_block) with
       | (Err e, (w', _)) => (Err e, w')
       | (Ok _, (w', lsm)) => (Ok lsm, w')
       end) w.

(** ** Shutdown *)

(** The generations that are left, oldest first. *)
Fixpoint flush_generations (gens : list (option lsm_memtable)) : E unit :=
  match gens with
  | [] => ret tt
  | None :: gens' => flush_generations gens'
  | Some memtable :: gens' =>
      m <- lsm_get l_meta ;;
      r <- on_world (zns_sst_write (Some memtable) (m_meta_wp m) (m_meta_end m)
                       (m_next_sst_seq m)) ;;
      let '(r, consumed) := r in
      modify_meta (fun m => set_meta_region (m_meta_start m) (m_meta_end m)
                              (u64 (m_meta_wp m + consumed)) (m_super m) m) ;;;
      match r with
      | Err e => if e =? - ENODATA then flush_generations gens' else ret tt
      | Ok _ =>
          modify_meta (fun m =>
            mk_metadata (m_sstables m) (m_nr_sstables m) (m_nr_sst_entries m)
              (u64 (m_next_sst_seq m + 1)) (m_meta_start m) (m_meta_wp m) (m_meta_end m)
              (m_super m)) ;;;
          flush_generations gens'
      end
  end.

Definition zns_lsm_flush_all_sync : E unit :=
  g <- lsm_get l_tables ;;
  flush_generations
    [g_flushing_memtable g; g_immutable_memtable g; g_active_memtable g].

(** [zns_engine_exit] of an attached engine: the drained queues are gone, the tables
    are written, everything is released; only the device is left. *)
Definition lsm_engine_exit (lsm : zns_lsm) : M world unit := fun w =>
  let '(_, (w', _)) :=
    (zns_lsm_flush_all_sync ;;; zns_lsm_free_sstables ;;; zns_lsm_gc_map_exit) (w, lsm) in
  (Ok tt, w').

End Recovery.
