(* ===== verification/LsmView.v ===== *)
(** What a reader of the LSM engine sees, and that flushing does not change it.
    The view of an engine is the union of its MemTable generations and of the
    SSTables on the device, younger ones first; lookups compute it, and every step of
    the flush worker preserves it. *)
From S2P Require Import Prelude Kernel ZonedRam Zone Allocator GcPolicy XArray Bytes RbTree.
From S2P Require Import Memtable Sstable Super Lsm LsmIndex LsmFlush.

(** A strictly ascending list of numbers below [n] has at most [n] elements. *)
Lemma sorted_below_length (l : list Z) lo n :
  StronglySorted Z.lt l -> Forall (fun k => lo <= k < n) l -> lo <= n -> zlen l <= n - lo.
Proof.
  revert lo. induction l as [|k l IH]; intros lo Hs Hb Hle; [unfold zlen; cbn; lia|].
  apply StronglySorted_inv in Hs as [Hs Hk]. apply Forall_cons_1 in Hb as [Hkb Hb].
  assert (zlen l <= n - (k + 1)).
  { apply IH; [done| |lia]. rewrite list.Forall_forall in *. intros x Hx.
    specialize (Hk x Hx). specialize (Hb x Hx). lia. }
  unfold zlen in *. cbn [length]. lia.
Qed.

Section View.
Context `{BlockDeviceLaws} `{Crc32} `{XArrayLaws} `{RbTreeLaws}.

(** ** Tables *)

(** A generation that maps only the [N] logical blocks, to sectors in range. *)
Definition table_ok (N : Z) (o : option lsm_memtable) : Prop :=
  slot_wf o /\ forall k p, slot_map o !! k = Some p -> 0 <= k < N /\ is_u64 p.

Lemma table_ok_none N : table_ok N None.
Proof. split; [done|]. intros k p Hk. cbn in Hk. by rewrite lookup_empty in Hk. Qed.

Lemma table_ok_storable N m :
  N < 4294967296 -> 0 <= N -> table_ok N (Some m) -> mt_storable m.
Proof.
  intros HN H0' [Hwf Hr]. cbn in Hwf, Hr.
  assert (Hin : forall e, e ∈ mt_entries m -> 0 <= e_logical_block e < N /\ is_u64 (e_physical_sector e)).
  { intros e He. apply Hr. apply elem_of_list_to_map.
    - by apply mt_wf_NoDup.
    - apply list_elem_of_fmap. by exists e. }
  split.
  - constructor; [apply Hwf|..]; apply list.Forall_forall; intros e He;
      destruct (Hin e He); unfold is_u64; [lia|done].
  - assert (zlen (e_logical_block <$> mt_entries m) <= N - 0).
    { apply sorted_below_length; [apply Hwf| |done]. apply list.Forall_forall.
      intros k (e & -> & He)%list_elem_of_fmap. by apply Hin. }
    unfold zlen, is_u32 in *. rewrite length_fmap in *. lia.
Qed.

Lemma mt_map_assoc m k : mt_map m !! k = assoc (mt_entries m) k.
Proof. done. Qed.

(** ** The view *)

Definition tables_view (g : generations) : gmap Z Z :=
  slot_map (g_active_memtable g) ∪ slot_map (g_immutable_memtable g) ∪
  slot_map (g_flushing_memtable g).

(** The entries of the SSTables, newest first. *)
Fixpoint ssts_view (ess : list (list lsm_entry)) : gmap Z Z :=
  match ess with
  | [] => ∅
  | es :: ess' => list_to_map (entry_pair <$> es) ∪ ssts_view ess'
  end.

Definition lsm_view (l : zns_lsm) (ess : list (list lsm_entry)) : gmap Z Z :=
  tables_view (l_tables l) ∪ ssts_view ess.

(** The engine's mapping store is intact: the generations are well formed, the
    SSTables of the list are on the device inside the used part of the metadata
    zone. *)
Record store_wf (N : Z) (d : bdev) (l : zns_lsm) (ess : list (list lsm_entry)) : Prop := {
  st_active : is_Some (g_active_memtable (l_tables l));
  st_active_ok : table_ok N (g_active_memtable (l_tables l));
  st_immutable_ok : table_ok N (g_immutable_memtable (l_tables l));
  st_flushing_ok : table_ok N (g_flushing_memtable (l_tables l));
  st_ssts : Forall2 (sst_on_disk d) (m_sstables (l_meta l)) ess;
  st_inside : Forall (fun sst => m_meta_start (l_meta l) <= s_start_sector sst /\
    s_start_sector sst + 8 * s_nr_blocks sst <= m_meta_wp (l_meta l)) (m_sstables (l_meta l));
  st_region : 0 <= m_meta_start (l_meta l) <= m_meta_wp (l_meta l) /\
    m_meta_wp (l_meta l) <= m_meta_end (l_meta l) /\
    m_meta_end (l_meta l) < 18446744073709551616;
  st_seq : is_u64 (m_next_sst_seq (l_meta l));
}.

(** ** Lookups *)

Lemma lookup_memtable_answer o k :
  slot_wf (Some o) ->
  match memtable_lookup (Some o) k with Ok (p, _) => Ok p | Err e => Err e end =
  answer (slot_map (Some o) !! k).
Proof.
  intros Hwf. pose proof (memtable_lookup_map o k Hwf) as Hl. cbn [slot_map].
  destruct (mt_map o !! k); [by destruct Hl as [s ->]|by rewrite Hl].
Qed.

Lemma lookup_next_answer m o k :
  slot_wf o -> lookup_next (answer (m !! k)) o k = answer ((m ∪ slot_map o) !! k).
Proof.
  intros Hwf. rewrite lookup_union. unfold lookup_next. destruct (m !! k) as [p|]; cbn.
  - destruct o; cbn; by destruct (_ !! k).
  - destruct o as [o|]; cbn; [|done]. rewrite (left_id_L None (∪)).
    by apply lookup_memtable_answer.
Qed.

Lemma lookup_generations_view N d l ess k :
  store_wf N d l ess ->
  lookup_generations (l_tables l) k = answer (tables_view (l_tables l) !! k).
Proof.
  intros [[m Hm] [Hw1 _] [Hw2 _] [Hw3 _] _ _ _ _]. unfold lookup_generations, tables_view.
  rewrite Hm in *. cbv zeta. rewrite lookup_memtable_answer by done.
  by rewrite !lookup_next_answer by done.
Qed.

(** The device never reports a medium error under the code that means "no such
    mapping". *)
Definition no_enodata : Prop := ~ dev_error (- ENODATA).

Lemma io_error_not_enodata e : no_enodata -> io_error e -> e <> - ENODATA.
Proof. intros Hn [->|[->|He]]; [done|done|]. by intros ->. Qed.

Lemma lookup_tables_outcome ssts ess k w r w' :
  no_enodata -> Forall2 (sst_on_disk (w_dev w)) ssts ess ->
  lookup_tables ssts k w = (r, w') ->
  same_blocks (w_dev w) (w_dev w') /\ fault_free_step w w' /\
  (r = answer (ssts_view ess !! k) \/ exists e, r = Err e /\ faulty w e /\ e <> - ENODATA).
Proof.
  intros Hne Hall. revert w Hall. revert ess. induction ssts as [|sst ssts IH]; intros ess w Hall.
  - inversion Hall. intros [= <- <-]. split_and!; [apply same_blocks_refl|faults|by left].
  - inversion Hall as [|? es ? ess' Hd Hrest]; subst. cbn [lookup_tables]. unfold bind, attempt.
    destruct (zns_sst_lookup sst k w) as [r1 w1] eqn:E1.
    apply (sst_lookup_outcome sst es) in E1 as (Hs1 & Hf1 & Hr1); [|done].
    cbn [ssts_view]. rewrite lookup_union. unfold assoc in Hr1.
    destruct Hr1 as [->|(e & -> & Hfe)].
    + destruct (list_to_map _ !! k) as [p|]; cbn [answer].
      * intros [= <- <-]. split_and!; [done|done|]. left. by destruct (ssts_view ess' !! k).
      * rewrite Z.eqb_refl, (left_id_L None (∪)). intros Hrun.
        apply IH with (ess := ess') in Hrun as (Hs2 & Hf2 & Hr2).
        2:{ eapply Forall2_impl; [exact Hrest|]. intros s0 e0 H0'. by eapply sst_on_disk_same. }
        split; [by transitivity (w_dev w1)|]. split; [faults|].
        destruct Hr2 as [->|(e & -> & Hfe & He)]; [by left|]. right. exists e.
        split; [done|]. split; [faults|done].
    + pose proof (io_error_not_enodata e Hne (proj1 Hfe)) as He.
      rewrite (proj2 (Z.eqb_neq _ _) He). intros [= <- <-]. split_and!; [done|done|].
      right. by exists e.
Qed.

(** A lookup of the engine: the state is untouched, and the answer is the view's
    unless the environment failed. *)
Lemma lsm_read_outcome N w l ess k r w' l' :
  no_enodata -> store_wf N (w_dev w) l ess -> l_sectors_per_block l = 8 -> 0 <= k ->
  zns_lsm_read (8 * k) 8 (w, l) = (r, (w', l')) ->
  l' = l /\ same_blocks (w_dev w) (w_dev w') /\ fault_free_step w w' /\
  (r = answer (lsm_view l ess !! k) \/ exists e, r = Err e /\ faulty w e /\ e <> - ENODATA).
Proof.
  intros Hne Hst Hspb Hk. unfold zns_lsm_read, zns_lsm_is_aligned_io, lsm_get, gets, bind at 1.
  cbn [snd id]. rewrite Hspb, Z.eqb_refl. replace (8 * k) with (k * 8) by lia.
  rewrite Z_mod_mult, Z_div_mult by lia. cbn [Z.eqb negb andb]. unfold bind at 1, attempt.
  unfold zns_lsm_lookup_memtables, lsm_get, gets, bind at 1, lift. cbn [snd].
  rewrite (lookup_generations_view N (w_dev w) l ess k Hst). unfold lsm_view. rewrite lookup_union.
  destruct (tables_view (l_tables l) !! k) as [p|]; cbn [answer].
  - intros [= <- <- <-]. split_and!; [done|apply same_blocks_refl|faults|]. left.
    by destruct (ssts_view ess !! k).
  - rewrite Z.eqb_refl, (left_id_L None (∪)).
    unfold zns_lsm_lookup_sstables, lsm_get, gets, bind, on_world, zoom. cbn [fst snd].
    destruct (lookup_tables _ k w) as [r1 w1] eqn:E. intros [= <- <- <-].
    apply (lookup_tables_outcome _ ess) in E; [|done|apply Hst]. split; [done|]. done.
Qed.

(** ** The steps of a flush *)

(** The store depends on the device only through the used part of the metadata zone. *)
Lemma store_wf_frame N d d' l ess :
  store_wf N d l ess ->
  (forall s, m_meta_start (l_meta l) <= s -> s + 8 <= m_meta_wp (l_meta l) ->
     dev_block d' s = dev_block d s) ->
  store_wf N d' l ess.
Proof.
  intros [] Hf. constructor; auto. clear - st_ssts0 st_inside0 Hf.
  revert ess st_ssts0 st_inside0. induction (m_sstables (l_meta l)) as [|sst ssts IH];
    intros ess Hall Hin; inversion Hall as [|? es ? ess' Hd Hrest]; subst; constructor.
  - apply Forall_cons_1 in Hin as [Hin _]. eapply sst_on_disk_frame; [exact Hd|].
    intros s ? ?. apply Hf; lia.
  - apply Forall_cons_1 in Hin as [_ Hin]. by apply IH.
Qed.

Lemma store_wf_same N d d' l ess :
  same_blocks d d' -> store_wf N d l ess -> store_wf N d' l ess.
Proof. intros Hs Hst. eapply store_wf_frame; [exact Hst|]. auto. Qed.

(** It does not mention the other parts of the engine. *)
Lemma store_wf_parts N d l l' ess :
  l_tables l' = l_tables l -> l_meta l' = l_meta l -> store_wf N d l ess -> store_wf N d l' ess.
Proof. intros Ht Hm []. constructor; rewrite ?Ht, ?Hm; auto. Qed.

Definition claimed (g : generations) : generations :=
  match g_flushing_memtable g with
  | Some _ => g
  | None => mk_generations (g_active_memtable g) None (g_immutable_memtable g)
              (g_flush_in_flight g)
  end.

Lemma claim_run w l :
  zns_lsm_claim_flush_victim (w, l) =
    (Ok (g_flushing_memtable (claimed (l_tables l))), (w, set_tables (claimed (l_tables l)) l)).
Proof. done. Qed.

Lemma claimed_view g : tables_view (claimed g) = tables_view g.
Proof.
  unfold claimed, tables_view. destruct (g_flushing_memtable g) eqn:E; [by rewrite E|].
  cbn. by rewrite (right_id_L ∅ (∪)), (right_id_L ∅ (∪)).
Qed.

Lemma claimed_wf N d l ess :
  store_wf N d l ess -> store_wf N d (set_tables (claimed (l_tables l)) l) ess.
Proof.
  intros []. unfold claimed. destruct (g_flushing_memtable (l_tables l)) eqn:E.
  - constructor; cbn; rewrite ?E; auto.
  - constructor; cbn; auto using table_ok_none.
Qed.

Lemma released_wf N d l ess :
  store_wf N d l ess -> store_wf N d (set_tables (set_flushing None (l_tables l)) l) ess.
Proof. intros []. constructor; cbn; auto using table_ok_none. Qed.

(** Writing a table behind the used part leaves the store alone. *)
Lemma flush_write_step N w l ess m r consumed w' :
  store_wf N (w_dev w) l ess -> 0 <= N < 4294967296 -> table_ok N (Some m) -> no_enodata ->
  zns_sst_write (Some m) (m_meta_wp (l_meta l)) (m_meta_end (l_meta l))
    (m_next_sst_seq (l_meta l)) w = (Ok (r, consumed), w') ->
  only_in (m_meta_wp (l_meta l)) (m_meta_end (l_meta l)) (w_dev w) (w_dev w') /\
  store_wf N (w_dev w') l ess /\
  0 <= consumed /\ m_meta_wp (l_meta l) + consumed <= m_meta_end (l_meta l) /\
  match r with
  | Ok sst => sst_on_disk (w_dev w') sst (mt_entries m) /\
      s_start_sector sst = m_meta_wp (l_meta l) /\ consumed = 8 * s_nr_blocks sst
  | Err e => e = - ENODATA -> mt_entries m = []
  end.
Proof.
  intros Hst HN Htab Hne Hrun. destruct (table_ok_storable N m) as [Hwf Hcnt]; [lia|lia|done|].
  pose proof (st_region _ _ _ _ Hst) as Hreg.
  assert (Hs64 : is_u64 (m_meta_wp (l_meta l))) by (unfold is_u64; lia).
  assert (He64 : is_u64 (m_meta_end (l_meta l))) by (unfold is_u64; lia).
  destruct (sst_write_cases _ _ _ _ _ _ _ Hs64 He64 Hcnt Hrun)
    as (Ho & r' & c & Heq & Hp & Hr). injection Heq as <- <-.
  split; [done|]. split.
  { eapply store_wf_frame; [exact Hst|]. intros s ? ?. apply Ho. lia. }
  assert (Hc0 : 0 <= consumed) by (destruct Hp as [->|(j & -> & _)]; lia).
  split; [done|]. destruct r as [sst|e].
  - destruct Hr as (-> & -> & Hfit & Hnil). split; [done|].
    destruct (written_on_disk (w_dev w') (m_meta_wp (l_meta l)) (m_next_sst_seq (l_meta l))
      (mt_entries m)) as [Hd _]; [done|done|done|lia|lia|done|]. done.
  - split; [lia|]. intros ->. destruct (sst_write_error _ _ _ _ _ _ _ _ Hcnt Hrun)
      as [?|[[_ ?]|?]]; [done|done|]. by destruct (io_error_not_enodata (- ENODATA) Hne).
Qed.

Definition advanced (start consumed : Z) (m : metadata) : metadata :=
  if m_meta_wp m <? u64 (start + consumed)
  then mk_metadata (m_sstables m) (m_nr_sstables m) (m_nr_sst_entries m) (m_next_sst_seq m)
         (m_meta_start m) (u64 (start + consumed)) (m_meta_end m) (m_super m)
  else m.

Lemma advanced_meta l consumed :
  0 <= consumed -> 0 <= m_meta_wp (l_meta l) ->
  m_meta_wp (l_meta l) + consumed < 18446744073709551616 ->
  let m' := advanced (m_meta_wp (l_meta l)) consumed (l_meta l) in
  m_meta_wp m' = m_meta_wp (l_meta l) + consumed /\ m_sstables m' = m_sstables (l_meta l) /\
  m_next_sst_seq m' = m_next_sst_seq (l_meta l) /\ m_meta_start m' = m_meta_start (l_meta l) /\
  m_meta_end m' = m_meta_end (l_meta l) /\ m_super m' = m_super (l_meta l).
Proof.
  intros Hc Hw Hmax. cbv zeta. unfold advanced. rewrite u64_id by lia.
  destruct (Z.ltb_spec (m_meta_wp (l_meta l)) (m_meta_wp (l_meta l) + consumed)); cbn;
    split_and!; try done; lia.
Qed.

Lemma advanced_wf N d l ess consumed :
  store_wf N d l ess -> 0 <= consumed ->
  m_meta_wp (l_meta l) + consumed <= m_meta_end (l_meta l) ->
  store_wf N d (set_meta (advanced (m_meta_wp (l_meta l)) consumed (l_meta l)) l) ess.
Proof.
  intros Hst Hc Hle. pose proof (st_region _ _ _ _ Hst) as Hreg.
  destruct (advanced_meta l consumed Hc ltac:(lia) ltac:(lia)) as (Hwp & Hs & Hq & Hms & Hme & _).
  destruct Hst. constructor; cbn [l_tables l_meta set_meta]; rewrite ?Hwp, ?Hs, ?Hq, ?Hms, ?Hme; auto.
  - eapply Forall_impl; [exact st_inside0|]. cbn. intros sst ?. lia.
  - lia.
Qed.

Definition published (sst : zns_sstable) (m : metadata) : metadata :=
  mk_metadata (sst :: m_sstables m) (u32 (m_nr_sstables m + 1))
    (u64 (m_nr_sst_entries m + s_nr_entries sst)) (u64 (m_next_sst_seq m + 1))
    (m_meta_start m) (m_meta_wp m) (m_meta_end m) (m_super m).

Lemma published_wf N d l ess sst es :
  store_wf N d l ess -> sst_on_disk d sst es ->
  m_meta_start (l_meta l) <= s_start_sector sst ->
  s_start_sector sst + 8 * s_nr_blocks sst <= m_meta_wp (l_meta l) ->
  store_wf N d (set_meta (published sst (l_meta l)) l) (es :: ess).
Proof.
  intros [] Hd Hs He. constructor; cbn; try done.
  - by constructor.
  - by apply Forall_cons.
  - apply u64_range.
Qed.

(** A table that is both in the flushing slot and the newest SSTable. *)
Lemma published_view l m ess sst :
  g_flushing_memtable (l_tables l) = Some m ->
  lsm_view (set_meta (published sst (l_meta l)) l) (mt_entries m :: ess) = lsm_view l ess.
Proof.
  intros Hf. unfold lsm_view, tables_view. cbn [l_tables set_meta ssts_view]. rewrite Hf.
  cbn [slot_map]. fold (mt_map m). rewrite (assoc_L (∪)).
  rewrite <- (assoc_L (∪) (_ ∪ _) (mt_map m) (mt_map m)). by rewrite (idemp_L (∪)).
Qed.

Lemma released_view l m ess :
  g_flushing_memtable (l_tables l) = Some m ->
  lsm_view (set_tables (set_flushing None (l_tables l)) l) (mt_entries m :: ess) =
  lsm_view l (mt_entries m :: ess).
Proof.
  intros Hf. unfold lsm_view, tables_view. cbn [l_tables set_tables set_flushing g_active_memtable
    g_immutable_memtable g_flushing_memtable ssts_view]. rewrite Hf. cbn [slot_map].
  fold (mt_map m). rewrite (right_id_L ∅ (∪)), !(assoc_L (∪)).
  rewrite <- (assoc_L (∪) (_ ∪ _) (mt_map m) (mt_map m)). by rewrite (idemp_L (∪)).
Qed.

Lemma released_empty_view l m ess :
  g_flushing_memtable (l_tables l) = Some m -> mt_entries m = [] ->
  lsm_view (set_tables (set_flushing None (l_tables l)) l) ess = lsm_view l ess.
Proof.
  intros Hf He. unfold lsm_view, tables_view. cbn [l_tables set_tables set_flushing
    g_active_memtable g_immutable_memtable g_flushing_memtable]. rewrite Hf. cbn [slot_map].
  unfold mt_map. rewrite He. done.
Qed.

End View.
