(* ===== verification/LsmConcurrency.v ===== *)
(** The flush worker as a state machine.  Between two locked sections of the worker
    the I/O worker may look mappings up, so the order of the worker's steps matters:
    a table is published before it leaves the flushing slot.  The machine has one
    step per locked section (or per device operation); its invariant gives that no
    step changes what a reader sees, that a lookup which finds the generations empty
    and only then searches the SSTables cannot miss a table in between, and that the
    sequential worker of [LsmFlush] is one run of the machine. *)
From stdpp Require Import relations.
From S2P Require Import Prelude Kernel ZonedRam Zone Allocator GcPolicy XArray Bytes RbTree.
From S2P Require Import Memtable Sstable Super Lsm LsmIndex LsmFlush LsmView.

Section Machine.
Context `{BlockDeviceLaws} `{Crc32} `{XArrayLaws} `{RbTreeLaws}.

Abbreviation state := (world * zns_lsm)%type.

(** Where the worker stands. *)
Inductive flush_pc : Type :=
| FlushIdle
| FlushClaim
| FlushClaimed (victim : lsm_memtable)
| FlushWriting (victim : lsm_memtable) (start seq : Z)
| FlushWritten (victim : lsm_memtable) (start : Z) (r : result zns_sstable) (consumed : Z)
| FlushAdvanced (victim : lsm_memtable) (r : result zns_sstable)
| FlushPublished (victim : lsm_memtable)
| FlushEnding (failed : bool)
| FlushRequeue.

Inductive flush_step : flush_pc * state -> flush_pc * state -> Prop :=
| step_start w l :
    l_flush_queued l = true ->
    flush_step (FlushIdle, (w, l)) (FlushClaim, (w, set_flush_queued false l))
| step_claim s v s' :
    zns_lsm_claim_flush_victim s = (Ok v, s') ->
    flush_step (FlushClaim, s)
      (match v with None => FlushEnding false | Some v => FlushClaimed v end, s')
| step_position v w l :
    flush_step (FlushClaimed v, (w, l))
      (FlushWriting v (m_meta_wp (l_meta l)) (m_next_sst_seq (l_meta l)), (w, l))
| step_write v start seq s r consumed s' :
    on_world (zns_sst_write (Some v) start (m_meta_end (l_meta (snd s))) seq) s
      = (Ok (r, consumed), s') ->
    flush_step (FlushWriting v start seq, s) (FlushWritten v start r consumed, s')
| step_advance v start r consumed s s' :
    (if negb (consumed =? 0) then zns_lsm_advance_meta_wp start consumed else ret tt) s
      = (Ok tt, s') ->
    flush_step (FlushWritten v start r consumed, s) (FlushAdvanced v r, s')
| step_drop_empty v s s' :
    zns_lsm_release_flush_victim s = (Ok tt, s') ->
    flush_step (FlushAdvanced v (Err (- ENODATA)), s) (FlushClaim, s')
| step_fail v e s :
    e <> - ENODATA ->
    flush_step (FlushAdvanced v (Err e), s) (FlushEnding true, s)
| step_publish v sst s s' :
    zns_lsm_publish_sstable sst s = (Ok tt, s') ->
    flush_step (FlushAdvanced v (Ok sst), s) (FlushPublished v, s')
| step_release v s s' :
    zns_lsm_release_flush_victim s = (Ok tt, s') ->
    flush_step (FlushPublished v, s) (FlushClaim, s')
| step_end failed s s' :
    modify_tables (set_in_flight false) s = (Ok tt, s') ->
    flush_step (FlushEnding failed, s) (if failed then FlushIdle else FlushRequeue, s')
| step_requeue s s' :
    zns_lsm_maybe_queue_flush s = (Ok tt, s') ->
    flush_step (FlushRequeue, s) (FlushIdle, s').

(** ** The invariant *)

(** What the outcome of a write says once its sectors are accounted for. *)
Definition outcome_ok (d : bdev) (l : zns_lsm) (v : lsm_memtable) (r : result zns_sstable) : Prop :=
  match r with
  | Ok sst => sst_on_disk d sst (mt_entries v) /\
      m_meta_start (l_meta l) <= s_start_sector sst /\
      s_start_sector sst + 8 * s_nr_blocks sst <= m_meta_wp (l_meta l)
  | Err e => e = - ENODATA -> mt_entries v = []
  end.

Definition pc_inv (pc : flush_pc) (d : bdev) (l : zns_lsm) (ess : list (list lsm_entry)) : Prop :=
  let flushing := g_flushing_memtable (l_tables l) in
  match pc with
  | FlushClaimed v => flushing = Some v
  | FlushWriting v start seq =>
      flushing = Some v /\ start = m_meta_wp (l_meta l) /\ seq = m_next_sst_seq (l_meta l)
  | FlushWritten v start r consumed =>
      flushing = Some v /\ start = m_meta_wp (l_meta l) /\ 0 <= consumed /\
      start + consumed <= m_meta_end (l_meta l) /\
      match r with
      | Ok sst => sst_on_disk d sst (mt_entries v) /\ s_start_sector sst = start /\
                  consumed = 8 * s_nr_blocks sst
      | Err e => e = - ENODATA -> mt_entries v = []
      end
  | FlushAdvanced v r => flushing = Some v /\ outcome_ok d l v r
  | FlushPublished v => flushing = Some v /\ exists ess0, ess = mt_entries v :: ess0
  | _ => True
  end.

Definition flush_inv (N : Z) (c : flush_pc * state) (ess : list (list lsm_entry)) : Prop :=
  let '(pc, (w, l)) := c in store_wf N (w_dev w) l ess /\ pc_inv pc (w_dev w) l ess.

(** What a step of the worker keeps of the rest of the engine. *)
Record flush_frame (l l' : zns_lsm) : Prop := {
  ff_allocator : l_allocator l' = l_allocator l;
  ff_gc : l_gc l' = l_gc l;
  ff_attempts : l_attempts l' = l_attempts l;
  ff_threshold : l_memtable_threshold l' = l_memtable_threshold l;
  ff_spb : l_sectors_per_block l' = l_sectors_per_block l;
  ff_active : g_active_memtable (l_tables l') = g_active_memtable (l_tables l);
  ff_start : m_meta_start (l_meta l') = m_meta_start (l_meta l);
  ff_end : m_meta_end (l_meta l') = m_meta_end (l_meta l);
  ff_super : m_super (l_meta l') = m_super (l_meta l);
  ff_wp : m_meta_wp (l_meta l) <= m_meta_wp (l_meta l');
}.

Lemma flush_frame_refl l : flush_frame l l.
Proof. by constructor. Qed.

Lemma flush_frame_trans l1 l2 l3 : flush_frame l1 l2 -> flush_frame l2 l3 -> flush_frame l1 l3.
Proof. intros [] []. constructor; try congruence. lia. Qed.

(** The effect of a step on readers: nothing changes, and generations only shrink. *)
Record flush_effect (s s' : state) (ess ess' : list (list lsm_entry)) : Prop := {
  fe_frame : flush_frame (snd s) (snd s');
  fe_view : lsm_view (snd s') ess' = lsm_view (snd s) ess;
  fe_shrink : forall k, tables_view (l_tables (snd s)) !! k = None ->
    tables_view (l_tables (snd s')) !! k = None;
  fe_device : only_in (m_meta_wp (l_meta (snd s))) (m_meta_end (l_meta (snd s)))
    (w_dev (fst s)) (w_dev (fst s'));
}.

Lemma flush_effect_refl s ess : flush_effect s s ess ess.
Proof. constructor; auto using flush_frame_refl, only_in_refl. Qed.

Lemma flush_effect_trans s1 s2 s3 ess1 ess2 ess3 :
  flush_effect s1 s2 ess1 ess2 -> flush_effect s2 s3 ess2 ess3 -> flush_effect s1 s3 ess1 ess3.
Proof.
  intros [F1 V1 S1 D1] [F2 V2 S2 D2]. constructor.
  - by eapply flush_frame_trans.
  - congruence.
  - auto.
  - eapply only_in_trans; [exact D1|]. eapply only_in_widen; [exact D2|apply F1|].
    rewrite (ff_end _ _ F1). lia.
Qed.

(** A step that changes no table and no device. *)
Lemma flush_effect_idle w l l' ess :
  l_tables l' = l_tables l \/ (exists b, l_tables l' = set_in_flight b (l_tables l)) ->
  flush_frame l l' -> flush_effect (w, l) (w, l') ess ess.
Proof.
  intros Ht Hf.
  assert (Hv : tables_view (l_tables l') = tables_view (l_tables l)).
  { destruct Ht as [->|[b ->]]; done. }
  constructor; cbn; [done| |by rewrite Hv|apply only_in_refl]. unfold lsm_view. by rewrite Hv.
Qed.

Lemma tables_view_release g k :
  tables_view g !! k = None -> tables_view (set_flushing None g) !! k = None.
Proof.
  unfold tables_view. cbn. rewrite (right_id_L ∅ (∪)), !lookup_union.
  destruct (slot_map (g_active_memtable g) !! k), (slot_map (g_immutable_memtable g) !! k),
    (slot_map (g_flushing_memtable g) !! k); done.
Qed.

(** ** Every step keeps the invariant *)

Lemma step_claim_inv N s v s' ess :
  flush_inv N (FlushClaim, s) ess -> zns_lsm_claim_flush_victim s = (Ok v, s') ->
  flush_inv N (match v with None => FlushEnding false | Some v => FlushClaimed v end, s') ess /\
  flush_effect s s' ess ess.
Proof.
  destruct s as [w l]. intros [Hst _]. rewrite claim_run. intros [= <- <-]. split.
  - split; [by apply claimed_wf|].
    by destruct (g_flushing_memtable (claimed (l_tables l))) eqn:E.
  - constructor; cbn.
    + constructor; cbn; try done. unfold claimed. by destruct (g_flushing_memtable _).
    + unfold lsm_view. cbn. by rewrite claimed_view.
    + intros k. by rewrite claimed_view.
    + apply only_in_refl.
Qed.

Lemma step_write_inv N v start seq s r consumed s' ess :
  0 <= N < 4294967296 -> no_enodata ->
  flush_inv N (FlushWriting v start seq, s) ess ->
  on_world (zns_sst_write (Some v) start (m_meta_end (l_meta (snd s))) seq) s
    = (Ok (r, consumed), s') ->
  flush_inv N (FlushWritten v start r consumed, s') ess /\ flush_effect s s' ess ess.
Proof.
  destruct s as [w l]. intros HN Hne [Hst (Hf & -> & ->)]. unfold on_world, zoom. cbn [fst snd].
  destruct (zns_sst_write _ _ _ _ w) as [o w1] eqn:E. intros [= -> <-].
  apply (flush_write_step N w l ess v) in E as (Ho & Hst' & Hc & Hle & Hr); [|done|done| |done].
  2:{ rewrite <- Hf. apply Hst. }
  split; [split; [done|]; cbn; by split_and!|].
  constructor; cbn; auto using flush_frame_refl.
Qed.

Lemma step_advance_inv N v start r consumed s s' ess :
  flush_inv N (FlushWritten v start r consumed, s) ess ->
  (if negb (consumed =? 0) then zns_lsm_advance_meta_wp start consumed else ret tt) s
    = (Ok tt, s') ->
  flush_inv N (FlushAdvanced v r, s') ess /\ flush_effect s s' ess ess.
Proof.
  destruct s as [w l]. intros [Hst (Hf & -> & Hc & Hle & Hr)] Hrun.
  pose proof (st_region _ _ _ _ Hst) as Hreg.
  set (l1 := set_meta (advanced (m_meta_wp (l_meta l)) consumed (l_meta l)) l).
  assert (Hs' : s' = (w, l1)).
  { destruct (Z.eqb_spec consumed 0) as [->|Hnz]; cbn [negb] in Hrun.
    - injection Hrun as <-. f_equal. unfold l1, advanced. rewrite Z.add_0_r, u64_id by lia.
      by rewrite Z.ltb_irrefl; destruct l.
    - by injection Hrun as <-. }
  subst s'. destruct (advanced_meta l consumed Hc ltac:(lia) ltac:(lia))
    as (Hwp & Hs & Hq & Hms & Hme & Hsu).
  split; [split|].
  - by apply advanced_wf.
  - split; [done|]. unfold outcome_ok, l1. cbn [l_meta set_meta]. rewrite Hwp, Hms.
    destruct r as [sst|e]; [|done]. destruct Hr as (Hd & Hss & ->). split; [done|]. lia.
  - constructor; cbn [fst snd]; [|done|done|apply only_in_refl].
    constructor; unfold l1; cbn [l_meta l_tables l_allocator l_gc l_attempts l_memtable_threshold
      l_sectors_per_block set_meta]; try done. lia.
Qed.

Lemma release_inv N v s s' ess :
  store_wf N (w_dev (fst s)) (snd s) ess -> g_flushing_memtable (l_tables (snd s)) = Some v ->
  mt_entries v = [] \/ (exists ess0, ess = mt_entries v :: ess0) ->
  zns_lsm_release_flush_victim s = (Ok tt, s') ->
  flush_inv N (FlushClaim, s') ess /\ flush_effect s s' ess ess.
Proof.
  destruct s as [w l]. cbn [fst snd]. intros Hst Hf Hwhy [= <-]. split.
  - split; [by apply released_wf|done].
  - constructor; cbn [fst snd]; [by constructor| |apply tables_view_release|apply only_in_refl].
    destruct Hwhy as [He|[ess0 ->]].
    + by eapply released_empty_view.
    + by apply released_view.
Qed.

Lemma flush_step_inv N c c' ess :
  0 <= N < 4294967296 -> no_enodata -> flush_inv N c ess -> flush_step c c' ->
  exists ess', flush_inv N c' ess' /\ flush_effect (snd c) (snd c') ess ess'.
Proof.
  intros HN Hne Hinv Hstep. destruct Hstep as [w l Hq|s v s' Hrun|v w l|v start seq s r consumed s' Hrun
    |v start r consumed s s' Hrun|v s s' Hrun|v e s He|v sst s s' Hrun|v s s' Hrun|failed s s' Hrun
    |s s' Hrun].
  - exists ess. destruct Hinv as [Hst _]. split.
    + split; [by eapply store_wf_parts; [..|exact Hst]|done].
    + apply flush_effect_idle; [by left|by constructor].
  - exists ess. by apply step_claim_inv.
  - exists ess. destruct Hinv as [Hst Hf]. split; [by split|apply flush_effect_refl].
  - exists ess. by eapply step_write_inv.
  - exists ess. by eapply step_advance_inv.
  - exists ess. destruct s as [w l]. destruct Hinv as (Hst & Hf & Ho). eapply release_inv; eauto.
  - exists ess. destruct s as [w l]. destruct Hinv as (Hst & _). split; [by split|].
    apply flush_effect_refl.
  - destruct s as [w l]. destruct Hinv as (Hst & Hf & Hd & Hs & He). injection Hrun as <-.
    exists (mt_entries v :: ess). split; [split|].
    + by apply published_wf.
    + split; [done|by eexists].
    + constructor; cbn [fst snd]; [by constructor|by apply published_view|done|apply only_in_refl].
  - exists ess. destruct s as [w l]. destruct Hinv as (Hst & Hf & He). eapply release_inv; eauto.
  - exists ess. destruct s as [w l]. destruct Hinv as (Hst & _). injection Hrun as <-. split.
    + split; [|by destruct failed]. destruct Hst. by constructor.
    + apply flush_effect_idle; [right; by eexists|by constructor].
  - exists ess. destruct s as [w l]. destruct Hinv as (Hst & _).
    unfold zns_lsm_maybe_queue_flush, lsm_get, gets, bind in Hrun. cbn [snd] in Hrun.
    destruct (_ && _); injection Hrun as <-.
    + split; [split; [destruct Hst; by constructor|done]|].
      apply flush_effect_idle; [right; by eexists|by constructor].
    + split; [by split|apply flush_effect_refl].
Qed.

Lemma flush_steps_inv N c c' ess :
  0 <= N < 4294967296 -> no_enodata -> flush_inv N c ess -> rtc flush_step c c' ->
  exists ess', flush_inv N c' ess' /\ flush_effect (snd c) (snd c') ess ess'.
Proof.
  intros HN Hne Hinv Hsteps. revert ess Hinv.
  induction Hsteps as [c|c1 c2 c3 Hstep _ IH]; intros ess Hinv.
  { exists ess. split; [done|apply flush_effect_refl]. }
  destruct (flush_step_inv N c1 c2 ess HN Hne Hinv Hstep) as (ess2 & Hinv2 & He2).
  destruct (IH ess2 Hinv2) as (ess3 & Hinv3 & He3). exists ess3. split; [done|].
  by eapply flush_effect_trans.
Qed.

(** ** The worker as a run of the machine *)

(** Tables waiting to be flushed. *)
Definition occupied (o : option lsm_memtable) : nat :=
  match o with Some _ => 1 | None => 0 end.
Definition pending (l : zns_lsm) : nat :=
  (occupied (g_immutable_memtable (l_tables l)) + occupied (g_flushing_memtable (l_tables l)))%nat.

Lemma flush_loop_steps fuel w l :
  (pending l < fuel)%nat ->
  exists failed s', flush_loop fuel (w, l) = (Ok failed, s') /\
    rtc flush_step (FlushClaim, (w, l)) (FlushEnding failed, s') /\
    (failed = false -> pending (snd s') = 0%nat).
Proof.
  revert w l. induction fuel as [|fuel IH]; intros w l Hp; [lia|]. cbn [flush_loop].
  unfold bind at 1. rewrite claim_run.
  pose proof (step_claim (w, l) _ _ (claim_run w l)) as Hclaim.
  set (l1 := set_tables (claimed (l_tables l)) l) in *.
  destruct (g_flushing_memtable (claimed (l_tables l))) as [v|] eqn:Hf.
  2:{ do 2 eexists. split; [done|]. split; [by eapply rtc_l; [exact Hclaim|]|]. intros _.
      unfold pending, l1. cbn. unfold claimed in Hf |- *.
      destruct (g_flushing_memtable (l_tables l)) eqn:E; [by rewrite E in Hf|].
      cbn in Hf |- *. by rewrite Hf. }
  assert (Hp1 : (pending (set_tables (set_flushing None (l_tables l1)) l1) < fuel)%nat).
  { unfold pending, l1, claimed in *.
    destruct (g_flushing_memtable (l_tables l)) eqn:E; cbn in *; [lia|].
    rewrite Hf in Hp. cbn in Hp. lia. }
  unfold bind at 1, lsm_get, gets. cbn [snd]. cbv zeta. unfold bind at 1, on_world, zoom. cbn [fst snd].
  destruct (sst_write_total (Some v) (m_meta_wp (l_meta l1)) (m_meta_end (l_meta l1))
    (m_next_sst_seq (l_meta l1)) w) as (r & c & w2 & Hw). rewrite Hw.
  assert (Hwrite : flush_step
    (FlushWriting v (m_meta_wp (l_meta l1)) (m_next_sst_seq (l_meta l1)), (w, l1))
    (FlushWritten v (m_meta_wp (l_meta l1)) r c, (w2, l1))).
  { apply step_write. unfold on_world, zoom. cbn [fst snd]. by rewrite Hw. }
  set (adv := if negb (c =? 0) then zns_lsm_advance_meta_wp (m_meta_wp (l_meta l1)) c else ret tt).
  assert (Hadv : exists m2, adv (w2, l1) = (Ok tt, (w2, set_meta m2 l1))).
  { unfold adv. destruct (negb (c =? 0)); [by eexists|]. exists (l_meta l1). by destruct l1. }
  destruct Hadv as [m2 Hadv]. unfold bind at 1. rewrite Hadv.
  pose proof (step_advance v (m_meta_wp (l_meta l1)) r c (w2, l1) _ Hadv) as Hadvance.
  assert (Hpre : rtc flush_step (FlushClaim, (w, l)) (FlushAdvanced v r, (w2, set_meta m2 l1))).
  { eapply rtc_l; [exact Hclaim|]. eapply rtc_l; [apply step_position|].
    eapply rtc_l; [exact Hwrite|]. by eapply rtc_l; [exact Hadvance|]. }
  destruct r as [sst|e].
  - unfold bind at 1 2. cbn [fst snd]. set (l2 := set_meta (published sst m2) (set_meta m2 l1)).
    destruct (IH w2 (set_tables (set_flushing None (l_tables l2)) l2)) as (failed & s' & Hrun & Hst & Hend);
      [exact Hp1|].
    exists failed, s'. split; [exact Hrun|]. split; [|done]. etrans; [exact Hpre|].
    eapply rtc_l; [by apply (step_publish _ _ _ (w2, l2))|].
    eapply rtc_l; [by apply step_release|]. exact Hst.
  - destruct (Z.eqb_spec e (- ENODATA)) as [->|Hne].
    + destruct (IH w2 (set_tables (set_flushing None (l_tables l1)) (set_meta m2 l1)))
        as (failed & s' & Hrun & Hst & Hend); [exact Hp1|].
      exists failed, s'. split; [exact Hrun|]. split; [|done]. etrans; [exact Hpre|].
      eapply rtc_l; [by apply step_drop_empty|]. exact Hst.
    + do 2 eexists. split; [done|]. split; [|done]. etrans; [exact Hpre|].
      apply rtc_once. by apply step_fail.
Qed.

Lemma flush_worker_steps w l :
  exists failed s1 s', zns_lsm_flush_worker (w, l) = (Ok tt, s') /\
    rtc flush_step (FlushClaim, (w, l)) (FlushEnding failed, s1) /\
    rtc flush_step (FlushEnding failed, s1) (FlushIdle, s') /\
    (failed = false -> pending (snd s') = 0%nat).
Proof.
  destruct (flush_loop_steps 3 w l) as (failed & [w1 l1] & Hrun & Hst & Hend).
  { unfold pending. destruct (g_immutable_memtable _), (g_flushing_memtable _); cbn; lia. }
  unfold zns_lsm_flush_worker, bind at 1. rewrite Hrun. unfold bind.
  set (l2 := set_tables (set_in_flight false (l_tables l1)) l1).
  change (modify_tables (set_in_flight false) (w1, l1)) with (@Ok unit tt, (w1, l2)). cbv beta iota.
  assert (Hending : flush_step (FlushEnding failed, (w1, l1))
    (if failed then FlushIdle else FlushRequeue, (w1, l2))) by (by apply step_end).
  destruct failed.
  - exists true, (w1, l1). eexists. split; [done|]. split; [done|]. split; [by apply rtc_once|done].
  - exists false, (w1, l1). destruct (zns_lsm_maybe_queue_flush (w1, l2)) as [r [w3 l3]] eqn:Hq.
    assert (Hr : r = Ok tt /\ pending l3 = pending l2).
    { unfold zns_lsm_maybe_queue_flush, lsm_get, gets, bind in Hq. cbn [snd] in Hq.
      by destruct (_ && _); injection Hq as <- <- <-. }
    destruct Hr as [-> Hpend]. eexists. split; [done|]. split; [done|]. split.
    + eapply rtc_l; [exact Hending|]. apply rtc_once. by apply step_requeue.
    + intros _. cbn. rewrite Hpend. by apply Hend.
Qed.

(** ** The properties *)



(** C36.  The sequential flush worker is one run of the step machine, from claiming a
    victim over the end of its loop to idling, so everything the machine guarantees
    holds for it; the loop bound of the model is never reached, and unless the run
    ended with a failed flush no table is left waiting. *)
Theorem flush_worker_refines_machine w l :
  exists failed s1 s', zns_lsm_flush_worker (w, l) = (Ok tt, s') /\
    rtc flush_step (FlushClaim, (w, l)) (FlushEnding failed, s1) /\
    rtc flush_step (FlushEnding failed, s1) (FlushIdle, s') /\
    (failed = false -> pending (snd s') = 0%nat).
Proof. apply flush_worker_steps. Qed.

End Machine.

(** ** Concrete runs *)
Module FlushExamples.
Import Memtable.Examples.
#[local] Existing Instance eio_device | 0.
#[local] Existing Instance eio_device_laws | 0.

(** An engine whose metadata zone is the only zone of a small device: an empty
    active table, and [old_table] waiting to be flushed behind the superblock. *)
Definition demo_dev : ram :=
  mk_ram ∅ [mk_blk_zone 0 64 64 8 BLK_ZONE_TYPE_SEQWRITE_REQ BLK_ZONE_COND_IMP_OPEN] [].
Definition demo_engine_world : world := mk_world [] (demo_dev : bdev).
Definition demo_lsm : zns_lsm :=
  mk_lsm zns_allocator_reset (mk_gc_index [] xa_init 0 0 0 0)
    (mk_generations (Some memtable_init) (Some old_table) None true)
    (mk_metadata [] 0 0 1 0 8 64 (mk_super 0 96 64 2 1 8)) (mk_attempts 0 0 0 false) 2 8 true.

Lemma demo_store_wf : store_wf 12 demo_dev demo_lsm [].
Proof.
  assert (Hold : mt_map old_table = <[3 := 40]> (<[5 := 80]> ∅)).
  { unfold mt_map. change (mt_entries old_table) with [mk_entry 3 40 2; mk_entry 5 80 1]. done. }
  constructor; try (cbn; done).
  - split; [apply memtable_init_wf|]. intros k p Hk. cbn in Hk. by rewrite lookup_empty in Hk.
  - split; [apply old_wf|]. intros k p Hk. change (mt_map old_table !! k = Some p) in Hk.
    rewrite Hold in Hk.
    apply lookup_insert_Some in Hk as [[<- <-]|[_ Hk]]; [unfold is_u64; lia|].
    apply lookup_insert_Some in Hk as [[<- <-]|[_ Hk]]; [unfold is_u64; lia|].
    by rewrite lookup_empty in Hk.
Qed.



Lemma flush_worker_refines_machine_witness :
  exists failed s1 s', zns_lsm_flush_worker (demo_engine_world, demo_lsm) = (Ok tt, s') /\
    rtc flush_step (FlushClaim, (demo_engine_world, demo_lsm)) (FlushEnding failed, s1).
Proof.
  destruct (flush_worker_refines_machine demo_engine_world demo_lsm) as (f & s1 & s' & H1 & H2 & _).
  exists f, s1, s'. split; [exact H1|exact H2].
Defined.

End FlushExamples.
