(* ===== verification/LsmRefine.v ===== *)
(** The LSM engine implements an array of blocks.  The contents of the engine are the
    blocks its mappings point at; writing a block replaces that block and nothing
    else, garbage collection and failed writes change nothing, and reads return the
    contents. *)
From S2P Require Import Prelude Kernel ZonedRam Zone Allocator GcPolicy XArray Bytes RbTree.
From S2P Require Import Memtable Sstable Super Lsm LsmIndex LsmFlush LsmView Bio LsmIo.

Section Engine.
Context `{BlockDeviceLaws} `{Crc32} `{XArrayLaws} `{RbTreeLaws}.

(** Write pointers of writable zones lie on block boundaries. *)
Definition aligned (a : zns_allocator) : Prop :=
  forall i, 0 <= i < a_nr_zones a -> zns_zone_is_writable (a_zones a).[i] = true ->
    (z_write_pointer (a_zones a).[i] - z_start_sector (a_zones a).[i]) mod 8 = 0.

(** Everything the I/O worker relies on between two requests. *)
Record engine_wf (N : Z) (d : bdev) (l : zns_lsm) (ess : list (list lsm_entry)) : Prop := {
  ew_geometry : geometry l;
  ew_index : index_wf N l;
  ew_store : store_wf N d l ess;
  ew_agree : forall k, current l k = lsm_view l ess !! k;
  ew_threshold : 0 < l_memtable_threshold l;
  ew_aligned : aligned (l_allocator l);
  ew_apart : forall i j, 0 <= i < a_nr_zones (l_allocator l) ->
    0 <= j < a_nr_zones (l_allocator l) -> i <> j ->
    let zi := (a_zones (l_allocator l)).[i] in
    let zj := (a_zones (l_allocator l)).[j] in
    z_start_sector zi + z_length zi <= z_start_sector zj \/
    z_start_sector zj + z_length zj <= z_start_sector zi;
  ew_meta_apart : forall i, 0 <= i < a_nr_zones (l_allocator l) ->
    let zi := (a_zones (l_allocator l)).[i] in
    z_start_sector zi + z_length zi <= m_meta_start (l_meta l) \/
    m_meta_end (l_meta l) <= z_start_sector zi;
}.

(** The block a logical block holds; zeros where nothing was written. *)
Definition content (d : bdev) (l : zns_lsm) (ess : list (list lsm_entry)) (k : Z) : block :=
  match lsm_view l ess !! k with
  | Some p => dev_block d p
  | None => zero_block
  end.

(** ** Changing one part at a time *)

(** The device may change outside the live blocks and the used metadata. *)
Lemma engine_set_device N d d' l ess :
  engine_wf N d l ess ->
  (forall s, m_meta_start (l_meta l) <= s -> s + 8 <= m_meta_wp (l_meta l) ->
     dev_block d' s = dev_block d s) ->
  engine_wf N d' l ess.
Proof. intros [] Hf. constructor; auto. by eapply store_wf_frame. Qed.

Lemma content_same d d' l ess :
  (forall k, current l k = lsm_view l ess !! k) ->
  (forall k p, current l k = Some p -> dev_block d' p = dev_block d p) ->
  forall k, content d' l ess k = content d l ess k.
Proof.
  intros Ha Hl k. unfold content. destruct (lsm_view l ess !! k) as [p|] eqn:Hp; [|done].
  apply (Hl k). by rewrite Ha.
Qed.

(** The static layout of the zones. *)
Record same_layout (a a' : zns_allocator) : Prop := {
  sl_nr : a_nr_zones a' = a_nr_zones a;
  sl_block : a_sectors_per_block a' = a_sectors_per_block a;
  sl_zone : forall i, 0 <= i < a_nr_zones a ->
    z_start_sector (a_zones a').[i] = z_start_sector (a_zones a).[i] /\
    z_length (a_zones a').[i] = z_length (a_zones a).[i] /\
    z_capacity (a_zones a').[i] = z_capacity (a_zones a).[i];
}.

(** The allocator may change as long as the live blocks stay written. *)
Lemma engine_set_allocator N d l ess a' :
  engine_wf N d l ess -> alloc_wf a' -> same_layout (l_allocator l) a' -> aligned a' ->
  (forall k p i s, current l k = Some p -> located (l_allocator l) p i s -> located a' p i s) ->
  engine_wf N d (set_allocator a' l) ess.
Proof.
  intros Hew Hwf Hsl Hal Hloc. destruct Hew as [Hg Hx Hst Hag Hth _ Hap Hmap].
  destruct Hsl as [Hnr Hb Hz]. constructor; cbn [l_allocator set_allocator l_meta
    l_memtable_threshold]; try done.
  - destruct Hg as [? ? ? Hdj Hsm ? Hgs]. constructor; cbn [l_allocator set_allocator l_gc
      l_sectors_per_block]; rewrite ?Hnr; try done; [congruence| | |].
    + intros i j Hi Hj Hij. rewrite <- (awf_nr a' Hwf), Hnr in Hi, Hj.
      destruct (Hz i Hi) as (-> & _ & ->). destruct (Hz j Hj) as (-> & _ & ->).
      apply Hdj; rewrite <- ?(awf_nr _ ge_alloc); done.
    + intros i Hi. destruct (Hz i Hi) as (-> & _ & ->). by apply Hsm.
    + intros i Hi. destruct (Hz i Hi) as (_ & _ & ->). by apply Hgs.
  - constructor; cbn [l_allocator set_allocator l_gc].
    + intros k e He. destruct (ix_forward N l Hx k e He) as (Hk & p & i & s & -> & Hl & Hr).
      split; [done|]. exists p, i, s. split; [done|]. split; [|done].
      apply (Hloc k); [|done]. apply (current_some N l k p Hg Hx).
      split; [done|by eapply located_bounds].
    + intros i s Hi Hs Hr. rewrite Hnr in Hi.
      destruct (ix_backward N l Hx i s Hi Hs Hr) as (p & Hl & He). exists p. split; [|done].
      eapply Hloc; [|exact Hl]. apply (current_some N l _ p Hg Hx).
      split; [exact He|by eapply located_bounds].
    + intros i Hi. rewrite Hnr in Hi. by apply (ix_count N l Hx).
  - by eapply store_wf_parts; [..|exact Hst].
  - intros i j. rewrite Hnr. intros Hi Hj Hij. destruct (Hz i Hi) as (-> & -> & _).
    destruct (Hz j Hj) as (-> & -> & _). by apply Hap.
  - intros i. rewrite Hnr. intros Hi. destruct (Hz i Hi) as (-> & -> & _). by apply Hmap.
Qed.

(** Counters do not matter. *)
Lemma engine_set_attempts N d l ess t :
  engine_wf N d l ess -> engine_wf N d (set_attempts t l) ess.
Proof.
  intros [[] [] [] Hag Hth Hal Hap Hmap]. constructor; try done; by constructor.
Qed.

Lemma engine_set_counters N d l ess g' :
  engine_wf N d l ess -> gi_zones g' = gi_zones (l_gc l) -> gi_latest g' = gi_latest (l_gc l) ->
  engine_wf N d (set_gc g' l) ess.
Proof.
  intros [[] [] [] Hag Hth Hal Hap Hmap] Hz Hl. constructor; try done.
  - constructor; cbn; rewrite ?Hz; done.
  - unfold rev_slot, valid_count in *. constructor; unfold rev_slot, valid_count; cbn;
      rewrite ?Hz, ?Hl; done.
  - intros k. unfold current. cbn. rewrite Hl. apply Hag.
Qed.

Lemma view_set_parts l l' ess :
  l_tables l' = l_tables l -> lsm_view l' ess = lsm_view l ess.
Proof. unfold lsm_view. by intros ->. Qed.

Lemma content_set_parts d l l' ess k :
  l_tables l' = l_tables l -> content d l' ess k = content d l ess k.
Proof. intros Ht. unfold content. by rewrite (view_set_parts l l' ess Ht). Qed.

(** ** A fresh block *)

(** A block the allocator just handed out: it is a slot of its zone, no live block
    occupies or overlaps it, and it lies outside the metadata zone. *)
Record fresh_block (l : zns_lsm) (p i s : Z) : Prop := {
  fb_located : located (l_allocator l) p i s;
  fb_free : rev_slot (l_gc l) i s = 0;
  fb_apart : forall k q, current l k = Some q -> q + 8 <= p \/ p + 8 <= q;
  fb_meta : p + 8 <= m_meta_start (l_meta l) \/ m_meta_end (l_meta l) <= p;
}.

Lemma handed_out_layout a p i a' : alloc_wf a -> handed_out a p i a' -> same_layout a a'.
Proof.
  intros Hwf Hh. constructor; [apply Hh|apply Hh|]. intros j Hj.
  pose proof (ho_zone _ _ _ _ Hh). rewrite (ho_zones _ _ _ _ Hh).
  rewrite zupdate_lookup by (rewrite <- ?(awf_nr a Hwf); lia). by case_bool_decide; subst.
Qed.

(** Handing out a block keeps everything located where it was. *)
Lemma handed_out_located a p i a' q j s :
  alloc_wf a -> a_sectors_per_block a = 8 -> handed_out a p i a' ->
  located a q j s -> located a' q j s.
Proof.
  intros Hwf Hb Hh Hl. destruct (handed_out_layout a p i a' Hwf Hh) as [Hnr _ Hz].
  destruct Hl as [Hj Hs Hq Hin Hw]. destruct (Hz j Hj) as (Es & _ & Ec).
  constructor; rewrite ?Hnr, ?Es, ?Ec; try done.
  pose proof (ho_zone _ _ _ _ Hh). pose proof (ho_sector _ _ _ _ Hh).
  rewrite (ho_zones _ _ _ _ Hh), zupdate_lookup by (rewrite <- ?(awf_nr a Hwf); lia).
  case_bool_decide; subst; cbn; [|done]. destruct Hw; [left; lia|by right].
Qed.

Lemma handed_out_aligned a p i a' :
  alloc_wf a -> a_sectors_per_block a = 8 -> handed_out a p i a' -> aligned a -> aligned a'.
Proof.
  intros Hwf Hb Hh Hal j Hj. destruct (handed_out_layout a p i a' Hwf Hh) as [Hnr _ Hz].
  rewrite Hnr in Hj. destruct (Hz j Hj) as (Es & _ & _). pose proof (ho_zone _ _ _ _ Hh).
  rewrite Es, (ho_zones _ _ _ _ Hh), zupdate_lookup by (rewrite <- ?(awf_nr a Hwf); lia).
  case_bool_decide as Hij; [|by apply Hal]. subst j. cbn. intros _.
  specialize (Hal i Hj (ho_writable _ _ _ _ Hh)).
  rewrite <- (ho_sector _ _ _ _ Hh) in Hal. rewrite Hb.
  replace (p + 8 - z_start_sector (a_zones a).[i]) with
    (p - z_start_sector (a_zones a).[i] + 8) by lia. by apply mod_add_block.
Qed.

Lemma writable_not_full z : zns_zone_is_writable z = true -> z_condition z <> BLK_ZONE_COND_FULL.
Proof. unfold zns_zone_is_writable. intros Hw. by guards. Qed.

Lemma handed_out_fresh N d l ess p i a' :
  engine_wf N d l ess -> handed_out (l_allocator l) p i a' ->
  engine_wf N d (set_allocator a' l) ess /\ exists s, fresh_block (set_allocator a' l) p i s.
Proof.
  intros Hew Hh. pose proof (ew_geometry _ _ _ _ Hew) as Hg. pose proof (ge_alloc l Hg) as Hwf.
  pose proof (ge_block l Hg) as Hb.
  assert (Hew' : engine_wf N d (set_allocator a' l) ess).
  { apply engine_set_allocator; [done|apply Hh|by eapply handed_out_layout| |].
    - eapply handed_out_aligned; [done..|]. apply (ew_aligned _ _ _ _ Hew).
    - intros k q j s _. by eapply handed_out_located. }
  split; [done|]. set (a := l_allocator l) in *.
  pose proof (ew_geometry _ _ _ _ Hew') as Hg'.
  assert (Hi : 0 <= i < a_nr_zones a) by apply Hh.
  pose proof (alloc_wf_zone a i Hwf Hi) as Hzone.
  destruct (handed_out_layout a p i a' Hwf Hh) as [Hnr _ Hz]. destruct (Hz i Hi) as (Es & El & Ec).
  pose proof (ew_aligned _ _ _ _ Hew i Hi (ho_writable _ _ _ _ Hh)) as Hal. fold a in Hal.
  rewrite <- (ho_sector _ _ _ _ Hh) in Hal.
  pose proof (ho_start _ _ _ _ Hh) as Hs. pose proof (ho_end _ _ _ _ Hh) as He. rewrite Hb in He.
  exists ((p - z_start_sector (a_zones a).[i]) / 8).
  pose proof (Z.div_mod (p - z_start_sector (a_zones a).[i]) 8 ltac:(lia)) as Hdm.
  assert (Hloc : located a' p i ((p - z_start_sector (a_zones a).[i]) / 8)).
  { constructor; rewrite ?Hnr, ?Es, ?Ec; [done|apply Z.div_pos; lia|lia|lia|]. left.
    rewrite (ho_zones _ _ _ _ Hh), zupdate_same by (rewrite <- ?(awf_nr a Hwf); lia). cbn. lia. }
  assert (Hnot : forall s, ~ located a p i s).
  { intros s [_ _ _ _ [Hw|Hw]].
    - rewrite <- (ho_sector _ _ _ _ Hh) in Hw. lia.
    - by apply (writable_not_full _ (ho_writable _ _ _ _ Hh)). }
  constructor; cbn [l_allocator l_gc l_meta set_allocator].
  - exact Hloc.
  - destruct (decide (rev_slot (l_gc l) i ((p - z_start_sector (a_zones a).[i]) / 8) = 0)) as [|Hr];
      [done|]. exfalso.
    assert (Hrange : 0 <= (p - z_start_sector (a_zones a).[i]) / 8 <
      zlen (gz_logical_blocks (gi_zones (l_gc l)).[i])).
    { apply (located_slot_range (set_allocator a' l) p i _ Hg' Hloc). }
    destruct (ix_backward N l (ew_index _ _ _ _ Hew) i _ Hi Hrange Hr) as (q & Hlq & _).
    apply (Hnot ((p - z_start_sector (a_zones a).[i]) / 8)).
    assert (q = p) as <-; [|done]. destruct Hlq as [_ _ -> _ _]. fold a. lia.
  - intros k q Hq. destruct (current_located N l k q Hg (ew_index _ _ _ _ Hew) Hq)
      as (_ & j & s & Hlq & _). eapply (located_apart (set_allocator a' l)).
    + done.
    + by eapply handed_out_located.
    + exact Hloc.
    + intros ->. destruct (decide (j = i)) as [->|Hne]; [by apply (Hnot s)|].
      destruct (located_unique (set_allocator a' l) p j s i _ Hg'
        (handed_out_located a p i a' p j s Hwf Hb Hh Hlq) Hloc). done.
  - pose proof (ew_meta_apart _ _ _ _ Hew i Hi) as Hm. cbv zeta in Hm. fold a in Hm.
    destruct Hzone. lia.
Qed.

(** ** Publishing a mapping *)

(** An engine with the same zones, metadata and threshold. *)
Record same_base (l l' : zns_lsm) : Prop := {
  sb_allocator : l_allocator l' = l_allocator l;
  sb_meta : l_meta l' = l_meta l;
  sb_threshold : l_memtable_threshold l' = l_memtable_threshold l;
  sb_spb : l_sectors_per_block l' = l_sectors_per_block l;
  sb_attempts : l_attempts l' = l_attempts l;
  sb_flushing : g_flushing_memtable (l_tables l') = g_flushing_memtable (l_tables l);
}.

Lemma same_base_refl l : same_base l l.
Proof. by constructor. Qed.

Lemma same_base_trans l1 l2 l3 : same_base l1 l2 -> same_base l2 l3 -> same_base l1 l3.
Proof. intros [] []. constructor; congruence. Qed.

Lemma engine_rebuild N d l l' ess :
  engine_wf N d l ess -> same_base l l' -> geometry l' -> index_wf N l' ->
  store_wf N d l' ess -> (forall k, current l' k = lsm_view l' ess !! k) -> engine_wf N d l' ess.
Proof.
  intros [] [Ha Hm Ht _ _ _] Hg Hx Hst Hag. constructor; rewrite ?Ha, ?Hm, ?Ht; done.
Qed.

Lemma engine_same_index N d l l' ess :
  engine_wf N d l ess -> same_index l l' ->
  engine_wf N d l' ess /\ same_base l l' /\ l_tables l' = l_tables l.
Proof.
  intros Hew Hsame.
  destruct (same_index_wf N l l' Hsame (ew_geometry _ _ _ _ Hew) (ew_index _ _ _ _ Hew)) as [Hg Hx].
  assert (Hcur := fun k => same_index_current l l' k Hsame).
  destruct Hsame as (x & -> & _). split; [|split; [by constructor|done]].
  apply (engine_rebuild N d l); [done|by constructor|done|done| |].
  - eapply store_wf_parts; [..|apply Hew]; done.
  - intros k. rewrite Hcur. apply (ew_agree _ _ _ _ Hew).
Qed.

Lemma reserve_cases k w l :
  match on_latest (xa_reserve k) (w, l) with
  | (r, (w', l')) => w_dev w' = w_dev w /\ same_index l l' /\
      (no_fail (w_mem w) -> no_fail (w_mem w')) /\
      match r with
      | Ok _ => xa_reserved (gi_latest (l_gc l')) k
      | Err e => e = - ENOMEM /\ ~ no_fail (w_mem w)
      end
  end.
Proof.
  unfold on_latest, zoom. cbn [fst snd].
  destruct (xa_reserve k (w_mem w, gi_latest (l_gc l))) as [r [a x]] eqn:Es.
  apply xa_reserve_spec in Es as (Hl & Hn & Hr). split; [done|]. split; [by exists x|]. split; [done|].
  by destruct r.
Qed.

Lemma tables_view_set_slots s' g :
  tables_view (set_slots s' g) = slots_view s' ∪ slot_map (g_flushing_memtable g).
Proof. done. Qed.

Lemma put_mapping_cases N d w l ess k p :
  engine_wf N d l ess -> 0 <= k < N -> is_u64 p ->
  match put_mapping k p (w, l) with
  | (Ok _, (w', l')) => w_dev w' = w_dev w /\
      (exists t, l' = set_tables t l /\ g_flushing_memtable t = g_flushing_memtable (l_tables l)) /\
      store_wf N d l' ess /\ lsm_view l' ess = <[k := p]> (lsm_view l ess)
  | (Err e, (w', l')) => w_dev w' = w_dev w /\ l' = l /\ e = - ENOMEM /\ ~ no_fail (w_mem w)
  end.
Proof.
  intros Hew Hk Hp. pose proof (ew_store _ _ _ _ Hew) as Hst.
  pose proof (ew_threshold _ _ _ _ Hew) as Hth.
  set (s := (g_active_memtable (l_tables l), g_immutable_memtable (l_tables l))).
  assert (Hwf : slots_wf s).
  { split; [apply (st_active_ok _ _ _ _ Hst)|apply (st_immutable_ok _ _ _ _ Hst)]. }
  unfold put_mapping, lsm_get, gets, bind, on_world, on_mem, zoom. cbn [fst snd id]. fold s.
  pose proof (put_active_cases s (l_memtable_threshold l) k p (w_mem w) Hwf ltac:(lia)) as Hc.
  destruct (memtable_put_active s _ k p (w_mem w)) as [[s'|e] a'].
  - destruct Hc as (_ & Hwf' & Hact & Hv & Hfrom & _). cbn. split; [done|]. split; [by eexists|].
    assert (Hok : forall o, o = fst s' \/ o = snd s' -> slot_wf o -> table_ok N o).
    { intros o Ho Hw. split; [done|]. intros j q Hj.
      destruct (Hfrom j q) as [Heq|[Hq|Hq]]; [destruct Ho as [-> | ->]; auto| | |].
      - by injection Heq as -> ->.
      - by apply (st_active_ok _ _ _ _ Hst).
      - by apply (st_immutable_ok _ _ _ _ Hst). }
    destruct Hwf' as [Hw1 Hw2]. split.
    + destruct Hst. constructor; cbn; auto.
    + unfold lsm_view. cbn [l_tables set_tables]. rewrite tables_view_set_slots, Hv.
      rewrite <- !insert_union_l. done.
  - cbn. split; [done|]. split; [by destruct l|].
    destruct Hc as [[_ [Hz|Hn]]|[-> Hn]]; [lia| |done].
    destruct (st_active _ _ _ _ Hst) as [m Hm]. cbn in Hn. congruence.
Qed.

Lemma engine_set_queue N d l ess b q :
  engine_wf N d l ess ->
  engine_wf N d (set_flush_queued q (set_tables (set_in_flight b (l_tables l)) l)) ess.
Proof.
  intros [[] [] [] Hag Hth Hal Hap Hmap]. constructor; try done; by constructor.
Qed.

Lemma publish_write_cases N d w l ess k p i s :
  engine_wf N d l ess -> N < 4294967296 -> 0 <= k < N -> fresh_block l p i s ->
  w_dev w = d ->
  let '(r, (w', l')) := zns_lsm_publish_write (8 * k) p (w, l) in
  w_dev w' = d /\ same_base l l' /\ engine_wf N d l' ess /\
  match r with
  | Ok _ => lsm_view l' ess = <[k := p]> (lsm_view l ess)
  | Err e => lsm_view l' ess = lsm_view l ess /\ e = - ENOMEM /\ ~ no_fail (w_mem w)
  end.
Proof.
  intros Hew HN Hk Hfb Hd. unfold zns_lsm_publish_write, lsm_get, gets, bind at 1. cbn [snd].
  rewrite (ge_spb l (ew_geometry _ _ _ _ Hew)). replace (8 * k) with (k * 8) by lia.
  rewrite Z_div_mult by lia. cbv zeta. unfold bind at 1.
  pose proof (reserve_cases k w l) as Hres.
  destruct (on_latest (xa_reserve k) (w, l)) as [[[]|e] [w1 l1]]; destruct Hres as (Hd1 & Hsame & Hn1 & Hr);
    destruct (engine_same_index N d l l1 ess Hew Hsame) as (Hew1 & Hb1 & Ht1).
  2:{ split; [congruence|]. split; [done|]. split; [done|]. split; [by apply view_set_parts|done]. }
  assert (Hfb1 : located (l_allocator l1) p i s /\ rev_slot (l_gc l1) i s = 0).
  { destruct Hsame as (x & -> & _). split; apply Hfb. }
  destruct Hfb1 as [Hloc Hfree].
  pose proof (located_bounds l1 p i s (ew_geometry _ _ _ _ Hew1) Hloc) as Hpb.
  unfold bind at 1.
  pose proof (put_mapping_cases N d w1 l1 ess k p Hew1 Hk ltac:(unfold is_u64; lia)) as Hput.
  destruct (put_mapping k p (w1, l1)) as [[[]|e] [w2 l2]].
  2:{ destruct Hput as (Hd2 & -> & -> & Hn2). split; [congruence|]. split; [done|]. split; [done|].
      split; [by apply view_set_parts|]. split; [done|]. tauto. }
  destruct Hput as (Hd2 & (t & -> & Hfl) & Hst2 & Hv2). unfold bind, attempt.
  assert (Hg2 : geometry (set_tables t l1)).
  { destruct (ew_geometry _ _ _ _ Hew1). by constructor. }
  assert (Hx2 : index_wf N (set_tables t l1)).
  { destruct (ew_index _ _ _ _ Hew1). by constructor. }
  pose proof (update_gc_location_cases N w2 (set_tables t l1) k p i s Hg2 Hx2 ltac:(lia) Hk Hloc Hfree)
    as Hup.
  destruct (zns_lsm_update_gc_block_location k p (w2, set_tables t l1)) as [[[]|e] [w3 l3]].
  2:{ destruct Hup as (_ & _ & _ & _ & Hnot). cbn in Hnot. done. }
  destruct Hup as (Hd3 & _ & (g & ->) & Hg3 & Hx3 & Hcur & _).
  assert (Hbase : same_base l (set_gc g (set_tables t l1))).
  { eapply same_base_trans; [exact Hb1|]. by constructor. }
  assert (Hview : lsm_view (set_gc g (set_tables t l1)) ess = <[k := p]> (lsm_view l ess)).
  { rewrite (view_set_parts (set_tables t l1)) by done. rewrite Hv2. f_equal. by apply view_set_parts. }
  assert (Hew3 : engine_wf N d (set_gc g (set_tables t l1)) ess).
  { apply (engine_rebuild N d l); [done|done|done|done| |].
    - eapply store_wf_parts; [..|exact Hst2]; done.
    - intros j. rewrite Hcur, Hview. change (current (set_tables t l1) j) with (current l1 j).
      rewrite (ew_agree _ _ _ _ Hew1), (view_set_parts l l1) by done.
      case_bool_decide as Hj; [subst; by rewrite lookup_insert_eq|by rewrite lookup_insert_ne]. }
  unfold zns_lsm_maybe_queue_flush, lsm_get, gets, bind. cbn [snd].
  destruct (_ && _).
  - split; [cbn; congruence|]. split; [by eapply same_base_trans; [exact Hbase|constructor]|].
    split; [by apply engine_set_queue|exact Hview].
  - split; [cbn; congruence|]. split; [done|]. split; [done|exact Hview].
Qed.

(** ** Writing to a fresh block *)

Lemma write_fresh N d d' l ess p i s :
  engine_wf N d l ess -> fresh_block l p i s -> only_in p (p + 8) d d' ->
  engine_wf N d' l ess /\
  (forall k q, current l k = Some q -> dev_block d' q = dev_block d q) /\
  (forall a, m_meta_start (l_meta l) <= a -> a + 8 <= m_meta_end (l_meta l) ->
     dev_block d' a = dev_block d a).
Proof.
  intros Hew Hfb Ho. split; [|split].
  - eapply engine_set_device; [exact Hew|]. intros a Ha Hb. apply Ho.
    pose proof (st_region _ _ _ _ (ew_store _ _ _ _ Hew)). destruct (fb_meta _ _ _ _ Hfb); lia.
  - intros k q Hq. apply Ho. destruct (fb_apart _ _ _ _ Hfb k q Hq); lia.
  - intros a Ha Hb. apply Ho. destruct (fb_meta _ _ _ _ Hfb); lia.
Qed.

(** After the block was stored and its mapping published. *)
Lemma content_published d d' l l' ess k p b :
  (forall j, current l j = lsm_view l ess !! j) ->
  (forall j q, current l j = Some q -> dev_block d' q = dev_block d q) ->
  dev_block d' p = b -> lsm_view l' ess = <[k := p]> (lsm_view l ess) ->
  forall j, content d' l' ess j = if bool_decide (j = k) then b else content d l ess j.
Proof.
  intros Hag Hl Hb Hv j. unfold content. rewrite Hv. case_bool_decide as Hj.
  - subst j. by rewrite lookup_insert_eq.
  - rewrite lookup_insert_ne by done. destruct (lsm_view l ess !! j) as [q|] eqn:Hq; [|done].
    apply (Hl j). by rewrite Hag.
Qed.

(** What a garbage-collection step leaves as it was. *)
Record gc_frame (l l' : zns_lsm) : Prop := {
  gf_layout : same_layout (l_allocator l) (l_allocator l');
  gf_reserve : a_reserve_zone (l_allocator l') = a_reserve_zone (l_allocator l);
  gf_meta : l_meta l' = l_meta l;
}.

Lemma same_layout_refl a : same_layout a a.
Proof. by constructor. Qed.

Lemma same_layout_trans a b c : same_layout a b -> same_layout b c -> same_layout a c.
Proof.
  intros [N1 B1 Z1] [N2 B2 Z2]. constructor; [congruence|congruence|]. intros i Hi.
  destruct (Z2 i ltac:(lia)) as (E1 & E2 & E3).
  destruct (Z1 i Hi) as (F1 & F2 & F3). rewrite E1, E2, E3. done.
Qed.

Lemma gc_frame_refl l : gc_frame l l.
Proof. constructor; auto using same_layout_refl. Qed.

Lemma gc_frame_trans l1 l2 l3 : gc_frame l1 l2 -> gc_frame l2 l3 -> gc_frame l1 l3.
Proof. intros [] []. constructor; [by eapply same_layout_trans|congruence|congruence]. Qed.

Lemma same_base_gc_frame l l' : same_base l l' -> gc_frame l l'.
Proof. intros [Ha Hm _ _ _ _]. constructor; rewrite ?Ha; auto using same_layout_refl. Qed.

(** The metadata zone and the table being flushed are not touched. *)
Record meta_frame (s s' : world * zns_lsm) : Prop := {
  mf_meta : l_meta (snd s') = l_meta (snd s);
  mf_flushing : g_flushing_memtable (l_tables (snd s')) = g_flushing_memtable (l_tables (snd s));
  mf_device : forall a, m_meta_start (l_meta (snd s)) <= a -> a + 8 <= m_meta_end (l_meta (snd s)) ->
    dev_block (w_dev (fst s')) a = dev_block (w_dev (fst s)) a;
}.

Lemma meta_frame_refl s : meta_frame s s.
Proof. by constructor. Qed.

Lemma meta_frame_trans s1 s2 s3 : meta_frame s1 s2 -> meta_frame s2 s3 -> meta_frame s1 s3.
Proof.
  intros [M1 F1 D1] [M2 F2 D2]. constructor; [congruence|congruence|]. intros a Ha Hb.
  rewrite D2 by (rewrite ?M1; done). by apply D1.
Qed.

Lemma same_base_meta_frame w w' l l' :
  same_base l l' -> w_dev w' = w_dev w -> meta_frame (w, l) (w', l').
Proof. intros [] Hd. constructor; try done. cbn [fst]. by rewrite Hd. Qed.

(** The engine and its contents survive. *)
Definition keeps_content (N : Z) (ess : list (list lsm_entry)) (s s' : world * zns_lsm) : Prop :=
  engine_wf N (w_dev (fst s')) (snd s') ess /\
  (forall k, content (w_dev (fst s')) (snd s') ess k = content (w_dev (fst s)) (snd s) ess k) /\
  meta_frame s s'.

Lemma keeps_content_trans N ess s1 s2 s3 :
  keeps_content N ess s1 s2 -> keeps_content N ess s2 s3 -> keeps_content N ess s1 s3.
Proof.
  intros (_ & H1' & F1) (H2' & H3' & F2). split; [done|]. split; [|by eapply meta_frame_trans].
  intros k. by rewrite H3', H1'.
Qed.

(** A step that leaves the tables alone and the live blocks and the metadata on the
    device. *)
Lemma keeps_content_intro N ess w l w' l' :
  engine_wf N (w_dev w) l ess -> engine_wf N (w_dev w') l' ess -> l_tables l' = l_tables l ->
  l_meta l' = l_meta l ->
  (forall k q, current l k = Some q -> dev_block (w_dev w') q = dev_block (w_dev w) q) ->
  (forall a, m_meta_start (l_meta l) <= a -> a + 8 <= m_meta_end (l_meta l) ->
     dev_block (w_dev w') a = dev_block (w_dev w) a) ->
  keeps_content N ess (w, l) (w', l').
Proof.
  intros Hew Hew' Ht Hm Hl Hd. split; [done|]. split; [|constructor; cbn [fst snd]; congruence || done].
  cbn [fst snd]. intros k. rewrite (content_set_parts _ l l') by done.
  apply content_same; [apply (ew_agree _ _ _ _ Hew)|done].
Qed.

Section Collect.
Context (params : lsm_params).

Lemma relocate_block_keeps N w l ess k src buffer :
  engine_wf N (w_dev w) l ess -> N < 4294967296 -> current l k = Some src ->
  let '(r, s') := zns_lsm_gc_relocate_block params k src buffer (w, l) in
  keeps_content N ess (w, l) s' /\ gc_frame l (snd s').
Proof.
  intros Hew HN Hcur. pose proof (ew_geometry _ _ _ _ Hew) as Hg.
  destruct (current_located N l k src Hg (ew_index _ _ _ _ Hew) Hcur) as (Hk & _).
  unfold zns_lsm_gc_relocate_block, bind at 1, on_world, zoom. cbn [fst snd].
  destruct (zns_block_read src buffer w) as [r1 w1] eqn:E1.
  apply block_read_spec in E1 as [Hs1 Hb1].
  assert (Hew1 : engine_wf N (w_dev w1) l ess) by (eapply engine_set_device; [exact Hew|auto]).
  assert (Hk1 : keeps_content N ess (w, l) (w1, l)) by (apply keeps_content_intro; auto).
  destruct r1 as [b|e]; [|split; [done|apply gc_frame_refl]].
  unfold bind at 1, on_allocator, zoom. cbn [fst snd].
  pose proof (alloc_gc_cases (l_allocator l) (ge_alloc l Hg)) as Hal.
  destruct (zns_allocator_alloc_gc (l_allocator l)) as [[dest|e] a1].
  2:{ destruct Hal as [-> _]. replace (set_allocator (l_allocator l) l) with l by (by destruct l).
      split; [done|apply gc_frame_refl]. }
  destruct Hal as [Hh _].
  destruct (handed_out_fresh N (w_dev w1) l ess dest _ a1 Hew1 Hh) as (Hew2 & s & Hfb).
  set (l2 := set_attempts (count_gc_move (l_attempts (set_allocator a1 l))) (set_allocator a1 l)).
  assert (Hew3 : engine_wf N (w_dev w1) l2 ess) by (by apply engine_set_attempts).
  assert (Hfb3 : fresh_block l2 dest (a_reserve_zone (l_allocator l)) s) by (destruct Hfb; by constructor).
  assert (Hgf : gc_frame l l2).
  { constructor; [eapply handed_out_layout; [apply Hg|exact Hh]|apply Hh|done]. }
  assert (Hk3 : keeps_content N ess (w, l) (w1, l2)).
  { eapply keeps_content_trans; [exact Hk1|]. by apply keeps_content_intro. }
  unfold bind at 1. unfold modify_attempts at 1, lsm_modify at 1, modify at 1. cbn [fst snd].
  fold l2. unfold bind at 1, lsm_get, gets. cbn [snd id]. unfold bind at 1.
  destruct (negb _ && _); [exact (conj Hk3 Hgf)|]. cbn [fst snd].
  destruct (zns_block_write dest b (opf REQ_OP_WRITE) w1) as [r4 w4] eqn:E4.
  apply block_write_spec in E4 as [Ho Hb4].
  destruct (write_fresh N (w_dev w1) (w_dev w4) l2 ess dest _ s Hew3 Hfb3 Ho) as (Hew4 & Hlive & Hmd).
  assert (Hk4 : keeps_content N ess (w, l) (w4, l2)).
  { eapply keeps_content_trans; [exact Hk3|]. by apply keeps_content_intro. }
  destruct r4 as [[]|e]; [|exact (conj Hk4 Hgf)].
  change (l_sectors_per_block l2) with (l_sectors_per_block l).
  rewrite (ge_spb l Hg), u64_id by lia. replace (k * 8) with (8 * k) by lia.
  pose proof (publish_write_cases N (w_dev w4) w4 l2 ess k dest _ s Hew4 HN Hk Hfb3 eq_refl) as Hpub.
  unfold bind at 1.
  destruct (zns_lsm_publish_write (8 * k) dest (w4, l2)) as [[[]|e] [w5 l5]];
    destruct Hpub as (Hd5 & Hb5 & Hew5 & Hv5).
  2:{ split; [|eapply gc_frame_trans; [exact Hgf|by apply same_base_gc_frame]].
      eapply keeps_content_trans; [exact Hk4|].
      split; [|split; [|by apply same_base_meta_frame]]; cbn [fst snd]; rewrite Hd5; [done|]. intros j. unfold content. by rewrite (proj1 Hv5). }
  cbn. split; [|eapply gc_frame_trans; [exact Hgf|]; eapply gc_frame_trans;
    [apply same_base_gc_frame; exact Hb5|by constructor; [apply same_layout_refl|..]]].
  split; [|split; [|eapply meta_frame_trans; [exact (proj2 (proj2 Hk4))|];
    apply same_base_meta_frame; [by destruct Hb5|done]]];
    cbn [fst snd]; rewrite Hd5; [by apply engine_set_counters|].
  intros j. rewrite (content_set_parts _ l5) by done.
  rewrite (content_published (w_dev w1) (w_dev w4) l2 l5 ess k dest b); try done.
  2:{ apply (ew_agree _ _ _ _ Hew3). }
  case_bool_decide as Hj; [|exact (proj1 (proj2 Hk3) j)]. subst j.
  unfold content. by rewrite <- (ew_agree _ _ _ _ Hew), Hcur.
Qed.

Lemma relocate_slots_keeps N ess id slots w l buffer :
  engine_wf N (w_dev w) l ess -> N < 4294967296 -> 0 <= id < a_nr_zones (l_allocator l) ->
  Forall (fun s => 0 <= s < z_capacity (a_zones (l_allocator l)).[id] / 8) slots ->
  let '(r, s') := relocate_slots params id slots buffer (w, l) in
  keeps_content N ess (w, l) s' /\ gc_frame l (snd s').
Proof.
  revert w l buffer. induction slots as [|slot slots IH]; intros w l buffer Hew HN Hid Hsl.
  { split; [by apply keeps_content_intro|apply gc_frame_refl]. }
  apply Forall_cons_1 in Hsl as [Hs Hsl]. pose proof (ew_geometry _ _ _ _ Hew) as Hg.
  cbn [relocate_slots]. unfold bind at 1, lsm_get, gets. cbn [snd]. cbv zeta.
  fold (rev_slot (l_gc l) id slot).
  destruct (rev_slot (l_gc l) id slot =? 0) eqn:Ez; [by apply IH|]. guards.
  destruct (ge_gc_slots l Hg id Hid) as [Hnb Hlen].
  destruct (ix_backward N l (ew_index _ _ _ _ Hew) id slot Hid ltac:(lia) Ez) as (p & Hl & He).
  pose proof (located_bounds l p id slot Hg Hl) as Hpb.
  assert (Hcur : current l (rev_slot (l_gc l) id slot - 1) = Some p).
  { apply (current_some N l _ p Hg (ew_index _ _ _ _ Hew)). split; [exact He|exact Hpb]. }
  destruct (current_located N l _ p Hg (ew_index _ _ _ _ Hew) Hcur) as (Hk & _).
  unfold zns_gc_decode_logical_block. rewrite u64_id by lia.
  rewrite (ge_spb l Hg). replace (slot * 8) with (8 * slot) by lia.
  rewrite <- (lo_sector _ _ _ _ Hl), u64_id by lia. unfold bind.
  pose proof (relocate_block_keeps N w l ess _ p buffer Hew HN Hcur) as Hr.
  destruct (zns_lsm_gc_relocate_block params _ p buffer (w, l)) as [[b|e] [w1 l1]]; [|done].
  destruct Hr as [(Hew1 & Hc1 & Hmf1) Hf1]. destruct (gf_layout _ _ Hf1) as [Hnr _ Hz].
  destruct (Hz id Hid) as (_ & _ & Hcap). cbn [fst snd] in *.
  specialize (IH w1 l1 b Hew1 HN). rewrite Hnr, Hcap in IH. specialize (IH Hid Hsl).
  destruct (relocate_slots params id slots b (w1, l1)) as [r [w2 l2]].
  destruct IH as [Hk2 Hf2]. split; [|by eapply gc_frame_trans].
  eapply keeps_content_trans; [|exact Hk2]. done.
Qed.

(** A reset of a zone without live blocks. *)
Lemma reset_keeps N ess w l id r w' :
  engine_wf N (w_dev w) l ess -> 0 <= id < a_nr_zones (l_allocator l) ->
  valid_count (l_gc l) id = 0 ->
  on_dev (blkdev_zone_reset (z_start_sector (a_zones (l_allocator l)).[id])
            (z_length (a_zones (l_allocator l)).[id])) w = (r, w') ->
  keeps_content N ess (w, l) (w', l).
Proof.
  intros Hew Hid Hz Hrun. pose proof (ew_geometry _ _ _ _ Hew) as Hg. unfold on_dev, zoom in Hrun.
  destruct (blkdev_zone_reset _ _ (w_dev w)) as [r0 d'] eqn:Er. injection Hrun as <- <-.
  apply keeps_content_intro; [done| |done|done| |]; cbn [w_dev set_dev].
  - eapply engine_set_device; [exact Hew|]. intros s Hs Hs'. eapply dev_reset_frame; [exact Er|].
    pose proof (st_region _ _ _ _ (ew_store _ _ _ _ Hew)).
    destruct (ew_meta_apart _ _ _ _ Hew id Hid); lia.
  - intros k q Hq. eapply dev_reset_frame; [exact Er|].
    destruct (current_located N l k q Hg (ew_index _ _ _ _ Hew) Hq) as (_ & j & s & Hl & _).
    assert (Hj : j <> id).
    { intros ->. exact (zero_count_no_live N l id k q s Hg (ew_index _ _ _ _ Hew) Hz Hq Hl). }
    pose proof (alloc_wf_zone _ j (ge_alloc l Hg) (lo_zone _ _ _ _ Hl)) as Hzj.
    destruct Hzj as [? ? _ _ _]. destruct Hl as [Hjr Hs Hq1 Hq2 _].
    destruct (ew_apart _ _ _ _ Hew j id Hjr Hid Hj); lia.
  - intros s Hs Hs'. eapply dev_reset_frame; [exact Er|].
    destruct (ew_meta_apart _ _ _ _ Hew id Hid); lia.
Qed.

(** The victim becomes the reserve. *)
Lemma new_reserve_keeps N ess w l id r s' :
  engine_wf N (w_dev w) l ess -> 0 <= id < a_nr_zones (l_allocator l) ->
  valid_count (l_gc l) id = 0 ->
  on_allocator (zns_allocator_set_reserve_after_reset id) (w, l) = (r, s') ->
  keeps_content N ess (w, l) s'.
Proof.
  intros Hew Hid Hz. pose proof (ew_geometry _ _ _ _ Hew) as Hg.
  pose proof (ge_alloc l Hg) as Hwf. pose proof (awf_nr _ Hwf) as Hnr.
  unfold on_allocator, zoom, zns_allocator_set_reserve_after_reset. cbn [fst snd].
  destruct (_ || _) eqn:Eb; intros [= <- <-]; cbn [snd fst].
  { replace (set_allocator (l_allocator l) l) with l by (by destruct l). by apply keeps_content_intro. }
  set (a := l_allocator l) in *. set (z' := set_condition BLK_ZONE_COND_EMPTY _).
  set (a' := set_reserve_zone id (put_zone id z' a)).
  assert (Hza : forall j, 0 <= j -> (a_zones a').[j] = if bool_decide (id = j) then z' else (a_zones a).[j]).
  { intros j Hj. unfold a'. cbn. apply zupdate_lookup; lia. }
  apply keeps_content_intro; [done| |done..].
  apply engine_set_allocator; [done| | | |].
  - apply set_reserve_zone_wf; [|done]. apply put_zone_wf; [done|].
    destruct (alloc_wf_zone a id Hwf Hid). constructor; cbn; unfold is_u64 in *; try done; lia.
  - constructor; [done..|]. intros j Hj. rewrite Hza by lia. by case_bool_decide; subst.
  - intros j Hj Hw. rewrite Hza in Hw |- * by lia. case_bool_decide.
    + cbn. by rewrite Z.sub_diag.
    + by apply (ew_aligned _ _ _ _ Hew).
  - intros k p j s Hc Hl. assert (Hj : id <> j).
    { intros <-. exact (zero_count_no_live N l id k p s Hg (ew_index _ _ _ _ Hew) Hz Hc Hl). }
    destruct Hl as [Hjr Hs Hp Hin Hwr]. fold a in Hjr, Hs, Hp, Hin, Hwr.
    constructor; rewrite ?Hza, ?bool_decide_eq_false_2 by lia; done.
Qed.

(** Steps that touch neither the index, the tables, the zones nor the device. *)
Lemma attempts_keep N ess w l t :
  engine_wf N (w_dev w) l ess -> keeps_content N ess (w, l) (w, set_attempts t l).
Proof. intros Hew. apply keeps_content_intro; auto using engine_set_attempts. Qed.

Lemma counters_keep N ess w l g' :
  engine_wf N (w_dev w) l ess -> gi_zones g' = gi_zones (l_gc l) ->
  gi_latest g' = gi_latest (l_gc l) -> keeps_content N ess (w, l) (w, set_gc g' l).
Proof. intros Hew Hz Hl. apply keeps_content_intro; auto using engine_set_counters. Qed.

Lemma gc_move_and_reset_keeps N ess w l id :
  engine_wf N (w_dev w) l ess -> N < 4294967296 -> 0 <= id < a_nr_zones (l_allocator l) ->
  let '(r, s') := gc_move_and_reset params id (w, l) in keeps_content N ess (w, l) s'.
Proof.
  intros Hew HN Hid. pose proof (ew_geometry _ _ _ _ Hew) as Hg.
  destruct (ge_gc_slots l Hg id Hid) as [Hnb _].
  unfold gc_move_and_reset, bind at 1, lsm_get, gets. cbn [snd].
  pose proof (relocate_slots_keeps N ess id (seqZ 0 (gz_nr_blocks (gi_zones (l_gc l)).[id])) w l
    zero_block Hew HN Hid) as Hr.
  unfold bind at 1. destruct (relocate_slots params id _ zero_block (w, l)) as [r1 [w1 l1]].
  destruct Hr as [Hk1 Hf1].
  { apply list.Forall_forall. intros s Hs%elem_of_seqZ. lia. }
  destruct r1 as [[]|e]; [|done]. unfold bind at 1. cbn [snd].
  destruct (gf_layout _ _ Hf1) as [Hnr _ _]. cbn [snd] in Hnr. pose proof (proj1 Hk1) as Hew1.
  cbn [fst snd] in Hew1. rewrite <- Hnr in Hid.
  fold (valid_count (l_gc l1) id).
  destruct (valid_count (l_gc l1) id =? 0) eqn:Ez; [|done]. guards. cbn [negb].
  unfold bind at 1, modify_attempts, lsm_modify, modify. cbn [fst snd].
  set (l2 := set_attempts _ l1). assert (Hk2 : keeps_content N ess (w, l) (w1, l2)).
  { eapply keeps_content_trans; [exact Hk1|by apply attempts_keep]. }
  unfold bind at 1. cbn [snd]. unfold bind at 1.
  destruct (negb _ && _); [exact Hk2|]. unfold on_world, zoom. cbn [fst snd].
  destruct (on_dev (blkdev_zone_reset _ _) w1) as [r3 w3] eqn:E3.
  assert (Hk3 : keeps_content N ess (w, l) (w3, l2)).
  { eapply keeps_content_trans; [exact Hk2|].
    apply (reset_keeps N ess w1 l2 id r3); [apply Hk2|exact Hid|exact Ez|exact E3]. }
  destruct r3 as [[]|e]; [|exact Hk3]. unfold bind at 1. cbn [fst snd].
  set (l3 := set_gc _ l2). assert (Hk4 : keeps_content N ess (w, l) (w3, l3)).
  { eapply keeps_content_trans; [exact Hk3|]. apply counters_keep; [apply Hk3|done..]. }
  unfold bind. destruct (on_allocator _ (w3, l3)) as [r5 [w5 l5]] eqn:E5.
  apply (new_reserve_keeps N ess w3 l3 id) in E5; [|apply Hk4|done|done].
  destruct r5 as [[]|e]; cbn; [|by eapply keeps_content_trans].
  eapply keeps_content_trans; [exact Hk4|]. eapply keeps_content_trans; [exact E5|].
  apply counters_keep; [apply E5|done..].
Qed.

Lemma validate_victim_ok l id :
  zns_lsm_gc_validate_victim l id = Ok tt ->
  id < a_nr_zones (l_allocator l) /\ id <> a_reserve_zone (l_allocator l) /\
  gz_nr_valid_blocks (gi_zones (l_gc l)).[id] <=
    zns_lsm_zone_free_blocks l (a_zones (l_allocator l)).[a_reserve_zone (l_allocator l)].
Proof.
  unfold zns_lsm_gc_validate_victim. cbv zeta. repeat (case_match; [done|]). guards. intros _. lia.
Qed.

Lemma kmalloc_keeps N ess w l r w' :
  engine_wf N (w_dev w) l ess -> on_mem kmalloc w = (r, w') -> keeps_content N ess (w, l) (w', l).
Proof.
  intros Hew Hm. apply on_mem_dev in Hm as [Hd _]. apply keeps_content_intro; rewrite ?Hd; auto.
Qed.

Lemma gc_clean_keeps N ess w l id :
  engine_wf N (w_dev w) l ess -> N < 4294967296 -> 0 <= id ->
  let '(r, s') := zns_lsm_gc_clean params id (w, l) in keeps_content N ess (w, l) s'.
Proof.
  intros Hew HN Hid. assert (Hk : keeps_content N ess (w, l) (w, l)) by (by apply keeps_content_intro).
  unfold zns_lsm_gc_clean, bind at 1, lsm_get, gets. cbn [snd]. unfold bind at 1, lift.
  destruct (zns_lsm_gc_validate_victim l id) as [[]|e] eqn:Ev; [|done].
  apply validate_victim_ok in Ev as (Hlt & _).
  unfold bind at 1, on_world, zoom. cbn [fst snd].
  destruct (on_mem kmalloc w) as [r1 w1] eqn:E1.
  apply (kmalloc_keeps N ess w l r1 w1 Hew) in E1 as Hk1. cbn [fst snd].
  destruct r1 as [[]|e]; [|done]. unfold bind, attempt.
  pose proof (gc_move_and_reset_keeps N ess w1 l id (proj1 Hk1) HN ltac:(lia)) as Hm.
  destruct (gc_move_and_reset params id (w1, l)) as [[[]|e] [w2 l2]]; cbn.
  - by eapply keeps_content_trans.
  - eapply keeps_content_trans; [by eapply keeps_content_trans|]. apply attempts_keep, Hm.
Qed.

Context `{ZnsGcPolicy}.

Lemma run_gc_keeps N ess w l :
  engine_wf N (w_dev w) l ess -> N < 4294967296 ->
  let '(r, s') := zns_lsm_run_gc_if_needed params (w, l) in keeps_content N ess (w, l) s'.
Proof.
  intros Hew HN. assert (Hk : keeps_content N ess (w, l) (w, l)) by (by apply keeps_content_intro).
  unfold zns_lsm_run_gc_if_needed, bind at 1, lsm_get, gets. cbn [snd].
  destruct (_ <=? _); [done|]. cbv zeta. destruct (should_gc _); [|done]. cbn [negb].
  destruct (_ <? 0); [done|]. apply gc_clean_keeps; [done..|apply u32_range].
Qed.

(** ** Failed and successful appends *)

Definition source_data (src : write_source) (b : block) : Prop :=
  match src with
  | SrcClone clone => bio_op clone = REQ_OP_WRITE /\ gather (bi_vecs clone) = b
  | SrcBuffer buffer o => opf_op o = REQ_OP_WRITE /\ buffer = b
  end.

Lemma send_block_spec src b p w r w' :
  source_data src b -> send_block src p w = (r, w') ->
  only_in p (p + 8) (w_dev w) (w_dev w') /\
  match r with Ok _ => dev_block (w_dev w') p = b | Err _ => True end.
Proof.
  destruct src as [[[op fl] ? ? vecs]|buffer [op fl]]; cbn; unfold bio_op; cbn; intros [-> <-].
  - unfold submit_bio, bind, on_dev, zoom. cbn.
    destruct (submit_bio_wait _ (w_dev w)) as [[b'|e] d'] eqn:Es; intros [= <- <-]; cbn;
      (split; [|try by eapply dev_write_ok]); try done; intros s Hs; by eapply dev_write_frame.
  - apply block_write_spec.
Qed.

(** After a failed write the zone may be taken over as the device reports it. *)
Lemma resync_keeps N ess w l p i s reported r s' :
  engine_wf N (w_dev w) l ess -> fresh_block l p i s ->
  zns_zone_is_writable (a_zones (l_allocator l)).[i] = true -> zone_u64 reported ->
  on_allocator (zns_allocator_resync p reported) (w, l) = (r, s') ->
  keeps_content N ess (w, l) s'.
Proof.
  intros Hew Hfb Hwr Hrep. pose proof (ew_geometry _ _ _ _ Hew) as Hg.
  pose proof (fb_located _ _ _ _ Hfb) as Hl. pose proof (located_bounds l p i s Hg Hl) as Hpb.
  pose proof (ge_alloc l Hg) as Hwf. pose proof (awf_nr _ Hwf) as Hnr.
  unfold on_allocator, zoom. cbn [fst snd].
  destruct (zns_allocator_resync p reported (l_allocator l)) as [r1 a'] eqn:Er.
  apply resync_cases in Er; [|done|done|unfold is_u64; lia]. intros [= <- <-]. cbn [fst snd].
  destruct r1 as [[]|e].
  2:{ destruct Er as [_ ->]. replace (set_allocator (l_allocator l) l) with l by (by destruct l).
      by apply keeps_content_intro. }
  destruct Er as (j & Hj & _ & _ & _ & _ & Hin1 & Hin2 & Hwp & Hwp' & Hza & _ & Hspb' & Hwf').
  rewrite (ge_block l Hg) in *. set (a := l_allocator l) in *.
  assert (j = i) as ->.
  { destruct (decide (j = i)) as [|Hne]; [done|]. destruct Hl as [Hi ? Hp Hpe _].
    pose proof (ge_disjoint l Hg) as Hdj. fold a in Hnr, Hi, Hp, Hpe, Hdj.
    destruct (Hdj j i); try done; lia. }
  assert (Hz : forall n, 0 <= n -> (a_zones a').[n] =
    if bool_decide (i = n) then resynced reported (a_zones a).[i] else (a_zones a).[n]).
  { intros n Hn. rewrite Hza. apply zupdate_lookup; fold a in Hnr; lia. }
  assert (Hnr' : a_nr_zones a' = a_nr_zones a).
  { rewrite (awf_nr _ Hwf'), Hza, zlen_update. symmetry. apply Hnr. }
  apply keeps_content_intro; [done| |done..]. apply engine_set_allocator; [done|done| | |].
  - constructor; [done|rewrite Hspb'; symmetry; apply Hg|]. intros n Hn. rewrite Hz by lia. by case_bool_decide; subst.
  - intros n Hn. rewrite Hnr' in Hn. rewrite Hz by lia. case_bool_decide as Hin; [|by apply (ew_aligned _ _ _ _ Hew)].
    subst n. intros _. cbn.
    destruct Hl as [_ ? Hp _ _]. fold a in Hp.
    destruct Hwp' as [-> | ->]; rewrite Hp.
    + replace (_ - _) with (s * 8) by lia. apply Z_mod_mult.
    + replace (_ - _) with ((s + 1) * 8) by lia. apply Z_mod_mult.
  - intros k q n t Hc Hq. destruct Hq as [Hn Ht Hq Hqin Hqw]. fold a in Hn, Hq, Hqin, Hqw.
    destruct (fb_apart _ _ _ _ Hfb k q Hc) as [Hap|Hap];
      constructor; rewrite ?Hnr', ?Hz by lia; try case_bool_decide; subst; try done; cbn.
    + left. lia.
    + destruct Hqw as [Hqw|Hqw]; [lia|]. by apply writable_not_full in Hwr.
Qed.

Lemma recover_failed_write_keeps N ess w l p i s e :
  engine_wf N (w_dev w) l ess -> fresh_block l p i s ->
  zns_zone_is_writable (a_zones (l_allocator l)).[i] = true ->
  let '(r, s') := recover_failed_write p e (w, l) in keeps_content N ess (w, l) s' /\ r = Err e.
Proof.
  intros Hew Hfb Hwr.
  unfold recover_failed_write, stop_writes, enable_writes, lsm_modify, modify, gets, attempt, bind.
  cbn [fst snd]. set (l1 := set_attempts _ l).
  assert (Hk1 : keeps_content N ess (w, l) (w, l1)) by (by apply attempts_keep).
  assert (Hfb1 : fresh_block l1 p i s) by (destruct Hfb; by constructor).
  destruct (zns_zone_report_one (w_dev w) p) as [reported|e'] eqn:Er; [|done].
  apply report_one_u64 in Er.
  destruct (on_allocator (zns_allocator_resync p reported) (w, l1)) as [r2 [w2 l2]] eqn:E2.
  apply (resync_keeps N ess w l1 p i s reported) in E2; [|apply Hk1|done..].
  destruct r2 as [[]|e2]; cbn; (split; [|done]); [|eapply keeps_content_trans; [exact Hk1|exact E2]].
  eapply keeps_content_trans; [exact Hk1|]. eapply keeps_content_trans; [exact E2|].
  apply attempts_keep, E2.
Qed.

(** What a write of [b] to block [k] leaves: with [Ok] the new block, with an error
    everything as it was. *)
Definition written (N : Z) (ess : list (list lsm_entry)) (k : Z) (b : block)
    (s : world * zns_lsm) (ok : bool) (s' : world * zns_lsm) : Prop :=
  engine_wf N (w_dev (fst s')) (snd s') ess /\
  (forall j, content (w_dev (fst s')) (snd s') ess j =
    if ok && bool_decide (j = k) then b else content (w_dev (fst s)) (snd s) ess j) /\
  meta_frame s s'.

Lemma keeps_written N ess k b s s' : keeps_content N ess s s' <-> written N ess k b s false s'.
Proof. done. Qed.

Lemma written_after N ess k b s1 s2 ok s3 :
  keeps_content N ess s1 s2 -> written N ess k b s2 ok s3 -> written N ess k b s1 ok s3.
Proof.
  intros (_ & Hc & F1) (Hw & Hc' & F2). split; [done|]. split; [|by eapply meta_frame_trans].
  intros j. by rewrite Hc', Hc.
Qed.

(** The allocation of [append_write]. *)
Lemma alloc_step N ess w l :
  engine_wf N (w_dev w) l ess ->
  match on_allocator zns_allocator_alloc (w, l) with
  | (Ok p, (w', l')) => w' = w /\ keeps_content N ess (w, l) (w', l') /\
      exists i s, fresh_block l' p i s /\ zns_zone_is_writable (a_zones (l_allocator l')).[i] = true
  | (Err _, s') => keeps_content N ess (w, l) s'
  end.
Proof.
  intros Hew. pose proof (ew_geometry _ _ _ _ Hew) as Hg. pose proof (ge_alloc l Hg) as Hwf.
  unfold on_allocator, zoom. cbn [fst snd].
  destruct (zns_allocator_alloc (l_allocator l)) as [[p|e] a'] eqn:Ea.
  - apply alloc_handed_out in Ea as (i & _ & Hh); [|done]. split; [done|].
    destruct (handed_out_fresh N (w_dev w) l ess p i a' Hew Hh) as (Hew' & s & Hfb).
    split; [by apply keeps_content_intro|]. exists i, s. split; [done|]. cbn.
    pose proof (ho_zone _ _ _ _ Hh). pose proof (awf_nr _ Hwf).
    rewrite (ho_zones _ _ _ _ Hh), zupdate_same by lia. apply (ho_writable _ _ _ _ Hh).
  - apply alloc_fail_same in Ea as (i & Hi & ->); [|done].
    apply keeps_content_intro; [done| |done..]. apply engine_set_allocator; [done|..].
    + apply set_active_zone_wf; [done|lia].
    + by constructor.
    + apply (ew_aligned _ _ _ _ Hew).
    + intros k p j s _ [? ? ? ? ?]. by constructor.
Qed.

Lemma append_write_outcome N ess w l k src b :
  engine_wf N (w_dev w) l ess -> N < 4294967296 -> 0 <= k < N -> source_data src b ->
  let '(r, s') := zns_lsm_append_write params (8 * k) src (w, l) in
  written N ess k b (w, l) (is_ok r) s'.
Proof.
  intros Hew HN Hk Hsrc. unfold zns_lsm_append_write, bind at 1, lsm_get, gets. cbn [snd].
  destruct (t_writes_stopped _); [by apply keeps_content_intro|]. unfold bind at 1.
  pose proof (run_gc_keeps N ess w l Hew HN) as Hgc.
  destruct (zns_lsm_run_gc_if_needed params (w, l)) as [[[]|e] [w1 l1]]; [|done].
  unfold bind at 1. pose proof (alloc_step N ess w1 l1 (proj1 Hgc)) as Hal.
  destruct (on_allocator zns_allocator_alloc (w1, l1)) as [[p|e] [w2 l2]];
    [|by eapply keeps_content_trans].
  destruct Hal as (-> & Hk2 & i & s & Hfb & Hwr).
  unfold bind at 1, modify_attempts, lsm_modify, modify. cbn [fst snd]. set (l3 := set_attempts _ l2).
  assert (Hk3 : keeps_content N ess (w, l) (w1, l3)).
  { eapply keeps_content_trans; [exact Hgc|]. eapply keeps_content_trans; [exact Hk2|].
    apply attempts_keep, Hk2. }
  assert (Hfb3 : fresh_block l3 p i s) by (destruct Hfb; by constructor).
  unfold bind at 1. cbn [snd]. unfold bind, attempt.
  destruct (negb _ && _).
  { pose proof (recover_failed_write_keeps N ess w1 l3 p i s (- EIO) (proj1 Hk3) Hfb3 Hwr) as Hrec.
    unfold Prelude.fail at 1. destruct (recover_failed_write p (- EIO) (w1, l3)) as [r s'].
    destruct Hrec as [Hrec ->]. by eapply keeps_content_trans. }
  unfold on_world, zoom. cbn [fst snd].
  destruct (send_block src p w1) as [r4 w4] eqn:E4.
  destruct (send_block_spec src b p w1 r4 w4 Hsrc E4) as [Ho Hb4].
  destruct (write_fresh N (w_dev w1) (w_dev w4) l3 ess p i s (proj1 Hk3) Hfb3 Ho) as (Hew4 & Hlive & Hmd).
  assert (Hk4 : keeps_content N ess (w, l) (w4, l3)).
  { eapply keeps_content_trans; [exact Hk3|]. apply keeps_content_intro; [apply Hk3|done..]. }
  destruct r4 as [[]|e].
  - pose proof (publish_write_cases N (w_dev w4) w4 l3 ess k p i s Hew4 HN Hk Hfb3 eq_refl) as Hpub.
    destruct (zns_lsm_publish_write (8 * k) p (w4, l3)) as [r5 [w5 l5]].
    destruct Hpub as (Hd5 & Hb5 & Hew5 & Hv5). eapply written_after; [exact Hk3|].
    split; [|split; [|eapply meta_frame_trans; [|by apply (same_base_meta_frame w4)]]];
      [..|by constructor]; cbn [fst snd]; rewrite Hd5; [done|]. destruct r5 as [[]|e]; cbn [is_ok andb].
    + apply (content_published (w_dev w1) (w_dev w4) l3 l5 ess k p b); try done.
      apply (ew_agree _ _ _ _ (proj1 Hk3)).
    + intros j. unfold content at 1. rewrite (proj1 Hv5).
      apply (content_same (w_dev w1) (w_dev w4) l3 ess (ew_agree _ _ _ _ (proj1 Hk3)) Hlive j).
  - pose proof (recover_failed_write_keeps N ess w4 l3 p i s e Hew4 Hfb3 Hwr) as Hrec.
    destruct (recover_failed_write p e (w4, l3)) as [r s'].
    destruct Hrec as [Hrec ->]. by eapply keeps_content_trans.
Qed.

(** What a completed collection has achieved. *)
Lemma gc_move_and_reset_ok id w l w' l' :
  gc_move_and_reset params id (w, l) = (Ok tt, (w', l')) ->
  a_reserve_zone (l_allocator l') = id /\ valid_count (l_gc l') id = 0 /\
  exists a, zns_allocator_set_reserve_after_reset id a = (Ok tt, l_allocator l').
Proof.
  unfold gc_move_and_reset. intros (? & [w0 l0] & E0 & Hrun)%bind_Ok.
  injection E0 as <- <- <-. apply bind_Ok in Hrun as ([] & [w1 l1] & _ & Hrun).
  apply bind_Ok in Hrun as (? & [w2 l2] & E2 & Hrun). injection E2 as <- <- <-. cbn [snd] in Hrun.
  fold (valid_count (l_gc l1) id) in Hrun.
  destruct (valid_count (l_gc l1) id =? 0) eqn:Ez; [|done]. guards. cbn [negb] in Hrun.
  apply bind_Ok in Hrun as ([] & [w2 l2] & E2 & Hrun). injection E2 as <- <-.
  apply bind_Ok in Hrun as (? & [w3 l3] & E3 & Hrun). injection E3 as <- <- <-. cbn [snd] in Hrun.
  apply bind_Ok in Hrun as ([] & [w4 l4] & E4 & Hrun).
  assert (l4 = set_attempts (count_gc_reset (l_attempts l1)) l1) as ->.
  { destruct (negb _ && _); [done|]. unfold on_world, zoom in E4.
    destruct (on_dev _ _) in E4. by injection E4 as _ _ <-. }
  apply bind_Ok in Hrun as ([] & [w5 l5] & E5 & Hrun). injection E5 as <- <-. cbn [fst snd] in Hrun.
  apply bind_Ok in Hrun as ([] & [w6 l6] & E6 & Hrun). injection Hrun as <- <-.
  unfold on_allocator, zoom in E6. cbn [fst snd] in E6.
  destruct (zns_allocator_set_reserve_after_reset id _) as [r a] eqn:Ea. injection E6 as -> <- <-.
  cbn. split; [|split; [exact Ez|by eexists]].
  unfold zns_allocator_set_reserve_after_reset in Ea. destruct (_ || _); [done|]. by injection Ea as <-.
Qed.

(** ** The claims *)

(** C10.  Garbage collection keeps the data.  Whatever the policy decides, whatever
    fails on the way (an allocation, a read, the write of a moved block, the reset),
    afterwards every logical block still has its contents, and the index, the
    mappings and the zones are consistent: no zone that holds a live block is ever
    reset. *)
Theorem garbage_collection_keeps_data N ess w l :
  engine_wf N (w_dev w) l ess -> N < 4294967296 ->
  let '(r, (w', l')) := zns_lsm_run_gc_if_needed params (w, l) in
  engine_wf N (w_dev w') l' ess /\ forall k, content (w_dev w') l' ess k = content (w_dev w) l ess k.
Proof.
  intros Hew HN. pose proof (run_gc_keeps N ess w l Hew HN) as Hk.
  destruct (zns_lsm_run_gc_if_needed params (w, l)) as [r [w' l']]. by destruct Hk as (? & ? & _).
Qed.

(** A collected zone: empty, without live blocks, and the reserve. *)
Definition victim_freed (l : zns_lsm) (id : Z) : Prop :=
  a_reserve_zone (l_allocator l) = id /\ valid_count (l_gc l) id = 0 /\
  (alloc_wf (l_allocator l) -> 0 <= id < a_nr_zones (l_allocator l) ->
   z_write_pointer (a_zones (l_allocator l)).[id] = z_start_sector (a_zones (l_allocator l)).[id]).

(** C35.  A completed collection frees its victim: the victim holds no live block any
    more, is empty again and is the new reserve.  A collection that fails after it
    started stops further writes. *)
Theorem gc_clean_frees_victim id w l :
  let '(r, (w', l')) := zns_lsm_gc_clean params id (w, l) in
  match r with
  | Ok _ => victim_freed l' id
  | Err e => l' = l \/ t_writes_stopped (l_attempts l') = true
  end.
Proof.
  unfold zns_lsm_gc_clean, bind at 1, lsm_get, gets. cbn [snd]. unfold bind at 1, lift.
  destruct (zns_lsm_gc_validate_victim l id) as [[]|e]; [|by left].
  unfold bind at 1, on_world, zoom. cbn [fst snd].
  destruct (on_mem kmalloc w) as [[[]|e] w1]; [|by left]. unfold bind, attempt.
  destruct (gc_move_and_reset params id (w1, l)) as [[[]|e] [w2 l2]] eqn:E; [|by right].
  destruct (gc_move_and_reset_ok id w1 l w2 l2 E) as (Hr & Hv & a & Ha). cbn.
  split; [done|]. split; [done|]. intros Hwf Hid. pose proof (awf_nr _ Hwf) as Hnr.
  unfold zns_allocator_set_reserve_after_reset in Ha. destruct (_ || _); [done|].
  injection Ha as Ha. rewrite <- Ha in Hnr, Hid |- *. cbn in *. rewrite zlen_update in Hnr.
  by rewrite zupdate_same by lia.
Qed.

(** C11.  A write replaces its block and nothing else.  When the engine reports
    success, the logical block holds exactly the new data and all others are
    untouched; when it reports an error, at whatever point, every block holds what it
    held before, and the engine stays consistent. *)
Theorem append_write_replaces_block N ess w l k src b :
  engine_wf N (w_dev w) l ess -> N < 4294967296 -> 0 <= k < N -> source_data src b ->
  let '(r, (w', l')) := zns_lsm_append_write params (8 * k) src (w, l) in
  engine_wf N (w_dev w') l' ess /\
  forall j, content (w_dev w') l' ess j =
    if is_ok r && bool_decide (j = k) then b else content (w_dev w) l ess j.
Proof.
  intros Hew HN Hk Hsrc. pose proof (append_write_outcome N ess w l k src b Hew HN Hk Hsrc) as Hw.
  destruct (zns_lsm_append_write params (8 * k) src (w, l)) as [r [w' l']]. by destruct Hw as (? & ? & _).
Qed.

End Collect.
End Engine.

(** ** Concrete runs *)
Module EngineExamples.
#[local] Existing Instance eio_device | 0.
#[local] Existing Instance eio_device_laws | 0.

(** Three data zones of two blocks each, the last one the reserve, and a metadata zone
    that holds the superblock. *)
Definition demo_bdev (faults : list Z) : ram :=
  mk_ram ∅ [mk_blk_zone 0 16 16 0 BLK_ZONE_TYPE_SEQWRITE_REQ BLK_ZONE_COND_EMPTY;
            mk_blk_zone 16 16 16 16 BLK_ZONE_TYPE_SEQWRITE_REQ BLK_ZONE_COND_EMPTY;
            mk_blk_zone 32 16 16 32 BLK_ZONE_TYPE_SEQWRITE_REQ BLK_ZONE_COND_EMPTY;
            mk_blk_zone 48 64 64 56 BLK_ZONE_TYPE_SEQWRITE_REQ BLK_ZONE_COND_IMP_OPEN] faults.
Definition demo_world (faults : list Z) : world := mk_world [] (demo_bdev faults : bdev).

Definition demo_zone (i : Z) : zns_zone := mk_zone i (16 * i) 16 16 (16 * i) BLK_ZONE_COND_EMPTY false.
Definition demo_gc_zone : zns_gc_zone := mk_gc_zone [0; 0] 2 0.

(** An engine nothing was written to. *)
Definition demo_engine : zns_lsm :=
  mk_lsm
    (mk_allocator 0 0 [demo_zone 0; demo_zone 1; demo_zone 2] 3 0 2 8 ZNS_ALLOCATOR_ZONED)
    (mk_gc_index [demo_gc_zone; demo_gc_zone; demo_gc_zone] xa_init 0 0 0 0)
    (mk_generations (Some memtable_init) None None false)
    (mk_metadata [] 0 0 1 48 56 112 (mk_super 0 32 16 4 3 8)) (mk_attempts 0 0 0 false) 2 8 false.

(** Case analysis on one of the three data zones. *)
Ltac demo_zones i :=
  match goal with
  | Hi : 0 <= i < _ |- _ =>
      unfold zlen in Hi; cbn in Hi;
      let E := fresh in
      assert (E : i = 0 \/ i = 1 \/ i = 2) by lia; clear Hi; destruct E as [->|[->| ->]]
  end.

(** Closed comparisons. *)
Ltac demo_le :=
  cbv zeta; first [congruence | by vm_compute | left; by vm_compute | right; by vm_compute].

Lemma demo_alloc_wf : alloc_wf (l_allocator demo_engine).
Proof.
  constructor; cbn; unfold is_u32; try lia; try done.
  repeat apply Forall_cons_2; [..|apply Forall_nil_2];
    constructor; cbn; unfold is_u64; intros; lia.
Qed.

Lemma demo_geometry : geometry demo_engine.
Proof.
  constructor; try done; [apply demo_alloc_wf|..].
  - intros i j Hi Hj Hij. demo_zones i; demo_zones j; demo_le.
  - intros i Hi. demo_zones i; demo_le.
  - intros i Hi. by demo_zones i.
Qed.

Lemma demo_index N : index_wf N demo_engine.
Proof.
  constructor.
  - intros k e He. cbn in He. by rewrite lookup_empty in He.
  - intros i s Hi Hs Hr. exfalso. apply Hr. unfold rev_slot. demo_zones i;
      match type of Hs with _ <= _ < ?n => change n with 2 in Hs end; assert (s = 0 \/ s = 1) as [->| ->] by lia; done.
  - intros i Hi. by demo_zones i.
Qed.

Lemma demo_view k : lsm_view demo_engine [] !! k = None.
Proof. done. Qed.

Lemma demo_store N faults : store_wf N (demo_bdev faults) demo_engine [].
Proof.
  constructor; try (cbn; done).
  split; [apply memtable_init_wf|]. intros k p Hk. cbn in Hk. by rewrite lookup_empty in Hk.
Qed.

Lemma demo_engine_wf {N} faults : engine_wf N (demo_bdev faults) demo_engine [].
Proof.
  constructor; try done.
  - apply demo_geometry.
  - apply demo_index.
  - apply demo_store.
  - intros i Hi Hw. by demo_zones i.
  - intros i j Hi Hj Hij. demo_zones i; demo_zones j; demo_le.
  - intros i Hi. demo_zones i; demo_le.
Qed.

Definition pattern (c : Byte.byte) : block := replicate 4096 c.

#[local] Existing Instance greedy_policy.

(** Writing patterns to logical blocks, whatever the outcomes. *)
Definition write_pattern (s : world * zns_lsm) (kc : Z * Byte.byte) : world * zns_lsm :=
  snd (zns_lsm_append_write default_params (8 * fst kc)
         (SrcBuffer (pattern (snd kc)) (opf REQ_OP_WRITE)) s).

Lemma writes_keep_wf kcs s :
  Forall (fun kc => 0 <= fst kc < 4) kcs -> engine_wf 4 (w_dev (fst s)) (snd s) [] ->
  let s' := foldl write_pattern s kcs in engine_wf 4 (w_dev (fst s')) (snd s') [].
Proof.
  revert s. induction kcs as [|[k c] kcs IH]; intros [w l] Hk Hew; [done|].
  apply Forall_cons_1 in Hk as [Hk Hks]. apply IH; [done|].
  pose proof (append_write_outcome default_params 4 [] w l k
    (SrcBuffer (pattern c) (opf REQ_OP_WRITE)) (pattern c) Hew ltac:(lia) Hk ltac:(done)) as Hw.
  unfold write_pattern. cbn [fst snd]. destruct (zns_lsm_append_write _ _ _ _) as [r s']. apply Hw.
Qed.

(** Both data zones are full; zone 0 holds block 1 and an outdated copy of block 0. *)
Definition full_state : world * zns_lsm :=
  foldl write_pattern (demo_world [], demo_engine)
    [(0, Byte.x41); (1, Byte.x42); (0, Byte.x43); (2, Byte.x44)].

Lemma full_state_wf : engine_wf 4 (w_dev (fst full_state)) (snd full_state) [].
Proof.
  apply (writes_keep_wf [(0, Byte.x41); (1, Byte.x42); (0, Byte.x43); (2, Byte.x44)]
    (demo_world [], demo_engine)); [|apply demo_engine_wf].
  repeat apply Forall_cons_2; [cbn; lia..|apply Forall_nil_2].
Qed.

Lemma append_write_replaces_block_witness :
  let '(r, (w', l')) := zns_lsm_append_write default_params (8 * 1)
    (SrcBuffer (pattern Byte.x42) (opf REQ_OP_WRITE)) (demo_world [], demo_engine) in
  content (w_dev w') l' [] 1 = pattern Byte.x42.
Proof.
  pose proof (append_write_replaces_block default_params 4 [] (demo_world []) demo_engine 1
    (SrcBuffer (pattern Byte.x42) (opf REQ_OP_WRITE)) (pattern Byte.x42) (demo_engine_wf [])
    ltac:(lia) ltac:(lia) ltac:(done)) as Hw.
  assert (Hok : is_ok (fst (zns_lsm_append_write default_params (8 * 1)
    (SrcBuffer (pattern Byte.x42) (opf REQ_OP_WRITE)) (demo_world [], demo_engine))) = true)
    by (vm_compute; reflexivity).
  destruct (zns_lsm_append_write _ _ _ _) as [r [w' l']]. destruct Hw as [_ Hc].
  cbn [fst] in Hok. rewrite Hc, Hok. reflexivity.
Defined.

(** The engine after the allocator handed out its first block. *)
Definition handed_engine : zns_lsm :=
  set_allocator (snd (zns_allocator_alloc (l_allocator demo_engine))) demo_engine.

Lemma handed_engine_wf :
  engine_wf 4 (demo_bdev []) handed_engine [] /\ exists i s, fresh_block handed_engine 0 i s.
Proof.
  destruct (alloc_handed_out (l_allocator demo_engine) 0 (l_allocator handed_engine)
    demo_alloc_wf eq_refl) as (i & _ & Hh).
  destruct (handed_out_fresh 4 _ demo_engine [] 0 i _ (demo_engine_wf []) Hh)
    as (Hew & s & Hfb). split; [exact Hew|]. by exists i, s.
Qed.

Lemma gc_index_update_consistent_witness :
  let '(r, (w', l')) := zns_lsm_update_gc_block_location 1 0 (demo_world [], handed_engine) in
  r = Ok tt /\ gi_valid_blocks (l_gc l') = 1.
Proof.
  destruct handed_engine_wf as (Hew & i & s & Hfb).
  pose proof (gc_index_update_consistent 4 (demo_world []) handed_engine 1 0 i s
    (ew_geometry _ _ _ _ Hew) (ew_index _ _ _ _ Hew) ltac:(lia) ltac:(lia)
    (fb_located _ _ _ _ Hfb) (fb_free _ _ _ _ Hfb)) as Hup.
  assert (Hok : fst (zns_lsm_update_gc_block_location 1 0 (demo_world [], handed_engine)) = Ok tt)
    by (vm_compute; reflexivity).
  destruct (zns_lsm_update_gc_block_location 1 0 (demo_world [], handed_engine)) as [r [w' l']].
  cbn [fst] in Hok. subst r. destruct Hup as (_ & _ & _ & Hv). split; [reflexivity|].
  rewrite Hv. reflexivity.
Defined.

(** The next request finds no space: zone 0 is collected and becomes the reserve. *)
Lemma garbage_collection_keeps_data_witness :
  let '(r, (w', l')) := zns_lsm_run_gc_if_needed default_params full_state in
  a_reserve_zone (l_allocator l') = 0 /\
  content (w_dev w') l' [] 1 = content (w_dev (fst full_state)) (snd full_state) [] 1.
Proof.
  pose proof (garbage_collection_keeps_data default_params 4 [] (fst full_state) (snd full_state)
    full_state_wf ltac:(lia)) as Hgc.
  assert (Hres : a_reserve_zone (l_allocator (snd (snd
    (zns_lsm_run_gc_if_needed default_params full_state)))) = 0) by (vm_compute; reflexivity).
  rewrite <- surjective_pairing in Hgc.
  destruct (zns_lsm_run_gc_if_needed default_params full_state) as [r [w' l']].
  destruct Hgc as [_ Hc]. split; [exact Hres|apply Hc].
Defined.

Lemma gc_clean_frees_victim_witness :
  let '(r, (w', l')) := zns_lsm_gc_clean default_params 0 full_state in
  r = Ok tt /\ a_reserve_zone (l_allocator l') = 0.
Proof.
  pose proof (gc_clean_frees_victim default_params 0 (fst full_state) (snd full_state)) as Hgc.
  rewrite <- surjective_pairing in Hgc.
  assert (Hok : fst (zns_lsm_gc_clean default_params 0 full_state) = Ok tt)
    by (vm_compute; reflexivity).
  destruct (zns_lsm_gc_clean default_params 0 full_state) as [r [w' l']]. cbn [fst] in Hok.
  subst r. split; [reflexivity|apply Hgc].
Defined.

End EngineExamples.
