(* ===== verification/Disk.v ===== *)
(** Disks.  A disk is an array of blocks and so an array of bytes; a bio reads or writes
    a range of those bytes.  What the engines promise is stated in terms of
    [disk_step]; here are also the copies between the segments of a bio and a
    buffer, of which a range of bytes is made up. *)
From S2P Require Import Prelude Kernel ZonedRam Zone Allocator GcPolicy XArray Bytes RbTree.
From S2P Require Import Memtable Sstable Super Lsm LsmFlush Bio LsmIo.

(** ** Copying fragments *)

(** [n] bytes of a list from position [off]. *)
Definition slice (off n : Z) (l : list Byte.byte) : list Byte.byte :=
  take (Z.to_nat n) (drop (Z.to_nat off) l).

(** A list with the bytes from [off] on replaced. *)
Definition patch (off : Z) (new l : list Byte.byte) : list Byte.byte :=
  take (Z.to_nat off) l ++ new ++ drop (Z.to_nat (off + zlen new)) l.

Lemma zlen_slice off n l : 0 <= off -> 0 <= n -> off + n <= zlen l -> zlen (slice off n l) = n.
Proof. unfold slice, zlen. intros. rewrite length_take, length_drop. lia. Qed.

Lemma zlen_patch off new l : 0 <= off -> off + zlen new <= zlen l -> zlen (patch off new l) = zlen l.
Proof. unfold patch, zlen. intros. rewrite !length_app, length_take, length_drop. lia. Qed.

Lemma zlen_app {A} (l1 l2 : list A) : zlen (l1 ++ l2) = zlen l1 + zlen l2.
Proof. unfold zlen. rewrite length_app. lia. Qed.

Lemma slice_lookup off n l i : 0 <= off -> 0 <= i < n -> (slice off n l).[i] = l.[off + i].
Proof.
  intros. unfold slice. rewrite lookup_total_take_lt by lia. rewrite lookup_total_drop. f_equal. lia.
Qed.

Lemma patch_lookup off new l i :
  0 <= off -> 0 <= i -> off <= zlen l ->
  (patch off new l).[i] =
    if (off <=? i) && (i <? off + zlen new) then new.[i - off] else l.[i].
Proof.
  unfold patch, zlen. intros Ho Hi Hl.
  destruct (Z.leb_spec off i) as [H1|H1]; cbn [andb].
  - rewrite lookup_total_app_r by (rewrite length_take; lia).
    rewrite length_take, Nat.min_l by lia.
    destruct (Z.ltb_spec i (off + Z.of_nat (length new))).
    + rewrite lookup_total_app_l by lia. f_equal. lia.
    + rewrite lookup_total_app_r by lia. rewrite lookup_total_drop. f_equal. lia.
  - rewrite lookup_total_app_l by (rewrite length_take; lia). by rewrite lookup_total_take_lt by lia.
Qed.

(** A patch of a segmented list. *)
Lemma patch_app_l off new l1 l2 :
  0 <= off -> off + zlen new <= zlen l1 -> patch off new (l1 ++ l2) = patch off new l1 ++ l2.
Proof.
  unfold patch, zlen. intros. rewrite take_app_le, drop_app_le by lia. by rewrite <- !app_assoc.
Qed.

Lemma patch_app_r off new l1 l2 :
  zlen l1 <= off -> patch off new (l1 ++ l2) = l1 ++ patch (off - zlen l1) new l2.
Proof.
  unfold patch, zlen. intros. rewrite take_app_ge, drop_app_ge by lia.
  rewrite <- app_assoc. do 2 f_equal; [f_equal; lia|]. do 2 f_equal. lia.
Qed.

Lemma slice_split off m n l :
  0 <= off -> 0 <= m -> 0 <= n -> slice off (m + n) l = slice off m l ++ slice (off + m) n l.
Proof.
  intros. unfold slice. rewrite !Z2Nat.inj_add by lia. rewrite <- drop_drop.
  by rewrite <- (take_drop (Z.to_nat m) (take (Z.to_nat m + Z.to_nat n) (drop (Z.to_nat off) l))) at 1;
    rewrite take_take, skipn_firstn_comm, Nat.min_l, Nat.add_sub_swap, Nat.sub_diag by lia.
Qed.

Lemma slice_app_l off n l1 l2 : 0 <= off -> 0 <= n -> off + n <= zlen l1 -> slice off n (l1 ++ l2) = slice off n l1.
Proof.
  unfold slice, zlen. intros. rewrite drop_app_le by lia. rewrite take_app_le; [done|].
  rewrite length_drop. lia.
Qed.

Lemma slice_app_r off n l1 l2 : zlen l1 <= off -> slice off n (l1 ++ l2) = slice (off - zlen l1) n l2.
Proof.
  unfold slice, zlen. intros. rewrite drop_app_ge by lia. do 2 f_equal. lia.
Qed.

(** A patch that runs over the end of the first segment. *)
Lemma patch_across off new1 new2 v g :
  0 <= off -> off + zlen new1 = zlen v ->
  patch off (new1 ++ new2) (v ++ g) = patch off new1 v ++ patch 0 new2 g.
Proof.
  unfold patch, zlen. intros Ho Hl. rewrite length_app, take_app_le by lia.
  rewrite (drop_app_ge _ g) by lia. rewrite (drop_ge v) by lia. rewrite app_nil_r.
  rewrite take_0. cbn [app]. rewrite <- !app_assoc. repeat f_equal. lia.
Qed.

Lemma zlookup_app (l1 l2 : list Byte.byte) i :
  0 <= i -> (l1 ++ l2).[i] = if i <? zlen l1 then l1.[i] else l2.[i - zlen l1].
Proof.
  unfold zlen. intros Hi. destruct (Z.ltb_spec i (Z.of_nat (length l1))).
  - by rewrite lookup_total_app_l by lia.
  - rewrite lookup_total_app_r by lia. f_equal. lia.
Qed.

(** Two adjacent patches are one. *)
Lemma patch_patch off new1 new2 l :
  0 <= off -> off + zlen (new1 ++ new2) <= zlen l ->
  patch (off + zlen new1) new2 (patch off new1 l) = patch off (new1 ++ new2) l.
Proof.
  rewrite zlen_app. intros Ho Hl. pose proof (zlen_nonneg new1). pose proof (zlen_nonneg new2).
  assert (Hp : zlen (patch off new1 l) = zlen l) by (apply zlen_patch; lia).
  apply zlist_ext.
  { rewrite !zlen_patch; rewrite ?zlen_app; lia. }
  rewrite zlen_patch by lia. intros i Hi. rewrite !patch_lookup by lia.
  rewrite zlen_app.
  destruct (Z.leb_spec off i) as [Hoi|Hoi]; cbn [andb]; [rewrite zlookup_app by lia|].
  all: destruct (Z.leb_spec (off + zlen new1) i), (Z.ltb_spec i (off + zlen new1 + zlen new2)),
    (Z.ltb_spec i (off + zlen new1)), (Z.ltb_spec i (off + (zlen new1 + zlen new2))),
    (Z.ltb_spec (i - off) (zlen new1)); cbn [andb]; try lia; try done; f_equal; lia.
Qed.

(** What copying into the segments does: the bytes land where they belong, and the
    segments keep their sizes; it fails exactly if the bio is too short. *)
Lemma copy_to_bio_spec vecs offset buffer bytes copied :
  0 <= offset -> 0 <= copied < bytes -> bytes <= zlen buffer ->
  let '(r, vecs') := copy_to_bio vecs offset buffer bytes copied in
  length <$> vecs' = length <$> vecs /\
  match r with
  | Ok _ => offset + (bytes - copied) <= zlen (gather vecs) /\
      gather vecs' = patch offset (slice copied (bytes - copied) buffer) (gather vecs)
  | Err e => e = - EIO /\ zlen (gather vecs) < offset + (bytes - copied)
  end.
Proof.
  revert offset copied. induction vecs as [|v vs IH]; intros offset copied Ho Hc Hb.
  { cbn. unfold zlen. cbn. split; [done|]. lia. }
  cbn [copy_to_bio]. rewrite gather_cons, zlen_app. pose proof (zlen_nonneg v) as Hv.
  pose proof (zlen_nonneg (gather vs)) as Hg0.
  destruct (Z.leb_spec (zlen v) offset) as [Hle|Hlt].
  - specialize (IH (offset - zlen v) copied ltac:(lia) Hc Hb).
    destruct (copy_to_bio vs _ buffer bytes copied) as [[[]|e] vs']; destruct IH as (Hl & Hr);
      (split; [cbn; by rewrite Hl|]); [|lia].
    split; [lia|]. rewrite gather_cons, patch_app_r by lia. by rewrite (proj2 Hr).
  - set (chunk := Z.min (bytes - copied) (zlen v - offset)).
    assert (Hch : 0 < chunk) by lia. fold (slice copied chunk buffer).
    assert (Hsl : zlen (slice copied chunk buffer) = chunk) by (apply zlen_slice; lia).
    assert (Hv' : take (Z.to_nat offset) v ++ slice copied chunk buffer ++
      drop (Z.to_nat (offset + chunk)) v = patch offset (slice copied chunk buffer) v).
    { unfold patch. by rewrite Hsl. }
    assert (Hvl : length (patch offset (slice copied chunk buffer) v) = length v).
    { apply Nat2Z.inj, (zlen_patch offset (slice copied chunk buffer) v); lia. }
    rewrite Hv'. destruct (Z.eqb_spec (copied + chunk) bytes) as [Hend|Hgo].
    + replace (bytes - copied) with chunk by lia. split; [cbn; by rewrite Hvl|]. split; [lia|].
      rewrite gather_cons, patch_app_l by lia. done.
    + specialize (IH 0 (copied + chunk) ltac:(lia) ltac:(lia) Hb).
      destruct (copy_to_bio vs 0 buffer bytes (copied + chunk)) as [[[]|e] vs'];
        destruct IH as (Hl & Hr); (split; [cbn; by rewrite Hl, Hvl|]); [|lia].
      split; [lia|]. rewrite gather_cons, (proj2 Hr).
      replace (bytes - copied) with (chunk + (bytes - (copied + chunk))) by lia.
      rewrite slice_split, patch_across by lia. done.
Qed.

Lemma copy_from_bio_spec vecs offset buffer bytes copied :
  0 <= offset -> 0 <= copied < bytes -> bytes <= zlen buffer ->
  let '(r, buffer') := copy_from_bio vecs offset buffer bytes copied in
  match r with
  | Ok _ => offset + (bytes - copied) <= zlen (gather vecs) /\
      buffer' = patch copied (slice offset (bytes - copied) (gather vecs)) buffer
  | Err e => e = - EIO /\ zlen (gather vecs) < offset + (bytes - copied)
  end.
Proof.
  revert offset buffer copied. induction vecs as [|v vs IH]; intros offset buffer copied Ho Hc Hb.
  { cbn. unfold zlen. cbn. lia. }
  cbn [copy_from_bio]. rewrite gather_cons, zlen_app. pose proof (zlen_nonneg v) as Hv.
  pose proof (zlen_nonneg (gather vs)) as Hg0.
  destruct (Z.leb_spec (zlen v) offset) as [Hle|Hlt].
  - specialize (IH (offset - zlen v) buffer copied ltac:(lia) Hc Hb).
    destruct (copy_from_bio vs _ buffer bytes copied) as [[[]|e] buf']; [|lia].
    rewrite slice_app_r by lia. split; [lia|apply IH].
  - set (chunk := Z.min (bytes - copied) (zlen v - offset)).
    assert (Hch : 0 < chunk) by lia. fold (slice offset chunk v).
    assert (Hsl : zlen (slice offset chunk v) = chunk) by (apply zlen_slice; lia).
    assert (Hb' : take (Z.to_nat copied) buffer ++ slice offset chunk v ++
      drop (Z.to_nat (copied + chunk)) buffer = patch copied (slice offset chunk v) buffer).
    { unfold patch. by rewrite Hsl. }
    assert (Hbl : zlen (patch copied (slice offset chunk v) buffer) = zlen buffer).
    { apply zlen_patch; lia. }
    rewrite Hb'. destruct (Z.eqb_spec (copied + chunk) bytes) as [Hend|Hgo].
    + replace (bytes - copied) with chunk by lia. split; [lia|]. rewrite slice_app_l by lia. done.
    + specialize (IH 0 (patch copied (slice offset chunk v) buffer) (copied + chunk) ltac:(lia) ltac:(lia) ltac:(lia)).
      destruct (copy_from_bio vs 0 _ bytes (copied + chunk)) as [[[]|e] buf']; [|lia].
      destruct IH as [Hfit ->]. split; [lia|].
      replace (bytes - copied) with (chunk + (bytes - (copied + chunk))) by lia.
      rewrite slice_split, slice_app_l, slice_app_r by lia.
      replace (offset + chunk - zlen v) with 0 by lia.
      pose proof (patch_patch copied (slice offset chunk v)
        (slice 0 (bytes - (copied + chunk)) (gather vs)) buffer (proj1 Hc)) as Hpp.
      rewrite Hsl in Hpp. apply Hpp. rewrite zlen_app, Hsl, zlen_slice; lia.
Qed.

(** ** Disks *)

Definition disk : Type := Z -> block.

Definition disk_full (D : disk) : Prop := forall k, zlen (D k) = 4096.

(** The byte at an address. *)
Definition dbyte (D : disk) (a : Z) : Byte.byte := (D (a / 4096)).[a mod 4096].

(** Reading [n] bytes from [lo] on, and writing bytes from [lo] on. *)
Definition dread (D : disk) (lo n : Z) : list Byte.byte := dbyte D <$> seqZ lo n.

Definition dwrite (D : disk) (lo : Z) (data : list Byte.byte) : disk := fun k =>
  (fun i => let a := 4096 * k + i in
     if (lo <=? a) && (a <? lo + zlen data) then data.[a - lo] else (D k).[i])
  <$> seqZ 0 4096.

Lemma zlen_fmap_seqZ {A} (f : Z -> A) lo n : 0 <= n -> zlen (f <$> seqZ lo n) = n.
Proof. unfold zlen. intros. rewrite length_fmap, length_seqZ. lia. Qed.

Lemma zlookup_fmap_seqZ (f : Z -> Byte.byte) lo n i :
  0 <= i < n -> (f <$> seqZ lo n).[i] = f (lo + i).
Proof.
  intros Hi. apply list_lookup_total_correct. rewrite list_lookup_fmap.
  rewrite lookup_seqZ_lt by lia. cbn. f_equal. f_equal. lia.
Qed.

Lemma dbyte_in D k i : 0 <= i < 4096 -> dbyte D (4096 * k + i) = (D k).[i].
Proof.
  intros Hi. unfold dbyte. replace (4096 * k + i) with (i + k * 4096) by lia.
  rewrite Z.div_add, Z_mod_plus_full, Z.div_small, Z.mod_small by lia. done.
Qed.

Lemma block_address a : a = 4096 * (a / 4096) + a mod 4096 /\ 0 <= a mod 4096 < 4096.
Proof. split; [apply Z.div_mod; lia|apply Z.mod_pos_bound; lia]. Qed.

Lemma dwrite_full D lo data : disk_full (dwrite D lo data).
Proof. intros k. by apply zlen_fmap_seqZ. Qed.

Lemma dwrite_byte D lo data a :
  dbyte (dwrite D lo data) a =
    if (lo <=? a) && (a <? lo + zlen data) then data.[a - lo] else dbyte D a.
Proof.
  destruct (block_address a) as [Ha Hm]. rewrite Ha at 1. rewrite dbyte_in by done.
  unfold dwrite. rewrite zlookup_fmap_seqZ by done. cbv zeta. rewrite Z.add_0_l, <- Ha. done.
Qed.

Lemma disk_ext D D' :
  disk_full D -> disk_full D' -> (forall a, dbyte D a = dbyte D' a) -> forall k, D k = D' k.
Proof.
  intros Hf Hf' Hb k. apply zlist_ext; [by rewrite Hf, Hf'|]. rewrite Hf. intros i Hi.
  by rewrite <- !dbyte_in, Hb.
Qed.

Lemma dread_split D lo m n :
  0 <= m -> 0 <= n -> dread D lo (m + n) = dread D lo m ++ dread D (lo + m) n.
Proof. intros. unfold dread. by rewrite seqZ_app, fmap_app by lia. Qed.

Lemma dread_block D k o n :
  disk_full D -> 0 <= o -> 0 <= n -> o + n <= 4096 -> dread D (4096 * k + o) n = slice o n (D k).
Proof.
  intros Hf Ho Hn Hon. assert (Hl : zlen (slice o n (D k)) = n) by (apply zlen_slice; rewrite ?Hf; lia).
  apply zlist_ext; [by rewrite Hl; apply zlen_fmap_seqZ|].
  unfold dread. rewrite zlen_fmap_seqZ by done. intros i Hi.
  rewrite zlookup_fmap_seqZ, slice_lookup by lia. rewrite <- Z.add_assoc. apply dbyte_in. lia.
Qed.

Lemma dwrite_block D k o data :
  disk_full D -> 0 <= o -> o + zlen data <= 4096 ->
  forall j, dwrite D (4096 * k + o) data j = if bool_decide (j = k) then patch o data (D k) else D j.
Proof.
  intros Hf Ho Hl j. pose proof (zlen_nonneg data) as Hd0. apply zlist_ext.
  { rewrite dwrite_full. case_bool_decide; [rewrite zlen_patch; rewrite ?Hf; lia|by rewrite Hf]. }
  rewrite dwrite_full. intros i Hi. unfold dwrite. rewrite zlookup_fmap_seqZ by done. cbv zeta.
  rewrite Z.add_0_l. case_bool_decide as Hj.
  - subst j. rewrite patch_lookup by (rewrite ?Hf; lia).
    replace (4096 * k + i - (4096 * k + o)) with (i - o) by lia.
    destruct (Z.leb_spec (4096 * k + o) (4096 * k + i)), (Z.leb_spec o i); try lia; cbn [andb]; [|done].
    destruct (Z.ltb_spec (4096 * k + i) (4096 * k + o + zlen data)), (Z.ltb_spec i (o + zlen data));
      try lia; done.
  - destruct (Z.leb_spec (4096 * k + o) (4096 * j + i)),
      (Z.ltb_spec (4096 * j + i) (4096 * k + o + zlen data)); try lia; done.
Qed.

Lemma dwrite_dwrite D lo d1 d2 :
  disk_full D -> forall k, dwrite (dwrite D lo d1) (lo + zlen d1) d2 k = dwrite D lo (d1 ++ d2) k.
Proof.
  intros Hf. apply disk_ext; [apply dwrite_full..|]. intros a. rewrite !dwrite_byte, zlen_app.
  pose proof (zlen_nonneg d1). pose proof (zlen_nonneg d2).
  destruct (Z.leb_spec lo a) as [Hoi|Hoi]; cbn [andb]; [rewrite zlookup_app by lia|].
  all: destruct (Z.leb_spec (lo + zlen d1) a), (Z.ltb_spec a (lo + zlen d1 + zlen d2)),
    (Z.ltb_spec a (lo + zlen d1)), (Z.ltb_spec a (lo + (zlen d1 + zlen d2))),
    (Z.ltb_spec (a - lo) (zlen d1)); cbn [andb]; try lia; try done; f_equal; lia.
Qed.

Lemma dwrite_nil D lo : disk_full D -> forall k, dwrite D lo [] k = D k.
Proof.
  intros Hf. apply disk_ext; [apply dwrite_full|done|]. intros a. rewrite dwrite_byte.
  unfold zlen. cbn [length]. destruct (Z.leb_spec lo a), (Z.ltb_spec a (lo + Z.of_nat 0)); try lia; done.
Qed.

Lemma patch_nil off l : 0 <= off -> patch off [] l = l.
Proof.
  intros. unfold patch, zlen. cbn [length app]. replace (off + Z.of_nat 0) with off by lia.
  apply take_drop.
Qed.

Lemma slice_all l : slice 0 (zlen l) l = l.
Proof. unfold slice, zlen. rewrite drop_0, Nat2Z.id. apply take_ge. lia. Qed.

(** A patch that covers everything. *)
Lemma patch_all new l : zlen new = zlen l -> patch 0 new l = new.
Proof.
  unfold patch, zlen. intros Hl. rewrite take_0, Z.add_0_l, drop_ge by lia. apply app_nil_r.
Qed.

(** ** Requests *)

(** A request the target accepts: whole sectors inside [N] blocks. *)
Record bio_valid (N : Z) (b : bio) : Prop := {
  bv_wf : bio_wf b;
  bv_size : bi_size b < 4294967296;
  bv_data : bio_op b = REQ_OP_READ \/ bio_op b = REQ_OP_WRITE ->
    0 < bi_size b /\ bi_sector b + bio_sectors b <= 8 * N;
}.

(** What serving a bio means for a disk.  A read returns the bytes of its range or an
    error of the environment; a write stores all its bytes or, with an error, those
    of some of its leading blocks; nothing else changes the disk. *)
Inductive disk_step `{BlockDevice} (D : disk) (b : bio) : result bio -> disk -> Prop :=
| step_read b' :
    bio_op b = REQ_OP_READ -> length <$> bi_vecs b' = length <$> bi_vecs b ->
    gather (bi_vecs b') = dread D (512 * bi_sector b) (bi_size b) ->
    disk_step D b (Ok b') D
| step_read_error e : bio_op b = REQ_OP_READ -> io_error e -> disk_step D b (Err e) D
| step_write b' :
    bio_op b = REQ_OP_WRITE ->
    disk_step D b (Ok b') (dwrite D (512 * bi_sector b) (gather (bi_vecs b)))
| step_write_torn e m :
    bio_op b = REQ_OP_WRITE -> 0 <= m < bio_sectors b ->
    m = 0 \/ (bi_sector b + m) mod 8 = 0 ->
    disk_step D b (Err e) (dwrite D (512 * bi_sector b) (slice 0 (512 * m) (gather (bi_vecs b))))
| step_flush r : bio_op b = REQ_OP_FLUSH -> disk_step D b r D
| step_other e : bio_op b = REQ_OP_OTHER -> disk_step D b (Err e) D.

(** ** Partial requests *)

(** The part of a request that falls into its first block. *)
Record fragment (sector remaining : Z) (k o n : Z) : Prop := {
  fr_sector : sector = 8 * k + o;
  fr_offset : 0 <= o < 8;
  fr_count : 0 < n <= remaining;
  fr_inside : o + n <= 8;
  fr_rest : n = remaining \/ o + n = 8;
  fr_block : 0 <= k;
}.

Lemma fragment_first sector remaining :
  0 <= sector -> 0 < remaining ->
  fragment sector remaining (sector / 8) (sector mod 8) (Z.min remaining (8 - sector mod 8)).
Proof.
  intros Hs Hr. pose proof (Z.mod_pos_bound sector 8 ltac:(lia)).
  pose proof (Z.div_mod sector 8 ltac:(lia)). pose proof (Z.div_pos sector 8 Hs ltac:(lia)).
  constructor; lia.
Qed.

(** The machine arithmetic of one round. *)
Lemma fragment_arith sector remaining k o n :
  fragment sector remaining k o n -> 0 <= remaining < 8388608 -> sector < 18446744073709551616 ->
  u32 (sector mod 8) = o /\ Z.min remaining (u32 (8 - o)) = n /\
  u32 (Z.shiftl n SECTOR_SHIFT) = 512 * n /\ Z.shiftl o SECTOR_SHIFT = 512 * o /\
  u64 (sector - o) = 8 * k /\ u32 (remaining - n) = remaining - n.
Proof.
  intros [-> Ho Hn Hin Hrest Hk] Hr Hs. rewrite !Z.shiftl_mul_pow2 by done.
  change (2 ^ SECTOR_SHIFT) with 512. replace (8 * k + o) with (o + k * 8) by lia.
  rewrite Z_mod_plus_full, (Z.mod_small o) by lia. unwrap. lia.
Qed.

(** Fragments are copied exactly.  Copying [bytes] bytes between a buffer and a bio
    of arbitrary segments, from any offset, moves precisely those bytes and leaves all
    others, and the sizes of the segments, as they were; it fails with [-EIO] exactly
    when the bio is too short. *)
Theorem copy_fragment_exact vecs offset buffer bytes :
  0 <= offset -> 0 < bytes -> bytes <= zlen buffer ->
  (match copy_to_bio vecs offset buffer bytes 0 with
   | (Ok _, vecs') => offset + bytes <= zlen (gather vecs) /\
       length <$> vecs' = length <$> vecs /\
       gather vecs' = patch offset (slice 0 bytes buffer) (gather vecs)
   | (Err e, _) => e = - EIO /\ zlen (gather vecs) < offset + bytes
   end) /\
  (match copy_from_bio vecs offset buffer bytes 0 with
   | (Ok _, buffer') => offset + bytes <= zlen (gather vecs) /\
       buffer' = patch 0 (slice offset bytes (gather vecs)) buffer
   | (Err e, _) => e = - EIO /\ zlen (gather vecs) < offset + bytes
   end).
Proof.
  intros Ho Hb Hl.
  pose proof (copy_to_bio_spec vecs offset buffer bytes 0 Ho ltac:(lia) Hl) as H1.
  pose proof (copy_from_bio_spec vecs offset buffer bytes 0 Ho ltac:(lia) Hl) as H2.
  rewrite Z.sub_0_r in H1, H2. split.
  - destruct (copy_to_bio vecs offset buffer bytes 0) as [[[]|e] vecs']; tauto.
  - destruct (copy_from_bio vecs offset buffer bytes 0) as [[[]|e] buffer']; tauto.
Qed.

Module CopyExamples.

Lemma copy_fragment_exact_witness :
  match copy_to_bio [[Byte.x00; Byte.x00]; [Byte.x00]] 1 [Byte.x41; Byte.x42; Byte.x43] 2 0 with
  | (Ok _, vecs') => 1 + 2 <= 3 /\ gather vecs' = [Byte.x00; Byte.x41; Byte.x42]
  | (Err e, _) => e = - EIO
  end.
Proof.
  destruct (copy_fragment_exact [[Byte.x00; Byte.x00]; [Byte.x00]] 1
    [Byte.x41; Byte.x42; Byte.x43] 2 ltac:(lia) ltac:(lia) ltac:(cbv; discriminate)) as [H1 _].
  vm_compute in H1. vm_compute. destruct H1 as (_ & _ & H1). split; [discriminate|exact H1].
Defined.

End CopyExamples.
