(* ===== verification/LsmServe.v ===== *)
(** Serving bios on top of a store of blocks.  The I/O worker turns every bio, aligned or
    not, into reads and writes of whole blocks.  [ReadableStore] and [WritableStore]
    say what it expects of the engine below; against these interfaces it is proved
    that the worker makes a disk of them.  LsmDisk gives the instance every engine
    is, LsmProgress the one a healthy engine is. *)
From S2P Require Import Prelude Kernel ZonedRam Zone Allocator GcPolicy XArray Bytes RbTree.
From S2P Require Import Memtable Sstable Super Lsm LsmFlush Bio LsmIo LsmRefine Disk.

(** ** What the worker relies on

    [holds s D] relates states of the machine and the engine to disks; [rf] and [wf] are
    the errors that a read and a write may end with. *)
Section Stores.
Context `{BlockDeviceLaws} `{Crc32} `{XArray} `{RbTree}.
Abbreviation state := (world * zns_lsm)%type.

Class ReadableStore (holds : state -> disk -> Prop) (rf : Z -> Prop) : Prop := {
  bs_full : forall s D, holds s D -> disk_full D;
  bs_spb : forall s D, holds s D -> l_sectors_per_block (snd s) = 8;
  bs_error : forall e, rf e -> io_error e;
  bs_kmalloc : forall s D, holds s D ->
    ends (on_world (on_mem kmalloc) s) (fun _ s' => holds s' D) (fun e s' => holds s' D /\ rf e);
  (** The block is found, or was never written. *)
  bs_lookup : forall k s D, holds s D -> 0 <= k ->
    ends (zns_lsm_read (8 * k) 8 s)
      (fun p s' => holds s' D /\ dev_block (w_dev (fst s')) p = D k)
      (fun e s' => holds s' D /\ (e = - ENODATA /\ D k = zero_block \/ e <> - ENODATA /\ rf e));
  bs_block_read : forall p buffer s D, holds s D ->
    ends (on_world (zns_block_read p buffer) s)
      (fun b s' => holds s' D /\ b = dev_block (w_dev (fst s)) p) (fun e s' => holds s' D /\ rf e);
  bs_submit_read : forall b s D, holds s D -> bio_op b = REQ_OP_READ ->
    ends (on_world (submit_bio b) s)
      (fun b' s' => holds s' D /\
         b' = set_vecs (scatter (dev_block (w_dev (fst s)) (bi_sector b)) (bi_vecs b)) b)
      (fun e s' => holds s' D /\ rf e);
}.

Context `{ZnsGcPolicy} (params : lsm_params) (N : Z).

Class WritableStore (holds : state -> disk -> Prop) (rf wf : Z -> Prop) : Prop := {
  bs_readable :: ReadableStore holds rf;
  bs_ext : forall s D D', holds s D -> disk_full D' -> (forall k, D k = D' k) -> holds s D';
  bs_weaken : forall e, rf e -> wf e;
  bs_stopped : forall s D, holds s D -> t_writes_stopped (l_attempts (snd s)) = true -> wf (- EIO);
  (** A block is replaced, or nothing happens. *)
  bs_append : forall k src b s D, holds s D -> 0 <= k < N -> source_data src b -> zlen b = 4096 ->
    ends (zns_lsm_append_write params (8 * k) src s)
      (fun _ s' => holds s' (fun j => if bool_decide (j = k) then b else D j))
      (fun e s' => holds s' D /\ wf e);
  bs_submit_flush : forall b s D, holds s D -> bio_op b = REQ_OP_FLUSH ->
    ends (on_world (submit_bio b) s) (fun _ s' => holds s' D) (fun e s' => holds s' D /\ wf e);
}.

End Stores.

(** ** Reading *)
Section Reading.
Context `{BlockDeviceLaws} `{Crc32} `{XArray} `{RbTree}.
Context (holds : world * zns_lsm -> disk -> Prop) (rf : Z -> Prop) `{!ReadableStore holds rf}.

Definition failed (D : disk) (e : Z) (s : world * zns_lsm) : Prop := holds s D /\ rf e.

Lemma read_block_ends k buffer s D :
  holds s D -> 0 <= k ->
  ends (read_block_or_zero (8 * k) buffer s) (fun b s' => holds s' D /\ b = D k) (failed D).
Proof.
  intros Hh Hk. unfold read_block_or_zero. apply ends_gets. rewrite (bs_spb s D Hh).
  eapply ends_attempt; [exact (bs_lookup k s D Hh Hk)|..].
  - intros p s1 [Hh1 Hp]. eapply ends_weaken; [exact (bs_block_read p buffer s1 D Hh1)| |done].
    cbn. intros b s2 [Hh2 ->]. by rewrite Hp.
  - intros e s1 [Hh1 [[-> Hz]|[Hne Hr]]]; [by rewrite Z.eqb_refl|].
    by rewrite (proj2 (Z.eqb_neq _ _) Hne).
Qed.

(** The bytes of a range, round by round. *)
Lemma read_loop_ends D fuel sector remaining off buffer vecs s :
  holds s D -> 0 <= sector -> sector + remaining < 18446744073709551616 ->
  0 <= remaining <= Z.of_nat fuel -> 0 <= off ->
  off + 512 * remaining = zlen (gather vecs) -> zlen (gather vecs) < 4294967296 ->
  ends (read_partial_loop fuel sector remaining off buffer vecs s)
    (fun vecs' s' => holds s' D /\ length <$> vecs' = length <$> vecs /\
       gather vecs' = patch off (dread D (512 * sector) (512 * remaining)) (gather vecs))
    (failed D).
Proof.
  revert sector remaining off buffer vecs s. induction fuel as [|fuel IH];
    intros sector remaining off buffer vecs s Hh Hs Hend Hfuel Hoff Hsize Hmax.
  { cbn. replace remaining with 0 by lia. split_and!; [done|done|]. by rewrite patch_nil. }
  cbn [read_partial_loop]. destruct (Z.eqb_spec remaining 0) as [->|Hne0].
  { split_and!; [done|done|]. by rewrite patch_nil. }
  apply ends_gets. rewrite (bs_spb s D Hh). cbv zeta.
  pose proof (fragment_first sector remaining Hs ltac:(lia)) as Hfr.
  set (k := sector / 8) in *. set (o := sector mod 8) in *. set (n := Z.min _ _) in Hfr.
  destruct (fragment_arith _ _ _ _ _ Hfr ltac:(lia) ltac:(lia)) as (E1 & E2 & E3 & E4 & E5 & E6).
  fold o in E1. rewrite E1, E2, E3, E4, E5, E6. destruct Hfr as [Hsec Ho Hn Hin Hrest Hk].
  clearbody k o n. clear E1 E2 E3 E4 E5 E6.
  eapply ends_bind; [exact (read_block_ends k buffer s D Hh Hk)|]. intros b s1 [Hh1 ->].
  pose proof (bs_full s D Hh) as Hfull. pose proof (Hfull k) as Hlen.
  assert (Hdl : zlen (drop (Z.to_nat (512 * o)) (D k)) = 4096 - 512 * o).
  { unfold zlen in *. rewrite length_drop. lia. }
  pose proof (copy_to_bio_spec vecs off (drop (Z.to_nat (512 * o)) (D k)) (512 * n) 0
    Hoff ltac:(lia) ltac:(lia)) as Hcp.
  destruct (copy_to_bio vecs off _ (512 * n) 0) as [[[]|e] vecs1]; destruct Hcp as (Hlens & Hcp);
    [|lia].
  destruct Hcp as [_ Hg1]. rewrite Z.sub_0_r in Hg1. unwrap.
  assert (Hsl : slice 0 (512 * n) (drop (Z.to_nat (512 * o)) (D k)) = dread D (512 * sector) (512 * n)).
  { replace (512 * sector) with (4096 * k + 512 * o) by lia. rewrite dread_block by (done || lia).
    unfold slice. by rewrite drop_drop, Nat.add_0_r. }
  rewrite Hsl in Hg1.
  assert (Hdr : zlen (dread D (512 * sector) (512 * n)) = 512 * n) by (apply zlen_fmap_seqZ; lia).
  assert (Hg1l : zlen (gather vecs1) = zlen (gather vecs)).
  { rewrite Hg1. apply zlen_patch; lia. }
  eapply ends_weaken; [apply (IH (sector + n) (remaining - n) (off + 512 * n) (D k) vecs1 s1 Hh1); lia|
    |done].
  cbn. intros vecs2 s2 (Hh2 & Hl2 & Hg2). split; [done|]. split; [congruence|]. rewrite Hg2, Hg1.
  replace (512 * remaining) with (512 * n + 512 * (remaining - n)) by lia.
  rewrite dread_split by lia.
  replace (512 * (sector + n)) with (512 * sector + 512 * n) by lia.
  rewrite <- (patch_patch off) by
    (rewrite ?zlen_app, ?Hdr; unfold dread; rewrite ?zlen_fmap_seqZ by lia; lia).
  by rewrite Hdr.
Qed.

(** What a read bio must be answered with. *)
Definition read_answer (D : disk) (b b' : bio) : Prop :=
  length <$> bi_vecs b' = length <$> bi_vecs b /\
  gather (bi_vecs b') = dread D (512 * bi_sector b) (bi_size b).

Lemma read_partial_ends N D b s :
  N < 4294967296 -> holds s D -> bio_valid N b -> bio_op b = REQ_OP_READ ->
  ends (zns_lsm_read_partial b s) (fun b' s' => holds s' D /\ read_answer D b b') (failed D).
Proof.
  intros HN Hh [[Hsz Hsc Hst] Hmax Hdata] Hop. destruct (Hdata ltac:(by left)) as [Hpos Hin].
  unfold zns_lsm_read_partial. eapply ends_bind; [exact (bs_kmalloc s D Hh)|]. intros [] s1 Hh1.
  eapply ends_bind.
  { apply (read_loop_ends D _ (bi_sector b) (bio_sectors b) 0 zero_block (bi_vecs b) s1 Hh1 Hst); lia. }
  intros vecs s2 (Hh2 & Hl & Hg). split; [done|]. split; [done|]. cbn [bi_vecs set_vecs].
  rewrite Hg, Hsc. apply patch_all. rewrite <- Hsz, Hsc. apply zlen_fmap_seqZ. lia.
Qed.

(** A read of one whole block goes straight into the pages of the bio. *)
Lemma read_aligned_ends D b k s :
  holds s D -> bio_wf b -> bio_op b = REQ_OP_READ ->
  bi_sector b = 8 * k -> bio_sectors b = 8 -> 0 <= k ->
  ends ((r <- attempt (zns_lsm_read (bi_sector b) (bio_sectors b)) ;;
    match r with
    | Err e => if e =? - ENODATA then ret (zero_fill_bio b) else Prelude.fail e
    | Ok physical_sector =>
        clone <- on_world (submit_bio (set_sector physical_sector b)) ;;
        ret (set_vecs (bi_vecs clone) b)
    end) s) (fun b' s' => holds s' D /\ read_answer D b b') (failed D).
Proof.
  intros Hh [Hsz Hsc _] Hop Hsec Hn Hk. rewrite Hsec, Hn.
  pose proof (bs_full s D Hh k) as Hlen.
  assert (Hgl : length (gather (bi_vecs b)) = 4096%nat) by (unfold zlen in Hsz; lia).
  assert (Hrange : dread D (512 * bi_sector b) (bi_size b) = D k).
  { replace (512 * bi_sector b) with (4096 * k + 0) by lia. rewrite Hsc, Hn.
    rewrite dread_block by (apply (bs_full s D Hh) || lia). change (512 * 8) with 4096.
    rewrite <- Hlen. apply slice_all. }
  eapply ends_attempt; [exact (bs_lookup k s D Hh Hk)|..].
  - intros p s1 [Hh1 Hp]. eapply ends_bind.
    { exact (bs_submit_read (set_sector p b) s1 D Hh1 Hop). }
    intros b' s2 [Hh2 ->]. split; [done|]. unfold read_answer. cbn. rewrite Hp, Hrange. unfold zlen in Hlen.
    split; [apply scatter_lengths; lia|apply gather_scatter; lia].
  - intros e s1 [Hh1 [[-> Hz]|[Hne Hr]]].
    + rewrite Z.eqb_refl. split; [done|]. unfold read_answer. cbn [bi_vecs set_vecs zero_fill_bio].
      rewrite zero_fill_gather, Hgl, Hrange, Hz, zero_block_bytes.
      split; [|done]. rewrite <- list_fmap_compose. apply list_fmap_ext. intros i v _.
      apply length_replicate.
    + rewrite (proj2 (Z.eqb_neq _ _) Hne). done.
Qed.

End Reading.

(** ** Writing *)
Section Writing.
Context `{BlockDeviceLaws} `{Crc32} `{XArray} `{RbTree} `{ZnsGcPolicy}.
Context (params : lsm_params) (N : Z) (HN : N < 4294967296).
Context (holds : world * zns_lsm -> disk -> Prop) (rf wf : Z -> Prop).
Context `{!WritableStore params N holds rf wf}.

(** A write that stores a prefix of the data: everything, or what ends at a block
    boundary. *)
Definition wrote (D : disk) (sector remaining : Z) (data : list Byte.byte) (done_ : bool)
    (s : world * zns_lsm) : Prop :=
  exists m, (if done_ then m = remaining else 0 <= m < remaining /\ (m = 0 \/ (sector + m) mod 8 = 0)) /\
    holds s (dwrite D (512 * sector) (slice 0 (512 * m) data)).

Lemma holds_nothing_written D sector data s :
  holds s D -> holds s (dwrite D (512 * sector) (slice 0 (512 * 0) data)).
Proof.
  intros Hh. pose proof (bs_full s D Hh). eapply (bs_ext params N s); [exact Hh|apply dwrite_full|].
  intros j. symmetry. by apply dwrite_nil.
Qed.

Lemma wrote_nothing D sector remaining data s :
  holds s D -> 0 < remaining -> wrote D sector remaining data false s.
Proof. intros Hh Hr. exists 0. split; [lia|by apply holds_nothing_written]. Qed.

(** Continuing after [n] sectors. *)
Lemma wrote_more D sector remaining data n ok s :
  disk_full D -> 0 <= n -> n <= remaining -> (sector + n) mod 8 = 0 \/ n = remaining ->
  512 * remaining <= zlen data ->
  wrote (dwrite D (512 * sector) (slice 0 (512 * n) data)) (sector + n) (remaining - n)
    (drop (Z.to_nat (512 * n)) data) ok s ->
  wrote D sector remaining data ok s.
Proof.
  intros Hf Hn Hnr Hal Hlen (m & Hm & Hh). exists (n + m).
  assert (Hm0 : 0 <= m) by (destruct ok; lia). split.
  { destruct ok; [lia|]. split; [lia|]. right.
    destruct Hal as [Hal|]; [|lia]. destruct Hm as [_ [-> |Hb]]; [by rewrite Z.add_0_r|].
    by rewrite Z.add_assoc. }
  eapply (bs_ext params N s); [exact Hh|apply dwrite_full|]. intros j.
  assert (Hsl : zlen (slice 0 (512 * n) data) = 512 * n) by (apply zlen_slice; lia).
  replace (512 * (sector + n)) with (512 * sector + zlen (slice 0 (512 * n) data)) by lia.
  rewrite dwrite_dwrite by done.
  replace (512 * (n + m)) with (512 * n + 512 * m) by lia. by rewrite slice_split by lia.
Qed.

(** The block of a partial write: read, or taken from the last round where all of it
    is replaced. *)
Lemma partial_block_ends k o n buffer s D :
  holds s D -> 0 <= k -> 0 <= o -> 0 < n -> o + n <= 8 -> zlen buffer = 4096 ->
  ends ((if negb (o =? 0) || negb (n =? 8)
         then read_block_or_zero (8 * k) buffer else ret buffer) s)
    (fun b s' => holds s' D /\ zlen b = 4096 /\
       forall new, zlen new = 512 * n -> patch (512 * o) new b = patch (512 * o) new (D k))
    (fun e s' => holds s' D /\ wf e).
Proof.
  intros Hh Hk Ho Hn Hon Hb. pose proof (bs_full s D Hh k) as Hfull.
  destruct (negb (o =? 0) || negb (n =? 8)) eqn:Epart.
  - eapply ends_weaken; [exact (read_block_ends holds rf k buffer s D Hh Hk)|..]; cbn.
    + intros b s1 [Hh1 ->]. done.
    + intros e s1 [Hh1 Hr]. split; [done|exact (bs_weaken params N e Hr)].
  - guards. subst. cbn. split; [done|]. split; [done|]. intros new Hnew.
    rewrite !patch_all; lia || done.
Qed.

(** One round: the fragment of the first block. *)
Lemma write_round_ends D k o n blk data f s :
  holds s D -> 0 <= k < N -> 0 <= o -> 0 < n -> o + n <= 8 -> opf_op f = REQ_OP_WRITE ->
  zlen blk = 4096 -> (forall new, zlen new = 512 * n -> patch (512 * o) new blk = patch (512 * o) new (D k)) ->
  zlen data = 512 * n ->
  let new := take (Z.to_nat (512 * o)) blk ++ patch 0 data (drop (Z.to_nat (512 * o)) blk) in
  zlen new = 4096 /\
  ends (zns_lsm_append_write params (8 * k) (SrcBuffer new f) s)
    (fun _ s' => holds s' (dwrite D (4096 * k + 512 * o) data)) (fun e s' => holds s' D /\ wf e).
Proof.
  intros Hh Hk Ho Hn Hon Hf Hb Hpatch Hd new. pose proof (bs_full s D Hh) as Hfull.
  assert (Hnew : new = patch (512 * o) data (D k)).
  { rewrite <- Hpatch by done. unfold new, patch. rewrite take_0, drop_drop. cbn [app]. do 4 f_equal. lia. }
  assert (Hl : zlen new = 4096) by (rewrite Hnew, zlen_patch; rewrite ?Hfull; lia).
  split; [done|]. clearbody new.
  eapply ends_weaken; [by apply (bs_append params N k (SrcBuffer new f) new s D Hh Hk)| |done].
  cbn. intros _ s1 Hh1. eapply (bs_ext params N s1); [exact Hh1|apply dwrite_full|]. intros j.
  rewrite dwrite_block by (done || lia). by rewrite <- Hnew.
Qed.

Lemma write_loop_ends fuel b sector remaining off buffer s D :
  bio_op b = REQ_OP_WRITE -> holds s D -> 0 <= sector -> sector + remaining <= 8 * N ->
  0 <= remaining <= Z.of_nat fuel -> 0 <= off -> zlen buffer = 4096 ->
  off + 512 * remaining = zlen (gather (bi_vecs b)) -> zlen (gather (bi_vecs b)) < 4294967296 ->
  let data := drop (Z.to_nat off) (gather (bi_vecs b)) in
  ends (write_partial_loop params fuel b sector remaining off buffer s)
    (fun _ s' => wrote D sector remaining data true s')
    (fun e s' => wrote D sector remaining data false s' /\ wf e).
Proof.
  intros Hop. revert sector remaining off buffer s D. induction fuel as [|fuel IH];
    intros sector remaining off buffer s D Hh Hs Hend Hfuel Hoff Hbuf Hsize Hmax data.
  { cbn. exists 0. split; [lia|by apply holds_nothing_written]. }
  cbn [write_partial_loop]. destruct (Z.eqb_spec remaining 0) as [->|Hne0].
  { exists 0. split; [done|by apply holds_nothing_written]. }
  apply ends_gets. rewrite (bs_spb s D Hh). cbv zeta.
  pose proof (fragment_first sector remaining Hs ltac:(lia)) as Hfr.
  set (k := sector / 8) in *. set (o := sector mod 8) in *. set (n := Z.min _ _) in Hfr.
  destruct (fragment_arith _ _ _ _ _ Hfr ltac:(lia) ltac:(lia)) as (E1 & E2 & E3 & E4 & E5 & E6).
  fold o in E1. rewrite E1, E2, E3, E4, E5, E6. destruct Hfr as [Hsec Ho Hn Hin Hrest Hk].
  clearbody k o n. clear E1 E2 E3 E4 E5 E6.
  eapply ends_bind.
  { eapply ends_weaken; [apply (partial_block_ends k o n buffer s D Hh Hk); lia|done|].
    intros e s1 [Hh1 He]. split; [by apply wrote_nothing; [|lia]|exact He]. }
  intros blk s1 (Hh1 & Hblk & Hpatch).
  assert (Hdl : zlen (drop (Z.to_nat (512 * o)) blk) = 4096 - 512 * o).
  { unfold zlen in *. rewrite length_drop. lia. }
  pose proof (copy_from_bio_spec (bi_vecs b) off (drop (Z.to_nat (512 * o)) blk) (512 * n) 0
    Hoff ltac:(lia) ltac:(lia)) as Hcp.
  destruct (copy_from_bio (bi_vecs b) off _ (512 * n) 0) as [[[]|e] tail]; [|lia].
  destruct Hcp as [_ ->]. rewrite Z.sub_0_r.
  assert (Hpart : slice off (512 * n) (gather (bi_vecs b)) = slice 0 (512 * n) data).
  { unfold data, slice. by rewrite drop_0. }
  assert (Hdata : zlen data = 512 * remaining) by (unfold data, zlen in *; rewrite length_drop; lia).
  destruct (write_round_ends D k o n blk (slice off (512 * n) (gather (bi_vecs b))) (bi_opf b) s1 Hh1
    ltac:(lia) ltac:(lia) ltac:(lia) Hin Hop Hblk Hpatch ltac:(apply zlen_slice; lia)) as [Hnew Hw].
  rewrite Hpart in Hw. eapply ends_bind.
  { eapply ends_weaken; [exact Hw|intros a s2 Ha; exact Ha|].
    intros e s2 [Hh2 He]. split; [by apply wrote_nothing; [|lia]|exact He]. }
  intros [] s2 Hh2. unwrap. replace (4096 * k + 512 * o) with (512 * sector) in Hh2 by lia.
  assert (Hrest' : drop (Z.to_nat (off + 512 * n)) (gather (bi_vecs b)) = drop (Z.to_nat (512 * n)) data).
  { unfold data. rewrite drop_drop. f_equal. lia. }
  assert (Hb : (sector + n) mod 8 = 0 \/ n = remaining).
  { destruct Hrest; [by right|left]. replace (sector + n) with ((k + 1) * 8) by lia. apply Z_mod_mult. }
  pose proof (bs_full s D Hh) as Hfull.
  specialize (IH (sector + n) (remaining - n) (off + 512 * n) _ s2 _ Hh2 ltac:(lia) ltac:(lia) ltac:(lia)
    ltac:(lia) Hnew ltac:(lia) Hmax). cbv zeta in IH. rewrite Hrest' in IH.
  eapply ends_weaken; [exact IH|..]; cbn.
  - intros _ s3 Hw3. eapply (wrote_more D sector remaining data n); [done|lia..|exact Hb|lia|exact Hw3].
  - intros e s3 [Hw3 He]. split; [|done].
    eapply (wrote_more D sector remaining data n); [done|lia..|exact Hb|lia|exact Hw3].
Qed.

End Writing.

(** ** The I/O worker *)
Section Worker.
Context `{BlockDeviceLaws} `{Crc32} `{XArray} `{RbTree} `{ZnsGcPolicy}.
Context (params : lsm_params) (N : Z) (HN : N < 4294967296).

(** An aligned bio is one block. *)
Lemma aligned_io l b :
  l_sectors_per_block l = 8 -> 0 <= bi_sector b ->
  zns_lsm_is_aligned_io l (bi_sector b) (bio_sectors b) = true ->
  bio_sectors b = 8 /\ bi_sector b = 8 * (bi_sector b / 8) /\ 0 <= bi_sector b / 8.
Proof.
  unfold zns_lsm_is_aligned_io. intros -> Hs Ha. guards. split; [done|].
  split; [apply Z_div_exact_full_2; [lia|done]|apply Z.div_pos; lia].
Qed.

Lemma clone_ends holds rf `{!ReadableStore holds rf} b s D :
  holds s D -> ends (zns_lsm_clone_bio b s) (fun c s' => c = b /\ holds s' D) (failed holds rf D).
Proof.
  intros Hh. unfold zns_lsm_clone_bio. eapply ends_bind; [exact (bs_kmalloc s D Hh)|]. by intros [] s1.
Qed.

(** A read bio, on any store that can be read. *)
Lemma io_worker_read_ends holds rf `{!ReadableStore holds rf} D b s :
  holds s D -> bio_valid N b -> bio_op b = REQ_OP_READ ->
  ends (zns_lsm_io_worker params b s)
    (fun b' s' => holds s' D /\ read_answer D b b') (failed holds rf D).
Proof.
  intros Hh Hb Hop. unfold zns_lsm_io_worker. apply ends_gets. cbv zeta.
  destruct (zns_lsm_is_aligned_io _ _ _) eqn:Ea; cbn [negb andb]; rewrite Hop.
  - destruct (aligned_io _ b (bs_spb s D Hh) (bwf_start b (bv_wf N b Hb)) Ea) as (Hn & Hsec & Hk).
    eapply ends_bind; [by apply clone_ends|]. intros c s1 [-> Hh1].
    apply (read_aligned_ends holds rf D b (bi_sector b / 8)); try done. apply Hb.
  - by apply (read_partial_ends holds rf N).
Qed.

Context (holds : world * zns_lsm -> disk -> Prop) (rf wf : Z -> Prop).
Context `{!WritableStore params N holds rf wf}.

(** A write bio: all of its bytes, or a prefix. *)
Definition stored (D : disk) (b : bio) (ok : bool) (s : world * zns_lsm) : Prop :=
  wrote holds D (bi_sector b) (bio_sectors b) (gather (bi_vecs b)) ok s.

Lemma write_partial_ends D b s :
  holds s D -> bio_valid N b -> bio_op b = REQ_OP_WRITE ->
  ends (zns_lsm_write_partial params b s) (fun _ s' => stored D b true s')
    (fun e s' => stored D b false s' /\ wf e).
Proof.
  intros Hh [[Hsz Hsc Hst] Hmax Hdata] Hop. destruct (Hdata ltac:(by right)) as [Hpos Hin].
  assert (Hnone : forall s0, holds s0 D -> stored D b false s0).
  { intros s0 Hs0. eapply (wrote_nothing params N holds rf wf); [exact Hs0|lia]. }
  unfold zns_lsm_write_partial. apply ends_gets.
  destruct (t_writes_stopped _) eqn:Estop.
  { split; [by apply Hnone|exact (bs_stopped params N s D Hh Estop)]. }
  eapply ends_bind.
  { eapply ends_weaken; [exact (bs_kmalloc s D Hh)|intros a s1 Ha; exact Ha|].
    intros e s1 [Hh1 Hr]. split; [by apply Hnone|exact (bs_weaken params N e Hr)]. }
  intros [] s1 Hh1.
  pose proof (write_loop_ends params N HN holds rf wf (Z.to_nat (bio_sectors b)) b (bi_sector b)
    (bio_sectors b) 0 zero_block s1 D Hop Hh1 Hst ltac:(lia) ltac:(lia) ltac:(lia)
    ltac:(unfold zlen; by rewrite length_zero_block) ltac:(lia) ltac:(lia)) as Hl.
  cbv zeta in Hl. by rewrite drop_0 in Hl.
Qed.

Lemma write_aligned_ends D b k s :
  holds s D -> bio_wf b -> bio_op b = REQ_OP_WRITE ->
  bi_sector b = 8 * k -> bio_sectors b = 8 -> 0 <= k < N ->
  ends (zns_lsm_append_write params (bi_sector b) (SrcClone b) s) (fun _ s' => stored D b true s')
    (fun e s' => stored D b false s' /\ wf e).
Proof.
  intros Hh [Hsz Hsc _] Hop Hsec Hn Hk. rewrite Hsec. pose proof (bs_full s D Hh) as Hfull.
  assert (Hgl : zlen (gather (bi_vecs b)) = 4096) by lia.
  eapply ends_weaken; [by apply (bs_append params N k (SrcClone b) (gather (bi_vecs b)) s D)|..]; cbn.
  - intros _ s1 Hh1. exists (bio_sectors b). split; [done|].
    eapply (bs_ext params N s1); [exact Hh1|apply dwrite_full|]. intros j.
    rewrite <- Hsc, Hsz, slice_all. replace (512 * bi_sector b) with (4096 * k + 0) by lia.
    rewrite dwrite_block, patch_all; rewrite ?Hfull; done || lia.
  - intros e s1 [Hh1 He]. split; [|done]. eapply (wrote_nothing params N holds rf wf); [exact Hh1|lia].
Qed.

Lemma io_worker_write_ends D b s :
  holds s D -> bio_valid N b -> bio_op b = REQ_OP_WRITE ->
  ends (zns_lsm_io_worker params b s) (fun b' s' => b' = b /\ stored D b true s')
    (fun e s' => stored D b false s' /\ wf e).
Proof.
  intros Hh Hb Hop. destruct (bv_data N b Hb ltac:(by right)) as [Hpos Hin].
  pose proof (bv_wf N b Hb) as [Hsz Hsc Hst]. unfold zns_lsm_io_worker. apply ends_gets. cbv zeta.
  destruct (zns_lsm_is_aligned_io _ _ _) eqn:Ea; cbn [negb andb]; rewrite Hop.
  - destruct (aligned_io _ b (bs_spb s D Hh) Hst Ea) as (Hn & Hsec & Hk).
    eapply ends_bind.
    { eapply ends_weaken; [exact (clone_ends holds rf b s D Hh)|intros a s1 Ha; exact Ha|]. intros e s1 [Hh1 Hr].
      split; [|exact (bs_weaken params N e Hr)].
      eapply (wrote_nothing params N holds rf wf); [exact Hh1|lia]. }
    intros c s1 [-> Hh1]. eapply ends_bind.
    { apply (write_aligned_ends D b (bi_sector b / 8)); done || lia. }
    by intros [] s2.
  - eapply ends_bind; [by apply write_partial_ends|]. by intros [] s2.
Qed.

(** What serving a bio of [D] may lead to. *)
Definition served (D : disk) (b : bio) (r : result bio) (s : world * zns_lsm) : Prop :=
  exists D', holds s D' /\ disk_step D b r D'.
Definition refused (D : disk) (b : bio) (e : Z) (s : world * zns_lsm) : Prop :=
  served D b (Err e) s /\ (bio_op b = REQ_OP_OTHER \/ wf e).

(** The worker makes a disk of the store: its answer is one a disk may give, and if it is
    an error, it is one of the store. *)
Lemma io_worker_ends D b s :
  holds s D -> bio_valid N b ->
  ends (zns_lsm_io_worker params b s) (fun b' s' => served D b (Ok b') s') (refused D b).
Proof.
  intros Hh Hb. destruct (bio_op b) eqn:Hop.
  - eapply ends_weaken; [exact (io_worker_read_ends holds rf D b s Hh Hb Hop)|..]; cbn.
    + intros b' s1 [Hh1 [Hl Hg]]. exists D. split; [done|by constructor].
    + intros e s1 [Hh1 Hr]. split; [|right; exact (bs_weaken params N e Hr)]. exists D. split; [done|].
      apply step_read_error; [done|exact (bs_error e Hr)].
  - pose proof (bv_wf N b Hb) as [Hsz Hsc _].
    eapply ends_weaken; [exact (io_worker_write_ends D b s Hh Hb Hop)|..]; cbn.
    + intros b' s1 [-> (m & -> & Hh1)]. rewrite <- Hsc, Hsz, slice_all in Hh1.
      eexists. split; [exact Hh1|by constructor].
    + intros e s1 [(m & [Hm Hal] & Hh1) He]. split; [|by right]. eexists. split; [exact Hh1|].
      by apply step_write_torn.
  - unfold zns_lsm_io_worker. apply ends_gets. rewrite Hop, !andb_false_r.
    eapply ends_bind.
    { eapply ends_weaken; [exact (clone_ends holds rf b s D Hh)|intros a s1 Ha; exact Ha|]. intros e s1 [Hh1 Hr].
      split; [|right; exact (bs_weaken params N e Hr)]. exists D. split; [done|by constructor]. }
    intros c s1 [-> Hh1]. eapply ends_bind.
    { eapply ends_weaken; [exact (bs_submit_flush params N (set_sector 0 b) s1 D Hh1 Hop)|intros a s2 Ha; exact Ha|].
      intros e s2 [Hh2 He]. split; [|by right]. exists D. split; [done|by constructor]. }
    intros c s2 Hh2. exists D. split; [done|by constructor].
  - unfold zns_lsm_io_worker. apply ends_gets. rewrite Hop, !andb_false_r.
    eapply ends_bind.
    { eapply ends_weaken; [exact (clone_ends holds rf b s D Hh)|intros a s1 Ha; exact Ha|]. intros e s1 [Hh1 Hr].
      split; [|by left]. exists D. split; [done|by constructor]. }
    intros c s1 [-> Hh1]. split; [|by left]. exists D. split; [done|by constructor].
Qed.

End Worker.
