(* ===== verification/LsmDisk.v ===== *)
(** The LSM engine as a disk: the store every engine is.  Whatever fails, the contents of
    the engine stay those of a disk, errors of reads come from the environment, and
    the background flush and the garbage collection do not show. *)
From S2P Require Import Prelude Kernel ZonedRam Zone Allocator GcPolicy XArray Bytes RbTree.
From S2P Require Import Memtable Sstable Super Lsm LsmIndex LsmFlush LsmView Bio LsmIo LsmConcurrency LsmRefine.
From S2P Require Import Disk LsmServe.

(** ** The engine holds a disk *)
Section Disk.
Context `{BlockDeviceLaws} `{Crc32} `{XArrayLaws} `{RbTreeLaws} `{ZnsGcPolicy}.
Context (params : lsm_params) (N : Z).

(** A property of the state that follows from the metadata, so that bios keep it. *)
Context (keep : list (list lsm_entry) -> world * zns_lsm -> Prop).
Context (keep_frame : forall ess s s', meta_frame s s' -> keep ess s -> keep ess s').

(** The abstraction relation. *)
Definition represents_with (s : world * zns_lsm) (D : disk) : Prop :=
  disk_full D /\ exists ess, engine_wf N (w_dev (fst s)) (snd s) ess /\
    (forall k, content (w_dev (fst s)) (snd s) ess k = D k) /\ keep ess s.

Lemma represents_ext s D D' :
  represents_with s D -> disk_full D' -> (forall k, D k = D' k) -> represents_with s D'.
Proof.
  intros (_ & ess & Hew & Hc & Hk) Hf Heq. split; [done|]. exists ess. split; [done|].
  split; [|done]. intros k. by rewrite Hc.
Qed.

(** Only the device or the memory was touched, and no block changed. *)
Lemma represents_same_blocks w w' l D :
  same_blocks (w_dev w) (w_dev w') -> represents_with (w, l) D -> represents_with (w', l) D.
Proof.
  intros Hs (Hf & ess & Hew & Hc & Hk). split; [done|]. exists ess. cbn [fst snd] in *.
  split; [|split].
  - eapply engine_set_device; [exact Hew|auto].
  - intros k. rewrite <- Hc. apply content_same; [apply (ew_agree _ _ _ _ Hew)|auto].
  - eapply keep_frame; [|exact Hk]. by constructor; cbn [fst snd]; auto.
Qed.

Lemma represents_mem w w' l D : w_dev w' = w_dev w -> represents_with (w, l) D -> represents_with (w', l) D.
Proof. intros Hd. apply represents_same_blocks. rewrite Hd. apply same_blocks_refl. Qed.

Lemma represents_spb w l D : represents_with (w, l) D -> l_sectors_per_block l = 8.
Proof. intros (_ & ess & Hew & _ & _). apply (ge_spb l (ew_geometry _ _ _ _ Hew)). Qed.
Lemma read_block_frame p buffer w l D r w' :
  represents_with (w, l) D -> zns_block_read p buffer w = (r, w') -> represents_with (w', l) D.
Proof. intros Hrep Hr. apply block_read_spec in Hr as [Hs _]. by eapply represents_same_blocks. Qed.

Lemma append_disk k src b s D :
  N < 4294967296 -> represents_with s D -> 0 <= k < N -> source_data src b -> zlen b = 4096 ->
  let '(r, s') := zns_lsm_append_write params (8 * k) src s in
  represents_with s' (if is_ok r then fun j => if bool_decide (j = k) then b else D j else D).
Proof.
  destruct s as [w l]. intros HN (Hf & ess & Hew & Hc & Hkp) Hk Hsrc Hb. cbn [fst snd] in *.
  pose proof (append_write_outcome params N ess w l k src b Hew HN Hk Hsrc) as Hw.
  destruct (zns_lsm_append_write params (8 * k) src (w, l)) as [r s']. destruct Hw as (Hew' & Hc' & Hfr).
  split.
  - destruct r; cbn [is_ok]; [|done]. intros j. by case_bool_decide.
  - exists ess. split; [done|]. split; [|by eapply keep_frame]. intros j. rewrite Hc'. cbn [fst snd].
    destruct r; cbn [is_ok andb]; [case_bool_decide; [done|apply Hc]|apply Hc].
Qed.

(** ** The store

    Reading it fails only if the machine of the start, [w0], may fail. *)
Definition represents_since (w0 : world) (s : world * zns_lsm) (D : disk) : Prop :=
  represents_with s D /\ fault_free_step w0 (fst s).

Lemma since_start s D : represents_with s D -> represents_since (fst s) s D.
Proof. intros Hr. split; [done|apply fault_free_refl]. Qed.

Context (Hne : no_enodata) (HN : N < 4294967296).

Lemma lookup_ends w0 k s D :
  represents_since w0 s D -> 0 <= k ->
  ends (zns_lsm_read (8 * k) 8 s)
    (fun p s' => represents_since w0 s' D /\ dev_block (w_dev (fst s')) p = D k)
    (fun e s' => represents_since w0 s' D /\
       (e = - ENODATA /\ D k = zero_block \/ e <> - ENODATA /\ faulty w0 e)).
Proof.
  destruct s as [w l]. intros [Hrep Hff] Hk. pose proof Hrep as (_ & ess & Hew & Hc & _). cbn [fst snd] in *.
  destruct (zns_lsm_read (8 * k) 8 (w, l)) as [r [w' l']] eqn:Hrun.
  destruct (lsm_read_outcome N w l ess k r w' l' Hne (ew_store _ _ _ _ Hew)
    (represents_spb w l D Hrep) Hk Hrun) as (-> & Hs & Hff1 & Hr).
  assert (Hsince : represents_since w0 (w', l) D).
  { split; [by eapply represents_same_blocks|]. cbn. faults. }
  specialize (Hc k). unfold content in Hc.
  destruct Hr as [-> |(e & -> & Hfe & He)]; [|split; [done|right; split; [done|faults]]].
  destruct (lsm_view l ess !! k) as [p|]; cbn; (split; [done|]); [by rewrite Hs|by left].
Qed.

Lemma submit_read_ends w0 b s D :
  represents_since w0 s D -> bio_op b = REQ_OP_READ ->
  ends (on_world (submit_bio b) s)
    (fun b' s' => represents_since w0 s' D /\
       b' = set_vecs (scatter (dev_block (w_dev (fst s)) (bi_sector b)) (bi_vecs b)) b)
    (fun e s' => represents_since w0 s' D /\ faulty w0 e).
Proof.
  destruct s as [w l]. intros [Hrep Hff] Hop. cbn [fst] in Hff. unfold bio_op in Hop.
  unfold on_world, submit_bio, on_dev, bind, zoom. cbn [fst snd].
  destruct (bi_opf b) as [op fl]. cbn in Hop. subst op.
  destruct (submit_bio_wait _ (w_dev w)) as [r d'] eqn:E.
  apply device_read_outcome in E as (Hs & Hff1 & Hr).
  assert (Hsince : represents_since w0 (set_dev d' w, l) D).
  { split; [by eapply represents_same_blocks|]. cbn. faults. }
  destruct r as [data|e]; cbn; (split; [done|]); [by rewrite Hr|faults].
Qed.

#[local] Instance represents_since_readable w0 : ReadableStore (represents_since w0) (faulty w0).
Proof.
  constructor.
  - intros s D [Hrep _]. apply Hrep.
  - intros [w l] D [Hrep _]. by eapply represents_spb.
  - intros e He. apply He.
  - intros [w l] D [Hrep Hff]. unfold on_world, zoom. cbn [fst snd].
    destruct (on_mem kmalloc w) as [r w1] eqn:E. apply on_mem_outcome in E as (Hd & Hff1 & He).
    assert (Hsince : represents_since w0 (w1, l) D).
    { split; [by eapply represents_mem|]. cbn in *. faults. }
    destruct r; [done|]. split; [done|]. cbn in *. faults.
  - intros k s D Hs Hk. by apply lookup_ends.
  - intros p buffer [w l] D [Hrep Hff]. unfold on_world, zoom. cbn [fst snd] in *.
    destruct (zns_block_read p buffer w) as [r w1] eqn:E.
    pose proof (read_block_frame _ _ _ _ _ _ _ Hrep E) as Hrep1.
    apply block_read_outcome in E as (_ & Hff1 & Hb).
    assert (Hsince : represents_since w0 (w1, l) D) by (split; [done|]; cbn; faults).
    destruct r; (split; [done|]); [done|faults].
  - intros b s D Hs Hop. by apply submit_read_ends.
Qed.

(** Without looking back: any error of the environment. *)
#[local] Instance represents_readable : ReadableStore represents_with io_error.
Proof.
  pose proof since_start as Hsince. constructor; [by intros s D [? _]| |done|..].
  - intros [w l] D Hrep. by eapply represents_spb.
  - intros s D Hrep. eapply ends_weaken; [exact (bs_kmalloc s D (Hsince s D Hrep))|..]; cbn.
    + by intros [] s' [? _].
    + intros e s' [[? _] [? _]]. done.
  - intros k s D Hrep Hk. eapply ends_weaken; [exact (bs_lookup k s D (Hsince s D Hrep) Hk)|..]; cbn.
    + by intros p s' [[? _] ?].
    + intros e s' [[? _] [?|[? [? _]]]]; tauto.
  - intros p buffer s D Hrep.
    eapply ends_weaken; [exact (bs_block_read p buffer s D (Hsince s D Hrep))|..]; cbn.
    + by intros b s' [[? _] ?].
    + by intros e s' [[? _] [? _]].
  - intros b s D Hrep Hop. eapply ends_weaken; [exact (bs_submit_read b s D (Hsince s D Hrep) Hop)|..]; cbn.
    + by intros b' s' [[? _] ?].
    + by intros e s' [[? _] [? _]].
Qed.

Lemma submit_flush_frame w l b D r w' :
  represents_with (w, l) D -> bio_op b = REQ_OP_FLUSH -> submit_bio b w = (r, w') ->
  represents_with (w', l) D.
Proof.
  intros Hrep Hop. unfold submit_bio, on_dev, bind, zoom. unfold bio_op in Hop.
  destruct (bi_opf b) as [op fl]. cbn in Hop. subst op.
  destruct (submit_bio_wait _ (w_dev w)) as [[data|e] d2] eqn:E2; intros [= <- <-];
    (eapply represents_same_blocks; [|exact Hrep]); intros a; by eapply dev_flush_frame.
Qed.

#[local] Instance represents_writable : WritableStore params N represents_with io_error (fun _ => True).
Proof.
  constructor; [apply _|..]; try done.
  - intros s D D'. apply represents_ext.
  - intros k src b s D Hrep Hk Hsrc Hb. pose proof (append_disk k src b s D HN Hrep Hk Hsrc Hb) as Hw.
    by destruct (zns_lsm_append_write params (8 * k) src s) as [[[]|e] s'].
  - intros b [w l] D Hrep Hop. unfold on_world, zoom. cbn [fst snd].
    destruct (submit_bio b w) as [r w'] eqn:E.
    pose proof (submit_flush_frame w l b D r w' Hrep Hop E). by destruct r.
Qed.

(** What serving a bio from the state [s], which holds [D], may lead to: a step of the
    disk, in which a read that fails is the environment's fault. *)
Definition served_as (s : world * zns_lsm) (D : disk) (b : bio)
    (o : result bio * (world * zns_lsm)) : Prop :=
  let '(r, s') := o in
  exists D', represents_with s' D' /\ disk_step D b r D' /\
    (bio_op b = REQ_OP_READ -> forall e, r = Err e -> faulty (fst s) e).

Lemma io_worker_outcome D b s :
  represents_with s D -> bio_valid N b -> served_as s D b (zns_lsm_io_worker params b s).
Proof.
  intros Hrep Hb. destruct (decide (bio_op b = REQ_OP_READ)) as [Hop|Hop].
  - pose proof (since_start s D Hrep) as Hs.
    pose proof (io_worker_read_ends params N HN _ _ D b s Hs Hb Hop) as Hio.
    destruct (zns_lsm_io_worker params b s) as [[b'|e] s']; destruct Hio as [[Hrep' _] Hr];
      exists D; (split; [done|]).
    + split; [|done]. by apply step_read; [|apply Hr..].
    + split; [|by intros _ ? [= <-]]. by apply step_read_error; [|apply Hr].
  - pose proof (io_worker_ends params N HN represents_with io_error (fun _ => True) D b s Hrep Hb) as Hio.
    destruct (zns_lsm_io_worker params b s) as [r s'].
    assert (Hserved : served represents_with D b r s') by (by destruct r; [|apply Hio]).
    destruct Hserved as (D' & ? & ?). by exists D'.
Qed.

End Disk.

(** ** Sequences of events *)
Section Events.
Context `{BlockDeviceLaws} `{Crc32} `{XArrayLaws} `{RbTreeLaws} `{ZnsGcPolicy}.
Context (params : lsm_params) (N : Z).

(** The abstraction relation by itself. *)
Definition represents : world * zns_lsm -> disk -> Prop := represents_with N (fun _ _ => True).

Lemma represents_weaken keep s D : represents_with N keep s D -> represents s D.
Proof. intros (Hf & ess & Hew & Hc & _). split; [done|]. by exists ess. Qed.

(** What the steps of a flush leave of the engine. *)
Lemma flush_effect_engine w l ess w' l' ess' :
  engine_wf N (w_dev w) l ess -> store_wf N (w_dev w') l' ess' ->
  flush_effect (w, l) (w', l') ess ess' ->
  engine_wf N (w_dev w') l' ess' /\
  forall k, content (w_dev w') l' ess' k = content (w_dev w) l ess k.
Proof.
  intros Hew Hst' [Hff Hview _ Ho]. cbn [fst snd] in *. pose proof (ew_store _ _ _ _ Hew) as Hst.
  destruct Hff as [Ha Hg _ Ht Hspb _ Hms Hme _ _].
  assert (Hcur : forall k, current l' k = current l k) by (intros k; unfold current; by rewrite Hg).
  assert (Hag : forall k, current l' k = lsm_view l' ess' !! k).
  { intros k. rewrite Hcur, Hview. apply (ew_agree _ _ _ _ Hew). }
  split.
  - destruct Hew as [[] [] _ _ Hth Hal Hap Hmap].
    constructor; rewrite ?Ha, ?Hms, ?Hme, ?Ht; try done;
      constructor; rewrite ?Ha, ?Hg, ?Hspb; done.
  - intros k. unfold content. rewrite Hview.
    destruct (lsm_view l ess !! k) as [p|] eqn:Hp; [|done]. apply Ho.
    rewrite <- (ew_agree _ _ _ _ Hew) in Hp.
    destruct (current_located N l k p (ew_geometry _ _ _ _ Hew) (ew_index _ _ _ _ Hew) Hp)
      as (_ & i & t & Hl & _).
    pose proof (alloc_wf_zone _ i (ge_alloc l (ew_geometry _ _ _ _ Hew)) (lo_zone _ _ _ _ Hl)) as Hz.
    destruct Hz as [? ? _ _ _]. pose proof (st_region _ _ _ _ Hst).
    destruct Hl as [Hi Hs Hp1 Hp2 _]. destruct (ew_meta_apart _ _ _ _ Hew i Hi); lia.
Qed.

(** The background flush leaves the disk alone. *)
Lemma flush_worker_disk D s :
  no_enodata -> 0 <= N < 4294967296 -> represents s D ->
  let '(r, s') := zns_lsm_flush_worker s in r = Ok tt /\ represents s' D.
Proof.
  destruct s as [w l]. intros Hne HN (Hfull & ess & Hew & Hc & _). cbn [fst snd] in *.
  destruct (flush_worker_steps w l) as (failed & s1 & [w' l'] & -> & Hs1 & Hs2 & _).
  split; [done|].
  assert (Hinv : flush_inv N (FlushClaim, (w, l)) ess) by (split; [apply Hew|done]).
  destruct (flush_steps_inv N _ _ ess HN Hne Hinv (transitivity Hs1 Hs2))
    as (ess' & [Hst' _] & Heff).
  destruct (flush_effect_engine w l ess w' l' ess' Hew Hst' Heff) as [Hew' Hc'].
  split; [done|]. exists ess'. split; [done|]. split; [|done]. intros k. cbn. by rewrite Hc'.
Qed.

(** What the module does while a target is live: its ordered I/O worker serves one
    bio after the other, and the flush worker runs in between. *)
Inductive event : Type :=
| EvBio (b : bio)
| EvFlush.

Fixpoint run_events (evs : list event) (s : world * zns_lsm)
    : list (result bio) * (world * zns_lsm) :=
  match evs with
  | [] => ([], s)
  | EvBio b :: evs' =>
      let '(r, s1) := zns_lsm_io_worker params b s in
      let '(rs, s2) := run_events evs' s1 in (r :: rs, s2)
  | EvFlush :: evs' => run_events evs' (snd (zns_lsm_flush_worker s))
  end.

(** What a disk does. *)
Inductive disk_run : disk -> list event -> list (result bio) -> disk -> Prop :=
| run_nil D : disk_run D [] [] D
| run_bio D D1 D2 b r evs rs :
    disk_step D b r D1 -> disk_run D1 evs rs D2 -> disk_run D (EvBio b :: evs) (r :: rs) D2
| run_flush D D1 evs rs : disk_run D evs rs D1 -> disk_run D (EvFlush :: evs) rs D1.

Definition event_valid (ev : event) : Prop :=
  match ev with EvBio b => bio_valid N b | EvFlush => True end.


End Events.

(** ** Concrete runs *)
Module DiskExamples.
Import EngineExamples.
#[local] Existing Instance eio_device | 0.
#[local] Existing Instance eio_device_laws | 0.
#[local] Existing Instance greedy_policy.

Lemma demo_represents {N} : represents N (demo_world [], demo_engine) (fun _ => zero_block).
Proof.
  split; [intros k; unfold zlen; by rewrite length_zero_block|].
  exists []. split; [apply demo_engine_wf|]. by split.
Qed.

(** Twelve sectors from sector 6 on: parts of block 0 and 2, all of block 1. *)
Definition demo_write : bio :=
  mk_bio (opf REQ_OP_WRITE) 6 6144 [replicate 3000 Byte.x41; replicate 3144 Byte.x42].
Definition demo_read : bio := mk_bio (opf REQ_OP_READ) 8 4096 [replicate 4096 Byte.x00].
Definition demo_events : list event :=
  [EvBio demo_write; EvFlush; EvBio demo_read; EvBio (mk_bio (opf REQ_OP_FLUSH) 0 0 [])].

Lemma demo_events_valid : Forall (event_valid 4) demo_events.
Proof.
  repeat apply Forall_cons_2; [..|apply Forall_nil_2]; try exact I;
    (constructor; [by constructor|done|]); cbn; intros [Hop|Hop]; try discriminate Hop;
    (split; [lia|by vm_compute]).
Qed.


End DiskExamples.
