(* ===== verification/LsmHealth.v ===== *)
(** The module on a machine that works: memory can be allocated and the device stays in a
    set of states it does not leave.  Every operation of the running engine keeps such
    a machine working, whatever else happens; so what a single operation promises on a
    working machine holds for whole runs. *)
From stdpp Require Import relations.
From S2P Require Import Prelude Kernel ZonedRam Zone Allocator GcPolicy XArray Bytes Bio Engine.
From S2P Require Import RbTree Memtable Sstable Super Lsm LsmIndex LsmFlush LsmIo LsmRecovery LsmView.
From S2P Require Import LsmConcurrency LsmRefine Disk LsmServe LsmDisk.

(** Sets of device states closed under reads, under writes to a region, and under every
    request. *)
Definition quiet `{BlockDevice} (P : bdev -> Prop) : Prop :=
  forall fl s b, preserves P (submit_bio_wait (mk_request (mk_opf REQ_OP_READ fl) s b)).
Definition takes_writes `{BlockDevice} (lo hi : Z) (P : bdev -> Prop) : Prop :=
  forall fl s b, lo <= s -> s + 8 <= hi ->
    preserves P (submit_bio_wait (mk_request (mk_opf REQ_OP_WRITE fl) s b)).
Record steady `{BlockDevice} (P : bdev -> Prop) : Prop := {
  sd_submit : forall rq, preserves P (submit_bio_wait rq);
  sd_reset : forall start len, preserves P (blkdev_zone_reset start len);
}.

Lemma steady_quiet `{BlockDevice} P : steady P -> quiet P.
Proof. intros HP fl s b. apply HP. Qed.

(** ** Memory *)
Section Memory.
Context `{XArrayLaws} `{RbTreeLaws}.

Lemma kmalloc_healthy : preserves no_fail kmalloc.
Proof. intros m Hm. destruct (kmalloc_cases m) as [(m' & -> & Hn)|(m' & _ & Hn)]; [by apply Hn|done]. Qed.
#[local] Hint Resolve kmalloc_healthy : keeps.

Lemma create_healthy : preserves no_fail memtable_create.
Proof. unfold memtable_create. keeps. Qed.
#[local] Hint Resolve create_healthy : keeps.

Lemma put_healthy o k p : preserves no_fail (memtable_put o k p).
Proof. unfold memtable_put. keeps. Qed.
#[local] Hint Resolve put_healthy : keeps.

Lemma copy_healthy es m : preserves no_fail (copy_entries es m memtable_put).
Proof. revert m. induction es as [|e es IH]; intros m; cbn [copy_entries]; keeps. Qed.
#[local] Hint Resolve copy_healthy : keeps.

Lemma compact_healthy o1 o2 : preserves no_fail (memtable_compact o1 o2).
Proof. unfold memtable_compact, memtable_compact_with_put, memtable_compact_copy. keeps. Qed.
#[local] Hint Resolve compact_healthy : keeps.

Lemma put_active_healthy s t k p : preserves no_fail (memtable_put_active s t k p).
Proof. unfold memtable_put_active, memtable_put_active_with_ops. keeps. Qed.
#[local] Hint Resolve put_active_healthy : keeps.

Lemma reserve_healthy k : preserves (fun s => no_fail (fst s)) (xa_reserve k).
Proof.
  intros [a x] Ha. destruct (xa_reserve k (a, x)) as [r [a' x']] eqn:E.
  by apply (xa_reserve_spec _ _ _ _ _ _ E).
Qed.

Lemma store_healthy k v : preserves (fun s => no_fail (fst s)) (xa_store k v).
Proof.
  intros [a x] Ha. destruct (xa_store k v (a, x)) as [r [a' x']] eqn:E.
  by apply (xa_store_spec _ _ _ _ _ _ _ E).
Qed.
#[local] Hint Resolve reserve_healthy store_healthy : keeps.

End Memory.

#[export] Hint Resolve kmalloc_healthy create_healthy put_healthy compact_healthy put_active_healthy
  reserve_healthy store_healthy : keeps.

(** ** The machine *)
Section Machine.
Context `{BlockDevice} (P : bdev -> Prop).

Definition healthy (w : world) : Prop := no_fail (w_mem w) /\ P (w_dev w).

(** A working machine, beside any other state. *)
Definition healthy_with {T} (s : world * T) : Prop := healthy (fst s).

Lemma on_mem_healthy {A} (m : M mem A) : preserves no_fail m -> preserves healthy (on_mem m).
Proof. apply preserves_zoom; [by intros w []|by intros a w ? []]. Qed.

Lemma on_dev_healthy {A} (m : M bdev A) : preserves P m -> preserves healthy (on_dev m).
Proof. apply preserves_zoom; [by intros w []|by intros d w ? []]. Qed.

Context `{Crc32} `{XArray} `{RbTree}.

Lemma on_world_healthy {A} (m : M world A) :
  preserves healthy m -> preserves (@healthy_with zns_lsm) (on_world m).
Proof. by apply preserves_zoom. Qed.

Lemma on_allocator_healthy {A} (m : M zns_allocator A) :
  preserves (@healthy_with zns_lsm) (on_allocator m).
Proof. by apply (preserves_zoom _ (fun _ => True)). Qed.

Lemma on_latest_healthy {A} (m : M (mem * xarray) A) :
  preserves (fun s => no_fail (fst s)) m -> preserves (@healthy_with zns_lsm) (on_latest m).
Proof. apply preserves_zoom; [by intros s []|by intros [a x] s ? []]. Qed.

Lemma lsm_get_healthy {A} (f : zns_lsm -> A) : preserves (@healthy_with zns_lsm) (lsm_get f).
Proof. apply preserves_gets. Qed.

Lemma lsm_modify_healthy f : preserves (@healthy_with zns_lsm) (lsm_modify f).
Proof. by apply preserves_modify. Qed.

End Machine.

#[export] Hint Resolve on_mem_healthy on_world_healthy on_allocator_healthy on_latest_healthy
  lsm_get_healthy lsm_modify_healthy : keeps.

(** ** Reading *)
Section Reads.
Context `{BlockDeviceLaws} `{Crc32} `{XArrayLaws} `{RbTreeLaws}.
Context (P : bdev -> Prop) (HQ : quiet P).
Abbreviation healthy := (healthy P).
Abbreviation healthy_with := (healthy_with P).

Lemma block_read_healthy sector b : preserves healthy (zns_block_read sector b).
Proof.
  unfold zns_block_read, zns_submit_block. keeps. apply on_dev_healthy, HQ.
Qed.
#[local] Hint Resolve block_read_healthy : keeps.

Lemma payload_healthy sst i c : preserves healthy (zns_sst_read_payload_block sst i c).
Proof. unfold zns_sst_read_payload_block. keeps. Qed.
#[local] Hint Resolve payload_healthy : keeps.

Lemma lookup_loop_healthy fuel sst k c low high : preserves healthy (lookup_loop fuel sst k c low high).
Proof. revert c low high. induction fuel as [|fuel IH]; intros c low high; cbn [lookup_loop]; keeps. Qed.
#[local] Hint Resolve lookup_loop_healthy : keeps.

Lemma sst_lookup_healthy sst k : preserves healthy (zns_sst_lookup sst k).
Proof. unfold zns_sst_lookup. keeps. Qed.
#[local] Hint Resolve sst_lookup_healthy : keeps.

Lemma lookup_tables_healthy ssts k : preserves healthy (lookup_tables ssts k).
Proof. induction ssts as [|sst ssts IH]; cbn [lookup_tables]; keeps. Qed.
#[local] Hint Resolve lookup_tables_healthy : keeps.

Lemma read_healthy sector n : preserves healthy_with (zns_lsm_read sector n).
Proof. unfold zns_lsm_read, zns_lsm_lookup_memtables, zns_lsm_lookup_sstables. keeps. Qed.
#[local] Hint Resolve read_healthy : keeps.

Lemma block_or_zero_healthy sector b : preserves healthy_with (read_block_or_zero sector b).
Proof. unfold read_block_or_zero. keeps. Qed.
#[local] Hint Resolve block_or_zero_healthy : keeps.

Lemma read_loop_healthy fuel sector n off b v :
  preserves healthy_with (read_partial_loop fuel sector n off b v).
Proof.
  revert sector n off b v. induction fuel as [|fuel IH]; intros; cbn [read_partial_loop]; keeps.
Qed.
#[local] Hint Resolve read_loop_healthy : keeps.
End Reads.

#[export] Hint Resolve block_read_healthy sst_lookup_healthy lookup_tables_healthy read_healthy
  block_or_zero_healthy read_loop_healthy : keeps.

(** ** Writing a table into its region *)
Section Region.
Context `{BlockDeviceLaws} `{Crc32} `{RbTreeLaws}.
Context (P : bdev -> Prop) (lo hi : Z) (HW : takes_writes lo hi P).

Lemma write_within sector b :
  lo <= sector -> sector + 8 <= hi -> preserves (healthy P) (zns_block_write sector b (opf REQ_OP_WRITE)).
Proof.
  intros Hl Hh. unfold zns_block_write, zns_submit_block. keeps. apply on_dev_healthy. by apply HW.
Qed.

Lemma consume_all_within bs w sector crc :
  lo <= sector -> 0 <= sector -> sector + 8 * zlen bs <= hi -> hi < 18446744073709551616 ->
  healthy P w -> healthy P (fst (snd (consume_all bs (w, mk_ctx sector crc true)))).
Proof.
  revert w sector crc. induction bs as [|b bs IH]; intros w sector crc Hl Hs Hh Hmax Hw; [done|].
  cbn [consume_all]. unfold bind, zns_sst_consume_block. cbn [wc_write wc_sector wc_crc negb].
  assert (Hz : zlen (b :: bs) = 1 + zlen bs) by (unfold zlen; cbn; lia). pose proof (zlen_nonneg bs).
  pose proof (write_within sector b ltac:(done) ltac:(lia) w Hw) as Hw1.
  destruct (zns_block_write sector b _ w) as [[[]|e] w1]; [|done].
  change ZNS_SST_BLOCK_SECTORS with 8. rewrite u64_id by lia. apply IH; [lia..|done].
Qed.

Lemma write_blocks_within m sst :
  lo <= s_start_sector sst -> 0 <= s_start_sector sst ->
  s_start_sector sst + 8 + 8 * zlen (payload (mt_entries m)) <= hi -> hi < 18446744073709551616 ->
  preserves (healthy P) (sst_write_blocks m sst).
Proof.
  intros Hl Hs Hh Hmax w Hw. unfold sst_write_blocks. rewrite emit_payload_blocks, consume_all_crc.
  pose proof (zlen_nonneg (payload (mt_entries m))).
  destruct (zns_block_write _ _ _ w) as [r w1] eqn:E.
  apply (preserves_run _ _ _ _ _ (write_within _ _ Hl ltac:(lia))) in E; [|done].
  destruct r as [[]|e]; [|done]. rewrite emit_payload_blocks.
  change ZNS_SST_BLOCK_SECTORS with 8. rewrite u64_id by lia.
  pose proof (consume_all_within (payload (mt_entries m)) w1 (s_start_sector sst + 8) 0
    ltac:(lia) ltac:(lia) ltac:(lia) Hmax E) as Hc.
  destruct (consume_all _ _) as [r [w2 ctx]]. by destruct r.
Qed.

Lemma sst_write_within m start limit seq :
  lo <= start -> limit <= hi -> hi < 18446744073709551616 -> 0 <= start ->
  is_u32 (zlen (mt_entries m)) -> preserves (healthy P) (zns_sst_write (Some m) start limit seq).
Proof.
  intros Hl Hh Hmax Hs Hn. unfold zns_sst_write. destruct (Z.leb_spec limit start) as [|Hlt]; [keeps|].
  apply preserves_bind; [keeps|intros [[]|e]; [|keeps]].
  unfold zns_sst_scan_memtable. cbn [s_start_sector s_nr_blocks s_seq s_payload_crc].
  unfold is_u32 in Hn. rewrite scan_entries by lia. cbn [s_nr_entries]. destruct (zlen _ =? 0); [keeps|].
  cbv zeta. unfold set_nr_blocks. cbn [s_start_sector s_nr_entries s_nr_blocks s_min_key s_max_key
    s_seq s_payload_crc]. rewrite nr_blocks_payload by done. change ZNS_SST_BLOCK_SECTORS with 8.
  pose proof (payload_blocks_bound _ Hn) as Hpb. unwrap.
  destruct (Z.ltb_spec (limit - start) ((1 + payload_blocks (zlen (mt_entries m))) * 8)) as [|Hfit];
    [keeps|].
  apply preserves_bind; [keeps|intros [[]|e]; [|keeps]]. apply write_blocks_within; cbn [s_start_sector];
    [done|done| |done]. unfold zlen at 1. rewrite length_payload. lia.
Qed.

End Region.

(** ** Flushing into the metadata zone *)
Section FlushRegion.
Context `{BlockDeviceLaws} `{Crc32} `{XArrayLaws} `{RbTreeLaws}.
Context (P : bdev -> Prop) (lo hi : Z) (HW : takes_writes lo hi P).

(** A step of the flush worker whose metadata zone lies in the region. *)
Lemma flush_step_within N c c' ess :
  0 <= N < 4294967296 -> flush_inv N c ess -> flush_step c c' ->
  lo <= m_meta_start (l_meta (snd (snd c))) -> m_meta_end (l_meta (snd (snd c))) <= hi ->
  hi < 18446744073709551616 -> healthy P (fst (snd c)) -> healthy P (fst (snd c')).
Proof.
  intros HN Hinv Hstep Hlo Hhi Hmax Hw. destruct Hstep as [w l Hq|s v s' Hrun|v w l|v start seq s r consumed s' Hrun
    |v start r consumed s s' Hrun|v s s' Hrun|v e s He|v sst s s' Hrun|v s s' Hrun|failed s s' Hrun
    |s s' Hrun]; cbn [fst snd] in *; try done; try (by injection Hrun as <-).
  - destruct s as [w l]. rewrite claim_run in Hrun. by injection Hrun as <- <-.
  - destruct s as [w l]. destruct Hinv as (Hst & Hf & -> & ->). unfold on_world, zoom in Hrun. cbn [fst snd] in *.
    destruct (zns_sst_write _ _ _ _ w) as [o w1] eqn:E. injection Hrun as -> <-. cbn [fst].
    pose proof (st_flushing_ok _ _ _ _ Hst) as Hok. rewrite Hf in Hok.
    destruct (table_ok_storable N v ltac:(lia) ltac:(lia) Hok) as [_ Hcnt].
    destruct (st_region _ _ _ _ Hst) as (? & ? & ?).
    eapply (preserves_run (healthy P)); [|exact E|exact Hw].
    apply (sst_write_within P lo hi HW); done || lia.
  - destruct (negb _); by injection Hrun as <-.
  - destruct s as [w l]. unfold zns_lsm_maybe_queue_flush, lsm_get, gets, bind in Hrun. cbn [snd] in Hrun.
    destruct (_ && _); by injection Hrun as <-.
Qed.

Lemma flush_steps_within N c c' ess :
  0 <= N < 4294967296 -> no_enodata -> rtc flush_step c c' -> flush_inv N c ess ->
  lo <= m_meta_start (l_meta (snd (snd c))) -> m_meta_end (l_meta (snd (snd c))) <= hi ->
  hi < 18446744073709551616 -> healthy P (fst (snd c)) -> healthy P (fst (snd c')).
Proof.
  intros HN Hne Hsteps. revert ess. induction Hsteps as [c|c1 c2 c3 Hstep _ IH]; intros ess Hinv Hlo Hhi Hmax Hw; [done|].
  pose proof (flush_step_within N c1 c2 ess HN Hinv Hstep Hlo Hhi Hmax Hw) as Hw2.
  destruct (flush_step_inv N c1 c2 ess HN Hne Hinv Hstep) as (ess2 & Hinv2 & [Hff _ _ _]).
  apply (IH ess2 Hinv2); rewrite ?(ff_start _ _ Hff), ?(ff_end _ _ Hff); done.
Qed.

End FlushRegion.

(** ** Everything *)
Section Health.
Context `{BlockDeviceLaws} `{Crc32} `{XArrayLaws} `{RbTreeLaws} `{ZnsGcPolicy}.
Context (params : lsm_params) (P : bdev -> Prop) (HP : steady P).
Abbreviation healthy := (healthy P).
Abbreviation healthy_with := (healthy_with P).

Lemma P_quiet : quiet P.
Proof. by apply steady_quiet. Qed.

Lemma submit_healthy rq : preserves healthy (on_dev (submit_bio_wait rq)).
Proof. apply on_dev_healthy, HP. Qed.

Lemma reset_healthy start len : preserves healthy (on_dev (blkdev_zone_reset start len)).
Proof. apply on_dev_healthy, HP. Qed.
#[local] Hint Resolve P_quiet submit_healthy reset_healthy : keeps.

Lemma submit_block_healthy sector o b : preserves healthy (zns_submit_block sector o b).
Proof. unfold zns_submit_block. keeps. Qed.
#[local] Hint Resolve submit_block_healthy : keeps.

Lemma block_write_healthy sector b o : preserves healthy (zns_block_write sector b o).
Proof. unfold zns_block_write. keeps. Qed.

Lemma submit_bio_healthy b : preserves healthy (submit_bio b).
Proof. unfold submit_bio. keeps. Qed.
#[local] Hint Resolve block_write_healthy submit_bio_healthy : keeps.

Lemma consume_healthy b : preserves healthy_with (zns_sst_consume_block b).
Proof.
  intros [w ctx] Hw. unfold zns_sst_consume_block. destruct (negb _); [done|].
  pose proof (block_write_healthy (wc_sector ctx) b (opf REQ_OP_WRITE) w Hw) as Hk.
  by destruct (zns_block_write _ _ _ w) as [[[]|e] w'].
Qed.
#[local] Hint Resolve consume_healthy : keeps.

Lemma emit_loop_healthy es b n : preserves healthy_with (emit_loop es b n).
Proof. revert b n. induction es as [|e es IH]; intros b n; cbn [emit_loop]; keeps. Qed.

Lemma write_blocks_healthy m sst : preserves healthy (sst_write_blocks m sst).
Proof.
  intros w Hw. unfold sst_write_blocks, zns_sst_emit_payload.
  destruct (emit_loop _ _ _ _) as [[[]|e] [w1 c1]] eqn:E1;
    apply (preserves_run _ _ _ _ _ (emit_loop_healthy _ _ _)) in E1; try done; unfold healthy_with in *.
  destruct (zns_block_write _ _ _ w1) as [[[]|e] w2] eqn:E2;
    apply (preserves_run _ _ _ _ _ (block_write_healthy _ _ _)) in E2; try done.
  destruct (emit_loop _ _ _ (w2, _)) as [r [w3 c3]] eqn:E3.
  apply (preserves_run _ _ _ _ _ (emit_loop_healthy _ _ _)) in E3; [|done]. by destruct r.
Qed.
#[local] Hint Resolve write_blocks_healthy : keeps.

Lemma sst_write_healthy o start end_ seq : preserves healthy (zns_sst_write o start end_ seq).
Proof. unfold zns_sst_write. keeps. Qed.

#[local] Hint Resolve sst_write_healthy : keeps.

(** ** The engine *)

Lemma update_location_healthy k p : preserves healthy_with (zns_lsm_update_gc_block_location k p).
Proof. unfold zns_lsm_update_gc_block_location. keeps. Qed.

Lemma queue_flush_healthy : preserves (healthy_with : world * zns_lsm -> Prop) zns_lsm_maybe_queue_flush.
Proof. unfold zns_lsm_maybe_queue_flush, modify_tables. keeps. Qed.
#[local] Hint Resolve update_location_healthy queue_flush_healthy : keeps.

Lemma publish_healthy sector p : preserves healthy_with (zns_lsm_publish_write sector p).
Proof. unfold zns_lsm_publish_write, put_mapping, modify_tables, stop_writes. keeps. Qed.
#[local] Hint Resolve publish_healthy : keeps.

Lemma relocate_healthy k src b : preserves healthy_with (zns_lsm_gc_relocate_block params k src b).
Proof. unfold zns_lsm_gc_relocate_block, modify_attempts. keeps. Qed.
#[local] Hint Resolve relocate_healthy : keeps.

Lemma relocate_slots_healthy id slots b : preserves healthy_with (relocate_slots params id slots b).
Proof. revert b. induction slots as [|s slots IH]; intros b; cbn [relocate_slots]; keeps. Qed.
#[local] Hint Resolve relocate_slots_healthy : keeps.

Lemma gc_healthy : preserves healthy_with (zns_lsm_run_gc_if_needed params).
Proof.
  unfold zns_lsm_run_gc_if_needed, zns_lsm_gc_clean, gc_move_and_reset, modify_attempts, stop_writes.
  keeps.
Qed.

Lemma send_healthy src p : preserves healthy (send_block src p).
Proof. unfold send_block. keeps. Qed.

Lemma recover_healthy p e : preserves (healthy_with : world * zns_lsm -> Prop) (recover_failed_write p e).
Proof. unfold recover_failed_write, stop_writes, enable_writes. keeps. Qed.
#[local] Hint Resolve gc_healthy send_healthy recover_healthy : keeps.

Lemma append_healthy sector src : preserves healthy_with (zns_lsm_append_write params sector src).
Proof. unfold zns_lsm_append_write, modify_attempts. keeps. Qed.
#[local] Hint Resolve append_healthy : keeps.

Lemma write_loop_healthy fuel b sector n off buf :
  preserves healthy_with (write_partial_loop params fuel b sector n off buf).
Proof.
  revert sector n off buf. induction fuel as [|fuel IH]; intros; cbn [write_partial_loop]; keeps.
Qed.
#[local] Hint Resolve write_loop_healthy : keeps.

(** Serving a bio keeps a working machine working. *)
Lemma io_worker_healthy b : preserves healthy_with (zns_lsm_io_worker params b).
Proof.
  unfold zns_lsm_io_worker, zns_lsm_read_partial, zns_lsm_write_partial, zns_lsm_clone_bio. keeps.
Qed.

Lemma flush_loop_healthy fuel : preserves (healthy_with : world * zns_lsm -> Prop) (flush_loop fuel).
Proof.
  induction fuel as [|fuel IH]; cbn [flush_loop];
    unfold zns_lsm_claim_flush_victim, zns_lsm_advance_meta_wp, zns_lsm_publish_sstable,
      zns_lsm_release_flush_victim, modify_tables, modify_meta; keeps.
Qed.
#[local] Hint Resolve flush_loop_healthy : keeps.

(** So does the flush worker. *)
Lemma flush_worker_healthy : preserves (healthy_with : world * zns_lsm -> Prop) zns_lsm_flush_worker.
Proof. unfold zns_lsm_flush_worker, modify_tables. keeps. Qed.

(** And accepting a bio. *)
Lemma engine_map_healthy b : preserves (healthy_with : world * zns_lsm -> Prop) (lsm_engine_map b).
Proof. unfold lsm_engine_map, zns_lsm_queue_io. keeps. Qed.

End Health.
