(* ===== verification/LsmProgress.v ===== *)
(** A healthy engine serves everything.  On a machine that works ([ZonedDeviceLaws], no
    failing allocations) and with less data than the device has room for beside the
    reserve, no request is ever refused: the allocator's write pointers stay those of
    the device, garbage collection always finds a victim and always completes, and
    afterwards there is space. *)
From stdpp Require Import relations.
From S2P Require Import Prelude Kernel ZonedRam Zone Allocator GcPolicy XArray Bytes RbTree.
From S2P Require Import Memtable Sstable Super Lsm LsmIndex LsmFlush LsmView Bio LsmIo LsmConcurrency LsmRefine.
From S2P Require Import Disk LsmServe LsmDisk LsmHealth.

(** ** The allocator tracks the device *)
Section Track.
Context `{ZonedDeviceLaws} (C : Z).

(** A zone of [C] blocks that the device still serves, at the write pointer the
    allocator knows. *)
Record zone_tracked (d : bdev) (z : zns_zone) : Prop := {
  zk_alive : z_condition z <> BLK_ZONE_COND_READONLY /\ z_condition z <> BLK_ZONE_COND_OFFLINE;
  zk_blocks : z_capacity z / 8 = C;
  zk_device : exists wp, dev_zone d (z_start_sector z) = Some (z_capacity z, wp) /\
    (z_condition z <> BLK_ZONE_COND_FULL -> wp = z_write_pointer z);
}.

Definition tracked (d : bdev) (a : zns_allocator) : Prop :=
  forall i, 0 <= i < a_nr_zones a -> zone_tracked d (a_zones a).[i].

(** The reserve can be appended to and holds [m] blocks. *)
Record reserve_filled (m : Z) (a : zns_allocator) : Prop := {
  rf_zone : 0 <= a_reserve_zone a < a_nr_zones a;
  rf_condition : z_condition (a_zones a).[a_reserve_zone a] <> BLK_ZONE_COND_FULL;
  rf_pointer : z_write_pointer (a_zones a).[a_reserve_zone a] =
    z_start_sector (a_zones a).[a_reserve_zone a] + 8 * m;
}.

Lemma zone_tracked_frame d d' z cap' wp' :
  dev_zone d (z_start_sector z) = Some (cap', wp') -> dev_zone d' (z_start_sector z) = Some (cap', wp') ->
  zone_tracked d z -> zone_tracked d' z.
Proof. intros Hd Hd' [Ha Hb (wp & Hw & Hc)]. constructor; [done|done|]. exists wp. by rewrite Hd', <- Hd. Qed.

(** Requests that do not write to the data zones. *)
Lemma tracked_request d a rq :
  dev_works d -> tracked d a ->
  (opf_op (rq_opf rq) <> REQ_OP_WRITE \/ forall i, 0 <= i < a_nr_zones a ->
     rq_sector rq < z_start_sector (a_zones a).[i] \/
     z_start_sector (a_zones a).[i] + z_capacity (a_zones a).[i] <= rq_sector rq) ->
  tracked (snd (submit_bio_wait rq d)) a.
Proof.
  intros Hd Ht Hout i Hi. pose proof (Ht i Hi) as Hz. destruct (zk_device _ _ Hz) as (wp & Hw & _).
  eapply zone_tracked_frame; [exact Hw| |exact Hz]. apply zd_frame; [done|done|].
  destruct Hout as [|Ho]; [by left|right; auto].
Qed.

Lemma tracked_quiet a : quiet (fun d => dev_works d /\ tracked d a).
Proof.
  intros fl s b d [Hd Ht]. split; [by apply zd_works|]. apply tracked_request; [done|done|by left].
Qed.

(** Writing the block the allocator handed out. *)
Lemma tracked_write fl d a p i a' b :
  alloc_wf a -> a_sectors_per_block a = 8 -> zones_disjoint (a_zones a) ->
  dev_works d -> tracked d a -> handed_out a p i a' -> zlen b = 4096 ->
  let '(r, d') := submit_bio_wait (mk_request (mk_opf REQ_OP_WRITE fl) p b) d in
  is_ok r = true /\ tracked d' a'.
Proof.
  intros Hwf Hb Hdj Hd Ht Hh Hlen. pose proof (ho_zone _ _ _ _ Hh) as Hi. pose proof (awf_nr a Hwf) as Hnr.
  destruct (Ht i Hi) as [Halive Hblocks (wp & Hw & Hsame)].
  rewrite (Hsame (writable_not_full _ (ho_writable _ _ _ _ Hh))) in Hw.
  pose proof (ho_sector _ _ _ _ Hh) as Hp. pose proof (ho_start _ _ _ _ Hh) as Hs.
  pose proof (ho_end _ _ _ _ Hh) as He. rewrite Hb in He. rewrite <- Hp in Hw.
  pose proof (zd_write fl _ _ p b d Hd Hw Hs He Hlen) as Hwr.
  assert (Hother : forall j, 0 <= j < a_nr_zones a -> j <> i ->
    zone_tracked (snd (submit_bio_wait (mk_request (mk_opf REQ_OP_WRITE fl) p b) d)) (a_zones a).[j]).
  { intros j Hj Hji. pose proof (Ht j Hj) as Hz. destruct (zk_device _ _ Hz) as (wj & Hwj & _).
    eapply zone_tracked_frame; [exact Hwj| |exact Hz]. apply zd_frame; [done|done|]. right. cbn.
    destruct (Hdj i j ltac:(lia) ltac:(lia) ltac:(lia)); lia. }
  destruct (submit_bio_wait _ d) as [r d']. destruct Hwr as [Hok Hw']. split; [done|]. intros j Hj.
  rewrite (ho_nr _ _ _ _ Hh) in Hj. rewrite (ho_zones _ _ _ _ Hh), zupdate_lookup by lia.
  case_bool_decide as Hij; [|by apply Hother]. subst j. constructor; cbn; [done|done|].
  exists (p + 8). by rewrite Hb.
Qed.

(** A reset, and the allocator's view of it. *)
Lemma tracked_reset d a id :
  alloc_wf a -> dev_works d -> tracked d a -> 0 <= id < a_nr_zones a -> id <> a_reserve_zone a ->
  0 < C ->
  (forall i j, 0 <= i < a_nr_zones a -> 0 <= j < a_nr_zones a -> i <> j ->
    z_start_sector (a_zones a).[i] + z_length (a_zones a).[i] <= z_start_sector (a_zones a).[j] \/
    z_start_sector (a_zones a).[j] + z_length (a_zones a).[j] <= z_start_sector (a_zones a).[i]) ->
  exists d' a',
    blkdev_zone_reset (z_start_sector (a_zones a).[id]) (z_length (a_zones a).[id]) d = (Ok tt, d') /\
    zns_allocator_set_reserve_after_reset id a = (Ok tt, a') /\
    tracked d' a' /\ reserve_filled 0 a' /\ a_nr_zones a' = a_nr_zones a /\ a_reserve_zone a' = id /\
    (forall j, 0 <= j -> j <> id -> (a_zones a').[j] = (a_zones a).[j]).
Proof.
  intros Hwf Hd Ht Hid Hne HC Hap. pose proof (awf_nr a Hwf) as Hnr. destruct (Ht id Hid) as [Halive Hblk (wp & Hw & _)].
  pose proof (alloc_wf_zone a id Hwf Hid) as [_ Hcl _ _ _].
  assert (Hcap : forall j, z_capacity (a_zones a).[j] / 8 = C -> 0 < z_capacity (a_zones a).[j]).
  { intros j Hj. pose proof (Z.div_mod (z_capacity (a_zones a).[j]) 8 ltac:(lia)).
    pose proof (Z.mod_pos_bound (z_capacity (a_zones a).[j]) 8 ltac:(lia)). lia. }
  pose proof (Hcap _ Hblk) as Hcid.
  pose proof (zd_reset _ (z_length (a_zones a).[id]) _ _ d Hd Hw) as Hr.
  assert (Hother : forall j, 0 <= j < a_nr_zones a -> j <> id -> zone_tracked
    (snd (blkdev_zone_reset (z_start_sector (a_zones a).[id]) (z_length (a_zones a).[id]) d)) (a_zones a).[j]).
  { intros j Hj Hji. pose proof (Ht j Hj) as Hz. destruct (zk_device _ _ Hz) as (wj & Hwj & _).
    eapply zone_tracked_frame; [exact Hwj| |exact Hz]. apply zd_reset_frame; [done|done|lia|].
    pose proof (alloc_wf_zone a j Hwf Hj) as [_ Hclj _ _ _]. pose proof (Hcap _ (zk_blocks _ _ Hz)).
    destruct (Hap id j Hid Hj ltac:(lia)); lia. }
  destruct (blkdev_zone_reset _ _ d) as [r d']. destruct Hr as [-> Hw'].
  unfold zns_allocator_set_reserve_after_reset.
  rewrite (proj2 (Z.leb_gt _ _)), (proj2 (Z.eqb_neq _ _)) by lia. cbn [orb].
  set (z' := set_condition BLK_ZONE_COND_EMPTY _).
  exists d', (set_reserve_zone id (put_zone id z' a)). split; [done|]. split; [done|].
  assert (Hz : forall j, 0 <= j -> (a_zones (set_reserve_zone id (put_zone id z' a))).[j] =
    if bool_decide (id = j) then z' else (a_zones a).[j]).
  { intros j Hj. cbn. apply zupdate_lookup; lia. }
  split_and!; [| |done|done|].
  - intros j Hj. cbn [a_nr_zones set_reserve_zone put_zone] in Hj. rewrite Hz by lia.
    case_bool_decide; [|by apply Hother]. constructor; cbn; [done|done|]. by exists (z_start_sector (a_zones a).[id]).
  - constructor; cbn [a_reserve_zone set_reserve_zone a_nr_zones put_zone]; [done|..];
      rewrite Hz, bool_decide_eq_true_2 by (done || lia); [done|cbn; lia].
  - intros j Hj Hji. rewrite Hz, bool_decide_eq_false_2 by (done || lia). done.
Qed.

End Track.

(** ** Storing a block *)
Section Store.
Context `{ZonedDeviceLaws} `{Crc32} `{XArrayLaws} `{RbTreeLaws} (C : Z).

(** Memory is there, and the device works. *)
Abbreviation works := (healthy dev_works).

Lemma works_kmalloc w : works w -> exists w', on_mem kmalloc w = (Ok tt, w') /\ works w' /\ w_dev w' = w_dev w.
Proof.
  intros [Hm Hd]. unfold on_mem, zoom. destruct (kmalloc_cases (w_mem w)) as [(m & -> & Hn)|(m & _ & Hn)].
  - eexists. split; [done|]. split; [|done]. split; [by apply Hn|done].
  - done.
Qed.

Lemma device_steady : steady dev_works.
Proof. split; [apply zd_works|apply zd_reset_works]. Qed.

Lemma read_works p buffer w a :
  works w -> tracked C (w_dev w) a ->
  exists w', zns_block_read p buffer w = (Ok (dev_block (w_dev w) p), w') /\ works w' /\
    tracked C (w_dev w') a /\ same_blocks (w_dev w) (w_dev w').
Proof.
  intros [Hm Hd] Ht. destruct (zns_block_read p buffer w) as [r w'] eqn:E.
  pose proof (preserves_run _ _ _ _ _ (block_read_healthy _ (tracked_quiet C a) p buffer) E
    ltac:(by split)) as [Hm' [Hd' Ht']].
  apply block_read_outcome in E as (Hs & _ & Hr). destruct r as [b|e].
  - subst b. by exists w'.
  - exfalso. by apply (works_no_fault w e).
Qed.

Lemma send_works src b p w a i a' :
  alloc_wf a -> a_sectors_per_block a = 8 -> zones_disjoint (a_zones a) ->
  works w -> tracked C (w_dev w) a -> handed_out a p i a' -> source_data src b -> zlen b = 4096 ->
  exists w', send_block src p w = (Ok tt, w') /\ works w' /\ tracked C (w_dev w') a'.
Proof.
  intros Hwf Hb Hdj Hw Ht Hh Hsrc Hlen.
  assert (Hsend : forall fl w0, works w0 -> tracked C (w_dev w0) a -> exists x w',
    on_dev (submit_bio_wait (mk_request (mk_opf REQ_OP_WRITE fl) p b)) w0 = (Ok x, w') /\
    works w' /\ tracked C (w_dev w') a').
  { intros fl w0 [Hm0 Hd0] Ht0. pose proof (tracked_write C fl _ a p i a' b Hwf Hb Hdj Hd0 Ht0 Hh Hlen) as Hr.
    pose proof (zd_works (mk_request (mk_opf REQ_OP_WRITE fl) p b) _ Hd0) as Hd'.
    unfold on_dev, zoom. destruct (submit_bio_wait _ (w_dev w0)) as [[x|e] d']; destruct Hr as [Hok Ht'];
      [|done]. by exists x, (set_dev d' w0). }
  destruct src as [[[op fl] ? ? vecs]|buffer [op fl]]; cbn in Hsrc; unfold bio_op in Hsrc; cbn in Hsrc;
    destruct Hsrc as [-> <-].
  - destruct (Hsend fl w Hw Ht) as (x & w' & E & Hw' & Ht'). exists w'. cbn. unfold submit_bio, bind. cbn.
    by rewrite E.
  - destruct (works_kmalloc w Hw) as (w1 & E1 & Hw1 & Hd1). rewrite <- Hd1 in Ht.
    destruct (Hsend fl w1 Hw1 Ht) as (x & w' & E & Hw' & Ht'). exists w'. split; [|done]. cbn.
    unfold zns_block_write, zns_submit_block, bind. rewrite E1. cbn. rewrite zd_pages by apply Hw1.
    cbn. by rewrite E.
Qed.

(** Writing to a block just handed out and publishing the mapping. *)
Lemma store_publish_works N w l ess k src b p i a' t :
  engine_wf N (w_dev w) l ess -> N < 4294967296 -> 0 <= k < N ->
  works w -> tracked C (w_dev w) (l_allocator l) -> handed_out (l_allocator l) p i a' ->
  source_data src b -> zlen b = 4096 ->
  exists w1 w2 l2, send_block src p w = (Ok tt, w1) /\
    zns_lsm_publish_write (8 * k) p (w1, set_attempts t (set_allocator a' l)) = (Ok tt, (w2, l2)) /\
    works w2 /\ tracked C (w_dev w2) a' /\ l_allocator l2 = a' /\ l_attempts l2 = t /\
    (exists s, located a' p i s) /\
    forall j, current l2 j = if bool_decide (j = k) then Some p else current l j.
Proof.
  intros Hew HN Hk Hw Ht Hh Hsrc Hlen. pose proof (ew_geometry _ _ _ _ Hew) as Hg.
  destruct (send_works src b p w _ i a' (ge_alloc l Hg) (ge_block l Hg) (ge_disjoint l Hg) Hw Ht Hh Hsrc Hlen)
    as (w1 & E1 & Hw1 & Ht1).
  destruct (handed_out_fresh N (w_dev w) l ess p i a' Hew Hh) as (Hew' & s & Hfb).
  apply (engine_set_attempts N _ _ ess t) in Hew'. set (l1 := set_attempts t (set_allocator a' l)) in *.
  assert (Hfb1 : fresh_block l1 p i s) by (destruct Hfb; by constructor).
  destruct (send_block_spec src b p w _ w1 Hsrc E1) as [Ho _].
  destruct (write_fresh N (w_dev w) (w_dev w1) l1 ess p i s Hew' Hfb1 Ho) as (Hew1 & _).
  pose proof (publish_write_cases N _ w1 l1 ess k p i s Hew1 HN Hk Hfb1 eq_refl) as Hpub.
  pose proof (publish_healthy dev_works (8 * k) p (w1, l1) Hw1) as Hw2.
  destruct (zns_lsm_publish_write (8 * k) p (w1, l1)) as [[[]|e] [w2 l2]] eqn:E2;
    destruct Hpub as (Hd2 & Hb2 & Hew2 & Hv); [|by destruct Hv as (_ & _ & []); apply Hw1].
  exists w1, w2, l2. split; [done|]. split; [exact E2|]. split; [exact Hw2|].
  split; [by rewrite Hd2|]. destruct Hb2 as [-> _ _ _ -> _]. split; [done|]. split; [done|].
  split; [exists s; apply (fb_located _ _ _ _ Hfb)|]. intros j.
  rewrite (ew_agree _ _ _ _ Hew2), Hv. case_bool_decide as Hj.
  - by rewrite Hj, lookup_insert_eq.
  - rewrite lookup_insert_ne by done. symmetry. apply (ew_agree _ _ _ _ Hew).
Qed.

End Store.

(** ** The index after a move *)
Section Moves.
Context `{XArrayLaws} `{RbTreeLaws} (N : Z).

Lemma slot_sector_range l i s :
  geometry l -> 0 <= i < a_nr_zones (l_allocator l) ->
  0 <= s < zlen (gz_logical_blocks (gi_zones (l_gc l)).[i]) ->
  z_start_sector (a_zones (l_allocator l)).[i] + 8 * s + 8 <=
  z_start_sector (a_zones (l_allocator l)).[i] + z_capacity (a_zones (l_allocator l)).[i].
Proof.
  intros Hg Hi. destruct (ge_gc_slots l Hg i Hi) as [Hn ->]. rewrite Hn. intros Hs.
  pose proof (Z.mul_div_le (z_capacity (a_zones (l_allocator l)).[i]) 8 ltac:(lia)). lia.
Qed.

(** A used slot of the reverse map is the place of its block. *)
Lemma used_slot_current l i s :
  geometry l -> index_wf N l -> 0 <= i < a_nr_zones (l_allocator l) ->
  0 <= s < zlen (gz_logical_blocks (gi_zones (l_gc l)).[i]) -> rev_slot (l_gc l) i s <> 0 ->
  let k := rev_slot (l_gc l) i s - 1 in
  let p := z_start_sector (a_zones (l_allocator l)).[i] + 8 * s in
  0 <= k < N /\ current l k = Some p /\ located (l_allocator l) p i s.
Proof.
  intros Hg Hx Hi Hs Hr. destruct (ix_backward N l Hx i s Hi Hs Hr) as (p & Hl & He).
  rewrite <- (lo_sector _ _ _ _ Hl). assert (Hc : current l (rev_slot (l_gc l) i s - 1) = Some p).
  { apply (current_some N l _ p Hg Hx). split; [done|by eapply located_bounds]. }
  split; [|done]. by apply (current_located N l _ p Hg Hx).
Qed.

Lemma current_used_slot l k i s :
  geometry l -> index_wf N l -> 0 <= i < a_nr_zones (l_allocator l) ->
  0 <= s < zlen (gz_logical_blocks (gi_zones (l_gc l)).[i]) ->
  current l k = Some (z_start_sector (a_zones (l_allocator l)).[i] + 8 * s) ->
  rev_slot (l_gc l) i s = k + 1.
Proof.
  intros Hg Hx Hi Hs Hc. destruct (current_located N l k _ Hg Hx Hc) as (_ & j & t & Hl & Hr).
  pose proof (slot_sector_range l i s Hg Hi Hs) as Hin. pose proof Hl as [Hj Ht Hp Hpin _].
  pose proof (awf_nr _ (ge_alloc l Hg)) as Hnr. destruct (decide (i = j)) as [<-|Hij].
  - replace s with t by lia. done.
  - destruct (ge_disjoint l Hg i j); lia.
Qed.

(** Moving a block away from a zone empties its slot there and nothing else. *)
Lemma moved_away l l' k dest i slot r t :
  geometry l -> index_wf N l -> geometry l' -> index_wf N l' ->
  same_layout (l_allocator l) (l_allocator l') -> 0 <= i < a_nr_zones (l_allocator l) ->
  0 <= slot < zlen (gz_logical_blocks (gi_zones (l_gc l)).[i]) ->
  rev_slot (l_gc l) i slot = k + 1 -> 0 <= k ->
  located (l_allocator l') dest r t -> r <> i ->
  (forall j, current l' j = if bool_decide (j = k) then Some dest else current l j) ->
  gz_logical_blocks (gi_zones (l_gc l')).[i] = (gz_logical_blocks (gi_zones (l_gc l)).[i]).[slot := 0] /\
  valid_count (l_gc l') i = valid_count (l_gc l) i - 1.
Proof.
  intros Hg Hx Hg' Hx' [Hnr _ Hz] Hi Hslot Hk Hk0 Hdest Hri Hcur.
  destruct (Hz i Hi) as (Es & _ & Ec). destruct (ge_gc_slots l Hg i Hi) as [Hn Hlen].
  rewrite <- Hnr in Hi. destruct (ge_gc_slots l' Hg' i Hi) as [Hn' Hlen']. rewrite Ec in Hn'.
  assert (Hl : gz_logical_blocks (gi_zones (l_gc l')).[i] =
    (gz_logical_blocks (gi_zones (l_gc l)).[i]).[slot := 0]).
  { apply zlist_ext; [rewrite zlen_update; lia|]. intros s Hs. rewrite zupdate_lookup by lia.
    change ((gz_logical_blocks (gi_zones (l_gc l')).[i]).[s]) with (rev_slot (l_gc l') i s).
    change ((gz_logical_blocks (gi_zones (l_gc l)).[i]).[s]) with (rev_slot (l_gc l) i s).
    assert (Hold : 0 <= i < a_nr_zones (l_allocator l)) by lia.
    assert (Hsl : 0 <= s < zlen (gz_logical_blocks (gi_zones (l_gc l)).[i])) by lia.
    destruct (decide (rev_slot (l_gc l') i s = 0)) as [Hz0|Hz0].
    - case_bool_decide as Hss; [done|]. rewrite Hz0. symmetry.
      destruct (decide (rev_slot (l_gc l) i s = 0)) as [|Hu]; [done|]. exfalso.
      destruct (used_slot_current l i s Hg Hx Hold Hsl Hu) as (Hj & Hc & _).
      assert (Hne : rev_slot (l_gc l) i s - 1 <> k).
      { intros Heq. pose proof (used_slot_current l i slot Hg Hx Hold Hslot ltac:(lia)) as (_ & Hc2 & _).
        rewrite Hk in Hc2. replace (k + 1 - 1) with k in Hc2 by lia. rewrite Heq, Hc2 in Hc.
        injection Hc as Hc. lia. }
      specialize (Hcur (rev_slot (l_gc l) i s - 1)). rewrite bool_decide_eq_false_2, Hc, <- Es in Hcur by done.
      apply (current_used_slot l' _ i s Hg' Hx' Hi Hs) in Hcur. lia.
    - destruct (used_slot_current l' i s Hg' Hx' Hi Hs Hz0) as (Hj & Hc & Hloc).
      rewrite Hcur in Hc. case_bool_decide as Hjk.
      { injection Hc as Hc. rewrite <- Hc in Hloc.
        destruct (located_unique l' dest r t i s Hg' Hdest Hloc). done. }
      rewrite Es in Hc. apply (current_used_slot l _ i s Hg Hx Hold Hsl) in Hc.
      case_bool_decide as Hss; [subst; lia|lia]. }
  split; [exact Hl|]. unfold rev_slot in Hk.
  rewrite (ix_count N l' Hx' i Hi), Hl, live_update, (ix_count N l Hx i) by lia.
  rewrite bool_decide_eq_true_2, bool_decide_eq_false_2 by lia. lia.
Qed.

(** The [t]-th slot of the zones beside [r]. *)
Definition skip (r j : Z) : Z := if j <? r then j else j + 1.
Definition nth_slot (l : zns_lsm) (r C t : Z) : Z := rev_slot (l_gc l) (skip r (t / C)) (t mod C).

(** Counting: with fewer blocks than slots beside [r], some of those zones has a slot to
    spare. *)
Lemma some_zone_has_room l r C :
  geometry l -> index_wf N l -> 0 <= r < a_nr_zones (l_allocator l) -> 0 < C ->
  (forall i, 0 <= i < a_nr_zones (l_allocator l) -> z_capacity (a_zones (l_allocator l)).[i] / 8 = C) ->
  0 <= N < (a_nr_zones (l_allocator l) - 1) * C ->
  exists i, 0 <= i < a_nr_zones (l_allocator l) /\ i <> r /\ valid_count (l_gc l) i < C.
Proof.
  intros Hg Hx Hr HC Hcap HN. set (nr := a_nr_zones (l_allocator l)) in *.
  destruct (decide (Exists (fun i => i <> r /\ valid_count (l_gc l) i < C) (seqZ 0 nr))) as [He|He].
  { apply Exists_exists in He as (i & Hi%elem_of_seqZ & Hne & Hv). exists i. split; [lia|done]. }
  exfalso. assert (Hslots : forall i, 0 <= i < nr -> zlen (gz_logical_blocks (gi_zones (l_gc l)).[i]) = C).
  { intros i Hi. destruct (ge_gc_slots l Hg i Hi) as [Hn ->]. by rewrite Hn, Hcap. }
  assert (Hused : forall i s, 0 <= i < nr -> i <> r -> 0 <= s < C -> rev_slot (l_gc l) i s <> 0).
  { intros i s Hi Hne Hs. apply live_full; [|by rewrite Hslots].
    rewrite Hslots, <- (ix_count N l Hx i Hi) by done. apply Z.nlt_ge. intros Hv. apply He.
    apply Exists_exists. exists i. split; [apply elem_of_seqZ; lia|done]. }
  assert (Hplace : forall t, 0 <= t < (nr - 1) * C ->
    0 <= skip r (t / C) < nr /\ skip r (t / C) <> r /\ 0 <= t mod C < C).
  { intros t Ht. pose proof (Z.mod_pos_bound t C HC). pose proof (Z.div_mod t C ltac:(lia)).
    assert (0 <= t / C < nr - 1) by nia. unfold skip. destruct (Z.ltb_spec (t / C) r); lia. }
  assert (Hsub : (fun t => nth_slot l r C t - 1) <$> seqZ 0 ((nr - 1) * C) ⊆+ seqZ 0 N).
  { apply NoDup_submseteq.
    - apply NoDup_fmap_2_strong; [|apply NoDup_seqZ].
      intros t u Ht%elem_of_seqZ Hu%elem_of_seqZ. unfold nth_slot. intros Heq.
      destruct (Hplace t ltac:(lia)) as (Hi & Hir & Hs). destruct (Hplace u ltac:(lia)) as (Hj & Hjr & Hv).
      destruct (used_slot_current l (skip r (t / C)) (t mod C) Hg Hx Hi ltac:(by rewrite Hslots) (Hused _ _ Hi Hir Hs)) as (_ & Hc1 & Hl1).
      destruct (used_slot_current l (skip r (u / C)) (u mod C) Hg Hx Hj ltac:(by rewrite Hslots) (Hused _ _ Hj Hjr Hv)) as (_ & Hc2 & Hl2).
      rewrite Heq, Hc2 in Hc1. injection Hc1 as Hc1. rewrite <- Hc1 in Hl1.
      destruct (located_unique l _ _ _ _ _ Hg Hl2 Hl1) as [Hi' Hs'].
      assert (Hd : t / C = u / C).
      { revert Hi'. unfold skip. destruct (Z.ltb_spec (t / C) r), (Z.ltb_spec (u / C) r); lia. }
      pose proof (Z.div_mod t C ltac:(lia)). pose proof (Z.div_mod u C ltac:(lia)). rewrite Hd in *. lia.
    - intros k (t & -> & Ht%elem_of_seqZ)%list_elem_of_fmap.
      destruct (Hplace t ltac:(lia)) as (Hi & Hir & Hs). apply elem_of_seqZ. unfold nth_slot.
      pose proof (used_slot_current l (skip r (t / C)) (t mod C) Hg Hx Hi ltac:(by rewrite Hslots) (Hused _ _ Hi Hir Hs)) as (Hk & _). lia. }
  apply submseteq_length in Hsub. rewrite length_fmap, !length_seqZ in Hsub. lia.
Qed.

End Moves.

(** ** Collecting a zone *)
Section Collect.
Context `{ZonedDeviceLaws} `{Crc32} `{XArrayLaws} `{RbTreeLaws}.
Context (params : lsm_params) (N C : Z) (HN : N < 4294967296).

(** No fault is injected. *)
Record no_injection : Prop := {
  ni_write : zns_lsm_fail_data_write_at params = 0;
  ni_move : zns_lsm_fail_gc_move_write_at params = 0;
  ni_reset : zns_lsm_fail_gc_zone_reset_at params = 0;
}.
Context (Hni : no_injection).

(** A machine in order: memory and device work, the zones are those of the device, the
    reserve holds [m] blocks, writes go, and the other zones have more room than there
    are logical blocks. *)
Record serving (m : Z) (s : world * zns_lsm) : Prop := {
  sv_works : healthy dev_works (fst s);
  sv_tracked : tracked C (w_dev (fst s)) (l_allocator (snd s));
  sv_reserve : reserve_filled m (l_allocator (snd s));
  sv_go : t_writes_stopped (l_attempts (snd s)) = false;
  sv_nr : a_nr_zones (l_allocator (snd s)) <= 2147483648 /\
    0 <= N < (a_nr_zones (l_allocator (snd s)) - 1) * C;
}.

Lemma serving_room m s : serving m s -> 0 <= N < (a_nr_zones (l_allocator (snd s)) - 1) * C.
Proof. intros Hsv. apply (sv_nr _ _ Hsv). Qed.

Lemma tracked_writable d z : zone_tracked C d z -> z_condition z <> BLK_ZONE_COND_FULL -> zns_zone_is_writable z = true.
Proof.
  intros [[H1' H2'] _ _] Hf. unfold zns_zone_is_writable. by rewrite !bool_decide_eq_false_2.
Qed.

Lemma tracked_capacity d z : zone_tracked C d z -> 8 * C <= z_capacity z < 8 * C + 8.
Proof. intros [_ <- _]. pose proof (Z.div_mod (z_capacity z) 8). pose proof (Z.mod_pos_bound (z_capacity z) 8). lia. Qed.

Lemma reserve_can_append d a m :
  alloc_wf a -> tracked C d a -> reserve_filled m a -> m < C ->
  zns_zone_can_append (a_zones a).[a_reserve_zone a] 8 = true.
Proof.
  intros Hwf Ht [Hr Hc Hp] Hm. pose proof (Ht _ Hr) as Hz. apply can_append_iff; [by apply alloc_wf_zone|lia|].
  split; [by eapply tracked_writable|]. pose proof (tracked_capacity d _ Hz). lia.
Qed.

(** A block for a move comes from the reserve. *)
Lemma alloc_gc_works d a m :
  alloc_wf a -> a_sectors_per_block a = 8 -> tracked C d a -> reserve_filled m a -> m < C ->
  exists p a', zns_allocator_alloc_gc a = (Ok p, a') /\ handed_out a p (a_reserve_zone a) a' /\
    reserve_filled (m + 1) a' /\
    forall j, 0 <= j -> j <> a_reserve_zone a -> (a_zones a').[j] = (a_zones a).[j].
Proof.
  intros Hwf Hb Ht Hrf Hm. pose proof (reserve_can_append d a m Hwf Ht Hrf Hm) as Hap.
  pose proof (alloc_gc_cases a Hwf) as Hc. pose proof Hrf as [Hr Hcond Hp]. pose proof (awf_nr a Hwf) as Hnr.
  destruct (zns_allocator_alloc_gc a) as [[p|e] a'].
  - destruct Hc as [Hh _]. exists p, a'. split; [done|]. split; [done|].
    pose proof (ho_sector _ _ _ _ Hh) as Hsec. split.
    + constructor; rewrite ?(ho_reserve _ _ _ _ Hh), ?(ho_nr _ _ _ _ Hh), ?(ho_zones _ _ _ _ Hh); [done|..];
        rewrite zupdate_same by lia; cbn; [done|lia].
    + intros j Hj Hne. rewrite (ho_zones _ _ _ _ Hh). apply zupdate_other; lia.
  - destruct Hc as [-> Hc]. rewrite (proj2 (Z.leb_gt _ _)), Hb, Hap in Hc by lia. by destruct Hc.
Qed.

(** What moving one block does. *)
Record moved_block (k : Z) (l l' : zns_lsm) : Prop := {
  mb_layout : same_layout (l_allocator l) (l_allocator l');
  mb_reserve : a_reserve_zone (l_allocator l') = a_reserve_zone (l_allocator l);
  mb_zones : forall j, 0 <= j -> j <> a_reserve_zone (l_allocator l) ->
    (a_zones (l_allocator l')).[j] = (a_zones (l_allocator l)).[j];
  mb_current : exists dest t, located (l_allocator l') dest (a_reserve_zone (l_allocator l)) t /\
    forall j, current l' j = if bool_decide (j = k) then Some dest else current l j;
}.

Lemma relocate_block_works w l ess k src buffer m :
  engine_wf N (w_dev w) l ess -> serving m (w, l) -> m < C -> current l k = Some src ->
  zlen (dev_block (w_dev w) src) = 4096 ->
  exists b s', zns_lsm_gc_relocate_block params k src buffer (w, l) = (Ok b, s') /\
    serving (m + 1) s' /\ moved_block k l (snd s').
Proof.
  intros Hew [Hw Ht Hrf Hgo Hnr] Hm Hcur Hlen. cbn [fst snd] in *.
  pose proof (ew_geometry _ _ _ _ Hew) as Hg. pose proof (ge_alloc l Hg) as Hwf.
  destruct (current_located N l k src Hg (ew_index _ _ _ _ Hew) Hcur) as (Hk & _).
  destruct (read_works C src buffer w _ Hw Ht) as (w1 & E1 & Hw1 & Ht1 & Hs1).
  assert (Hew1 : engine_wf N (w_dev w1) l ess) by (eapply engine_set_device; [exact Hew|auto]).
  destruct (alloc_gc_works _ _ m Hwf (ge_block l Hg) Ht1 Hrf Hm) as (dest & a' & E2 & Hh & Hrf' & Hsame).
  set (b := dev_block (w_dev w) src) in *.
  destruct (store_publish_works C N w1 l ess k (SrcBuffer b (opf REQ_OP_WRITE)) b dest _ a'
    (count_gc_move (l_attempts l)) Hew1 HN Hk Hw1 Ht1 Hh ltac:(done) Hlen)
    as (w2 & w3 & l3 & E3 & E4 & Hw3 & Ht3 & Ha3 & Hat3 & (t & Hloc) & Hc3).
  cbn [send_block] in E3. unfold zns_lsm_gc_relocate_block, bind at 1, on_world at 1, zoom at 1.
  cbn [fst snd]. rewrite E1. unfold bind at 1, on_allocator, zoom at 1. cbn [fst snd]. rewrite E2.
  unfold bind at 1, modify_attempts, lsm_modify at 1, modify at 1. cbn [fst snd].
  unfold bind at 1, lsm_get, gets. cbn [snd id]. rewrite (ni_move Hni). cbn [Z.eqb negb andb].
  unfold bind at 1, on_world, zoom. cbn [fst snd]. rewrite E3.
  change (l_sectors_per_block (set_attempts _ (set_allocator a' l))) with (l_sectors_per_block l).
  rewrite (ge_spb l Hg), u64_id by lia. replace (k * 8) with (8 * k) by lia.
  unfold bind at 1.
  change (l_attempts (set_allocator a' l)) with (l_attempts l). rewrite E4.
  do 2 eexists. split; [done|]. split; constructor; cbn [fst snd lsm_modify modify l_allocator set_gc l_attempts];
    rewrite ?Ha3, ?Hat3; try done.
  - by rewrite (ho_nr _ _ _ _ Hh).
  - by eapply handed_out_layout.
  - apply Hh.
  - by exists dest, t.
Qed.

(** What the relocation of a whole victim does to the zones. *)
Record zones_kept (l l' : zns_lsm) : Prop := {
  zs_layout : same_layout (l_allocator l) (l_allocator l');
  zs_reserve : a_reserve_zone (l_allocator l') = a_reserve_zone (l_allocator l);
  zs_zones : forall j, 0 <= j -> j <> a_reserve_zone (l_allocator l) ->
    (a_zones (l_allocator l')).[j] = (a_zones (l_allocator l)).[j];
}.

Lemma zones_kept_refl l : zones_kept l l.
Proof. constructor; auto using same_layout_refl. Qed.

Lemma zones_kept_trans l1 l2 l3 : zones_kept l1 l2 -> zones_kept l2 l3 -> zones_kept l1 l3.
Proof.
  intros [L1 R1 Z1] [L2 R2 Z2]. constructor; [by eapply same_layout_trans|congruence|].
  intros j Hj Hne. by rewrite Z2, Z1 by (rewrite ?R1; done).
Qed.

Definition full_blocks (w : world) (l : zns_lsm) (ess : list (list lsm_entry)) : Prop :=
  forall k, zlen (content (w_dev w) l ess k) = 4096.

Lemma current_full w l ess k p :
  engine_wf N (w_dev w) l ess -> full_blocks w l ess -> current l k = Some p ->
  zlen (dev_block (w_dev w) p) = 4096.
Proof.
  intros Hew Hf Hc. specialize (Hf k). unfold content in Hf.
  by rewrite <- (ew_agree _ _ _ _ Hew), Hc in Hf.
Qed.

(** A zone with a used slot has a live block; one without has none. *)
Lemma used_slot_counts l i s :
  geometry l -> index_wf N l -> 0 <= i < a_nr_zones (l_allocator l) ->
  0 <= s < zlen (gz_logical_blocks (gi_zones (l_gc l)).[i]) -> rev_slot (l_gc l) i s <> 0 ->
  0 < valid_count (l_gc l) i.
Proof.
  intros Hg Hx Hi Hs Hr. rewrite (ix_count N l Hx i Hi).
  pose proof (live_nonneg (gz_logical_blocks (gi_zones (l_gc l)).[i])).
  destruct (decide (live (gz_logical_blocks (gi_zones (l_gc l)).[i]) = 0)) as [Hz|]; [|lia].
  by apply (proj1 (live_zero_iff _)) with (s := s) in Hz.
Qed.

Lemma relocate_slots_works n : forall lo w l ess id buffer m,
  engine_wf N (w_dev w) l ess -> full_blocks w l ess -> serving m (w, l) ->
  0 <= id < a_nr_zones (l_allocator l) -> id <> a_reserve_zone (l_allocator l) ->
  0 <= lo -> lo + Z.of_nat n = zlen (gz_logical_blocks (gi_zones (l_gc l)).[id]) ->
  (forall s, 0 <= s < lo -> rev_slot (l_gc l) id s = 0) ->
  m + valid_count (l_gc l) id <= C ->
  exists s', relocate_slots params id (seqZ lo (Z.of_nat n)) buffer (w, l) = (Ok tt, s') /\
    serving (m + valid_count (l_gc l) id) s' /\ zones_kept l (snd s') /\
    valid_count (l_gc (snd s')) id = 0.
Proof.
  induction n as [|n IH]; intros lo w l ess id buffer m Hew Hfull Hsv Hid Hne Hlo Hn Hbelow Hm;
    pose proof (ew_geometry _ _ _ _ Hew) as Hg; pose proof (ew_index _ _ _ _ Hew) as Hx.
  { assert (Hv : valid_count (l_gc l) id = 0).
    { rewrite (ix_count N l Hx id Hid). apply live_zero_iff. intros s Hs. apply Hbelow. lia. }
    exists (w, l). rewrite Hv, Z.add_0_r. split; [done|]. split; [done|]. split; [apply zones_kept_refl|done]. }
  rewrite seqZ_cons by lia. cbn [relocate_slots]. unfold bind at 1, lsm_get, gets. cbn [snd]. cbv zeta.
  fold (rev_slot (l_gc l) id lo). replace (Z.pred (Z.of_nat (S n))) with (Z.of_nat n) by lia.
  assert (Hrange : 0 <= lo < zlen (gz_logical_blocks (gi_zones (l_gc l)).[id])) by lia.
  destruct (rev_slot (l_gc l) id lo =? 0) eqn:Ez; guards.
  { apply (IH _ w l ess); try done; [lia|lia|]. intros s Hs.
    destruct (decide (s = lo)) as [->|]; [done|apply Hbelow; lia]. }
  destruct (used_slot_current N l id lo Hg Hx Hid Hrange Ez) as (Hk & Hcur & Hloc).
  pose proof (located_bounds l _ id lo Hg Hloc) as Hpb.
  pose proof (used_slot_counts l id lo Hg Hx Hid Hrange Ez) as Hcount.
  unfold zns_gc_decode_logical_block. rewrite u64_id by lia.
  rewrite (ge_spb l Hg). replace (lo * 8) with (8 * lo) by lia. rewrite u64_id by lia.
  set (k := rev_slot (l_gc l) id lo - 1) in *. set (src := z_start_sector _ + 8 * lo) in *.
  destruct (relocate_block_works w l ess k src buffer m Hew Hsv ltac:(lia) Hcur
    (current_full w l ess k src Hew Hfull Hcur)) as (b & [w1 l1] & E & Hsv1 & Hmb).
  pose proof (relocate_block_keeps params N w l ess k src buffer Hew HN Hcur) as Hkeep. rewrite E in Hkeep.
  destruct Hkeep as [(Hew1 & Hc1 & _) _]. unfold bind. rewrite E. cbn [fst snd] in *.
  destruct Hmb as [Hlay Hres Hzs (dest & t & Hdest & Hmove)].
  destruct (moved_away N l l1 k dest id lo _ t Hg Hx (ew_geometry _ _ _ _ Hew1) (ew_index _ _ _ _ Hew1)
    Hlay Hid Hrange ltac:(lia) ltac:(lia) Hdest ltac:(congruence) Hmove) as [Hslots Hv1].
  destruct (IH (Z.succ lo) w1 l1 ess id b (m + 1)) as (s' & E' & Hsv' & Hzk & Hv'); try done.
  - intros j. by rewrite Hc1.
  - by rewrite (sl_nr _ _ Hlay).
  - by rewrite Hres.
  - lia.
  - rewrite Hslots, zlen_update. lia.
  - intros s Hs. unfold rev_slot. rewrite Hslots, zupdate_lookup by lia.
    case_bool_decide; [done|]. apply Hbelow. lia.
  - lia.
  - exists s'. split; [exact E'|]. split; [|split; [|done]].
    + by replace (m + valid_count (l_gc l) id) with (m + 1 + valid_count (l_gc l1) id) by lia.
    + eapply zones_kept_trans; [|exact Hzk]. by constructor.
Qed.

(** The victim is emptied, reset and becomes the reserve; the old reserve has room. *)
Lemma move_and_reset_works w l ess id :
  engine_wf N (w_dev w) l ess -> full_blocks w l ess -> serving 0 (w, l) ->
  0 <= id < a_nr_zones (l_allocator l) -> id <> a_reserve_zone (l_allocator l) ->
  valid_count (l_gc l) id < C ->
  exists s', gc_move_and_reset params id (w, l) = (Ok tt, s') /\ serving 0 s' /\
    zns_allocator_has_space (l_allocator (snd s')) = true.
Proof.
  intros Hew Hfull Hsv Hid Hne Hv. pose proof (ew_geometry _ _ _ _ Hew) as Hg.
  destruct (ge_gc_slots l Hg id Hid) as [Hnb Hlen].
  assert (Hv0 : 0 <= valid_count (l_gc l) id).
  { rewrite (ix_count N l (ew_index _ _ _ _ Hew) id Hid). apply live_nonneg. }
  set (n := Z.to_nat (gz_nr_blocks (gi_zones (l_gc l)).[id])).
  pose proof (zlen_nonneg (gz_logical_blocks (gi_zones (l_gc l)).[id])) as Hl0.
  destruct (relocate_slots_works n 0 w l ess id zero_block 0) as ([w1 l1] & E1 & Hsv1 & Hzk & Hv1); try done;
    [lia..|].
  replace (Z.of_nat n) with (gz_nr_blocks (gi_zones (l_gc l)).[id]) in E1 by lia.
  pose proof (relocate_slots_keeps params N ess id (seqZ 0 (gz_nr_blocks (gi_zones (l_gc l)).[id])) w l
    zero_block Hew HN Hid) as Hkeep. rewrite E1 in Hkeep.
  destruct Hkeep as [(Hew1 & _) _]; [apply list.Forall_forall; intros s Hs%elem_of_seqZ; lia|].
  destruct Hsv1 as [Hw1 Ht1 Hrf1 Hgo1 Hnr1]. destruct Hzk as [[Hnr _ _] Hres _]. cbn [fst snd] in *.
  rewrite <- Hnr in Hid. rewrite <- Hres in Hne.
  pose proof (ge_alloc _ (ew_geometry _ _ _ _ Hew1)) as Hwf1.
  destruct (tracked_reset C _ _ id Hwf1 (proj2 Hw1) Ht1 Hid Hne ltac:(lia) (ew_apart _ _ _ _ Hew1))
    as (d' & a' & E2 & E3 & Ht' & Hrf' & Hnr' & Hres' & Hother).
  unfold gc_move_and_reset, bind at 1, lsm_get, gets. cbn [snd]. unfold bind at 1. rewrite E1.
  unfold bind at 1. cbn [snd]. fold (valid_count (l_gc l1) id). rewrite Hv1. cbn [Z.eqb negb].
  unfold bind at 1, modify_attempts, lsm_modify, modify. cbn [fst snd]. unfold bind at 1. cbn [snd].
  rewrite (ni_reset Hni). cbn [Z.eqb negb andb]. unfold bind at 1, on_world, on_dev, zoom at 1.
  cbn [fst snd]. unfold zoom at 1. cbn [l_allocator set_attempts]. rewrite E2. cbn [fst snd].
  unfold bind at 1. cbn [fst snd]. unfold bind, on_allocator, zoom. cbn [fst snd l_allocator set_gc set_attempts].
  rewrite E3. cbn [fst snd]. eexists. split; [done|]. split.
  - pose proof (zd_reset_works (z_start_sector (a_zones (l_allocator l1)).[id])
      (z_length (a_zones (l_allocator l1)).[id]) _ (proj2 Hw1)) as Hd'. rewrite E2 in Hd'.
    constructor; cbn [fst snd l_allocator set_gc set_allocator l_attempts set_attempts t_writes_stopped count_gc_reset];
      try done; [split; [apply Hw1|done]|lia].
  - cbn [snd l_allocator set_gc set_allocator]. apply has_space_iff. exists (a_reserve_zone (l_allocator l1)).
    split; [rewrite Hnr'; apply Hrf1|]. unfold suitable. rewrite Hres', Hother by (apply Hrf1 || done).
    rewrite (proj2 (Z.eqb_neq _ _)) by done. cbn [negb andb].
    assert (Hb : a_sectors_per_block a' = 8).
    { unfold zns_allocator_set_reserve_after_reset in E3. destruct (_ || _); [done|].
      injection E3 as <-. apply (ge_block _ (ew_geometry _ _ _ _ Hew1)). }
    rewrite Hb. eapply reserve_can_append; [done..|lia].
Qed.

(** ** Garbage collection *)
Context `{ZnsGcPolicy} `{!ZnsGcPolicyLaws} `{!ZnsGcPolicyComplete}.

Lemma gc_context_wf l :
  geometry l -> index_wf N l -> a_nr_zones (l_allocator l) <= 2147483648 -> ctx_wf (gc_context l).
Proof.
  intros Hg Hx Hnr. pose proof (ge_alloc l Hg) as Hwf. pose proof (awf_nr_range _ Hwf).
  constructor; cbn; [lia|..]; intros zone.
  - pose proof (ge_gc_len l Hg) as Hlen. destruct (zlookup_cases (gi_zones (l_gc l)) zone) as [[Hi ->]| ->]; [|done].
    change (0 <= valid_count (l_gc l) (Z.max 0 zone)). rewrite (ix_count N l Hx) by lia. apply live_nonneg.
  - rewrite (ge_spb l Hg). pose proof (awf_nr _ Hwf) as Hn.
    destruct (zlookup_cases (a_zones (l_allocator l)) zone) as [[Hi ->]| ->]; [|done].
    pose proof (ge_small l Hg (Z.max 0 zone) ltac:(lia)).
    destruct (alloc_wf_zone _ (Z.max 0 zone) Hwf ltac:(lia)). unfold SECTOR_MAX.
    apply Z.div_le_upper_bound; lia.
Qed.

(** The reserve takes everything a victim may hold. *)
Lemma reserve_free l d :
  geometry l -> tracked C d (l_allocator l) -> reserve_filled 0 (l_allocator l) ->
  zns_lsm_zone_free_blocks l (a_zones (l_allocator l)).[a_reserve_zone (l_allocator l)] = C.
Proof.
  intros Hg Ht [Hr _ Hp]. pose proof (alloc_wf_zone _ _ (ge_alloc l Hg) Hr) as [? ? ? Hwp ?].
  unfold is_u64 in Hwp. unfold zns_lsm_zone_free_blocks. rewrite (ge_spb l Hg). unwrap.
  rewrite (proj2 (Z.ltb_ge _ _)), (proj2 (Z.ltb_ge _ _)) by lia. cbn [orb]. unwrap.
  rewrite <- (zk_blocks _ _ _ (Ht _ Hr)). f_equal. lia.
Qed.

Lemma eligible_iff l d i :
  geometry l -> tracked C d (l_allocator l) -> reserve_filled 0 (l_allocator l) ->
  zns_allocator_has_space (l_allocator l) = false -> 0 <= i < a_nr_zones (l_allocator l) ->
  eligible (gc_context l) i = true <-> i <> a_reserve_zone (l_allocator l) /\ valid_count (l_gc l) i < C.
Proof.
  intros Hg Ht Hrf Hsp Hi. unfold eligible. cbn [get_zone_info gc_context reserve_free_blocks
    zns_lsm_gc_get_zone_info is_reserve resettable free_blocks valid_blocks capacity_blocks].
  rewrite (reserve_free l d Hg Ht Hrf), (ge_spb l Hg). destruct (Ht i Hi) as [[H1' H2'] -> _].
  rewrite !(bool_decide_eq_false_2 (z_condition _ = _)) by done. cbn [negb andb].
  fold (valid_count (l_gc l) i).
  destruct (Z.eqb_spec i (a_reserve_zone (l_allocator l))) as [Heq|Hne]; cbn [negb andb].
  { split; [done|]. by intros []. }
  assert (Hap : zns_zone_can_append (a_zones (l_allocator l)).[i] 8 = false).
  { apply not_true_is_false. intros Hap. apply not_true_iff_false in Hsp. apply Hsp, has_space_iff.
    exists i. split; [done|]. unfold suitable. rewrite (ge_block l Hg), Hap, (proj2 (Z.eqb_neq _ _)) by done. done. }
  rewrite Hap. cbn [Z.eqb andb]. rewrite andb_true_iff, Z.ltb_lt, Z.leb_le. lia.
Qed.

Lemma gc_clean_works w l ess id :
  engine_wf N (w_dev w) l ess -> full_blocks w l ess -> serving 0 (w, l) ->
  0 <= id < a_nr_zones (l_allocator l) -> id <> a_reserve_zone (l_allocator l) ->
  valid_count (l_gc l) id < C ->
  exists s', zns_lsm_gc_clean params id (w, l) = (Ok tt, s') /\ serving 0 s' /\
    zns_allocator_has_space (l_allocator (snd s')) = true.
Proof.
  intros Hew Hfull [Hw Ht Hrf Hgo Hnr] Hid Hne Hv. cbn [fst snd] in *. pose proof (ew_geometry _ _ _ _ Hew) as Hg.
  destruct (works_kmalloc w Hw) as (w1 & E1 & Hw1 & Hd1).
  assert (Hew1 : engine_wf N (w_dev w1) l ess) by (by rewrite Hd1).
  assert (Hsv1 : serving 0 (w1, l)) by (constructor; cbn [fst snd]; rewrite ?Hd1; done).
  assert (Hfull1 : full_blocks w1 l ess) by (intros k; rewrite Hd1; apply Hfull).
  destruct (move_and_reset_works w1 l ess id Hew1 Hfull1 Hsv1 Hid Hne Hv) as (s' & E2 & Hs').
  exists s'. split; [|done]. unfold zns_lsm_gc_clean, bind at 1, lsm_get, gets. cbn [snd].
  assert (Hval : zns_lsm_gc_validate_victim l id = Ok tt).
  { unfold zns_lsm_gc_validate_victim. rewrite (reserve_free l _ Hg Ht Hrf). fold (valid_count (l_gc l) id).
    destruct (Ht id Hid) as [[H1' H2'] _ _]. pose proof (rf_zone _ _ Hrf).
    rewrite (proj2 (Z.leb_gt _ id)), (proj2 (Z.eqb_neq _ _)), (proj2 (Z.leb_gt _ (a_reserve_zone _))) by lia.
    cbn [orb]. rewrite !bool_decide_eq_false_2 by done. cbn [orb]. by rewrite (proj2 (Z.ltb_ge _ _)) by lia. }
  unfold bind at 1, lift. rewrite Hval. unfold bind at 1, on_world, zoom. cbn [fst snd]. rewrite E1.
  unfold bind, attempt. by rewrite E2.
Qed.

(** Garbage collection leaves room for the next block. *)
Lemma run_gc_works w l ess :
  engine_wf N (w_dev w) l ess -> full_blocks w l ess -> serving 0 (w, l) ->
  exists s', zns_lsm_run_gc_if_needed params (w, l) = (Ok tt, s') /\ serving 0 s' /\
    zns_allocator_has_space (l_allocator (snd s')) = true.
Proof.
  intros Hew Hfull Hsv. pose proof Hsv as [Hw Ht Hrf Hgo [Hnr Hroom]]. cbn [fst snd] in *.
  pose proof (ew_geometry _ _ _ _ Hew) as Hg. pose proof (ew_index _ _ _ _ Hew) as Hx.
  pose proof (awf_nr_range _ (ge_alloc l Hg)) as Hrange. pose proof (rf_zone _ _ Hrf) as Hr.
  unfold zns_lsm_run_gc_if_needed, bind at 1, lsm_get, gets. cbn [snd].
  rewrite (proj2 (Z.leb_gt _ _)) by lia. cbv zeta.
  destruct (zns_allocator_has_space (l_allocator l)) eqn:Hsp.
  { rewrite policy_lazy by exact Hsp. by exists (w, l). }
  rewrite policy_eager by exact Hsp. cbn [negb].
  pose proof (gc_context_wf l Hg Hx Hnr) as Hctx.
  destruct (some_zone_has_room N l (a_reserve_zone (l_allocator l)) C Hg Hx Hr ltac:(nia)
    (fun i Hi => zk_blocks _ _ _ (Ht i Hi)) Hroom) as (i & Hi & Hir & Hv).
  pose proof (policy_complete (gc_context l) i Hctx Hi
    (proj2 (eligible_iff l _ i Hg Ht Hrf Hsp Hi) (conj Hir Hv))) as Hge.
  destruct (policy_sound (gc_context l) Hctx Hge) as [Hlt He]. cbn [gc_nr_zones gc_context] in Hlt.
  apply (eligible_iff l _ _ Hg Ht Hrf Hsp (conj Hge Hlt)) in He as [Hne Hvalid].
  rewrite (proj2 (Z.ltb_ge _ _)), u32_id by lia. by apply (gc_clean_works w l ess).
Qed.

(** ** Writing *)

Lemma append_write_works w l ess k src b :
  engine_wf N (w_dev w) l ess -> full_blocks w l ess -> serving 0 (w, l) ->
  0 <= k < N -> source_data src b -> zlen b = 4096 ->
  exists s', zns_lsm_append_write params (8 * k) src (w, l) = (Ok tt, s') /\ serving 0 s'.
Proof.
  intros Hew Hfull Hsv Hk Hsrc Hlen. pose proof (sv_go _ _ Hsv) as Hgo. cbn [snd] in Hgo.
  unfold zns_lsm_append_write, bind at 1, lsm_get, gets. cbn [snd]. rewrite Hgo.
  destruct (run_gc_works w l ess Hew Hfull Hsv) as ([w1 l1] & E1 & Hsv1 & Hsp).
  pose proof (run_gc_keeps params N ess w l Hew HN) as Hkeep. unfold bind at 1. rewrite E1 in Hkeep |- *.
  destruct Hkeep as (Hew1 & _ & _). cbn [fst snd] in *. destruct Hsv1 as [Hw1 Ht1 Hrf1 Hgo1 Hnr1]. cbn [fst snd] in *.
  pose proof (ew_geometry _ _ _ _ Hew1) as Hg1. pose proof (ge_alloc l1 Hg1) as Hwf1.
  unfold bind at 1, on_allocator, zoom. cbn [fst snd].
  destruct (zns_allocator_alloc (l_allocator l1)) as [r2 a2] eqn:E2.
  destruct (alloc_zoned_spec _ Hwf1) as [(i & Hi & Hs & E2')|(Hnone & _)].
  2:{ apply has_space_iff in Hsp as (i & Hi & Hs). by rewrite Hnone in Hs. }
  rewrite E2 in E2'. destruct r2 as [p|e]; [|done]. clear E2' i Hi Hs.
  apply alloc_handed_out in E2 as (i & Hir & Hh); [|done].
  destruct (store_publish_works C N w1 l1 ess k src b p i a2 (count_data_write (l_attempts l1)) Hew1 HN Hk
    Hw1 Ht1 Hh Hsrc Hlen) as (w2 & w3 & l3 & E3 & E4 & Hw3 & Ht3 & Ha3 & Hat3 & _).
  unfold bind at 1, modify_attempts, lsm_modify, modify. cbn [fst snd]. unfold bind at 1. cbn [snd].
  rewrite (ni_write Hni). cbn [Z.eqb negb andb]. unfold bind, attempt, on_world, zoom. cbn [fst snd].
  rewrite E3. change (l_attempts (set_allocator a2 l1)) with (l_attempts l1). rewrite E4.
  eexists. split; [done|]. constructor; cbn [fst snd]; rewrite ?Ha3, ?Hat3, ?(ho_nr _ _ _ _ Hh); try done.
  destruct Hrf1 as [Hr Hc Hp]. pose proof (awf_nr _ Hwf1). pose proof (ho_zone _ _ _ _ Hh).
  constructor; rewrite ?(ho_reserve _ _ _ _ Hh), ?(ho_nr _ _ _ _ Hh), ?(ho_zones _ _ _ _ Hh); [done|..];
    rewrite zupdate_other by lia; done.
Qed.

End Collect.

(** ** The limit

    The advertised capacity is the room beside the reserve.  A target of exactly that
    size whose blocks have all been written has no garbage to collect. *)
Section Limit.
Context `{BlockDeviceLaws} `{Crc32} `{XArrayLaws} `{RbTreeLaws} `{ZnsGcPolicy} `{!ZnsGcPolicyLaws}.
Context (params : lsm_params) (N C : Z).

Record saturated (l : zns_lsm) : Prop := {
  sa_blocks : forall i, 0 <= i < a_nr_zones (l_allocator l) -> z_capacity (a_zones (l_allocator l)).[i] / 8 = C;
  sa_reserve : reserve_filled 0 (l_allocator l);
  sa_size : N = (a_nr_zones (l_allocator l) - 1) * C;
  sa_written : forall k, 0 <= k < N -> is_Some (current l k);
  sa_nr : a_nr_zones (l_allocator l) <= 2147483648;
}.

(** The number of a slot beside the reserve. *)
Definition slot_number (r i s : Z) : Z := (if i <? r then i else i - 1) * C + s.
Definition place_number (l : zns_lsm) (k : Z) : Z :=
  match current l k with
  | Some p =>
      match zns_lsm_physical_to_gc_slot l p with
      | Ok (i, s) => slot_number (a_reserve_zone (l_allocator l)) i s
      | Err _ => -1
      end
  | None => -1
  end.

Lemma slot_number_range nr r i s :
  0 <= r < nr -> 0 <= i < nr -> i <> r -> 0 <= s < C -> 0 <= slot_number r i s < (nr - 1) * C.
Proof. intros. unfold slot_number. destruct (Z.ltb_spec i r); nia. Qed.

Lemma slot_number_inj r i s j t :
  i <> r -> j <> r -> 0 <= s < C -> 0 <= t < C -> slot_number r i s = slot_number r j t -> i = j /\ s = t.
Proof.
  unfold slot_number. intros Hi Hj Hs Ht Heq.
  set (x := if i <? r then i else i - 1) in *. set (y := if j <? r then j else j - 1) in *.
  assert (Hxy : x = y) by nia. subst x y.
  destruct (Z.ltb_spec i r), (Z.ltb_spec j r); lia.
Qed.

(** Where a live block of a saturated engine is. *)
Lemma saturated_place l k :
  geometry l -> index_wf N l -> saturated l -> 0 <= k < N ->
  exists i s, place_number l k = slot_number (a_reserve_zone (l_allocator l)) i s /\
    0 <= i < a_nr_zones (l_allocator l) /\ i <> a_reserve_zone (l_allocator l) /\ 0 <= s < C /\
    rev_slot (l_gc l) i s = k + 1.
Proof.
  intros Hg Hx Hsa Hk. destruct (sa_written l Hsa k Hk) as [p Hp].
  destruct (current_located N l k p Hg Hx Hp) as (_ & i & s & Hl & Hr). exists i, s.
  unfold place_number. rewrite Hp, (proj2 (physical_to_gc_slot_iff l p i s Hg) Hl).
  split; [done|]. pose proof (lo_zone _ _ _ _ Hl) as Hi. split; [done|]. split.
  - intros ->. destruct Hl as [_ Hs Hpp _ Hw]. destruct (sa_reserve l Hsa) as [_ Hc Hwp].
    destruct Hw as [Hw|Hw]; [lia|done].
  - split; [|done]. pose proof (located_slot_range l p i s Hg Hl) as Hs.
    destruct (ge_gc_slots l Hg i Hi) as [Hn Hlen]. rewrite (sa_blocks l Hsa i Hi) in Hn. lia.
Qed.

(** Every slot beside the reserve is used. *)
Lemma saturated_slots l i s :
  geometry l -> index_wf N l -> saturated l -> 0 <= i < a_nr_zones (l_allocator l) ->
  i <> a_reserve_zone (l_allocator l) -> 0 <= s < C -> rev_slot (l_gc l) i s <> 0.
Proof.
  intros Hg Hx Hsa Hi Hir Hs. set (r := a_reserve_zone (l_allocator l)) in *.
  assert (Hin : slot_number r i s ∈ place_number l <$> seqZ 0 N).
  { eapply elem_of_submseteq with (l := seqZ 0 N).
    { apply elem_of_seqZ. pose proof (slot_number_range (a_nr_zones (l_allocator l)) r i s
        (rf_zone _ _ (sa_reserve l Hsa)) Hi Hir Hs). rewrite (sa_size l Hsa). lia. }
    apply Permutation_submseteq. symmetry. apply submseteq_length_Permutation; [|by rewrite length_fmap].
    apply NoDup_submseteq.
    - apply NoDup_fmap_2_strong; [|apply NoDup_seqZ]. intros k k' Hk%elem_of_seqZ Hk'%elem_of_seqZ Heq.
      destruct (saturated_place l k Hg Hx Hsa ltac:(lia)) as (i1 & s1 & E1 & _ & Hr1 & Hs1 & Hv1).
      destruct (saturated_place l k' Hg Hx Hsa ltac:(lia)) as (i2 & s2 & E2 & _ & Hr2 & Hs2 & Hv2).
      rewrite E1, E2 in Heq. apply slot_number_inj in Heq as [-> ->]; try done. lia.
    - intros t (k & -> & Hk%elem_of_seqZ)%list_elem_of_fmap.
      destruct (saturated_place l k Hg Hx Hsa ltac:(lia)) as (i1 & s1 & -> & Hi1 & Hr1 & Hs1 & _).
      apply elem_of_seqZ. rewrite (sa_size l Hsa), Z.add_0_l.
      apply slot_number_range; try done. apply (rf_zone _ _ (sa_reserve l Hsa)). }
  apply list_elem_of_fmap in Hin as (k & Heq & Hk%elem_of_seqZ).
  destruct (saturated_place l k Hg Hx Hsa ltac:(lia)) as (i1 & s1 & E1 & _ & Hr1 & Hs1 & Hv1).
  rewrite E1 in Heq. apply slot_number_inj in Heq as [-> ->]; try done. lia.
Qed.

(** So no zone beside the reserve takes another block, and none has garbage. *)
Lemma saturated_zone_full d l ess i :
  engine_wf N d l ess -> saturated l -> 0 <= i < a_nr_zones (l_allocator l) ->
  i <> a_reserve_zone (l_allocator l) -> zns_zone_can_append (a_zones (l_allocator l)).[i] 8 = false.
Proof.
  intros Hew Hsa Hi Hir. apply not_true_is_false. pose proof (ew_geometry _ _ _ _ Hew) as Hg.
  pose proof (alloc_wf_zone _ _ (ge_alloc l Hg) Hi) as Hwf. rewrite can_append_iff by (done || lia). intros [Hw Hend].
  pose proof (ew_aligned _ _ _ _ Hew i Hi Hw) as Hmod. pose proof (sa_blocks l Hsa i Hi) as HC.
  pose proof Hwf as [_ _ Hcap _ Hwp]. specialize (Hwp Hw). unfold is_u64 in *.
  set (z := (a_zones (l_allocator l)).[i]) in *.
  pose proof (Z.div_mod (z_capacity z) 8 ltac:(lia)). pose proof (Z.mod_pos_bound (z_capacity z) 8 ltac:(lia)).
  pose proof (Z.div_mod (z_write_pointer z - z_start_sector z) 8 ltac:(lia)).
  assert (HC0 : 0 < C) by lia. pose proof (ge_gc_slots l Hg i Hi) as [Hn Hlen]. fold z in Hn.
  destruct (ix_backward N l (ew_index _ _ _ _ Hew) i (C - 1) Hi ltac:(lia)) as (p & Hl & _).
  { apply saturated_slots; [done|apply Hew|done|done|done|lia]. }
  destruct Hl as [_ _ Hp _ [Hlt|Hfull]]; fold z in Hp; [fold z in Hlt; lia|].
  by apply (writable_not_full _ Hw).
Qed.

Lemma saturated_no_space d l ess :
  engine_wf N d l ess -> saturated l -> forall i, 0 <= i < a_nr_zones (l_allocator l) -> suitable (l_allocator l) i = false.
Proof.
  intros Hew Hsa i Hi. unfold suitable. destruct (Z.eqb_spec i (a_reserve_zone (l_allocator l))) as [|Hne]; [done|].
  rewrite (ge_block l (ew_geometry _ _ _ _ Hew)). by apply (saturated_zone_full d l ess).
Qed.

Lemma saturated_no_victim d l ess i :
  engine_wf N d l ess -> saturated l -> 0 <= i < a_nr_zones (l_allocator l) -> eligible (gc_context l) i = false.
Proof.
  intros Hew Hsa Hi. pose proof (ew_geometry _ _ _ _ Hew) as Hg. pose proof (ew_index _ _ _ _ Hew) as Hx.
  unfold eligible. cbn [get_zone_info gc_context reserve_free_blocks
    zns_lsm_gc_get_zone_info is_reserve resettable free_blocks valid_blocks capacity_blocks].
  destruct (Z.eqb_spec i (a_reserve_zone (l_allocator l))) as [|Hne]; [done|].
  fold (valid_count (l_gc l) i). rewrite (ge_spb l Hg), (sa_blocks l Hsa i Hi), (ix_count N l Hx i Hi).
  pose proof (ge_gc_slots l Hg i Hi) as [Hn Hlen]. rewrite (sa_blocks l Hsa i Hi) in Hn.
  rewrite live_all, Hlen, Hn, Z.ltb_irrefl, andb_false_r; [done|].
  intros s Hs. apply saturated_slots; [done..|lia].
Qed.

Lemma saturated_write w l ess logical src :
  engine_wf N (w_dev w) l ess -> saturated l ->
  exists e i, 0 <= i <= a_nr_zones (l_allocator l) /\ zns_lsm_append_write params logical src (w, l) =
    (Err e, (w, set_allocator (set_active_zone i (l_allocator l)) l)).
Proof.
  intros Hew Hsa. pose proof (ew_geometry _ _ _ _ Hew) as Hg. pose proof (ge_alloc l Hg) as Hwf.
  assert (Hsame : l = set_allocator (set_active_zone (a_active_zone (l_allocator l)) (l_allocator l)) l)
    by (by destruct l as [[]]).
  unfold zns_lsm_append_write, bind at 1, lsm_get, gets. cbn [snd].
  destruct (t_writes_stopped _).
  { eexists _, (a_active_zone (l_allocator l)). split; [apply Hwf|]. by rewrite <- Hsame. }
  unfold bind at 1, zns_lsm_run_gc_if_needed. unfold bind at 1, lsm_get, gets. cbn [snd].
  pose proof (rf_zone _ _ (sa_reserve l Hsa)) as Hr. rewrite (proj2 (Z.leb_gt _ _)) by lia. cbv zeta.
  destruct (should_gc (gc_context l)); cbn [negb].
  - destruct (Z.ltb_spec (select_victim (gc_context l)) 0) as [|Hge].
    { eexists _, (a_active_zone (l_allocator l)). split; [apply Hwf|]. by rewrite <- Hsame. }
    exfalso. pose proof (gc_context_wf N l Hg (ew_index _ _ _ _ Hew) (sa_nr l Hsa)) as Hctx.
    destruct (policy_sound _ Hctx Hge) as [Hlt He]. cbn [gc_nr_zones gc_context] in Hlt.
    by rewrite (saturated_no_victim _ l ess _ Hew Hsa (conj Hge Hlt)) in He.
  - unfold ret, bind at 1, on_allocator, zoom. cbn [fst snd].
    destruct (alloc_zoned_spec _ Hwf) as [(i & Hi & Hs & _)|(_ & i & Hi & ->)].
    { by rewrite (saturated_no_space _ l ess Hew Hsa i Hi) in Hs. }
    eexists _, i. split; [lia|done].
Qed.

(** Moving the active zone changes nothing that counts. *)
Lemma saturated_active d l ess i :
  engine_wf N d l ess -> saturated l -> 0 <= i <= a_nr_zones (l_allocator l) ->
  engine_wf N d (set_allocator (set_active_zone i (l_allocator l)) l) ess /\
  saturated (set_allocator (set_active_zone i (l_allocator l)) l).
Proof.
  intros Hew [Hb [Hr1 Hr2 Hr3] Hs Hw Hn] Hi. split; [|by constructor].
  apply engine_set_allocator; [done|..].
  - apply set_active_zone_wf; [apply Hew|done].
  - by constructor.
  - apply (ew_aligned _ _ _ _ Hew).
  - intros k p j s _ [? ? ? ? ?]. by constructor.
Qed.

(** Blocks appended one after the other. *)
Fixpoint append_all (ops : list (Z * write_source)) (s : world * zns_lsm) : list (result unit) * (world * zns_lsm) :=
  match ops with
  | [] => ([], s)
  | (logical, src) :: ops' =>
      let '(r, s1) := zns_lsm_append_write params logical src s in
      let '(rs, s2) := append_all ops' s1 in
      (r :: rs, s2)
  end.

(** C5.  A full disk cannot be overwritten.  The advertised capacity is the room beside
    the reserve, to the last block.  An engine of that size whose logical blocks have
    all been written has no free block outside the reserve and no zone with garbage, so
    no policy can select a victim: from then on every write of a block is refused, also
    the overwrite of an existing one, without any effect on the data. *)
Theorem saturated_engine_refuses_writes ops w l ess :
  engine_wf N (w_dev w) l ess -> saturated l ->
  let '(rs, (w', l')) := append_all ops (w, l) in
  Forall (fun r => is_ok r = false) rs /\ w' = w /\ saturated l' /\
  forall k, current l' k = current l k.
Proof.
  revert l. induction ops as [|[logical src] ops IH]; intros l Hew Hsa; cbn [append_all]; [done|].
  destruct (saturated_write w l ess logical src Hew Hsa) as (e & i & Hi & ->).
  destruct (saturated_active _ l ess i Hew Hsa Hi) as [Hew' Hsa']. specialize (IH _ Hew' Hsa').
  destruct (append_all ops _) as [rs [w' l']]. destruct IH as (Hrs & Hw & Hs & Hc).
  split; [by constructor|]. done.
Qed.

End Limit.

(** ** The store of a healthy engine *)
Section Healthy.
Context `{ZonedDeviceLaws} `{Crc32} `{XArrayLaws} `{RbTreeLaws}.
Context `{ZnsGcPolicy} `{!ZnsGcPolicyLaws} `{!ZnsGcPolicyComplete}.
Context (params : lsm_params) (N C : Z) (Hni : no_injection params) (Hne : no_enodata) (HN : N < 4294967296).
Context (keep : list (list lsm_entry) -> world * zns_lsm -> Prop).
Context (keep_frame : forall ess s s', meta_frame s s' -> keep ess s -> keep ess s').

#[local] Instance since_readable w0 : ReadableStore (represents_since N keep w0) (faulty w0) :=
  represents_since_readable N keep keep_frame Hne w0.

(** The engine holds a disk, and everything it needs is in order. *)
Definition healthy_disk (s : world * zns_lsm) (D : disk) : Prop :=
  represents_with N keep s D /\ serving N C 0 s.

(** Device states the zones of [a] match. *)
Definition matching (a : zns_allocator) (d : bdev) : Prop := dev_works d /\ tracked C d a.

Lemma serving_world m w w' l :
  serving N C m (w, l) -> healthy (matching (l_allocator l)) w' -> serving N C m (w', l).
Proof. intros [_ _ Hr Hg Hnr] [Hm [Hd Ht]]. by constructor. Qed.

Lemma serving_matching m w l : serving N C m (w, l) -> healthy (matching (l_allocator l)) w.
Proof. by intros [[Hm Hd] Ht _ _ _]. Qed.

(** An operation that reads, on a healthy engine: what it does on any engine, without
    the errors of the environment. *)
Lemma quiet_ends {A} (m : M (world * zns_lsm) A) w l D ok err err' :
  healthy_disk (w, l) D -> preserves (healthy_with (matching (l_allocator l))) m ->
  snd (snd (m (w, l))) = l ->
  ends (m (w, l)) (fun a s' => represents_since N keep w s' D /\ ok a s')
    (fun e s' => represents_since N keep w s' D /\ err e) ->
  (forall e, err e -> ~ faulty w e -> err' e) ->
  ends (m (w, l)) (fun a s' => healthy_disk s' D /\ ok a s') (fun e s' => healthy_disk s' D /\ err' e).
Proof.
  intros [Hrep Hsv] Hp Hl Ho Herr. specialize (Hp (w, l) (serving_matching 0 w l Hsv)).
  assert (Hnf : forall e, ~ faulty w e) by (intros e; apply works_no_fault; apply (sv_works _ _ _ _ Hsv)).
  destruct (m (w, l)) as [r [w' l']]. cbn [snd fst] in *. subst l'.
  pose proof (serving_world 0 w w' l Hsv Hp) as Hsv'.
  destruct r as [a|e]; destruct Ho as [[Hrep' _] Ho]; (split; [by split|auto]).
Qed.

Lemma submit_quiet a b :
  bio_op b <> REQ_OP_WRITE -> preserves (healthy (matching a)) (submit_bio b).
Proof.
  intros Hop. unfold submit_bio. keeps. apply on_dev_healthy. intros d [Hd Ht].
  split; [by apply zd_works|]. apply tracked_request; [done|done|by left].
Qed.

#[local] Instance healthy_readable : ReadableStore healthy_disk (fun _ => False).
Proof.
  constructor.
  - intros s D [Hrep _]. apply Hrep.
  - intros [w l] D [Hrep _]. by eapply represents_spb.
  - done.
  - intros [w l] D Hh. eapply ends_weaken;
      [apply (quiet_ends _ w l D (fun _ _ => True) (faulty w) (fun _ => False) Hh)|by intros a s' [? _]|done].
    + keeps.
    + unfold on_world, zoom. cbn [fst snd]. by destruct (on_mem kmalloc w).
    + eapply ends_weaken; [exact (bs_kmalloc (w, l) D (since_start N keep (w, l) D (proj1 Hh)))|by split|done].
    + intros e He Hnf. by apply Hnf.
  - intros k [w l] D Hh Hk.
    apply (quiet_ends _ w l D _ (fun e => e = - ENODATA /\ D k = zero_block \/ e <> - ENODATA /\ faulty w e)
      (fun e => e = - ENODATA /\ D k = zero_block \/ e <> - ENODATA /\ False) Hh).
    + apply (read_healthy _ (tracked_quiet C (l_allocator l))).
    + destruct Hh as [(_ & ess & Hew & _) _]. cbn [fst snd] in Hew.
      destruct (zns_lsm_read (8 * k) 8 (w, l)) as [r [w' l']] eqn:E.
      by destruct (lsm_read_outcome N w l ess k r w' l' Hne (ew_store _ _ _ _ Hew)
        (ge_spb l (ew_geometry _ _ _ _ Hew)) Hk E) as (-> & _).
    + exact (bs_lookup k (w, l) D (since_start N keep (w, l) D (proj1 Hh)) Hk).
    + intros e [?|[? He]] Hnf; [by left|]. by destruct (Hnf He).
  - intros p buffer [w l] D Hh. apply (quiet_ends _ w l D _ (faulty w) (fun _ => False) Hh).
    + apply on_world_healthy, (block_read_healthy _ (tracked_quiet C (l_allocator l))).
    + unfold on_world, zoom. cbn [fst snd]. by destruct (zns_block_read p buffer w).
    + exact (bs_block_read p buffer (w, l) D (since_start N keep (w, l) D (proj1 Hh))).
    + intros e He Hnf. by apply Hnf.
  - intros b [w l] D Hh Hop. apply (quiet_ends _ w l D _ (faulty w) (fun _ => False) Hh).
    + apply on_world_healthy, submit_quiet. congruence.
    + unfold on_world, zoom. cbn [fst snd]. by destruct (submit_bio b w).
    + exact (bs_submit_read b (w, l) D (since_start N keep (w, l) D (proj1 Hh)) Hop).
    + intros e He Hnf. by apply Hnf.
Qed.

#[local] Instance healthy_writable : WritableStore params N healthy_disk (fun _ => False) (fun _ => False).
Proof.
  constructor; [apply _|..]; try done.
  - intros s D D' [Hrep Hsv] Hf Heq. split; [by eapply represents_ext|done].
  - intros [w l] D [_ Hsv] Hstop. pose proof (sv_go _ _ _ _ Hsv) as Hgo. cbn [snd] in Hgo, Hstop. congruence.
  - intros k src b [w l] D [Hrep Hsv] Hk Hsrc Hb.
    pose proof (append_disk params N keep keep_frame k src b (w, l) D HN Hrep Hk Hsrc Hb) as Hw.
    destruct Hrep as (Hf & ess & Hew & Hc & _). cbn [fst snd] in *.
    destruct (append_write_works params N C HN Hni w l ess k src b Hew ltac:(intros j; by rewrite Hc) Hsv
      Hk Hsrc Hb) as (s' & E & Hsv').
    rewrite E in *. split; [exact Hw|done].
  - intros b [w l] D [Hrep Hsv] Hop. unfold on_world, zoom. cbn [fst snd].
    destruct (submit_bio b w) as [r w'] eqn:E.
    pose proof (submit_flush_frame N keep keep_frame w l b D r w' Hrep Hop E) as Hrep'.
    pose proof (preserves_run _ _ _ _ _ (submit_quiet (l_allocator l) b ltac:(congruence)) E
      (serving_matching 0 w l Hsv)) as Hm.
    pose proof (serving_world 0 w w' l Hsv Hm) as Hsv'. unfold submit_bio, on_dev, bind, zoom in E.
    unfold bio_op in Hop. destruct (bi_opf b) as [op fl]. cbn in Hop. subst op.
    pose proof (zd_flush fl (bi_sector b) (gather (bi_vecs b)) (w_dev w) (proj2 (sv_works _ _ _ _ Hsv))) as Hok.
    destruct (submit_bio_wait _ (w_dev w)) as [[data|e] d2]; [|done]. by injection E as <- <-.
Qed.

(** Every read, write and flush bio is served. *)
Lemma io_worker_serves D b s :
  healthy_disk s D -> bio_valid N b ->
  let '(r, s') := zns_lsm_io_worker params b s in
  (exists D', healthy_disk s' D' /\ disk_step D b r D') /\ (bio_op b <> REQ_OP_OTHER -> is_ok r = true).
Proof.
  intros Hh Hb. pose proof (io_worker_ends params N HN _ _ _ D b s Hh Hb) as Hio.
  destruct (zns_lsm_io_worker params b s) as [[b'|e] s']; [by split|].
  destruct Hio as [Hs [Ho|[]]]. split; [done|]. by intros Hop.
Qed.

(** The flush worker keeps everything in order. *)
Lemma flush_serving s D :
  0 <= N -> healthy_disk s D -> serving N C 0 (snd (zns_lsm_flush_worker s)).
Proof.
  destruct s as [w l]. intros HN0 [(Hf & ess & Hew & Hc & _) Hsv]. cbn [fst snd] in *.
  pose proof (ew_store _ _ _ _ Hew) as Hst.
  destruct (flush_worker_steps w l) as (failed & s1 & [w' l'] & -> & Hs1 & Hs2 & _). cbn [snd].
  assert (Hinv : flush_inv N (FlushClaim, (w, l)) ess) by (by split).
  destruct (flush_steps_inv N _ _ ess ltac:(lia) Hne Hinv (transitivity Hs1 Hs2)) as (ess' & _ & [Hff _ _ _]).
  cbn [snd] in Hff. destruct (st_region _ _ _ _ Hst) as (? & ? & ?).
  set (a := l_allocator l) in *.
  assert (HW : takes_writes (m_meta_start (l_meta l)) (m_meta_end (l_meta l)) (matching a)).
  { intros fl sec b Hlo Hhi d [Hd Ht]. split; [by apply zd_works|]. apply tracked_request; [done|done|].
    right. intros i Hi. cbn [rq_sector]. pose proof (ew_meta_apart _ _ _ _ Hew i Hi) as Hap. cbv zeta in Hap.
    fold a in Hap. destruct (alloc_wf_zone a i (ge_alloc l (ew_geometry _ _ _ _ Hew)) Hi). lia. }
  pose proof (flush_steps_within (matching a) (m_meta_start (l_meta l)) (m_meta_end (l_meta l)) HW N
    _ _ ess ltac:(lia) Hne (transitivity Hs1 Hs2) Hinv ltac:(done) ltac:(done) ltac:(lia)
    (serving_matching 0 w l Hsv)) as [Hm [Hd Ht]]. cbn [fst snd] in *.
  destruct Hsv as [_ _ Hr Hg Hnr]. cbn [fst snd] in *.
  constructor; cbn [fst snd]; rewrite ?(ff_allocator _ _ Hff), ?(ff_attempts _ _ Hff); done.
Qed.

End Healthy.

(** ** Runs *)
Section Runs.
Context `{ZonedDeviceLaws} `{Crc32} `{XArrayLaws} `{RbTreeLaws}.
Context `{ZnsGcPolicy} `{!ZnsGcPolicyLaws} `{!ZnsGcPolicyComplete}.
Context (params : lsm_params) (N C : Z).

(** Bios the engine has an operation for. *)
Definition supported (ev : event) : Prop :=
  match ev with EvBio b => bio_op b <> REQ_OP_OTHER | EvFlush => True end.

(** C4.  A healthy engine serves everything.  Let the machine work: no allocation and no
    request fails for reasons of its own, the device keeps the write pointers the
    engine saw; and let the zones beside the reserve have room for more than the [N]
    logical blocks.  Then, under every garbage-collection policy that collects when it
    must, each read, write and flush of a run is answered with success, whatever
    background flushes happen in between: writes never run out of space, because
    garbage collection always finds a victim, moves its blocks and resets it.  And
    afterwards the engine is as healthy as before. *)
Theorem healthy_engine_serves evs s D :
  no_injection params -> no_enodata -> N < 4294967296 ->
  represents N s D -> serving N C 0 s ->
  Forall (event_valid N) evs -> Forall supported evs ->
  let '(rs, s') := run_events params evs s in
  Forall (fun r => is_ok r = true) rs /\
  exists D', disk_run D evs rs D' /\ represents N s' D' /\ serving N C 0 s'.
Proof.
  intros Hni Hne HN. revert s D. induction evs as [|[b|] evs IH]; intros s D Hrep Hsv Hev Hsup; cbn [run_events].
  - split; [done|]. exists D. split; [constructor|done].
  - apply Forall_cons_1 in Hev as [Hb Hev]. apply Forall_cons_1 in Hsup as [Hop Hsup].
    pose proof (io_worker_serves params N C Hni Hne HN (fun _ _ => True) (fun _ _ _ _ _ => I) D b s
      (conj Hrep Hsv) Hb) as Hio.
    destruct (zns_lsm_io_worker params b s) as [r s1]. destruct Hio as [(D1 & [Hrep1 Hsv1] & Hstep) Hok].
    specialize (IH s1 D1 Hrep1 Hsv1 Hev Hsup). destruct (run_events params evs s1) as [rs s2].
    destruct IH as (Hoks & D2 & Hrun & Hend). split; [by constructor; [apply Hok|]|].
    exists D2. split; [by econstructor|done].
  - apply Forall_cons_1 in Hev as [_ Hev]. apply Forall_cons_1 in Hsup as [_ Hsup].
    destruct (serving_room _ _ _ _ Hsv) as [HN0 _].
    pose proof (flush_worker_disk N D s Hne ltac:(lia) Hrep) as Hfl.
    pose proof (flush_serving N C Hne HN (fun _ _ => True) s D HN0 (conj Hrep Hsv)) as Hsv1.
    destruct (zns_lsm_flush_worker s) as [r s1]. destruct Hfl as [_ Hrep1]. cbn [snd] in *.
    specialize (IH s1 D Hrep1 Hsv1 Hev Hsup). destruct (run_events params evs s1) as [rs s2].
    destruct IH as (Hoks & D2 & Hrun & Hend). split; [done|]. exists D2. split; [by constructor|done].
Qed.

End Runs.

(** ** A concrete run *)
Module ProgressExamples.
Import EngineExamples DiskExamples.
#[local] Existing Instance eio_device | 0.
#[local] Existing Instance eio_device_laws | 0.
#[local] Existing Instance eio_zoned_laws | 0.
#[local] Existing Instance greedy_policy.

(** Three zones of two blocks, one of them the reserve, and three logical blocks. *)
Lemma demo_serving : serving 3 2 0 (demo_world [], demo_engine).
Proof.
  constructor; cbn [fst snd].
  - split; [by apply Forall_nil|]. constructor; cbn; [done| |].
    + repeat (constructor; [|repeat (constructor; [cbn; lia|]); constructor]). constructor.
    + repeat apply Forall_cons_2; try apply Forall_nil_2; cbn; lia.
  - intros i Hi. demo_zones i; (constructor; [done|done|]); eexists; (split; [reflexivity|]); done.
  - constructor; cbn; [lia|done|done].
  - done.
  - cbn. lia.
Qed.

Definition block_write (k : Z) (c : Byte.byte) : event :=
  EvBio (mk_bio (opf REQ_OP_WRITE) (8 * k) 4096 [pattern c]).

(** Each block is written and overwritten until zones must be collected. *)
Definition busy_events : list event :=
  [block_write 0 Byte.x41; block_write 1 Byte.x42; block_write 2 Byte.x43; EvFlush;
   block_write 0 Byte.x44; block_write 1 Byte.x45; block_write 0 Byte.x46; EvFlush;
   EvBio (mk_bio (opf REQ_OP_READ) 8 4096 [pattern Byte.x00]); EvBio (mk_bio (opf REQ_OP_FLUSH) 0 0 [])].

Lemma busy_valid : Forall (event_valid 3) busy_events.
Proof.
  repeat apply Forall_cons_2; [..|apply Forall_nil_2]; try exact I;
    (constructor; [by constructor|done|]); cbn; intros [Hop|Hop]; try discriminate Hop;
    (split; [lia|by vm_compute]).
Qed.

Lemma healthy_engine_serves_witness :
  Forall (fun r => is_ok r = true)
    (fst (run_events default_params busy_events (demo_world [], demo_engine))) /\
  gi_runs (l_gc (snd (snd (run_events default_params busy_events (demo_world [], demo_engine))))) = 2.
Proof.
  assert (Hgc : gi_runs (l_gc (snd (snd (run_events default_params busy_events
    (demo_world [], demo_engine))))) = 2) by (vm_compute; reflexivity).
  pose proof (healthy_engine_serves default_params 3 2 busy_events (demo_world [], demo_engine) _
    ltac:(by split) eio_device_no_enodata ltac:(lia) demo_represents demo_serving busy_valid
    ltac:(repeat apply Forall_cons_2; [..|apply Forall_nil_2]; done)) as Hrun.
  destruct (run_events default_params busy_events (demo_world [], demo_engine)) as [rs s'].
  split; [exact (proj1 Hrun)|exact Hgc].
Defined.

(** Two zones of two blocks beside the reserve, four logical blocks, all written. *)
Definition saturated_state : world * zns_lsm :=
  foldl write_pattern (demo_world [], demo_engine)
    [(0, Byte.x41); (1, Byte.x42); (2, Byte.x43); (3, Byte.x44)].

Lemma saturated_state_wf : engine_wf 4 (w_dev (fst saturated_state)) (snd saturated_state) [].
Proof.
  apply (writes_keep_wf [(0, Byte.x41); (1, Byte.x42); (2, Byte.x43); (3, Byte.x44)]
    (demo_world [], demo_engine)); [|apply demo_engine_wf].
  repeat apply Forall_cons_2; [cbn; lia..|apply Forall_nil_2].
Qed.

Lemma saturated_engine_refuses_writes_witness :
  saturated 4 2 (snd saturated_state) /\
  Forall (fun r => is_ok r = false) (fst (append_all default_params
    [(0, SrcBuffer (pattern Byte.x45) (opf REQ_OP_WRITE)); (24, SrcBuffer (pattern Byte.x46) (opf REQ_OP_WRITE))]
    saturated_state)).
Proof.
  assert (Hsa : saturated 4 2 (snd saturated_state)).
  { constructor.
    - intros i Hi. assert (Hn : a_nr_zones (l_allocator (snd saturated_state)) = 3) by (vm_compute; done).
      rewrite Hn in Hi. assert (i = 0 \/ i = 1 \/ i = 2) as [->|[->| ->]] by lia; vm_compute; done.
    - constructor; [split; vm_compute; congruence|vm_compute; done..].
    - vm_compute. done.
    - intros k Hk. assert (k = 0 \/ k = 1 \/ k = 2 \/ k = 3) as [->|[->|[->| ->]]] by lia;
        vm_compute; by eexists.
    - vm_compute. congruence. }
  split; [exact Hsa|].
  pose proof (saturated_engine_refuses_writes default_params 4 2
    [(0, SrcBuffer (pattern Byte.x45) (opf REQ_OP_WRITE)); (24, SrcBuffer (pattern Byte.x46) (opf REQ_OP_WRITE))]
    (fst saturated_state) (snd saturated_state) [] saturated_state_wf Hsa) as Hrun.
  rewrite <- surjective_pairing in Hrun. destruct (append_all _ _ saturated_state) as [rs [w' l']].
  exact (proj1 Hrun).
Defined.

End ProgressExamples.
