(* ===== verification/LsmRestart.v ===== *)
(** Stopping and starting an LSM target.  The metadata zone holds a superblock and,
    behind it, a log of SSTables without gaps.  A clean shutdown appends the resident
    generations to that log; a start reads the log back, rebuilds the index of live
    blocks from it, and the target holds the disk it held before. *)
From S2P Require Import Prelude Kernel ZonedRam Zone Allocator GcPolicy XArray Bytes RbTree.
From S2P Require Import Memtable Sstable Super Lsm LsmIndex LsmFlush LsmView Bio LsmIo LsmRecovery.
From S2P Require Import LsmConcurrency LsmRefine Disk LsmServe LsmDisk.

Section Restart.
Context `{BlockDeviceLaws} `{Crc32} `{XArrayLaws} `{RbTreeLaws}.

(** ** The log *)

(** A table of the log: its sequence number and its entries. *)
Abbreviation logged := (Z * list lsm_entry)%type.

Definition log_blocks (t : logged) : Z := 1 + payload_blocks (zlen (snd t)).

(** The tables [ts], oldest first, fill the sectors from [cursor] to [wp]. *)
Fixpoint log_on (d : bdev) (cursor wp : Z) (ts : list logged) : Prop :=
  match ts with
  | [] => cursor = wp
  | (seq, es) :: ts' =>
      es <> [] /\ entries_wf es /\ is_u32 (zlen es) /\ is_u64 seq /\
      sst_on_disk d (sst_of cursor seq es) es /\ header_on_disk d (sst_of cursor seq es) es /\
      log_on d (cursor + 8 * log_blocks (seq, es)) wp ts'
  end.

(** The index a recovery builds for a table. *)
Definition sst_loaded (start seq : Z) (es : list lsm_entry) : zns_sstable :=
  with_start_crc start (payload_crc es) (sst_of start seq es).

Fixpoint log_ssts (cursor : Z) (ts : list logged) : list zns_sstable :=
  match ts with
  | [] => []
  | (seq, es) :: ts' => sst_loaded cursor seq es :: log_ssts (cursor + 8 * log_blocks (seq, es)) ts'
  end.

Lemma log_blocks_pos t : is_u32 (zlen (snd t)) -> snd t <> [] -> 2 <= log_blocks t <= 16777217.
Proof.
  intros Hn Hne. unfold log_blocks. pose proof (payload_blocks_bound _ Hn).
  destruct t as [seq [|e es]]; [done|]. cbn [snd] in *.
  pose proof (payload_blocks_pos (zlen (e :: es)) ltac:(unfold zlen; cbn; lia)). lia.
Qed.

Lemma log_on_bounds d cursor wp ts : log_on d cursor wp ts -> cursor + 16 * zlen ts <= wp.
Proof.
  revert cursor. induction ts as [|[seq es] ts IH]; intros cursor; cbn [log_on].
  - unfold zlen. cbn. lia.
  - intros (Hne & _ & Hn & _ & _ & _ & Hrest). apply IH in Hrest.
    pose proof (log_blocks_pos (seq, es) Hn Hne). unfold zlen in *. cbn [length]. lia.
Qed.

Lemma log_on_frame d d' cursor wp ts :
  log_on d cursor wp ts ->
  (forall s, cursor <= s -> s + 8 <= wp -> dev_block d' s = dev_block d s) ->
  log_on d' cursor wp ts.
Proof.
  revert cursor. induction ts as [|[seq es] ts IH]; intros cursor; cbn [log_on]; [done|].
  intros (Hne & Hwf & Hn & Hseq & Hd & Hh & Hrest) Hf.
  pose proof (log_blocks_pos (seq, es) Hn Hne) as Hb. unfold log_blocks in *. cbn [snd] in *.
  pose proof (log_on_bounds d _ wp ts Hrest) as Hle. pose proof (zlen_nonneg ts).
  split_and!; try done.
  - eapply sst_on_disk_frame; [exact Hd|]. cbn [s_start_sector s_nr_blocks sst_of].
    intros s ? ?. apply Hf; lia.
  - eapply header_on_disk_frame; [exact Hh|]. cbn [s_start_sector sst_of]. apply Hf; lia.
  - apply IH; [done|]. intros s ? ?. apply Hf; lia.
Qed.

Lemma log_on_snoc d cursor wp wp' ts seq es :
  log_on d cursor wp ts -> log_on d wp wp' [(seq, es)] -> log_on d cursor wp' (ts ++ [(seq, es)]).
Proof.
  revert cursor. induction ts as [|[seq0 es0] ts IH]; intros cursor; cbn [log_on app].
  - by intros ->.
  - intros (? & ? & ? & ? & ? & ? & Hrest) Hlast. split_and!; try done. by apply IH.
Qed.

(** A complete table a flush wrote is a log of its own. *)
Lemma written_log d start seq es :
  entries_wf es -> is_u32 (zlen es) -> is_u64 seq -> es <> [] -> 0 <= start ->
  start + 8 * log_blocks (seq, es) < 18446744073709551616 ->
  written_prefix d (sst_of start seq es) es (8 * log_blocks (seq, es)) ->
  log_on d start (start + 8 * log_blocks (seq, es)) [(seq, es)].
Proof.
  intros Hwf Hn Hseq Hne Hs Hfit Hp.
  destruct (written_on_disk d start seq es Hwf Hn Hne Hs Hfit Hp) as [Hd Hh]. done.
Qed.

(** The tables of a log, as the list of an engine: newest first. *)
Lemma log_tables d cursor wp ts :
  log_on d cursor wp ts ->
  Forall2 (sst_on_disk d) (log_ssts cursor ts) (snd <$> ts) /\
  Forall (fun sst => cursor <= s_start_sector sst /\
    s_start_sector sst + 8 * s_nr_blocks sst <= wp) (log_ssts cursor ts) /\
  Forall2 (fun sst es => s_payload_crc sst = payload_crc es) (log_ssts cursor ts) (snd <$> ts).
Proof.
  revert cursor. induction ts as [|[seq es] ts IH]; intros cursor; cbn [log_on log_ssts fmap list_fmap];
    [intros _; by split_and!|].
  intros (Hne & Hwf & Hn & Hseq & Hd & Hh & Hrest).
  pose proof (log_blocks_pos (seq, es) Hn Hne) as Hb. pose proof (log_on_bounds d _ wp ts Hrest) as Hle.
  pose proof (zlen_nonneg ts). destruct (IH _ Hrest) as (H1' & H2' & H3').
  unfold log_blocks in *. cbn [snd] in *. split_and!; constructor; try done.
  - by apply sst_on_disk_loaded.
  - cbn. lia.
  - eapply Forall_impl; [exact H2'|]. cbn. intros sst ?. lia.
Qed.

(** ** Reading the log back *)

(** The device never reports an error under the code that means "no table here". *)
Definition no_einval : Prop := ~ dev_error (- EINVAL).

Lemma io_error_not_einval e : no_einval -> io_error e -> e <> - EINVAL.
Proof. intros Hn [->|[->|He]]; [done|done|]. by intros ->. Qed.

Definition adopt_all (ssts : list zns_sstable) (m : metadata) : metadata :=
  foldl (fun m sst => adopt_sstable sst m) m ssts.

Lemma adopt_all_fields ssts m :
  m_sstables (adopt_all ssts m) = reverse ssts ++ m_sstables m /\
  m_meta_start (adopt_all ssts m) = m_meta_start m /\ m_meta_wp (adopt_all ssts m) = m_meta_wp m /\
  m_meta_end (adopt_all ssts m) = m_meta_end m /\ m_super (adopt_all ssts m) = m_super m /\
  (is_u64 (m_next_sst_seq m) -> is_u64 (m_next_sst_seq (adopt_all ssts m))).
Proof.
  revert m. induction ssts as [|sst ssts IH]; intros m; [done|]. cbn [adopt_all foldl].
  fold (adopt_all ssts (adopt_sstable sst m)).
  destruct (IH (adopt_sstable sst m)) as (-> & -> & -> & -> & -> & Hq).
  cbn [adopt_sstable m_sstables m_meta_start m_meta_wp m_meta_end m_super m_next_sst_seq] in *.
  rewrite reverse_cons, <- app_assoc. split_and!; try done. intros Hm. apply Hq.
  destruct (_ <=? _); [apply u64_range|done].
Qed.

(** The walk adopts exactly the tables of the log, oldest first. *)
Lemma recover_loop_outcome fuel cursor ts w l :
  no_einval -> log_on (w_dev w) cursor (m_meta_wp (l_meta l)) ts ->
  0 <= cursor -> m_meta_wp (l_meta l) < 18446744073709551616 -> (length ts < fuel)%nat ->
  let '(r, (w', l')) := recover_loop fuel cursor (w, l) in
  same_blocks (w_dev w) (w_dev w') /\ fault_free_step w w' /\
  match r with
  | Ok _ => l' = set_meta (adopt_all (log_ssts cursor ts) (l_meta l)) l
  | Err e => faulty w e
  end.
Proof.
  intros Hne. revert cursor ts w l. induction fuel as [|fuel IH]; intros cursor ts w l Hlog Hc Hwp Hf; [lia|].
  cbn [recover_loop]. unfold bind at 1, lsm_get, gets. cbn [snd].
  destruct ts as [|[seq es] ts].
  { cbn [log_on] in Hlog. subst cursor. rewrite Z.ltb_irrefl. split; [apply same_blocks_refl|].
    split; [faults|]. by destruct l. }
  pose proof (log_on_bounds _ _ _ _ Hlog) as Hle. unfold zlen in Hle. cbn [length] in Hle, Hf.
  cbn [log_on] in Hlog. destruct Hlog as (Hnil & Hwf & Hn & Hseq & Hd & Hh & Hrest).
  rewrite (proj2 (Z.ltb_lt _ _)) by lia.
  pose proof (log_on_bounds _ _ _ _ Hrest) as Hle'. pose proof (zlen_nonneg ts).
  pose proof (log_blocks_pos (seq, es) Hn Hnil) as Hb.
  destruct (sst_of_consistent cursor seq es Hwf Hn Hseq Hnil) as [Hr Hcons].
  unfold bind at 1, attempt, on_world, zoom. cbn [fst snd].
  destruct (zns_sst_load cursor (m_meta_wp (l_meta l)) w) as [r1 w1] eqn:E1.
  apply (sst_load_outcome (sst_of cursor seq es) es) in E1 as (Hs1 & Hf1 & Hr1); try done;
    [|unfold is_u64; lia|unfold log_blocks in *; cbn [snd s_start_sector s_nr_blocks sst_of] in *; lia].
  destruct r1 as [sst|e].
  2:{ rewrite (proj2 (Z.eqb_neq _ _) (io_error_not_einval e Hne (proj1 Hr1))). by split_and!. }
  cbn [s_start_sector sst_of] in Hr1. fold (sst_loaded cursor seq es) in Hr1. subst sst.
  unfold bind, modify_meta, lsm_modify, modify. cbn [fst snd].
  set (l1 := set_meta (adopt_sstable _ (l_meta l)) l).
  assert (Hnext : u64 (cursor + u64 (s_nr_blocks (sst_loaded cursor seq es) * ZNS_SST_BLOCK_SECTORS)) =
    cursor + 8 * log_blocks (seq, es)).
  { unfold log_blocks in *. cbn [snd] in *. cbn [s_nr_blocks sst_loaded with_start_crc sst_of].
    change ZNS_SST_BLOCK_SECTORS with 8. unwrap. lia. }
  rewrite Hnext. specialize (IH (cursor + 8 * log_blocks (seq, es)) ts w1 l1).
  destruct (recover_loop fuel _ (w1, l1)) as [r [w' l']].
  destruct IH as (Hs2 & Hf2 & Hr2); [|lia|done|lia|].
  { eapply log_on_frame; [exact Hrest|]. intros s _ _. apply Hs1. }
  split; [by transitivity (w_dev w1)|]. split; [faults|]. destruct r as [[]|e]; [|faults].
  rewrite Hr2. done.
Qed.

(** ** Rebuilding the index *)

(** What the log must say about a device for a target to start: the newest mapping of
    every block is in range and leads to a written block of its own. *)
Record restorable (N : Z) (a : zns_allocator) (V : gmap Z Z) : Prop := {
  rs_range : forall k p, V !! k = Some p -> 0 <= k < N;
  rs_located : forall k p, V !! k = Some p -> exists i s, located a p i s;
  rs_injective : forall k k' p, V !! k = Some p -> V !! k' = Some p -> k = k';
}.

(** The index holds exactly the mappings [m]. *)
Definition indexed (N : Z) (l : zns_lsm) (m : gmap Z Z) : Prop :=
  geometry l /\ index_wf N l /\ forall k, current l k = m !! k.

Definition logical_blocks (l : zns_lsm) : Z := su_logical_sectors (m_super (l_meta l)) / 8.

Lemma indexed_free N l m V k p i s :
  indexed N l m -> m ⊆ V -> restorable N (l_allocator l) V -> m !! k = None -> V !! k = Some p ->
  located (l_allocator l) p i s -> rev_slot (l_gc l) i s = 0.
Proof.
  intros (Hg & Hx & Hc) Hsub Hrs Hnone Hk Hl.
  destruct (decide (rev_slot (l_gc l) i s = 0)) as [|Hr]; [done|]. exfalso.
  destruct (ix_backward N l Hx i s (lo_zone _ _ _ _ Hl) ltac:(by eapply located_slot_range) Hr)
    as (q & Hlq & He).
  assert (q = p) as ->.
  { destruct Hl as [_ _ Hp _ _], Hlq as [_ _ Hq _ _]. congruence. }
  set (k' := rev_slot (l_gc l) i s - 1) in *.
  assert (Hcur : current l k' = Some p).
  { apply (current_some N l k' p Hg Hx). split; [done|by eapply located_bounds]. }
  rewrite Hc in Hcur. assert (Hk' := lookup_weaken _ _ _ _ Hcur Hsub).
  rewrite (rs_injective _ _ _ Hrs k k' p Hk Hk') in Hnone. congruence.
Qed.

Lemma restore_entry_outcome N w l m V k p :
  logical_blocks l = N -> N < 4294967296 -> indexed N l m -> m ⊆ V ->
  restorable N (l_allocator l) V -> is_Some (V !! k) -> (m !! k = None -> V !! k = Some p) ->
  let '(r, (w', l')) := zns_lsm_gc_restore_entry k p (w, l) in
  w_dev w' = w_dev w /\ fault_free_step w w' /\
  match r with
  | Ok _ => (exists g, l' = set_gc g l) /\ indexed N l' (m ∪ {[k := p]})
  | Err e => faulty w e
  end.
Proof.
  intros HN Hmax Hix Hsub Hrs [p0 Hk0] Hnew. pose proof Hix as (Hg & Hx & Hc).
  pose proof (rs_range _ _ _ Hrs k p0 Hk0) as Hk.
  unfold zns_lsm_gc_restore_entry, bind at 1, lsm_get, gets. cbn [snd id].
  rewrite (ge_spb l Hg). fold (logical_blocks l). rewrite HN, (proj2 (Z.leb_gt _ _)) by lia.
  pose proof (Hc k) as Hck. unfold current in Hck.
  destruct (xa_load (gi_latest (l_gc l)) k) as [e|] eqn:He.
  { split; [done|]. split; [faults|]. split; [exists (l_gc l); by destruct l|].
    replace (m ∪ {[k := p]}) with m; [done|]. apply map_eq. intros j. rewrite lookup_union.
    destruct (decide (j = k)) as [->|]; [|rewrite lookup_singleton_ne by done; by destruct (m !! j)].
    rewrite <- Hck. cbn. by rewrite lookup_singleton_eq. }
  symmetry in Hck. specialize (Hnew Hck).
  destruct (rs_located _ _ _ Hrs k p Hnew) as (i & s & Hl).
  rewrite (proj2 (physical_to_gc_slot_iff l p i s Hg) Hl).
  pose proof (indexed_free N l m V k p i s Hix Hsub Hrs Hck Hnew Hl) as Hfree.
  unfold rev_slot in Hfree. rewrite Hfree. cbn [Z.eqb negb]. fold (rev_slot (l_gc l) i s) in Hfree.
  unfold bind. pose proof (on_latest_store k (zns_gc_encode_physical_sector p) w l) as Hst.
  destruct (on_latest _ (w, l)) as [[[]|e] [w1 l1]].
  2:{ destruct Hst as (Hd & _ & -> & Hf & _). split; [done|]. unfold fault_free_step, faulty.
      split; [|split; [by left|tauto]]. intros e' [Hio _]. split; [done|tauto]. }
  destruct Hst as (Hd & Hnf & x & -> & Hload). unfold lsm_modify, modify. cbn [fst snd].
  split; [done|]. split.
  { intros e' [Hio Hf]. split; [done|]. intros Hnf' P HP Hw. apply (Hf (Hnf Hnf') P HP). by rewrite Hd. }
  rewrite encode_logical_id by lia.
  change (set_gc (inc_valid_blocks _) _) with (set_gc (moved_index x None i s k (l_gc l)) l).
  assert (Hocc : occupies l k None) by (unfold occupies; rewrite Hc; done).
  split; [by eexists|]. split; [apply moved_index_geometry; [done..|apply Hl]|].
  destruct (moved_index_wf x None N i s k p l Hg Hx Hocc Hk Hl Hfree Hload) as [Hwf Hcur].
  split; [done|]. intros j. rewrite Hcur, Hc, lookup_union. case_bool_decide as Hj.
  - subst j. by rewrite Hck, lookup_singleton_eq.
  - rewrite lookup_singleton_ne by done. by destruct (m !! j).
Qed.

(** The entries of a payload block, one after the other. *)
Fixpoint restore_list (es : list lsm_entry) : M (world * zns_lsm) unit :=
  match es with
  | [] => ret tt
  | e :: es' =>
      zns_lsm_gc_restore_entry (e_logical_block e) (e_physical_sector e) ;;; restore_list es'
  end.

Lemma restore_entries_list pre es s :
  entries_wf es ->
  restore_entries (payload_block (pre ++ es)) (seqZ (zlen pre) (zlen es)) s = restore_list es s.
Proof.
  revert pre s. induction es as [|e es IH]; intros pre s Hwf; [done|].
  unfold zlen at 2. cbn [length]. rewrite seqZ_cons by lia. cbn [restore_entries restore_list].
  assert (He : (pre ++ e :: es) !! length pre = Some e).
  { rewrite lookup_app_r, Nat.sub_diag by lia. done. }
  destruct (payload_block_entry _ _ _ He) as [Hk Hp]. fold (zlen pre) in Hk, Hp.
  destruct Hwf as [Hsorted Hkeys Hsects]. apply StronglySorted_inv in Hsorted as [Hsorted _].
  apply Forall_cons_1 in Hkeys as [Hke Hkeys]. apply Forall_cons_1 in Hsects as [Hse Hsects].
  rewrite Hk, Hp, !u64_id by done. unfold bind.
  destruct (zns_lsm_gc_restore_entry _ _ s) as [[[]|e'] s']; [|done].
  specialize (IH (pre ++ [e]) s' ltac:(by constructor)). rewrite <- app_assoc in IH.
  replace (zlen (pre ++ [e])) with (Z.succ (zlen pre)) in IH
    by (unfold zlen; rewrite length_app; cbn; lia).
  replace (zlen es) with (Z.pred (Z.of_nat (S (length es)))) in IH by (unfold zlen; lia). exact IH.
Qed.

(** The state of a rebuild that still has to restore the mappings [rest]. *)
Record rebuilding (N : Z) (V : gmap Z Z) (l : zns_lsm) (rest : gmap Z Z) : Prop := {
  rb_blocks : logical_blocks l = N;
  rb_restorable : restorable N (l_allocator l) V;
  rb_indexed : exists m, indexed N l m /\ V = m ∪ rest;
}.

Lemma rebuilding_gc N V l g rest m :
  rebuilding N V l rest -> indexed N (set_gc g l) m -> V = m ∪ rest ->
  rebuilding N V (set_gc g l) rest.
Proof. intros [] Hi Hv. constructor; eauto. Qed.

Lemma entry_pairs_cons e es :
  (list_to_map (entry_pair <$> e :: es) : gmap Z Z) =
  {[e_logical_block e := e_physical_sector e]} ∪ list_to_map (entry_pair <$> es).
Proof. rewrite fmap_cons. cbn [entry_pair list_to_map foldr fst snd]. by rewrite insert_union_singleton_l. Qed.

Lemma restore_list_outcome N V es rest w l :
  N < 4294967296 -> rebuilding N V l (list_to_map (entry_pair <$> es) ∪ rest) ->
  let '(r, (w', l')) := restore_list es (w, l) in
  w_dev w' = w_dev w /\ fault_free_step w w' /\
  match r with
  | Ok _ => (exists g, l' = set_gc g l) /\ rebuilding N V l' rest
  | Err e => faulty w e
  end.
Proof.
  intros HN. revert w l. induction es as [|e es IH]; intros w l Hrb.
  { split; [done|]. split; [faults|]. cbn in Hrb. rewrite (left_id_L ∅ (∪)) in Hrb.
    split; [exists (l_gc l); by destruct l|done]. }
  cbn [restore_list]. unfold bind. set (k := e_logical_block e). set (p := e_physical_sector e).
  pose proof Hrb as [Hlb Hrs (m & Hi & HV)]. rewrite entry_pairs_cons in HV. fold k p in HV.
  assert (Hsub : m ⊆ V) by (rewrite HV; apply map_union_subseteq_l).
  assert (HVk : is_Some (V !! k) /\ (m !! k = None -> V !! k = Some p)).
  { rewrite HV, !lookup_union, lookup_singleton_eq.
    destruct (m !! k), (list_to_map _ !! k), (rest !! k); cbn; split; done || by eexists. }
  pose proof (restore_entry_outcome N w l m V k p Hlb HN Hi Hsub Hrs (proj1 HVk) (proj2 HVk)) as Hr.
  destruct (zns_lsm_gc_restore_entry k p (w, l)) as [[[]|e'] [w1 l1]]; [|done].
  destruct Hr as (Hd1 & Hf1 & (g & ->) & Hi1).
  assert (Hrb1 : rebuilding N V (set_gc g l) (list_to_map (entry_pair <$> es) ∪ rest)).
  { constructor; [done|done|]. eexists. split; [exact Hi1|].
    rewrite HV. by rewrite !(assoc_L (∪)). }
  specialize (IH w1 (set_gc g l) Hrb1). destruct (restore_list es (w1, set_gc g l)) as [r [w2 l2]].
  destruct IH as (Hd2 & Hf2 & Hr2). split; [congruence|]. split; [faults|].
  destruct r as [[]|e']; [|faults]. destruct Hr2 as [(g' & ->) Hrb2]. split; [by exists g'|done].
Qed.

Lemma drop_chunk j es : drop (256 * j) es = chunk j es ++ drop (256 * S j) es.
Proof.
  unfold chunk. rewrite <- (take_drop 256 (drop (256 * j) es)) at 1. rewrite drop_drop.
  do 2 f_equal. lia.
Qed.

Lemma rebuild_pages_outcome N V sst es n j rest crc b w l :
  N < 4294967296 -> sst_on_disk (w_dev w) sst es ->
  Z.of_nat j + Z.of_nat n = payload_blocks (zlen es) ->
  rebuilding N V l (list_to_map (entry_pair <$> drop (256 * j) es) ∪ rest) ->
  let '(r, (w', l')) := rebuild_pages sst (seqZ (Z.of_nat j) (Z.of_nat n)) crc b (w, l) in
  same_blocks (w_dev w) (w_dev w') /\ fault_free_step w w' /\
  match r with
  | Ok crc' => (exists g, l' = set_gc g l) /\ rebuilding N V l' rest /\
      crc' = foldl crc32_le crc (drop j (payload es))
  | Err e => faulty w e
  end.
Proof.
  intros HN. revert j crc b w l. induction n as [|n IH]; intros j crc b w l Hd Hn Hrb.
  { cbn. split; [apply same_blocks_refl|]. split; [faults|]. split; [exists (l_gc l); by destruct l|].
    pose proof (sod_count _ _ _ Hd) as Hcnt.
    assert (Hend : zlen es <= 256 * Z.of_nat j).
    { unfold payload_blocks in Hn. pose proof (Z.div_mod (zlen es + 255) 256 ltac:(lia)).
      pose proof (Z.mod_pos_bound (zlen es + 255) 256 ltac:(lia)). lia. }
    rewrite drop_ge in Hrb by (unfold zlen in Hend; lia). cbn in Hrb.
    rewrite (left_id_L ∅ (∪)) in Hrb. split; [done|].
    rewrite drop_ge by (rewrite length_payload; lia). done. }
  pose proof (payload_blocks_bound _ (sod_count _ _ _ Hd)) as Hpb.
  rewrite seqZ_cons by lia. cbn [rebuild_pages].
  pose proof (sod_fits _ _ _ Hd) as Hfit. rewrite (sod_nr_blocks _ _ _ Hd) in Hfit.
  change ZNS_SST_BLOCK_SECTORS with 8.
  rewrite (u32_id (Z.of_nat j + 1)), (u32_id (_ * 8)), u64_id by lia.
  unfold bind at 1, on_world, zoom. cbn [fst snd].
  destruct (zns_block_read _ b w) as [r1 w1] eqn:E1.
  apply block_read_outcome in E1 as (Hs1 & Hf1 & Hb1). destruct r1 as [b1|e]; [|by split_and!].
  replace (s_start_sector sst + (Z.of_nat j + 1) * 8) with
    (s_start_sector sst + 8 * (Z.of_nat j + 1)) in Hb1 by lia.
  rewrite (sod_payload _ _ _ Hd) in Hb1 by lia. subst b1.
  rewrite (sod_nr_entries _ _ _ Hd).
  destruct (chunk_length es j (sod_count _ _ _ Hd) ltac:(lia)) as [Hlen _]. rewrite <- Hlen.
  unfold bind at 1.
  pose proof (restore_entries_list [] (chunk j es) (w1, l) (chunk_wf es j (sod_entries _ _ _ Hd))) as Hre.
  cbn [app] in Hre. change (zlen []) with 0 in Hre. rewrite Hre. clear Hre.
  rewrite drop_chunk, fmap_app, list_to_map_app, <- (assoc_L (∪)) in Hrb.
  pose proof (restore_list_outcome N V (chunk j es) _ w1 l HN Hrb) as Hr.
  destruct (restore_list (chunk j es) (w1, l)) as [[[]|e] [w2 l2]]; destruct Hr as (Hd2 & Hf2 & Hr2).
  2:{ split; [intros a; rewrite Hd2; apply Hs1|]. split; faults. }
  destruct Hr2 as [(g & ->) Hrb2].
  assert (Hs2 : same_blocks (w_dev w) (w_dev w2)) by (intros a; rewrite Hd2; apply Hs1).
  specialize (IH (S j) (crc32_le crc (payload_block (chunk j es))) (payload_block (chunk j es)) w2
    (set_gc g l) (sst_on_disk_same _ _ _ _ Hs2 Hd) ltac:(lia) Hrb2).
  replace (Z.succ (Z.of_nat j)) with (Z.of_nat (S j)) by lia.
  replace (Z.pred (Z.of_nat (S n))) with (Z.of_nat n) by lia.
  destruct (rebuild_pages sst _ _ _ (w2, set_gc g l)) as [r [w3 l3]].
  destruct IH as (Hs3 & Hf3 & Hr3). split; [by transitivity (w_dev w2)|]. split; [faults|].
  destruct r as [crc'|e]; [|faults]. destruct Hr3 as ((g' & ->) & Hrb3 & ->).
  split; [by exists g'|]. split; [done|].
  by rewrite (drop_S (payload es) _ j (payload_lookup es j ltac:(lia))).
Qed.

Lemma rebuild_tables_outcome N V ssts ess b w l :
  N < 4294967296 -> Forall2 (sst_on_disk (w_dev w)) ssts ess ->
  Forall2 (fun sst es => s_payload_crc sst = payload_crc es) ssts ess ->
  rebuilding N V l (ssts_view ess) ->
  let '(r, (w', l')) := rebuild_tables ssts b (w, l) in
  same_blocks (w_dev w) (w_dev w') /\ fault_free_step w w' /\
  match r with
  | Ok _ => (exists g, l' = set_gc g l) /\ indexed N l' V
  | Err e => faulty w e
  end.
Proof.
  intros HN. revert ess w l. induction ssts as [|sst ssts IH]; intros ess w l Hd Hcrc Hrb.
  { inversion Hd. subst. cbn. split; [apply same_blocks_refl|]. split; [faults|].
    split; [exists (l_gc l); by destruct l|]. destruct Hrb as [_ _ (m & Hi & HV)].
    cbn in HV. rewrite (right_id_L ∅ (∪)) in HV. by subst. }
  inversion Hd as [|? es ? ess' Hd1 Hds]; subst. inversion Hcrc as [|? ? ? ? Hc1 Hcs]; subst.
  cbn [rebuild_tables]. rewrite (sod_nr_blocks _ _ _ Hd1).
  replace (1 + payload_blocks (zlen es) - 1) with (payload_blocks (zlen es)) by lia.
  pose proof (payload_blocks_bound _ (sod_count _ _ _ Hd1)) as Hpb. unfold bind at 1.
  pose proof (rebuild_pages_outcome N V sst es (Z.to_nat (payload_blocks (zlen es))) 0 (ssts_view ess')
    0 b w l HN Hd1 ltac:(lia) Hrb) as Hp. rewrite Z2Nat.id in Hp by lia. cbn [Z.of_nat] in Hp.
  destruct (rebuild_pages sst _ 0 b (w, l)) as [[crc|e] [w1 l1]]; [|done].
  destruct Hp as (Hs1 & Hf1 & (g & ->) & Hrb1 & ->). rewrite drop_0. fold (payload_crc es).
  rewrite Hc1, Z.eqb_refl. cbn [negb].
  assert (Hds1 : Forall2 (sst_on_disk (w_dev w1)) ssts ess').
  { eapply Forall2_impl; [exact Hds|]. intros ? ? ?. by eapply sst_on_disk_same. }
  specialize (IH ess' w1 (set_gc g l) Hds1 Hcs Hrb1).
  destruct (rebuild_tables ssts b (w1, set_gc g l)) as [r [w2 l2]].
  destruct IH as (Hs2 & Hf2 & Hr2). split; [by transitivity (w_dev w1)|]. split; [faults|].
  destruct r as [[]|e]; [|faults]. destruct Hr2 as [(g' & ->) Hi]. split; [by exists g'|done].
Qed.

(** ** Bringing a target up *)

(** The data zones of a table as the allocator starts with them, and the last zone. *)
Definition data_allocator (table : zns_zone_table) : zns_allocator :=
  mk_allocator 0 0 (take (Z.to_nat (zt_nr_zones table - 1)) (zt_zones table))
    (zt_nr_zones table - 1) 0 UINT_MAX 8 ZNS_ALLOCATOR_ZONED.
Definition meta_zone (table : zns_zone_table) : zns_zone :=
  (zt_zones table).[zt_nr_zones table - 1].
Definition meta_first (table : zns_zone_table) : Z := z_start_sector (meta_zone table).
Definition meta_last (table : zns_zone_table) : Z :=
  z_start_sector (meta_zone table) + z_capacity (meta_zone table).
Definition meta_pointer (table : zns_zone_table) : Z :=
  if bool_decide (z_condition (meta_zone table) = BLK_ZONE_COND_FULL) then meta_last table
  else z_write_pointer (meta_zone table).

(** A device the engine can run on. *)
Record device_ok (table : zns_zone_table) : Prop := {
  dv_nr : 2 <= zt_nr_zones table < 4294967296;
  dv_len : zlen (zt_zones table) = zt_nr_zones table;
  dv_range : Forall zone_u64 (zt_zones table);
  dv_valid : forallb zns_zone_metadata_valid (a_zones (data_allocator table)) = true;
  dv_disjoint : zones_disjoint (a_zones (data_allocator table));
  dv_small : forall i, 0 <= i < zt_nr_zones table - 1 ->
    z_start_sector (zt_zones table).[i] + z_capacity (zt_zones table).[i] <= 4611686018427387904;
  dv_aligned : aligned (data_allocator table);
  dv_apart : forall i j, 0 <= i < zt_nr_zones table -> 0 <= j < zt_nr_zones table -> i <> j ->
    let zi := (zt_zones table).[i] in
    let zj := (zt_zones table).[j] in
    z_start_sector zi + z_length zi <= z_start_sector zj \/
    z_start_sector zj + z_length zj <= z_start_sector zi;
  dv_meta : 8 <= z_capacity (meta_zone table) <= z_length (meta_zone table) /\
    meta_last table < 18446744073709551616 /\
    meta_first table <= z_write_pointer (meta_zone table) /\
    meta_pointer table <= meta_last table;
}.

(** ** Checking a device *)

(** The conditions on a device, in a form that evaluates. *)
Definition device_checks (table : zns_zone_table) : Prop :=
  let nr := zt_nr_zones table in
  let z i := (zt_zones table).[i] in
  let dz i := (a_zones (data_allocator table)).[i] in
  (2 <= nr /\ nr < 4294967296 /\ zlen (zt_zones table) = nr) /\
  Forall (fun z => (0 <= z_start_sector z /\ z_start_sector z < 18446744073709551616) /\
    (0 <= z_length z /\ z_length z < 18446744073709551616) /\
    (0 <= z_capacity z /\ z_capacity z < 18446744073709551616) /\
    (0 <= z_write_pointer z /\ z_write_pointer z < 18446744073709551616)) (zt_zones table) /\
  forallb zns_zone_metadata_valid (a_zones (data_allocator table)) = true /\
  Forall (fun i => z_start_sector (z i) + z_capacity (z i) <= 4611686018427387904 /\
    (z_write_pointer (dz i) - z_start_sector (dz i)) mod 8 = 0) (seqZ 0 (nr - 1)) /\
  Forall (fun i => Forall (fun j => i <> j ->
    z_start_sector (z i) + z_length (z i) <= z_start_sector (z j) \/
    z_start_sector (z j) + z_length (z j) <= z_start_sector (z i)) (seqZ 0 nr)) (seqZ 0 nr) /\
  (8 <= z_capacity (meta_zone table) /\ z_capacity (meta_zone table) <= z_length (meta_zone table)) /\
  meta_last table < 18446744073709551616 /\
  meta_first table <= z_write_pointer (meta_zone table) /\
  meta_pointer table <= meta_last table.

#[export] Instance device_checks_dec table : Decision (device_checks table).
Proof. unfold device_checks. cbv zeta. apply _. Defined.

Lemma Forall_seqZ (P : Z -> Prop) n i : Forall P (seqZ 0 n) -> 0 <= i < n -> P i.
Proof. intros Hall Hi. rewrite list.Forall_forall in Hall. apply Hall, elem_of_seqZ. lia. Qed.

Lemma device_check table : bool_decide (device_checks table) = true -> device_ok table.
Proof.
  intros Hb%bool_decide_eq_true. destruct Hb as ((Hn1 & Hn2 & Hlen) & Hr & Hv & Hz & Hap & Hm & Hm2 & Hm3 & Hm4).
  assert (Hu : Forall zone_u64 (zt_zones table)).
  { eapply Forall_impl; [exact Hr|]. unfold zone_u64, is_u64. cbn. tauto. }
  assert (Hdz : forall i, 0 <= i < zt_nr_zones table - 1 ->
    (a_zones (data_allocator table)).[i] = (zt_zones table).[i]).
  { intros i Hi. cbn. by rewrite lookup_total_take_lt by lia. }
  assert (Hnr : zlen (a_zones (data_allocator table)) = zt_nr_zones table - 1).
  { cbn. unfold zlen in *. rewrite length_take. lia. }
  assert (Hapart : forall i j, 0 <= i < zt_nr_zones table -> 0 <= j < zt_nr_zones table -> i <> j ->
    z_start_sector (zt_zones table).[i] + z_length (zt_zones table).[i] <= z_start_sector (zt_zones table).[j] \/
    z_start_sector (zt_zones table).[j] + z_length (zt_zones table).[j] <= z_start_sector (zt_zones table).[i]).
  { intros i j Hi Hj. apply (Forall_seqZ _ _ i Hap) in Hi. by apply (Forall_seqZ _ _ j Hi). }
  assert (Hcap : forall i, 0 <= i < zt_nr_zones table - 1 ->
    z_capacity (zt_zones table).[i] <= z_length (zt_zones table).[i]).
  { intros i Hi. rewrite forallb_forall in Hv. apply (zwf_capacity (zt_zones table).[i]).
    apply metadata_valid_wf; [apply (zForall_lookup _ _ _ Hu); lia|]. rewrite <- Hdz by done.
    apply Hv, list_elem_of_In, (list_elem_of_lookup_2 _ (Z.to_nat i)), zlookup_lt. lia. }
  constructor; try done.
  - intros i j Hi Hj Hij. rewrite Hnr in Hi, Hj. rewrite !Hdz by done.
    pose proof (Hcap i Hi). pose proof (Hcap j Hj).
    destruct (Hapart i j ltac:(lia) ltac:(lia) Hij); lia.
  - intros i Hi. by apply (Forall_seqZ _ _ i Hz).
  - intros i Hi _. cbn [a_nr_zones data_allocator] in Hi. by apply (Forall_seqZ _ _ i Hz).
Qed.

(** What is written in the zones of [a] is written in those of [a']. *)
Definition zones_cover (a a' : zns_allocator) : Prop :=
  a_nr_zones a <= a_nr_zones a' /\
  Forall (fun i => let z := (a_zones a).[i] in let z' := (a_zones a').[i] in
    z_start_sector z' = z_start_sector z /\ z_capacity z' = z_capacity z /\
    z_write_pointer z <= z_write_pointer z' /\
    (z_condition z = BLK_ZONE_COND_FULL -> z_condition z' = BLK_ZONE_COND_FULL))
    (seqZ 0 (a_nr_zones a)).

#[export] Instance zones_cover_dec a a' : Decision (zones_cover a a').
Proof. unfold zones_cover. cbv zeta. apply _. Defined.

Lemma zones_cover_located a a' p i s : zones_cover a a' -> located a p i s -> located a' p i s.
Proof.
  intros [Hn Hall] [Hi Hs Hp Hin Hw]. apply (Forall_seqZ _ _ i Hall) in Hi as Hz.
  destruct Hz as (E1 & E2 & Hwp & Hf). constructor; rewrite ?E1, ?E2; try done; [lia|].
  destruct Hw; [left; lia|right; auto].
Qed.

Definition device_super (table : zns_zone_table) (uuid ls : Z) : zns_super :=
  mk_super uuid ls (z_length (meta_zone table)) (zt_nr_zones table) (z_id (meta_zone table)) 8.

(** The error of an operation that has no other reason to fail than memory. *)
Lemma on_mem_reliable {A} (m : M mem A) w r w' :
  (forall a, let '(r, a') := m a in
     match r with Ok _ => no_fail a -> no_fail a' | Err e => e = - ENOMEM /\ ~ no_fail a end) ->
  on_mem m w = (r, w') ->
  w_dev w' = w_dev w /\ fault_free_step w w' /\
  match r with Ok _ => True | Err e => faulty w e end.
Proof.
  intros Hm Hrun. specialize (Hm (w_mem w)). unfold on_mem, zoom in Hrun.
  destruct (m (w_mem w)) as [[x|e] a']; injection Hrun as <- <-; cbn.
  - split; [done|]. split; [|done]. intros e [Hio Hf]. split; [done|].
    intros Hn P HP Hw. by apply (Hf (Hm Hn) P HP).
  - destruct Hm as [-> Hn]. split; [done|]. split.
    + intros e [Hio _]. split; [done|]. tauto.
    + split; [by left|tauto].
Qed.

Lemma kmalloc_reliable a :
  let '(r, a') := kmalloc a in
  match r with Ok _ => no_fail a -> no_fail a' | Err e => e = - ENOMEM /\ ~ no_fail a end.
Proof. destruct (kmalloc_cases a) as [(a' & -> & Hn)|(a' & -> & Hn)]; done. Qed.

Lemma gc_map_zones_reliable zones a :
  let '(r, a') := gc_map_zones 8 zones a in
  match r with
  | Ok zs => (no_fail a -> no_fail a') /\
      zs = (fun z => mk_gc_zone (replicate (Z.to_nat (z_capacity z / 8)) 0) (z_capacity z / 8) 0) <$> zones
  | Err e => e = - ENOMEM /\ ~ no_fail a
  end.
Proof.
  revert a. induction zones as [|z zones IH]; intros a; [done|]. cbn [gc_map_zones]. unfold bind.
  pose proof (kmalloc_reliable a) as Hk. destruct (kmalloc a) as [[[]|e] a1]; [|done].
  specialize (IH a1). destruct (gc_map_zones 8 zones a1) as [[zs|e] a2]; cbn.
  - destruct IH as [Hn ->]. split; [auto|done].
  - destruct IH as [-> Hn]. split; [done|]. auto.
Qed.

(** The reverse map of a start: every slot is free. *)
Definition free_map (table : zns_zone_table) : list zns_gc_zone :=
  (fun z => mk_gc_zone (replicate (Z.to_nat (z_capacity z / 8)) 0) (z_capacity z / 8) 0)
  <$> a_zones (data_allocator table).

Lemma data_allocator_zone table i :
  device_ok table -> 0 <= i < zt_nr_zones table - 1 ->
  (a_zones (data_allocator table)).[i] = (zt_zones table).[i].
Proof. intros Hdv Hi. cbn. by rewrite lookup_total_take_lt by lia. Qed.

Lemma data_allocator_wf table : device_ok table -> alloc_wf (data_allocator table).
Proof.
  intros [Hnr Hlen Hr Hv _ _ _ _ _]. constructor; cbn; unfold is_u32, UINT_MAX; try done; try lia.
  - unfold zlen in *. rewrite length_take. lia.
  - apply list.Forall_forall. intros z Hz. apply metadata_valid_wf.
    + rewrite list.Forall_forall in Hr. apply elem_of_take in Hz as (i & Hz & _).
      by eapply Hr, list_elem_of_lookup_2.
    + rewrite forallb_forall in Hv. apply Hv. by apply list_elem_of_In.
Qed.

(** The geometry tests on the metadata zone pass. *)
Lemma open_metadata_geometry table ls uuid w l :
  device_ok table -> l_sectors_per_block l = 8 ->
  zns_lsm_open_metadata table ls uuid (w, l) =
    (if negb (meta_pointer table =? meta_first table) then
       on_disk <- on_world (zns_super_read (meta_first table)) ;;
       lift (zns_super_matches on_disk (device_super table 0 ls)) ;;;
       modify_meta (set_meta_region (meta_first table) (meta_last table) (meta_pointer table) on_disk)
     else
       on_world (zns_super_write (meta_first table) (device_super table uuid ls)) ;;;
       modify_meta (set_meta_region (meta_first table) (meta_last table)
         (u64 (meta_first table + 8)) (device_super table uuid ls))) (w, l).
Proof.
  intros Hdv Hspb. destruct (dv_meta _ Hdv) as (Hcap & Hlast & Hwp & Hptr).
  destruct (dv_nr _ Hdv) as [Hnr _]. pose proof (dv_range _ Hdv) as Hr.
  assert (Hz : zone_u64 (meta_zone table)).
  { apply (zForall_lookup _ _ _ Hr). rewrite (dv_len _ Hdv). lia. }
  destruct Hz as (Hs & _). unfold is_u64 in Hs.
  unfold zns_lsm_open_metadata. cbv zeta. rewrite (proj2 (Z.ltb_ge _ _)) by lia.
  fold (meta_zone table). change ZNS_SST_BLOCK_SECTORS with 8.
  fold (meta_first table) in Hwp |- *. rewrite !(proj2 (Z.ltb_ge _ _)) by lia.
  unfold bind at 1, lsm_get, gets. cbn [snd]. rewrite Hspb. change (u32 8) with 8.
  change (meta_first table + z_capacity (meta_zone table)) with (meta_last table).
  change (z_start_sector (meta_zone table) + z_capacity (meta_zone table)) with (meta_last table).
  rewrite (u64_id (meta_last table)) by (unfold meta_last, meta_first in *; lia).
  unfold meta_pointer in *.
  destruct (bool_decide (z_condition (meta_zone table) = BLK_ZONE_COND_FULL)); cbn [negb andb]; [done|].
  rewrite (proj2 (Z.ltb_ge _ _)) by lia. done.
Qed.

Lemma open_formatted table ls uuid su w l :
  device_ok table -> l_sectors_per_block l = 8 -> meta_pointer table <> meta_first table ->
  dev_block (w_dev w) (meta_first table) = zns_super_encode su -> super_in_range su ->
  same_geometry su (device_super table 0 ls) ->
  let '(r, (w', l')) := zns_lsm_open_metadata table ls uuid (w, l) in
  same_blocks (w_dev w) (w_dev w') /\ fault_free_step w w' /\
  match r with
  | Ok _ => l' = set_meta (set_meta_region (meta_first table) (meta_last table)
                             (meta_pointer table) su (l_meta l)) l
  | Err e => faulty w e
  end.
Proof.
  intros Hdv Hspb Hne Hb Hr Hsame. rewrite open_metadata_geometry by done.
  rewrite (proj2 (Z.eqb_neq _ _) Hne). cbn [negb].
  unfold bind at 1, on_world, zoom. cbn [fst snd].
  destruct (zns_super_read (meta_first table) w) as [r1 w1] eqn:E1.
  apply super_read_outcome in E1 as (Hs1 & Hf1 & Hr1). rewrite Hb, super_decode_encode in Hr1 by done.
  destruct Hr1 as [->|(e & -> & Hfe)]; [|by split_and!].
  unfold bind, lift. rewrite (proj2 (proj1 (super_matches_iff su _)) Hsame). by split_and!.
Qed.

Lemma open_fresh table ls uuid w l :
  device_ok table -> l_sectors_per_block l = 8 -> meta_pointer table = meta_first table ->
  let '(r, (w', l')) := zns_lsm_open_metadata table ls uuid (w, l) in
  only_in (meta_first table) (meta_first table + 8) (w_dev w) (w_dev w') /\
  match r with
  | Ok _ => dev_block (w_dev w') (meta_first table) = zns_super_encode (device_super table uuid ls) /\
      l' = set_meta (set_meta_region (meta_first table) (meta_last table)
                       (meta_first table + 8) (device_super table uuid ls) (l_meta l)) l
  | Err e => io_error e
  end.
Proof.
  intros Hdv Hspb Heq. rewrite open_metadata_geometry, Heq, Z.eqb_refl by done. cbn [negb].
  destruct (dv_meta _ Hdv) as (Hcap & Hlast & _). pose proof (dv_range _ Hdv) as Hrg.
  destruct (dv_nr _ Hdv) as [Hnr _].
  assert (Hz : zone_u64 (meta_zone table)).
  { apply (zForall_lookup _ _ _ Hrg). rewrite (dv_len _ Hdv). lia. }
  destruct Hz as (Hs & _). unfold is_u64 in Hs. fold (meta_first table) in Hs.
  rewrite u64_id by (unfold meta_last, meta_first in *; lia).
  unfold bind, on_world, zoom. cbn [fst snd].
  destruct (zns_super_write (meta_first table) _ w) as [[[]|e] w1] eqn:E1;
    pose proof (super_write_spec _ _ _ _ _ E1) as [Ho Hb]; (split; [exact Ho|]).
  - by split.
  - unfold zns_super_write, bind in E1. destruct (on_mem kmalloc w) as [[[]|e0] w0] eqn:E0.
    + by eapply block_write_error.
    + injection E1 as -> <-. apply on_mem_outcome in E0 as (_ & _ & [Hio _]). done.
Qed.

(** The reserve is an empty zone, or there is none. *)
Lemma select_reserve_outcome ids w l :
  let '(r, (w', l')) := select_reserve ids (w, l) in
  w' = w /\
  match r with
  | Ok _ => exists id, id ∈ ids /\ l' = set_allocator (set_reserve_zone id (l_allocator l)) l /\
      zns_zone_is_writable (a_zones (l_allocator l)).[id] = true /\
      z_write_pointer (a_zones (l_allocator l)).[id] = z_start_sector (a_zones (l_allocator l)).[id]
  | Err e => e = - ENOSPC /\ forall id, id ∈ ids -> exists e', zns_allocator_set_reserve id (l_allocator l) =
      (Err e', l_allocator l)
  end.
Proof.
  revert l. induction ids as [|id ids IH]; intros l.
  { cbn. split; [done|]. split; [done|]. intros id Hid. by apply not_elem_of_nil in Hid. }
  cbn [select_reserve]. unfold bind, attempt, on_allocator, zoom. cbn [fst snd].
  destruct (set_reserve_cases id (l_allocator l)) as [(-> & _ & Hwr & _ & Hwp)|(e & He)].
  - split; [done|]. exists id. split; [by left|done].
  - rewrite He. replace (set_allocator (l_allocator l) l) with l by (by destruct l).
    specialize (IH l). destruct (select_reserve ids (w, l)) as [[[]|e'] [w' l']]; destruct IH as [-> IH];
      (split; [done|]).
    + destruct IH as (id' & Hin & IH). exists id'. split; [by right|done].
    + destruct IH as [-> IH]. split; [done|]. intros id' [->|Hin]%elem_of_cons; eauto.
Qed.

Lemma free_map_zone table i :
  device_ok table -> 0 <= i < zt_nr_zones table - 1 ->
  let n := z_capacity (a_zones (data_allocator table)).[i] / 8 in
  (free_map table).[i] = mk_gc_zone (replicate (Z.to_nat n) 0) n 0.
Proof.
  intros Hdv Hi. pose proof (awf_nr _ (data_allocator_wf _ Hdv)) as Hnr.
  apply list_lookup_total_correct. unfold free_map. rewrite list_lookup_fmap, zlookup_lt; [done|].
  rewrite <- Hnr. exact Hi.
Qed.

(** The mappings of a log. *)
Definition log_entries (ts : list logged) : list (list lsm_entry) := reverse (snd <$> ts).
Definition log_view (ts : list logged) : gmap Z Z := ssts_view (log_entries ts).

(** The metadata region of an engine. *)
Record meta_region (table : zns_zone_table) (wp : Z) (su : zns_super) (m : metadata) : Prop := {
  mr_start : m_meta_start m = meta_first table;
  mr_end : m_meta_end m = meta_last table;
  mr_wp : m_meta_wp m = wp;
  mr_super : m_super m = su;
  mr_seq : is_u64 (m_next_sst_seq m);
}.

(** An engine on its way up: the zones are known, nothing is resident. *)
Record starting (table : zns_zone_table) (l : zns_lsm) : Prop := {
  sg_allocator : l_allocator l = data_allocator table;
  sg_tables : l_tables l = mk_generations None None None false;
  sg_spb : l_sectors_per_block l = 8;
  sg_threshold : 0 < l_memtable_threshold l;
}.

Lemma starting_geometry table l :
  device_ok table -> starting table l -> gi_zones (l_gc l) = free_map table -> geometry l.
Proof.
  intros Hdv [Ha _ Hspb _] Hgz. pose proof (dv_nr _ Hdv) as Hnr. pose proof (dv_len _ Hdv) as Hlen.
  assert (Hzl : zlen (a_zones (data_allocator table)) = zt_nr_zones table - 1).
  { symmetry. apply (awf_nr _ (data_allocator_wf _ Hdv)). }
  constructor; rewrite ?Ha, ?Hgz; try done.
  - by apply data_allocator_wf.
  - apply (dv_disjoint _ Hdv).
  - intros i Hi. cbn [a_nr_zones data_allocator] in Hi. rewrite data_allocator_zone by done.
    by apply (dv_small _ Hdv).
  - unfold free_map, zlen in *. rewrite length_fmap. exact Hzl.
  - intros i Hi. cbn [a_nr_zones data_allocator] in Hi. rewrite free_map_zone by done.
    cbn [gz_nr_blocks gz_logical_blocks].
    split; [done|]. unfold zlen. rewrite length_replicate.
    pose proof (alloc_wf_zone _ i (data_allocator_wf _ Hdv) Hi) as [_ [Hc _] _ _ _].
    pose proof (Z.div_pos _ 8 Hc ltac:(lia)). lia.
Qed.

Lemma starting_indexed N table l :
  device_ok table -> starting table l -> gi_zones (l_gc l) = free_map table ->
  gi_latest (l_gc l) = xa_init -> indexed N l ∅.
Proof.
  intros Hdv Hst Hgz Hla. pose proof (starting_geometry table l Hdv Hst Hgz) as Hg.
  assert (Hz : forall i, 0 <= i < a_nr_zones (l_allocator l) ->
    exists n, gz_logical_blocks (gi_zones (l_gc l)).[i] = replicate n 0 /\
      gz_nr_valid_blocks (gi_zones (l_gc l)).[i] = 0).
  { intros i Hi. rewrite (sg_allocator _ _ Hst) in Hi. rewrite Hgz, free_map_zone by done.
    by eexists. }
  split; [done|]. split.
  - constructor.
    + intros k e He. by rewrite Hla, xa_load_init in He.
    + intros i s Hi Hs Hr. destruct (Hz i Hi) as (n & Hn & _). exfalso. apply Hr. unfold rev_slot.
      rewrite Hn in Hs |- *. apply list_lookup_total_correct, lookup_replicate. split; [done|].
      unfold zlen in Hs. rewrite length_replicate in Hs. lia.
    + intros i Hi. destruct (Hz i Hi) as (n & Hn & Hv). unfold valid_count.
      by rewrite Hv, Hn, live_replicate.
  - intros k. unfold current. by rewrite Hla, xa_load_init.
Qed.

Lemma gc_map_init_outcome table w l :
  device_ok table -> starting table l ->
  let '(r, (w', l')) := zns_lsm_gc_map_init (w, l) in
  w_dev w' = w_dev w /\ fault_free_step w w' /\
  match r with
  | Ok _ => l' = set_gc (set_gc_zones (free_map table) (l_gc l)) l
  | Err e => faulty w e
  end.
Proof.
  intros Hdv [Ha _ Hspb _]. unfold zns_lsm_gc_map_init, bind at 1, lsm_get, gets. cbn [snd id].
  rewrite Ha, Hspb, take_all_zones by (by apply data_allocator_wf).
  unfold bind at 1, on_world, zoom. cbn [fst snd].
  destruct (on_mem kmalloc w) as [r1 w1] eqn:E1. apply on_mem_outcome in E1 as (Hd1 & Hf1 & He1).
  destruct r1 as [[]|e]; [|by split_and!]. unfold bind. cbn [fst snd].
  pose proof (gc_map_zones_reliable (a_zones (data_allocator table))) as Hgc.
  destruct (on_mem (gc_map_zones 8 _) w1) as [r2 w2] eqn:E2. assert (E2' := E2).
  apply on_mem_reliable in E2 as (Hd2 & Hf2 & He2).
  2:{ intros a. specialize (Hgc a). destruct (gc_map_zones 8 _ a) as [[]]; [apply Hgc|done]. }
  rewrite Hd1 in Hd2. destruct r2 as [zs|e]; [|split; [done|]; split; faults].
  cbn. split; [done|]. split; [faults|]. f_equal. f_equal.
  unfold on_mem, zoom in E2'. specialize (Hgc (w_mem w1)).
  destruct (gc_map_zones 8 _ (w_mem w1)) as [[zs'|e'] a']; [|done]. injection E2' as -> _. apply Hgc.
Qed.

(** The engine once its reserve and its first MemTable are there. *)
Definition brought_up (id : Z) (l : zns_lsm) : zns_lsm :=
  set_tables (set_slots (Some memtable_init, None) (l_tables l))
    (set_allocator (set_reserve_zone id (l_allocator l)) l).

Lemma brought_up_view table id l ts :
  starting table l -> lsm_view (brought_up id l) (log_entries ts) = log_view ts.
Proof.
  intros [_ Ht _ _]. unfold lsm_view, brought_up, tables_view. cbn [l_tables set_tables]. rewrite Ht.
  change (mt_map memtable_init ∪ ∅ ∪ ∅ ∪ log_view ts = log_view ts).
  rewrite (proj2 memtable_init_wf).
  by rewrite !map_empty_union.
Qed.

Lemma brought_up_wf N table wp su id d l ts :
  device_ok table -> starting table l -> meta_region table wp su (l_meta l) ->
  meta_first table + 8 <= wp <= meta_last table -> log_on d (meta_first table + 8) wp ts ->
  m_sstables (l_meta l) = reverse (log_ssts (meta_first table + 8) ts) ->
  indexed N l (log_view ts) -> 0 <= id < a_nr_zones (l_allocator l) ->
  engine_wf N d (brought_up id l) (log_entries ts).
Proof.
  intros Hdv Hsg [Hms Hme Hwp _ Hseq] Hreg Hlog Hss (Hg & Hx & Hc) Hid.
  pose proof (brought_up_view table id l ts Hsg) as Hview.
  pose proof (data_allocator_wf table Hdv) as Hwf. destruct Hsg as [Ha Ht Hspb Hth].
  destruct (log_tables d (meta_first table + 8) wp ts Hlog) as (Hall & Hin & _).
  pose proof (dv_nr _ Hdv) as Hnr. pose proof (dv_len _ Hdv) as Hlen.
  destruct (dv_meta _ Hdv) as (Hcap & Hlast & _).
  assert (Hz : zone_u64 (meta_zone table)).
  { apply (zForall_lookup _ _ _ (dv_range _ Hdv)). lia. }
  destruct Hz as (Hs0 & _). unfold is_u64 in Hs0. fold (meta_first table) in Hs0.
  constructor; unfold brought_up; cbn [l_allocator l_meta l_gc l_tables l_memtable_threshold
    set_tables set_allocator a_nr_zones a_zones set_reserve_zone].
  - destruct Hg. constructor; cbn; try done. by apply set_reserve_zone_wf.
  - destruct Hx as [Hf Hb Hcnt]. constructor; cbn; [|intros i s Hi Hs Hr|done].
    + intros k e He. destruct (Hf k e He) as (Hk & p & i & s & ? & [] & ?). split; [done|].
      exists p, i, s. split; [done|]. split; [by constructor|done].
    + destruct (Hb i s Hi Hs Hr) as (p & [] & He). exists p. split; [by constructor|done].
  - constructor; cbn; rewrite ?Ht, ?Hms, ?Hme, ?Hwp, ?Hss; try done; cbn; try apply table_ok_none.
    + split; [apply memtable_init_wf|]. intros k q Hq. change (mt_map memtable_init !! k = Some q) in Hq.
      by rewrite (proj2 memtable_init_wf), lookup_empty in Hq.
    + by apply Forall2_reverse.
    + apply Forall_reverse. eapply Forall_impl; [exact Hin|]. cbn. intros sst ?. lia.
    + lia.
  - intros k. fold (brought_up id l). rewrite Hview, <- Hc. done.
  - done.
  - intros i Hi Hw. rewrite Ha in *. by apply (dv_aligned _ Hdv).
  - rewrite Ha. intros i j Hi Hj Hij. cbn [a_nr_zones data_allocator] in Hi, Hj.
    rewrite !data_allocator_zone by done. apply (dv_apart _ Hdv); lia.
  - rewrite Ha, Hms, Hme. intros i Hi. cbn [a_nr_zones data_allocator] in Hi.
    rewrite data_allocator_zone by done.
    destruct (dv_apart _ Hdv i (zt_nr_zones table - 1) ltac:(lia) ltac:(lia) ltac:(lia)) as [Hap|Hap];
      cbv zeta; fold (meta_zone table) in Hap; unfold meta_first, meta_last; lia.
Qed.

(** There is no zone a start could reserve for the collection. *)
Definition no_empty_zone (table : zns_zone_table) : Prop :=
  forall id, 0 <= id < zt_nr_zones table - 1 -> exists e,
    zns_allocator_set_reserve id (data_allocator table) = (Err e, data_allocator table).

Lemma init_zoned_outcome table w r w' :
  device_ok table ->
  on_mem (zns_allocator_init_zoned (zt_zones table) (u32 (zt_nr_zones table - 1)) 8) w = (r, w') ->
  w_dev w' = w_dev w /\ fault_free_step w w' /\
  match r with Ok a => a = data_allocator table | Err e => faulty w e end.
Proof.
  intros Hdv. pose proof (dv_nr _ Hdv) as Hnr. rewrite u32_id by lia.
  assert (Heq : zns_allocator_init_zoned (zt_zones table) (zt_nr_zones table - 1) 8 =
    (kmalloc ;;; ret (data_allocator table))).
  { unfold zns_allocator_init_zoned. rewrite (proj2 (Z.eqb_neq _ _)) by lia. cbn [orb Z.eqb].
    pose proof (dv_valid _ Hdv) as Hv. cbn [a_zones data_allocator] in Hv. by rewrite Hv. }
  rewrite Heq. intros Hrun. assert (Hrun' := Hrun). apply on_mem_reliable in Hrun as (Hd & Hf & He).
  2:{ intros a. unfold bind. pose proof (kmalloc_reliable a) as Hk.
      by destruct (kmalloc a) as [[[]|e] a']. }
  split; [done|]. split; [done|]. destruct r as [a|e]; [|done].
  unfold on_mem, zoom, bind in Hrun'. destruct (kmalloc (w_mem w)) as [[[]|e] a']; [|done].
  by injection Hrun' as <- _.
Qed.

(** From the allocator to the rebuilt index. *)
Lemma load_index_outcome N table wp su ts w l :
  no_einval -> device_ok table -> N < 4294967296 -> su_logical_sectors su = 8 * N ->
  starting table l -> l_gc l = mk_gc_index [] xa_init 0 0 0 0 ->
  meta_region table wp su (l_meta l) -> m_sstables (l_meta l) = [] ->
  meta_first table + 8 <= wp <= meta_last table ->
  log_on (w_dev w) (meta_first table + 8) wp ts ->
  restorable N (data_allocator table) (log_view ts) ->
  let '(r, (w', l')) :=
    (zns_lsm_gc_map_init ;;; zns_lsm_recover_sstables ;;; zns_lsm_gc_rebuild) (w, l) in
  same_blocks (w_dev w) (w_dev w') /\ fault_free_step w w' /\
  match r with
  | Ok _ => starting table l' /\ meta_region table wp su (l_meta l') /\
      m_sstables (l_meta l') = reverse (log_ssts (meta_first table + 8) ts) /\
      indexed N l' (log_view ts)
  | Err e => faulty w e
  end.
Proof.
  intros Hne Hdv HN Hsu Hsg Hgc Hmr Hss Hreg Hlog Hrs.
  destruct (dv_meta _ Hdv) as (Hcap & Hlast & _).
  assert (Hz : zone_u64 (meta_zone table)).
  { apply (zForall_lookup _ _ _ (dv_range _ Hdv)). pose proof (dv_nr _ Hdv).
    rewrite (dv_len _ Hdv). lia. }
  destruct Hz as (Hs0 & _). unfold is_u64 in Hs0. fold (meta_first table) in Hs0.
  unfold bind at 1. pose proof (gc_map_init_outcome table w l Hdv Hsg) as H1'.
  destruct (zns_lsm_gc_map_init (w, l)) as [r1 [w1 l1]]. destruct H1' as (Hd1 & Hf1 & Hr1).
  assert (Hs1 : same_blocks (w_dev w) (w_dev w1)) by (rewrite Hd1; apply same_blocks_refl).
  destruct r1 as [[]|e]; [|by split_and!].
  assert (Hsg1 : starting table l1) by (rewrite Hr1; destruct Hsg; by constructor).
  assert (Hm1 : l_meta l1 = l_meta l) by (by rewrite Hr1).
  pose proof (starting_indexed N table l1 Hdv Hsg1 ltac:(by rewrite Hr1)
    ltac:(by rewrite Hr1, Hgc)) as Hi1. clear Hr1.
  unfold bind at 1, zns_lsm_recover_sstables, bind at 1, lsm_get, gets. cbn [snd].
  destruct Hmr as [Hms Hme Hwp Hsup Hseq]. rewrite Hm1, Hms. change ZNS_SST_BLOCK_SECTORS with 8.
  rewrite u64_id by lia. rewrite Hwp.
  pose proof (log_on_bounds _ _ _ _ Hlog) as Hbound. unfold zlen in Hbound.
  pose proof (recover_loop_outcome (S (Z.to_nat (wp - meta_first table))) (meta_first table + 8) ts
    w1 l1 Hne) as H2'. rewrite Hm1, Hwp, Hd1 in H2'.
  specialize (H2' Hlog ltac:(lia) ltac:(lia) ltac:(lia)).
  destruct (recover_loop _ _ (w1, l1)) as [r2 [w2 l2]]. destruct H2' as (Hs2 & Hf2 & Hr2).
  destruct r2 as [[]|e]; [|by split_and!; [|faults..]].
  destruct (adopt_all_fields (log_ssts (meta_first table + 8) ts) (l_meta l))
    as (Has & Hams & Hamw & Hame & Hasu & Haseq). rewrite Hss, app_nil_r in Has.
  assert (Hsg2 : starting table l2) by (rewrite Hr2; destruct Hsg1; by constructor).
  assert (Hi2 : indexed N l2 ∅).
  { rewrite Hr2. destruct Hi1 as ([] & [] & Hc). split; [by constructor|]. split; [by constructor|done]. }
  assert (Hm2 : l_meta l2 = adopt_all (log_ssts (meta_first table + 8) ts) (l_meta l)) by (by rewrite Hr2).
  clear Hr2. unfold zns_lsm_gc_rebuild, bind at 1, on_world, zoom. cbn [fst snd].
  destruct (on_mem kmalloc w2) as [r3 w3] eqn:E3. apply on_mem_outcome in E3 as (Hd3 & Hf3 & He3).
  destruct r3 as [[]|e]; [|rewrite Hd3; split_and!; [done|faults|faults]].
  unfold bind, lsm_get, gets. cbn [snd fst]. rewrite Hm2, Has.
  destruct (log_tables (w_dev w3) (meta_first table + 8) wp ts) as (Hall & _ & Hcrc).
  { eapply log_on_frame; [exact Hlog|]. intros s _ _. rewrite Hd3. apply Hs2. }
  assert (Hrb : rebuilding N (log_view ts) l2 (log_view ts)).
  { constructor.
    - unfold logical_blocks. rewrite Hm2, Hasu, Hsup, Hsu, Z.mul_comm. by apply Z_div_mult.
    - by rewrite (sg_allocator _ _ Hsg2).
    - exists ∅. split; [done|]. by rewrite (left_id_L ∅ (∪)). }
  pose proof (rebuild_tables_outcome N (log_view ts) (reverse (log_ssts (meta_first table + 8) ts))
    (log_entries ts) zero_block w3 l2 HN (Forall2_reverse _ _ _ Hall) (Forall2_reverse _ _ _ Hcrc) Hrb) as H4'.
  destruct (rebuild_tables _ zero_block (w3, l2)) as [r4 [w4 l4]]. destruct H4' as (Hs4 & Hf4 & Hr4).
  assert (Hs : same_blocks (w_dev w) (w_dev w4)).
  { intros s. rewrite Hs4, Hd3. apply Hs2. }
  split; [done|]. split; [faults|]. destruct r4 as [[]|e]; [|faults].
  destruct Hr4 as [(g & ->) Hi4]. split; [destruct Hsg2; by constructor|]. cbn [l_meta set_gc].
  rewrite Hm2. split; [|by split]. constructor; [congruence..|by apply Haseq].
Qed.

Lemma bind_regroup {S A B C D} (m1 : M S A) (m2 : M S B) (m3 : M S C) (k : M S D) s :
  (m1 ;;; m2 ;;; m3 ;;; k) s = ((m1 ;;; m2 ;;; m3) ;;; k) s.
Proof.
  unfold bind. destruct (m1 s) as [[a|e] s1]; [|done]. by destruct (m2 s1) as [[b|e] s2].
Qed.

(** The state of an engine whose metadata zone was just opened. *)
Record opened (table : zns_zone_table) (wp : Z) (su : zns_super) (l : zns_lsm) : Prop := {
  op_gc : l_gc l = mk_gc_index [] xa_init 0 0 0 0;
  op_tables : l_tables l = mk_generations None None None false;
  op_spb : l_sectors_per_block l = 8;
  op_threshold : 0 < l_memtable_threshold l;
  op_region : meta_region table wp su (l_meta l);
  op_sstables : m_sstables (l_meta l) = [];
}.

(** A metadata zone that a later start can read: the superblock and a complete log of
    the tables of the engine. *)
Record keeps_log (table : zns_zone_table) (su : zns_super) (ess : list (list lsm_entry))
    (s : world * zns_lsm) : Prop := {
  kl_region : meta_region table (m_meta_wp (l_meta (snd s))) su (l_meta (snd s));
  kl_bounds : meta_first table + 8 <= m_meta_wp (l_meta (snd s)) <= meta_last table;
  kl_super : dev_block (w_dev (fst s)) (meta_first table) = zns_super_encode su;
  kl_log : exists ts, ess = log_entries ts /\
    log_on (w_dev (fst s)) (meta_first table + 8) (m_meta_wp (l_meta (snd s))) ts;
}.

(** What a start leads to: an engine with the mappings of the log, or a failure of the
    environment, or the lack of an empty zone. *)
Definition started (N : Z) (table : zns_zone_table) (wp : Z) (su : zns_super) (ts : list logged)
    (w : world) (r : result unit) (s' : world * zns_lsm) : Prop :=
  same_blocks (w_dev w) (w_dev (fst s')) /\
  match r with
  | Ok _ => engine_wf N (w_dev (fst s')) (snd s') (log_entries ts) /\
      lsm_view (snd s') (log_entries ts) = log_view ts /\
      meta_region table wp su (l_meta (snd s'))
  | Err e => faulty w e \/ (e = - ENOSPC /\ no_empty_zone table)
  end.

Lemma memtable_create_reliable a :
  let '(r, a') := memtable_create a in
  match r with
  | Ok o => (no_fail a -> no_fail a' /\ o = Some memtable_init) /\ (o = Some memtable_init \/ o = None)
  | Err e => e = - ENOMEM /\ ~ no_fail a
  end.
Proof.
  destruct (memtable_create_cases a) as [(a' & -> & Hn)|(a' & -> & Hn)]; cbn; [|tauto].
  split; [auto|by left].
Qed.

Lemma same_dev w w' : w_dev w' = w_dev w -> same_blocks (w_dev w) (w_dev w').
Proof. intros ->. apply same_blocks_refl. Qed.

Lemma last_steps_outcome N table wp su ts id w l :
  engine_wf N (w_dev w) (brought_up id l) (log_entries ts) ->
  lsm_view (brought_up id l) (log_entries ts) = log_view ts ->
  meta_region table wp su (l_meta l) ->
  let '(r, s') := (active <- on_world (on_mem memtable_create) ;;
    match active with
    | None => Prelude.fail (- ENOMEM)
    | Some _ =>
        modify_tables (set_slots (active, None)) ;;;
        on_world (on_mem kmalloc) ;;;
        on_world (on_mem kmalloc)
    end) (w, set_allocator (set_reserve_zone id (l_allocator l)) l) in
  started N table wp su ts w r s'.
Proof.
  intros Hew Hv Hmr. unfold bind at 1, on_world at 1, zoom. cbn [fst snd].
  pose proof (memtable_create_reliable (w_mem w)) as Hm.
  destruct (on_mem memtable_create w) as [r1 w1] eqn:E1. assert (E1' := E1).
  apply on_mem_reliable in E1 as (Hd1 & Hf1 & He1).
  2:{ intros a. pose proof (memtable_create_reliable a) as Ha.
      destruct (memtable_create a) as [[o|e] a']; [|done]. intros Hn. by apply Ha. }
  destruct r1 as [o|e]; [|split; [exact (same_dev _ _ Hd1)|by left]].
  unfold on_mem, zoom in E1'. destruct (memtable_create (w_mem w)) as [r1 a1].
  injection E1' as -> <-. destruct Hm as [Hok Hcases]. destruct o as [m|].
  2:{ split; [apply same_blocks_refl|]. left. split; [by left|]. intros Hn. by destruct (Hok Hn). }
  assert (m = memtable_init) as -> by (destruct Hcases; congruence).
  unfold bind, modify_tables, lsm_modify, modify, on_world, zoom. cbn [fst snd].
  change (set_tables (set_slots (Some memtable_init, None) _) _) with (brought_up id l).
  destruct (on_mem kmalloc (set_mem a1 w)) as [r2 w2] eqn:E2.
  apply on_mem_outcome in E2 as (Hd2 & Hf2 & He2).
  destruct r2 as [[]|e]; [|split; [exact (same_dev _ _ Hd2)|left; faults]]. cbn [fst snd].
  destruct (on_mem kmalloc w2) as [r3 w3] eqn:E3. apply on_mem_outcome in E3 as (Hd3 & Hf3 & He3).
  rewrite Hd2 in Hd3. split; [exact (same_dev _ _ Hd3)|].
  destruct r3 as [[]|e]; [|left; faults]. cbn [fst snd]. rewrite Hd3. done.
Qed.

Lemma lsm_load_outcome N table wp su ts w l :
  no_einval -> device_ok table -> N < 4294967296 -> su_logical_sectors su = 8 * N ->
  opened table wp su l -> meta_first table + 8 <= wp <= meta_last table ->
  log_on (w_dev w) (meta_first table + 8) wp ts ->
  restorable N (data_allocator table) (log_view ts) ->
  let '(r, s') := lsm_load table 8 (w, l) in started N table wp su ts w r s'.
Proof.
  intros Hne Hdv HN Hsu [Hgc Htab Hspb Hth Hmr Hss] Hreg Hlog Hrs.
  unfold lsm_load, bind at 1, on_world at 1, zoom. cbn [fst snd].
  destruct (on_mem (zns_allocator_init_zoned _ _ 8) w) as [r1 w1] eqn:E1.
  apply init_zoned_outcome in E1 as (Hd1 & Hf1 & He1); [|done].
  destruct r1 as [a|e]; [|split; [exact (same_dev _ _ Hd1)|by left]]. subst a.
  unfold bind at 1, lsm_modify, modify. cbn [fst snd].
  set (l1 := set_allocator (data_allocator table) l). rewrite bind_regroup. unfold bind at 1.
  assert (Hsg1 : starting table l1) by (by constructor).
  pose proof (load_index_outcome N table wp su ts w1 l1 Hne Hdv HN Hsu Hsg1 Hgc Hmr Hss Hreg) as H2'.
  rewrite Hd1 in H2'. specialize (H2' Hlog Hrs).
  destruct ((_ ;;; _ ;;; _) (w1, l1)) as [r2 [w2 l2]]. destruct H2' as (Hs2 & Hf2 & Hr2).
  destruct r2 as [[]|e]; [|split; [done|left; faults]].
  destruct Hr2 as (Hsg2 & Hmr2 & Hss2 & Hi2). unfold bind at 1.
  pose proof (select_reserve_outcome (reverse (seqZ 0 (a_nr_zones (data_allocator table)))) w2 l2) as H3'.
  destruct (select_reserve _ (w2, l2)) as [[[]|e] [w3 l3]]; destruct H3' as [-> H3'].
  2:{ split; [done|]. right. destruct H3' as [-> Hno]. split; [done|]. intros id Hid.
      rewrite (sg_allocator _ _ Hsg2) in Hno. apply Hno. apply elem_of_reverse, elem_of_seqZ. cbn. lia. }
  destruct H3' as (id & Hid%elem_of_reverse%elem_of_seqZ & -> & _).
  assert (Hew : engine_wf N (w_dev w2) (brought_up id l2) (log_entries ts)).
  { eapply brought_up_wf; try done.
    - eapply log_on_frame; [exact Hlog|]. intros s _ _. apply Hs2.
    - rewrite (sg_allocator _ _ Hsg2). lia. }
  pose proof (last_steps_outcome N table wp su ts id w2 l2 Hew (brought_up_view table id l2 ts Hsg2) Hmr2) as H4'.
  destruct ((active <- _ ;; _) (w2, _)) as [r4 s4]. destruct H4' as [Hs4 Hr4].
  split; [by transitivity (w_dev w2)|]. destruct r4 as [[]|e]; [done|].
  destruct Hr4 as [Hr4|Hr4]; [left; faults|by right].
Qed.

(** ** Starting *)

(** The zone table the device's report describes. *)
Record reports (d : bdev) (table : zns_zone_table) : Prop := {
  rp_zoned : bdev_is_zoned d = true;
  rp_nr : u32 (bdev_nr_zones d) = zt_nr_zones table;
  rp_complete : zlen (fst (bdev_report d 0 (zt_nr_zones table))) = zt_nr_zones table;
  rp_no_error : snd (bdev_report d 0 (zt_nr_zones table)) = 0;
  rp_zones : zt_zones table =
    imap (fun k z => zone_of_report (Z.of_nat k) z) (fst (bdev_report d 0 (zt_nr_zones table)));
}.

Lemma report_loop_total zs i t :
  0 <= i -> i + zlen zs <= zt_nr_zones t ->
  exists t', report_loop zns_zone_report_cb zs i t = (Ok tt, t').
Proof.
  revert i t. induction zs as [|z zs IH]; intros i t Hi Hle; [by eexists|].
  cbn [report_loop]. unfold bind, zns_zone_report_cb. unfold zlen in Hle. cbn [length] in Hle.
  rewrite (proj2 (Z.leb_gt _ _)) by lia. cbv zeta. apply IH; cbn; unfold zlen; lia.
Qed.

Lemma table_init_total table w :
  reports (w_dev w) table -> zt_nr_zones table <> 0 ->
  exists r m, zns_zone_table_init w = (r, set_mem m w) /\
    (r = Err (- ENOMEM) /\ ~ no_fail (w_mem w) \/
     r = Ok table /\ (no_fail (w_mem w) -> no_fail m)).
Proof.
  intros [Hz Hnr Hc He Hzs] Hnz. destruct (zns_zone_table_init w) as [r w1] eqn:E.
  assert (Ht : r = Err (- ENOMEM) /\ ~ no_fail (w_mem w) /\ w1 = set_mem (w_mem w1) w \/
    exists t, r = Ok t /\ (no_fail (w_mem w) -> no_fail (w_mem w1)) /\ w1 = set_mem (w_mem w1) w).
  { unfold zns_zone_table_init in E. rewrite Hz, Hnr in E. cbn [negb] in E.
    rewrite (proj2 (Z.eqb_neq _ _) Hnz) in E. unfold bind at 1, on_mem, zoom in E.
    destruct (kmalloc_cases (w_mem w)) as [(a' & Hk & Hn)|(a' & Hk & Hn)]; rewrite Hk in E;
      [right|left; by injection E as <- <-].
    unfold blkdev_report_zones in E. destruct (bdev_report (w_dev w) 0 (zt_nr_zones table)) as [zs err].
    cbn [fst snd] in *. subst err. unfold bind in E.
    destruct (report_loop_total zs 0 (mk_zone_table (replicate (Z.to_nat (zt_nr_zones table)) zone_zero)
      (zt_nr_zones table)) ltac:(lia) ltac:(cbn; lia)) as [t' Ht']. rewrite Ht' in E.
    cbn in E. rewrite Hc, Z.eqb_refl in E. injection E as <- <-. by exists t'. }
  exists r, (w_mem w1). destruct Ht as [(-> & Hn & <-)|(t & -> & Hn & <-)]; (split; [done|]); [by left|].
  right. split; [|done]. destruct (table_init_ok w t w1 E) as (Hn' & _ & _ & Hz' & _).
  rewrite Hnr in Hn'. rewrite Hn' in Hz'. rewrite <- Hzs in Hz'. f_equal.
  destruct t, table. cbn in *. congruence.
Qed.

(** The disk a device holds under the mappings [V]. *)
Definition log_disk (d : bdev) (V : gmap Z Z) : disk := fun k =>
  match V !! k with Some p => dev_block d p | None => zero_block end.

Definition blocks_full (d : bdev) (V : gmap Z Z) : Prop :=
  forall k p, V !! k = Some p -> zlen (dev_block d p) = 4096.

Lemma started_represents N table wp su ts w w' l :
  started N table wp su ts w (Ok tt) (w', l) -> blocks_full (w_dev w) (log_view ts) ->
  meta_first table + 8 <= wp <= meta_last table ->
  dev_block (w_dev w) (meta_first table) = zns_super_encode su ->
  log_on (w_dev w) (meta_first table + 8) wp ts ->
  represents_with N (keeps_log table su) (w', l) (log_disk (w_dev w) (log_view ts)).
Proof.
  intros [Hs (Hew & Hv & Hmr)] Hfull Hwp Hsb Hlog. cbn [fst snd] in *. split.
  - intros k. unfold log_disk. destruct (log_view ts !! k) as [p|] eqn:Hp; [by eapply Hfull|].
    unfold zlen. by rewrite length_zero_block.
  - exists (log_entries ts). split; [done|]. split.
    + intros k. unfold content, log_disk. cbn [fst snd].
      rewrite Hv. destruct (log_view ts !! k); [apply Hs|done].
    + pose proof (mr_wp _ _ _ _ Hmr) as Hw. constructor; cbn [fst snd]; rewrite ?Hw; try done.
      * by rewrite Hs.
      * exists ts. split; [done|]. eapply log_on_frame; [exact Hlog|auto].
Qed.

Section Init.
Context (params : lsm_params).

Lemma lsm_start_opened table start end_ wp su ls :
  0 < zns_lsm_memtable_threshold params ->
  start = meta_first table -> end_ = meta_last table ->
  let l0 := lsm_start params ls 8 in
  opened table wp su (set_meta (set_meta_region start end_ wp su (l_meta l0)) l0).
Proof.
  intros Ht -> ->. constructor; try done. cbn. unfold lsm_threshold.
  destruct (_ =? _); [|done]. unfold ZNS_LSM_MEMTABLE_THRESHOLD. lia.
Qed.

(** The part of the initialisation before the metadata zone. *)
Lemma engine_init_steps table N phys uuid w :
  reports (w_dev w) table -> 2 <= zt_nr_zones table ->
  0 < zns_lsm_memtable_threshold params -> phys mod 8 = 0 ->
  (exists e w1, lsm_engine_init params (8 * N) phys 8 uuid w = (Err e, w1) /\
     w_dev w1 = w_dev w /\ faulty w e) \/
  exists w1, w_dev w1 = w_dev w /\ fault_free_step w w1 /\ (no_fail (w_mem w) -> no_fail (w_mem w1)) /\
    lsm_engine_init params (8 * N) phys 8 uuid w =
      match lsm_bring_up table (8 * N) 8 uuid (w1, lsm_start params (8 * N) 8) with
      | (Err e, (w', _)) => (Err e, w')
      | (Ok _, (w', lsm)) => (Ok lsm, w')
      end.
Proof.
  intros Hrep Hnr Hth Hphys. unfold lsm_engine_init.
  rewrite (proj2 (Z.eqb_neq (zns_lsm_memtable_threshold params) 0)) by lia.
  replace (8 * N) with (N * 8) by lia. rewrite Z_mod_mult, Hphys. cbn [Z.eqb orb negb].
  change (8 =? ZNS_SST_BLOCK_SECTORS) with true. cbn [orb negb]. unfold bind.
  destruct (on_mem kmalloc w) as [r1 w1] eqn:E1.
  assert (Hn1 : no_fail (w_mem w) -> no_fail (w_mem w1)).
  { unfold on_mem, zoom in E1. pose proof (kmalloc_reliable (w_mem w)) as Hk.
    destruct (kmalloc (w_mem w)) as [[[]|e] a]; injection E1 as <- <-; cbn; tauto. }
  apply on_mem_outcome in E1 as (Hd1 & Hf1 & He1).
  destruct r1 as [[]|e]; [|left; by exists e, w1]. rewrite <- Hd1 in Hrep.
  destruct (table_init_total table w1 Hrep ltac:(lia)) as (r2 & m & -> & Hr2).
  destruct Hr2 as [[-> Hn]|[-> Hn]].
  - left. do 2 eexists. split; [done|]. split; [done|]. apply Hf1. split; [by left|tauto].
  - right. exists (set_mem m w1). split; [done|]. split; [|split; [auto|done]].
    intros e [Hio Hf]. apply Hf1. split; [done|]. intros Hnf. apply Hf. auto.
Qed.

(** What a start on a formatted metadata zone yields. *)
Lemma start_outcome N table phys uuid su ts w :
  no_einval -> 0 <= N < 4294967296 -> 0 < zns_lsm_memtable_threshold params -> phys mod 8 = 0 ->
  reports (w_dev w) table -> device_ok table ->
  super_in_range su -> same_geometry su (device_super table 0 (8 * N)) ->
  dev_block (w_dev w) (meta_first table) = zns_super_encode su ->
  meta_first table + 8 <= meta_pointer table ->
  log_on (w_dev w) (meta_first table + 8) (meta_pointer table) ts ->
  restorable N (data_allocator table) (log_view ts) -> blocks_full (w_dev w) (log_view ts) ->
  let '(r, w') := lsm_engine_init params (8 * N) phys 8 uuid w in
  same_blocks (w_dev w) (w_dev w') /\
  match r with
  | Ok l => represents_with N (keeps_log table su) (w', l) (log_disk (w_dev w) (log_view ts))
  | Err e => faulty w e \/ (e = - ENOSPC /\ no_empty_zone table)
  end.
Proof.
  intros Hne HN Hth Hphys Hrep Hdv Hsr Hgeo Hb Hptr Hlog Hrs Hfull.
  pose proof (dv_nr _ Hdv) as Hnr. destruct (dv_meta _ Hdv) as (_ & _ & _ & Hlast).
  destruct (engine_init_steps table N phys uuid w Hrep ltac:(lia) Hth Hphys)
    as [(e & w1 & Heq & Hd1 & Hf)|(w1 & Hd1 & Hf1 & _ & Heq)]; rewrite Heq.
  { split; [by apply same_dev|by left]. }
  unfold lsm_bring_up, bind.
  pose proof (open_formatted table (8 * N) uuid su w1 (lsm_start params (8 * N) 8) Hdv eq_refl
    ltac:(lia) ltac:(by rewrite Hd1) Hsr Hgeo) as H1'.
  destruct (zns_lsm_open_metadata table (8 * N) uuid (w1, _)) as [[[]|e] [w2 l2]];
    destruct H1' as (Hs2 & Hf2 & Hr2); rewrite Hd1 in Hs2; [|split; [done|left; faults]]. subst l2.
  assert (Hlog2 : log_on (w_dev w2) (meta_first table + 8) (meta_pointer table) ts).
  { eapply log_on_frame; [exact Hlog|auto]. }
  pose proof (lsm_load_outcome N table (meta_pointer table) su ts w2 _ Hne Hdv ltac:(lia)
    (proj2 (proj2 (proj2 (proj2 Hgeo))))
    (lsm_start_opened table _ _ (meta_pointer table) su (8 * N) Hth eq_refl eq_refl) ltac:(lia)
    Hlog2 Hrs) as H3'.
  destruct (lsm_load table 8 (w2, _)) as [[[]|e] [w3 l3]].
  - split; [transitivity (w_dev w2); [done|apply H3']|].
    apply started_represents in H3'; try done; [|intros k p Hk; rewrite Hs2; by eapply Hfull|by rewrite Hs2].
    eapply represents_ext; [exact H3'| |]; intros k; unfold log_disk.
    + destruct (log_view ts !! k) eqn:Hk; [by eapply Hfull|]. unfold zlen. by rewrite length_zero_block.
    + destruct (log_view ts !! k); [apply Hs2|done].
  - destruct H3' as [Hs3 [Hr3|Hr3]]; (split; [by transitivity (w_dev w2)|]); [left; faults|by right].
Qed.

(** C7.  A start restores the disk.  If the metadata zone holds a superblock that
    describes this device and, behind it, a complete log of SSTables whose newest
    mappings lead to written blocks, then starting a target either yields an engine
    that holds exactly the disk these mappings describe (zeros elsewhere), with a
    consistent index of live blocks; or it fails because an allocation or a read
    failed, or because no data zone is left empty for the collection.  Nothing on the
    device is changed. *)
Theorem start_restores_disk N table phys uuid su ts w :
  no_einval -> 0 <= N < 4294967296 -> 0 < zns_lsm_memtable_threshold params -> phys mod 8 = 0 ->
  reports (w_dev w) table -> device_ok table ->
  super_in_range su -> same_geometry su (device_super table 0 (8 * N)) ->
  dev_block (w_dev w) (meta_first table) = zns_super_encode su ->
  meta_first table + 8 <= meta_pointer table ->
  log_on (w_dev w) (meta_first table + 8) (meta_pointer table) ts ->
  restorable N (data_allocator table) (log_view ts) -> blocks_full (w_dev w) (log_view ts) ->
  let '(r, w') := lsm_engine_init params (8 * N) phys 8 uuid w in
  same_blocks (w_dev w) (w_dev w') /\
  match r with
  | Ok l => represents N (w', l) (log_disk (w_dev w) (log_view ts))
  | Err e => faulty w e \/ (e = - ENOSPC /\ no_empty_zone table)
  end.
Proof.
  intros Hne HN Hth Hphys Hrep Hdv Hsr Hgeo Hb Hptr Hlog Hrs Hfull.
  pose proof (start_outcome N table phys uuid su ts w Hne HN Hth Hphys Hrep Hdv Hsr Hgeo Hb Hptr
    Hlog Hrs Hfull) as Hout.
  destruct (lsm_engine_init params (8 * N) phys 8 uuid w) as [[l|e] w']; destruct Hout as [Hs Hr];
    (split; [done|]); [|done]. by eapply represents_weaken.
Qed.

(** The engine behind the superblock just written. *)
Lemma fresh_load_outcome N table uuid w :
  no_einval -> device_ok table -> 0 <= N < 4294967296 -> 0 < zns_lsm_memtable_threshold params ->
  let su := device_super table uuid (8 * N) in
  let l0 := lsm_start params (8 * N) 8 in
  let '(r, s') := lsm_load table 8 (w, set_meta (set_meta_region (meta_first table) (meta_last table)
                    (meta_first table + 8) su (l_meta l0)) l0) in
  started N table (meta_first table + 8) su [] w r s'.
Proof.
  intros Hne Hdv HN Hth. destruct (dv_meta _ Hdv) as ([Hcap _] & _ & _ & Hlast).
  assert (Hrs : restorable N (data_allocator table) (log_view [])).
  { assert (Hnone : forall k, log_view [] !! k = None) by (intros k; apply lookup_empty).
    constructor; intros *; rewrite Hnone; done. }
  apply (lsm_load_outcome N table (meta_first table + 8) (device_super table uuid (8 * N)) [] w _ Hne Hdv
    ltac:(lia) eq_refl (lsm_start_opened table _ _ _ _ (8 * N) Hth eq_refl eq_refl)); [|done|done].
  unfold meta_last, meta_first in *. lia.
Qed.

(** What a start on an empty metadata zone yields. *)
Lemma fresh_start_outcome N table phys uuid w :
  no_einval -> 0 <= N < 4294967296 -> 0 < zns_lsm_memtable_threshold params -> phys mod 8 = 0 ->
  reports (w_dev w) table -> device_ok table -> meta_pointer table = meta_first table ->
  let '(r, w') := lsm_engine_init params (8 * N) phys 8 uuid w in
  only_in (meta_first table) (meta_first table + 8) (w_dev w) (w_dev w') /\
  match r with
  | Ok l => represents_with N (keeps_log table (device_super table uuid (8 * N))) (w', l)
              (fun _ => zero_block)
  | Err e => io_error e \/ (e = - ENOSPC /\ no_empty_zone table)
  end.
Proof.
  intros Hne HN Hth Hphys Hrep Hdv Hptr. set (su := device_super table uuid (8 * N)).
  pose proof (dv_nr _ Hdv) as Hnr. destruct (dv_meta _ Hdv) as ([Hcap _] & _ & _ & Hlast).
  destruct (engine_init_steps table N phys uuid w Hrep ltac:(lia) Hth Hphys)
    as [(e & w1 & Heq & Hd1 & [Hf _])|(w1 & Hd1 & Hf1 & _ & Heq)]; rewrite Heq.
  { split; [rewrite Hd1; apply only_in_refl|by left]. }
  unfold lsm_bring_up, bind.
  pose proof (open_fresh table (8 * N) uuid w1 (lsm_start params (8 * N) 8) Hdv eq_refl Hptr) as H1'.
  destruct (zns_lsm_open_metadata table (8 * N) uuid (w1, _)) as [[[]|e] [w2 l2]];
    destruct H1' as (Ho2 & Hr2); rewrite Hd1 in Ho2; [|split; [done|by left]]. destruct Hr2 as [Hb ->].
  pose proof (fresh_load_outcome N table uuid w2 Hne Hdv HN Hth) as H3'. cbv zeta in H3'. fold su in H3', Hb |- *.
  destruct (lsm_load table 8 (w2, _)) as [[[]|e] [w3 l3]].
  - pose proof (proj1 H3') as Hs3. split; [eapply only_in_trans; [exact Ho2|intros a _; apply Hs3]|].
    apply started_represents in H3'; [|intros k p Hk; change (log_view []) with (∅ : gmap Z Z) in Hk; by rewrite lookup_empty in Hk| |done|done].
    2:{ unfold meta_last, meta_first in *. lia. }
    eapply represents_ext; [exact H3'| |done]. intros k. unfold zlen. by rewrite length_zero_block.
  - destruct H3' as [Hs3 Hr3]. split; [eapply only_in_trans; [exact Ho2|intros a _; apply Hs3]|].
    destruct Hr3 as [[Hio _]|Hr3]; [by left|by right].
Qed.

(** C9.  A start on an empty metadata zone formats the target.  It writes the superblock
    to the first block of that zone and nothing else, and the engine holds a disk of
    zeros; or it fails because an allocation or a device request failed, or because no
    data zone is empty. *)
Theorem fresh_start_formats N table phys uuid w :
  no_einval -> 0 <= N < 4294967296 -> 0 < zns_lsm_memtable_threshold params -> phys mod 8 = 0 ->
  reports (w_dev w) table -> device_ok table -> meta_pointer table = meta_first table ->
  let '(r, w') := lsm_engine_init params (8 * N) phys 8 uuid w in
  only_in (meta_first table) (meta_first table + 8) (w_dev w) (w_dev w') /\
  match r with
  | Ok l => represents N (w', l) (fun _ => zero_block) /\
      dev_block (w_dev w') (meta_first table) = zns_super_encode (device_super table uuid (8 * N))
  | Err e => io_error e \/ (e = - ENOSPC /\ no_empty_zone table)
  end.
Proof.
  intros Hne HN Hth Hphys Hrep Hdv Hptr.
  pose proof (fresh_start_outcome N table phys uuid w Hne HN Hth Hphys Hrep Hdv Hptr) as Hout.
  destruct (lsm_engine_init params (8 * N) phys 8 uuid w) as [[l|e] w']; destruct Hout as [Hs Hr];
    (split; [done|]); [|done]. split; [by eapply represents_weaken|].
  destruct Hr as (_ & ess & _ & _ & Hk). apply Hk.
Qed.

End Init.

End Restart.
