(* ===== verification/LsmLifecycle.v ===== *)
(** The life of an LSM target: formatted, started, serving bios, stopped and started
    again.  Serving bios keeps the log of the metadata zone readable, completed flushes
    extend it, a clean shutdown appends the resident generations to it, and the next
    start gives back the disk of the last bio. *)
From S2P Require Import Prelude Kernel ZonedRam Zone Allocator GcPolicy XArray Bytes RbTree.
From S2P Require Import Memtable Sstable Super Lsm LsmIndex LsmFlush LsmView Bio LsmIo LsmRecovery.
From S2P Require Import LsmConcurrency LsmRefine Disk LsmServe LsmDisk LsmRestart.

Section Lifecycle.
Context `{BlockDeviceLaws} `{Crc32} `{XArrayLaws} `{RbTreeLaws}.

Abbreviation logged := (Z * list lsm_entry)%type.

(** ** Stopping *)

(** The sectors a shutdown needs for a generation, and for several. *)
Definition sectors_needed (o : option lsm_memtable) : Z :=
  match o with
  | Some m => if bool_decide (mt_entries m = []) then 0 else 8 * log_blocks (0, mt_entries m)
  | None => 0
  end.

Fixpoint total_needed (gens : list (option lsm_memtable)) : Z :=
  match gens with
  | [] => 0
  | o :: gens' => sectors_needed o + total_needed gens'
  end.

(** What several generations map, oldest first. *)
Fixpoint gens_view (gens : list (option lsm_memtable)) : gmap Z Z :=
  match gens with
  | [] => ∅
  | o :: gens' => gens_view gens' ∪ slot_map o
  end.

Lemma log_view_snoc ts seq es :
  log_view (ts ++ [(seq, es)]) = list_to_map (entry_pair <$> es) ∪ log_view ts.
Proof. unfold log_view, log_entries. rewrite fmap_app, reverse_app. done. Qed.

Lemma sectors_needed_nonneg o : 0 <= sectors_needed o.
Proof.
  destruct o as [m|]; cbn; [|lia]. case_bool_decide; [lia|]. unfold log_blocks. cbn [snd].
  pose proof (Z.div_pos (zlen (mt_entries m) + 255) 256 ltac:(unfold zlen; lia) ltac:(lia)).
  unfold payload_blocks. lia.
Qed.

Lemma total_needed_nonneg gens : 0 <= total_needed gens.
Proof. induction gens as [|o gens IH]; cbn; [lia|]. pose proof (sectors_needed_nonneg o). lia. Qed.

(** Generations that need no sector hold nothing. *)
Lemma nothing_needed gens : total_needed gens = 0 -> gens_view gens = ∅.
Proof.
  induction gens as [|o gens IH]; [done|]. cbn. intros Hz.
  pose proof (sectors_needed_nonneg o). pose proof (total_needed_nonneg gens).
  rewrite IH by lia. destruct o as [m|]; [|done]. cbn in *. case_bool_decide as He.
  - unfold mt_map in *. change (∅ ∪ mt_map m = ∅). unfold mt_map. by rewrite He.
  - assert (8 <= 8 * log_blocks (0, mt_entries m)); [|lia]. unfold log_blocks, payload_blocks. cbn [snd].
    pose proof (Z.div_pos (zlen (mt_entries m) + 255) 256 ltac:(unfold zlen; lia) ltac:(lia)). lia.
Qed.

Lemma flush_one_outcome N m start limit seq w r consumed w' :
  no_enodata -> 0 <= N < 4294967296 -> table_ok N (Some m) -> 0 <= start <= limit ->
  limit < 18446744073709551616 -> is_u64 seq ->
  zns_sst_write (Some m) start limit seq w = (Ok (r, consumed), w') ->
  only_in start limit (w_dev w) (w_dev w') /\ 0 <= consumed /\ start + consumed <= limit /\
  match r with
  | Ok _ => mt_entries m <> [] /\ consumed = sectors_needed (Some m) /\
      log_on (w_dev w') start (start + consumed) [(seq, mt_entries m)]
  | Err e => (e = - ENODATA -> mt_entries m = []) /\
      (mt_entries m = [] -> consumed = 0) /\ (mt_entries m <> [] -> consumed < sectors_needed (Some m))
  end.
Proof.
  intros Hne HN Htab Hs Hl Hseq Hrun. destruct (table_ok_storable N m) as [Hwf Hcnt]; [lia|lia|done|].
  destruct (sst_write_cases m start limit seq w _ w' ltac:(unfold is_u64; lia) ltac:(unfold is_u64; lia)
    Hcnt Hrun) as (Ho & r' & c & [= <- <-] & Hp & Hr).
  split; [done|]. assert (Hc0 : 0 <= consumed) by (destruct Hp as [->|(j & -> & _)]; lia).
  split; [done|]. cbn [s_nr_blocks sst_of] in Hr. destruct r as [sst|e].
  - destruct Hr as (_ & -> & Hfit & Hnil). split; [lia|]. split; [done|].
    cbn [sectors_needed]. rewrite bool_decide_eq_false_2 by done. split; [done|].
    by apply (written_log (w_dev w') start seq (mt_entries m)); try done; unfold log_blocks; cbn; lia.
  - split; [lia|]. split_and!.
    + intros ->. destruct (sst_write_error _ _ _ _ _ _ _ _ Hcnt Hrun) as [?|[[_ ?]|?]]; [done|done|].
      by destruct (io_error_not_enodata (- ENODATA) Hne).
    + intros Hnil. destruct Hr as [->|[Hc _]]; [done|]. rewrite Hnil in Hc.
      change (payload_blocks (zlen [])) with 0 in Hc. destruct Hp as [->|(j & -> & _)]; [done|lia].
    + intros Hnil. cbn [sectors_needed]. rewrite bool_decide_eq_false_2 by done.
      assert (Hpb := payload_blocks_bound _ Hcnt). unfold log_blocks. cbn [snd].
      destruct Hr as [->|[Hc _]]; lia.
Qed.

Lemma empty_generation m : mt_entries m = [] -> slot_map (Some m) = ∅.
Proof. intros He. cbn [slot_map]. unfold mt_map. by rewrite He. Qed.

Lemma empty_needed m : mt_entries m = [] -> sectors_needed (Some m) = 0.
Proof. intros He. cbn. by rewrite bool_decide_eq_true_2. Qed.

(** The metadata region a shutdown works on. *)
Record region_wf (l : zns_lsm) : Prop := {
  rw_region : 0 <= m_meta_wp (l_meta l) <= m_meta_end (l_meta l);
  rw_end : m_meta_end (l_meta l) < 18446744073709551616;
  rw_seq : is_u64 (m_next_sst_seq (l_meta l));
}.

(** Writing the generations out, oldest first: if there was room for all of them and
    nothing failed, the write pointer has moved by the size of their tables, and then
    the log is complete. *)
Lemma flush_generations_outcome N gens c ts w l :
  no_enodata -> 0 <= N < 4294967296 -> Forall (table_ok N) gens -> region_wf l ->
  log_on (w_dev w) c (m_meta_wp (l_meta l)) ts ->
  let '(r, (w', l')) := flush_generations gens (w, l) in
  r = Ok tt /\ l_tables l' = l_tables l /\
  only_in (m_meta_wp (l_meta l)) (m_meta_end (l_meta l)) (w_dev w) (w_dev w') /\
  m_meta_wp (l_meta l') <= m_meta_wp (l_meta l) + total_needed gens /\
  (m_meta_wp (l_meta l') = m_meta_wp (l_meta l) + total_needed gens ->
   m_meta_wp (l_meta l') <= m_meta_end (l_meta l) /\
   exists ts', log_on (w_dev w') c (m_meta_wp (l_meta l')) (ts ++ ts') /\
     log_view (ts ++ ts') = gens_view gens ∪ log_view ts).
Proof.
  intros Hne HN. revert ts w l. induction gens as [|o gens IH]; intros ts w l Hall Hrw Hlog.
  { cbn. split; [done|]. split; [done|]. split; [apply only_in_refl|]. split; [lia|]. intros _.
    split; [apply Hrw|]. exists []. rewrite app_nil_r. by rewrite (left_id_L ∅ (∪)). }
  apply Forall_cons_1 in Hall as [Ho Hall]. cbn [total_needed gens_view].
  destruct o as [m|].
  2:{ cbn [flush_generations sectors_needed slot_map]. rewrite map_union_empty. by apply IH. }
  pose proof Hrw as [Hreg Hend Hseq]. cbn [flush_generations].
  unfold bind at 1, lsm_get, gets. cbn [snd]. unfold bind at 1, on_world, zoom. cbn [fst snd].
  destruct (sst_write_total (Some m) (m_meta_wp (l_meta l)) (m_meta_end (l_meta l))
    (m_next_sst_seq (l_meta l)) w) as (r & consumed & w1 & E1). rewrite E1.
  destruct (flush_one_outcome N m _ _ _ w r consumed w1 Hne HN Ho Hreg Hend Hseq E1)
    as (Ho1 & Hc0 & Hc1 & Hr).
  unfold bind at 1, modify_meta, lsm_modify, modify. cbn [fst snd]. rewrite u64_id by lia.
  set (l1 := set_meta _ l).
  assert (Hwp1 : m_meta_wp (l_meta l1) = m_meta_wp (l_meta l) + consumed) by done.
  assert (Hrw1 : region_wf l1) by (constructor; cbn; try done; lia).
  assert (Hlog1 : log_on (w_dev w1) c (m_meta_wp (l_meta l)) ts).
  { eapply log_on_frame; [exact Hlog|]. intros s _ ?. apply Ho1. lia. }
  pose proof (total_needed_nonneg gens) as Htn. pose proof (sectors_needed_nonneg (Some m)) as Hsn.
  destruct r as [sst|e].
  - destruct Hr as (Hnil & -> & Hlast). unfold bind. cbn [fst snd].
    set (l2 := set_meta _ l1).
    assert (Hrw2 : region_wf l2) by (destruct Hrw1; constructor; cbn; try done; apply u64_range).
    assert (Hlog2 : log_on (w_dev w1) c (m_meta_wp (l_meta l2)) (ts ++ [(m_next_sst_seq (l_meta l), mt_entries m)])).
    { eapply log_on_snoc; [exact Hlog1|exact Hlast]. }
    specialize (IH _ w1 l2 Hall Hrw2 Hlog2).
    destruct (flush_generations gens (w1, l2)) as [r2 [w2 l3]].
    destruct IH as (-> & Ht2 & Ho2 & Hle2 & Hfin). split; [done|]. split; [done|].
    change (m_meta_wp (l_meta l2)) with (m_meta_wp (l_meta l) + sectors_needed (Some m)) in *.
    change (m_meta_end (l_meta l2)) with (m_meta_end (l_meta l)) in *.
    split; [eapply only_in_trans; [exact Ho1|]; eapply only_in_widen; [exact Ho2|lia..]|].
    split; [lia|]. intros Heq. destruct Hfin as (Hfit & ts' & Hlog3 & Hv); [lia|]. split; [done|].
    exists ((m_next_sst_seq (l_meta l), mt_entries m) :: ts'). rewrite <- app_assoc in Hlog3, Hv.
    split; [done|]. cbn [app] in Hv. rewrite Hv, log_view_snoc. by rewrite (assoc_L (∪)).
  - destruct Hr as (Hed & Hnil & Hcons). destruct (Z.eqb_spec e (- ENODATA)) as [->|Hned].
    + specialize (Hed eq_refl). rewrite (Hnil Hed), Z.add_0_r in Hwp1. rewrite <- Hwp1 in Hlog1.
      specialize (IH _ w1 l1 Hall Hrw1 Hlog1).
      destruct (flush_generations gens (w1, l1)) as [r2 [w2 l3]].
      destruct IH as (-> & Ht2 & Ho2 & Hle2 & Hfin). rewrite Hwp1 in *.
      change (m_meta_end (l_meta l1)) with (m_meta_end (l_meta l)) in *.
      rewrite (empty_generation m Hed), (empty_needed m Hed), map_union_empty. cbn [Z.add].
      split; [done|]. split; [done|]. split; [by eapply only_in_trans|]. done.
    + unfold ret. split; [done|]. split; [done|]. split; [exact Ho1|]. rewrite Hwp1.
      destruct (decide (mt_entries m = [])) as [He|He].
      * rewrite (Hnil He), (empty_needed m He) in *. split; [lia|]. intros Heq. split; [lia|].
        exists []. rewrite app_nil_r, Z.add_0_r. split; [done|].
        rewrite nothing_needed, (empty_generation m He) by lia. by rewrite !map_empty_union.
      * specialize (Hcons He). split; [lia|]. intros Heq. lia.
Qed.

(** ** Serving *)

(** The metadata does not depend on where bios were stored. *)
Lemma keeps_log_frame table su ess s s' :
  meta_frame s s' -> keeps_log table su ess s -> keeps_log table su ess s'.
Proof.
  intros [Hm _ Hd] [Hr Hb Hs (ts & He & Hlog)].
  rewrite (mr_start _ _ _ _ Hr), (mr_end _ _ _ _ Hr) in Hd.
  constructor; rewrite ?Hm; try done.
  - by rewrite Hd by lia.
  - exists ts. split; [done|]. eapply log_on_frame; [exact Hlog|]. intros a ? ?. apply Hd; lia.
Qed.

Lemma keeps_log_meta table su ess w l l' :
  l_meta l' = l_meta l -> keeps_log table su ess (w, l) -> keeps_log table su ess (w, l').
Proof. intros Hm [? ? ? ?]. constructor; cbn [fst snd] in *; rewrite ?Hm; done. Qed.

(** The log when a table was written behind it. *)
Lemma keeps_log_written table su ess w w' l sec es m' :
  keeps_log table su ess (w, l) ->
  only_in (m_meta_wp (l_meta l)) (m_meta_end (l_meta l)) (w_dev w) (w_dev w') ->
  meta_region table (m_meta_wp (l_meta l) + sec) su m' ->
  m_meta_wp (l_meta l) + sec <= m_meta_end (l_meta l) -> 0 <= sec ->
  (exists seq, log_on (w_dev w') (m_meta_wp (l_meta l)) (m_meta_wp (l_meta l) + sec) [(seq, es)]) ->
  keeps_log table su (es :: ess) (w', set_meta m' l).
Proof.
  intros [Hr Hb Hs (ts & -> & Hlog)] Ho Hr' Hle Hsec (seq & Hl). cbn [fst snd] in *.
  rewrite (mr_end _ _ _ _ Hr) in Hle. pose proof (mr_wp _ _ _ _ Hr') as Hwp.
  constructor; cbn [fst snd l_meta set_meta]; rewrite ?Hwp; [done|lia| |].
  - rewrite <- Hs. apply Ho. lia.
  - exists (ts ++ [(seq, es)]). split.
    + unfold log_entries. by rewrite fmap_app, reverse_app.
    + eapply log_on_snoc; [|exact Hl]. eapply log_on_frame; [exact Hlog|]. intros a ? ?. apply Ho. lia.
Qed.

Lemma keeps_log_nothing table su ess w w' l :
  keeps_log table su ess (w, l) ->
  (forall a, a + 8 <= m_meta_wp (l_meta l) -> dev_block (w_dev w') a = dev_block (w_dev w) a) ->
  keeps_log table su ess (w', l).
Proof.
  intros [Hr Hb Hs (ts & -> & Hlog)] Ho. cbn [fst snd] in *. constructor; cbn [fst snd]; try done.
  - rewrite <- Hs. apply Ho. lia.
  - exists ts. split; [done|]. eapply log_on_frame; [exact Hlog|]. intros a ? ?. apply Ho. lia.
Qed.


(** One round of the flush worker: a complete table extends the log, an empty one is
    dropped, and after a failure the victim stays where it is. *)
Lemma flush_round_log N table su v w l ess :
  no_enodata -> 0 <= N < 4294967296 ->
  flush_inv N (FlushClaimed v, (w, l)) ess -> keeps_log table su ess (w, l) ->
  exists r consumed w1 m1,
    zns_sst_write (Some v) (m_meta_wp (l_meta l)) (m_meta_end (l_meta l)) (m_next_sst_seq (l_meta l)) w
      = (Ok (r, consumed), w1) /\
    (if negb (consumed =? 0) then zns_lsm_advance_meta_wp (m_meta_wp (l_meta l)) consumed else ret tt)
      (w1, l) = (Ok tt, (w1, set_meta m1 l)) /\
    let released m := set_tables (set_flushing None (l_tables l)) (set_meta m l) in
    let goes_on s ess' := flush_inv N (FlushClaim, s) ess' /\ flush_effect (w, l) s ess ess' /\
      keeps_log table su ess' s in
    match r with
    | Ok sst => goes_on (w1, released (published sst m1)) (mt_entries v :: ess)
    | Err e => e = - ENODATA -> goes_on (w1, released m1) ess
    end.
Proof.
  intros Hne HN [Hst Hf] Hkl. cbn [pc_inv] in Hf. pose proof (st_region _ _ _ _ Hst) as Hreg.
  destruct (sst_write_total (Some v) (m_meta_wp (l_meta l)) (m_meta_end (l_meta l))
    (m_next_sst_seq (l_meta l)) w) as (r & consumed & w1 & E).
  exists r, consumed, w1. assert (Htab : table_ok N (Some v)) by (rewrite <- Hf; apply Hst).
  destruct (flush_one_outcome N v (m_meta_wp (l_meta l)) (m_meta_end (l_meta l))
    (m_next_sst_seq (l_meta l)) w r consumed w1 Hne HN Htab ltac:(lia) ltac:(lia)
    (st_seq _ _ _ _ Hst) E) as (Ho & Hc0 & Hc1 & Hr).
  assert (Hwr : flush_inv N (FlushWriting v (m_meta_wp (l_meta l)) (m_next_sst_seq (l_meta l)), (w, l)) ess)
    by (by split).
  destruct (step_write_inv N v _ _ (w, l) r consumed (w1, l) ess HN Hne Hwr) as [Hinv1 Heff1].
  { unfold on_world, zoom. cbn [fst snd]. by rewrite E. }
  set (m1 := if negb (consumed =? 0) then advanced (m_meta_wp (l_meta l)) consumed (l_meta l) else l_meta l).
  assert (Hadv : (if negb (consumed =? 0) then zns_lsm_advance_meta_wp (m_meta_wp (l_meta l)) consumed
    else ret tt) (w1, l) = (Ok tt, (w1, set_meta m1 l))).
  { unfold m1. destruct (negb (consumed =? 0)); [done|]. by destruct l. }
  assert (Hkl' := Hkl). exists m1. split; [done|]. split; [exact Hadv|]. cbv zeta.
  destruct (step_advance_inv N v _ r consumed (w1, l) _ ess Hinv1 Hadv) as [[Hst2 [Hf2 Hout2]] Heff2].
  pose proof (flush_effect_trans _ _ _ _ _ _ Heff1 Heff2) as Heff.
  destruct (advanced_meta l consumed Hc0 ltac:(lia) ltac:(lia)) as (Hwp & Hs & Hq & Hms & Hme & Hsu).
  assert (Hm1 : consumed <> 0 -> m1 = advanced (m_meta_wp (l_meta l)) consumed (l_meta l)).
  { intros Hnz. unfold m1. by rewrite (proj2 (Z.eqb_neq _ _) Hnz). }
  destruct r as [sst|e].
  - destruct Hr as (Hnil & Hsec & Hlog). destruct Hout2 as (Hd2 & Hs2 & He2).
    assert (Hnz : consumed <> 0).
    { rewrite Hsec. cbn. rewrite bool_decide_eq_false_2 by done. unfold log_blocks, payload_blocks.
      pose proof (Z.div_pos (zlen (mt_entries v) + 255) 256 ltac:(unfold zlen; lia) ltac:(lia)).
      cbn [snd]. lia. }
    specialize (Hm1 Hnz). destruct Hkl' as [Hmr _ _ _].
    pose proof (published_wf N (w_dev w1) _ ess sst (mt_entries v) Hst2 Hd2 Hs2 He2) as Hpub.
    destruct (release_inv N v (w1, set_meta (published sst m1) l) _ (mt_entries v :: ess) Hpub Hf
      (or_intror (ex_intro _ ess eq_refl)) eq_refl) as [Hinv3 Heff3].
    split; [exact Hinv3|]. split.
    + eapply flush_effect_trans; [exact Heff|]. eapply flush_effect_trans; [|exact Heff3].
      constructor; cbn [fst snd]; [by constructor| |done|apply only_in_refl].
      by apply (published_view (set_meta m1 l) v ess sst).
    + apply (keeps_log_meta table su _ w1 (set_meta (published sst m1) l)); [done|].
      eapply (keeps_log_written table su ess w w1 l consumed); [done|exact Ho| |lia|done|by eexists].
      destruct Hmr as [? ? _ ? ?]. rewrite Hm1.
      constructor; cbn [published m_meta_start m_meta_end m_meta_wp m_super m_next_sst_seq];
        rewrite ?Hms, ?Hme, ?Hwp, ?Hsu; try done. apply u64_range.
  - intros ->. destruct Hr as (Hed & Hcz & _). specialize (Hed eq_refl). specialize (Hcz Hed).
    assert (Hm1' : m1 = l_meta l) by (unfold m1; by rewrite Hcz).
    destruct (release_inv N v (w1, set_meta m1 l) _ ess Hst2 Hf (or_introl Hed) eq_refl) as [Hinv3 Heff3].
    split; [exact Hinv3|]. split; [by eapply flush_effect_trans|].
    apply (keeps_log_meta table su _ w1 l); [exact Hm1'|].
    apply (keeps_log_nothing table su ess w w1 l Hkl). intros a Ha. apply Ho. lia.
Qed.


Lemma flush_loop_log N table su fuel s ess :
  no_enodata -> 0 <= N < 4294967296 ->
  flush_inv N (FlushClaim, s) ess -> keeps_log table su ess s ->
  let '(r, s') := flush_loop fuel s in
  match r with
  | Ok false => exists ess', flush_inv N (FlushClaim, s') ess' /\ flush_effect s s' ess ess' /\
      keeps_log table su ess' s'
  | Ok true => is_Some (g_flushing_memtable (l_tables (snd s')))
  | Err _ => False
  end.
Proof.
  intros Hne HN. revert s ess. induction fuel as [|fuel IH]; intros [w l] ess Hinv Hkl.
  { exists ess. split; [done|]. split; [apply flush_effect_refl|done]. }
  cbn [flush_loop]. unfold bind at 1. rewrite claim_run.
  destruct (step_claim_inv N (w, l) _ _ ess Hinv (claim_run w l)) as [Hinv1 Heff1].
  set (l1 := set_tables (claimed (l_tables l)) l) in *.
  assert (Hkl1 : keeps_log table su ess (w, l1)) by (by apply (keeps_log_meta table su ess w l)).
  destruct (g_flushing_memtable (claimed (l_tables l))) as [v|] eqn:Hf.
  2:{ exists ess. split; [exact Hinv1|]. by split. }
  destruct (flush_round_log N table su v w l1 ess Hne HN Hinv1 Hkl1)
    as (r & consumed & w1 & m1 & Hw & Hadv & Hr). cbv zeta in Hr.
  unfold bind at 1, lsm_get, gets. cbn [snd]. cbv zeta. unfold bind at 1, on_world, zoom. cbn [fst snd].
  rewrite Hw. unfold bind at 1. rewrite Hadv.
  assert (Hgo : forall s2 ess2, flush_inv N (FlushClaim, s2) ess2 /\ flush_effect (w, l1) s2 ess ess2 /\
    keeps_log table su ess2 s2 ->
    let '(r, s') := flush_loop fuel s2 in
    match r with
    | Ok false => exists ess', flush_inv N (FlushClaim, s') ess' /\ flush_effect (w, l) s' ess ess' /\
        keeps_log table su ess' s'
    | Ok true => is_Some (g_flushing_memtable (l_tables (snd s')))
    | Err _ => False
    end).
  { intros s2 ess2 (Hi2 & He2 & Hk2). specialize (IH s2 ess2 Hi2 Hk2).
    destruct (flush_loop fuel s2) as [[[|]|] s']; try done. destruct IH as (ess' & Hi' & He' & Hk').
    exists ess'. split; [done|]. split; [|done].
    eapply flush_effect_trans; [exact Heff1|]. by eapply flush_effect_trans. }
  destruct r as [sst|e].
  - apply (Hgo _ _ Hr).
  - destruct (Z.eqb_spec e (- ENODATA)) as [->|He]; [apply (Hgo _ _ (Hr eq_refl))|].
    cbn. by rewrite Hf.
Qed.

(** The flush worker extends the log, unless it leaves a failed victim behind. *)
Lemma flush_worker_log N table su s D :
  no_enodata -> 0 <= N < 4294967296 -> represents_with N (keeps_log table su) s D ->
  g_flushing_memtable (l_tables (snd (snd (zns_lsm_flush_worker s)))) = None ->
  represents_with N (keeps_log table su) (snd (zns_lsm_flush_worker s)) D.
Proof.
  destruct s as [w l]. intros Hne HN (Hfull & ess & Hew & Hc & Hkl) Hnone. cbn [fst snd] in *.
  pose proof (ew_store _ _ _ _ Hew) as Hst.
  assert (Hinv : flush_inv N (FlushClaim, (w, l)) ess) by (by split).
  pose proof (flush_loop_log N table su 3 (w, l) ess Hne HN Hinv Hkl) as Hl.
  unfold zns_lsm_flush_worker, bind in Hnone |- *.
  destruct (flush_loop 3 (w, l)) as [[[|]|e] [w1 l1]]; [| |done].
  { unfold bind in Hnone. cbn in Hnone, Hl. rewrite Hnone in Hl. by destruct Hl. }
  destruct Hl as (ess' & Hinv1 & Heff1 & Hkl1).
  set (l2 := set_tables (set_in_flight false (l_tables l1)) l1).
  assert (Hend : exists b q, (modify_tables (set_in_flight false) ;;; zns_lsm_maybe_queue_flush) (w1, l1) =
    (Ok tt, (w1, set_flush_queued q (set_tables (set_in_flight b (l_tables l1)) l1)))).
  { unfold zns_lsm_maybe_queue_flush, modify_tables, lsm_modify, modify, lsm_get, gets, bind.
    cbn [fst snd]. destruct (_ && _); [by do 2 eexists|].
    exists false, (l_flush_queued l1). by destruct l1. }
  destruct Hend as (b & q & Hrun). unfold bind in Hrun |- *. rewrite Hrun. cbn [snd]. clear l2 Hrun Hnone.
  set (l2 := set_flush_queued q _). destruct Hinv1 as [Hst1 _].
  assert (Hst2 : store_wf N (w_dev w1) l2 ess') by (destruct Hst1; by constructor).
  assert (Heff2 : flush_effect (w1, l1) (w1, l2) ess' ess').
  { apply flush_effect_idle; [right; by eexists|by constructor]. }
  destruct (flush_effect_engine N w l ess w1 l2 ess' Hew Hst2) as [Hew' Hc'].
  { eapply flush_effect_trans; [exact Heff1|exact Heff2]. }
  split; [done|]. exists ess'. split; [done|]. split; [intros k; cbn [fst snd]; by rewrite Hc'|].
  by apply (keeps_log_meta table su ess' w1 l1).
Qed.


(** ** Stopping a target *)

(** The generations a shutdown writes, oldest first, and where the log ends then. *)
Definition resident (l : zns_lsm) : list (option lsm_memtable) :=
  [g_flushing_memtable (l_tables l); g_immutable_memtable (l_tables l);
   g_active_memtable (l_tables l)].
Definition shutdown_end (l : zns_lsm) : Z := m_meta_wp (l_meta l) + total_needed (resident l).

Lemma resident_view l : gens_view (resident l) = tables_view (l_tables l).
Proof. unfold tables_view. cbn [gens_view resident]. by rewrite (left_id_L ∅ (∪)). Qed.

(** What a clean stop leaves on the device: the superblock and, up to [wp], a log that
    describes the disk [D]. *)
Record stopped (N : Z) (table : zns_zone_table) (su : zns_super) (a : zns_allocator)
    (d : bdev) (wp : Z) (D : disk) (ts : list logged) : Prop := {
  sp_bounds : meta_first table + 8 <= wp <= meta_last table;
  sp_super : dev_block d (meta_first table) = zns_super_encode su;
  sp_log : log_on d (meta_first table + 8) wp ts;
  sp_mappings : restorable N a (log_view ts);
  sp_full : disk_full D;
  sp_disk : forall k, log_disk d (log_view ts) k = D k;
}.

Lemma engine_restorable N d l ess :
  engine_wf N d l ess -> restorable N (l_allocator l) (lsm_view l ess).
Proof.
  intros [Hg Hx _ Hag _ _ _ _]. constructor.
  - intros k p Hk. rewrite <- Hag in Hk. by eapply current_located.
  - intros k p Hk. rewrite <- Hag in Hk.
    destruct (current_located N l k p Hg Hx Hk) as (_ & i & s & Hl & _). eauto.
  - intros k k' p Hk Hk'. rewrite <- Hag in Hk, Hk'. by eapply current_injective.
Qed.

(** A change of the unused metadata does not reach the blocks of the disk. *)
Lemma content_outside_meta N d d' l ess k :
  engine_wf N d l ess -> only_in (m_meta_wp (l_meta l)) (m_meta_end (l_meta l)) d d' ->
  log_disk d' (lsm_view l ess) k = content d l ess k.
Proof.
  intros Hew Ho. unfold log_disk, content. destruct (lsm_view l ess !! k) as [p|] eqn:Hp; [|done].
  apply Ho. destruct (rs_located _ _ _ (engine_restorable N d l ess Hew) k p Hp) as (i & s & Hl).
  pose proof (alloc_wf_zone _ i (ge_alloc l (ew_geometry _ _ _ _ Hew)) (lo_zone _ _ _ _ Hl)) as [? ? _ _ _].
  pose proof (st_region _ _ _ _ (ew_store _ _ _ _ Hew)).
  destruct Hl as [Hi Hs Hp1 Hp2 _]. destruct (ew_meta_apart _ _ _ _ Hew i Hi); lia.
Qed.

Lemma shutdown_outcome N table su w l D :
  no_enodata -> 0 <= N < 4294967296 -> represents_with N (keeps_log table su) (w, l) D ->
  let '(r, (w', l')) := zns_lsm_flush_all_sync (w, l) in
  r = Ok tt /\ only_in (m_meta_wp (l_meta l)) (m_meta_end (l_meta l)) (w_dev w) (w_dev w') /\
  m_meta_wp (l_meta l') <= shutdown_end l /\
  (m_meta_wp (l_meta l') = shutdown_end l ->
   exists ts, stopped N table su (l_allocator l) (w_dev w') (shutdown_end l) D ts).
Proof.
  intros Hne HN (Hfull & ess & Hew & Hc & Hkl). cbn [fst snd] in *.
  pose proof (ew_store _ _ _ _ Hew) as Hst. destruct Hkl as [Hmr Hb Hs (ts & -> & Hlog)]. cbn [fst snd] in *.
  pose proof (st_region _ _ _ _ Hst) as Hreg.
  assert (Hrw : region_wf l) by (constructor; [lia|lia|apply Hst]).
  assert (Hall : Forall (table_ok N) (resident l)) by (repeat apply Forall_cons_2; try apply Hst; apply Forall_nil_2).
  pose proof (flush_generations_outcome N (resident l) _ ts w l Hne HN Hall Hrw Hlog) as Hout.
  change (zns_lsm_flush_all_sync (w, l)) with (flush_generations (resident l) (w, l)).
  destruct (flush_generations (resident l) (w, l)) as [r [w' l']].
  destruct Hout as (-> & _ & Ho & Hle & Hfin). fold (shutdown_end l) in Hle, Hfin.
  split; [done|]. split; [done|]. split; [done|]. intros Heq. destruct (Hfin Heq) as (Hfit & ts' & Hlog' & Hv).
  assert (Hview : log_view (ts ++ ts') = lsm_view l (log_entries ts)).
  { by rewrite Hv, resident_view. }
  rewrite Heq in Hfit, Hlog'. rewrite (mr_end _ _ _ _ Hmr) in Hfit.
  pose proof (total_needed_nonneg (resident l)).
  exists (ts ++ ts'). constructor; try done.
  - unfold shutdown_end in *. lia.
  - rewrite <- Hs. apply Ho. lia.
  - rewrite Hview. by eapply engine_restorable.
  - intros k. rewrite Hview, <- Hc. by eapply content_outside_meta.
Qed.


(** Stopping does to the device what writing the generations does. *)
Lemma engine_exit_world l w :
  lsm_engine_exit l w = (Ok tt, fst (snd (zns_lsm_flush_all_sync (w, l)))).
Proof.
  unfold lsm_engine_exit, bind. destruct (zns_lsm_flush_all_sync (w, l)) as [[[]|e] [w' l']]; done.
Qed.


(** ** Stop and start *)
Section RoundTrip.
Context `{ZnsGcPolicy} (params : lsm_params).

(** No flush of the run left a failed victim behind. *)
Fixpoint flushes_complete (evs : list event) (s : world * zns_lsm) : Prop :=
  match evs with
  | [] => True
  | EvBio b :: evs' => flushes_complete evs' (snd (zns_lsm_io_worker params b s))
  | EvFlush :: evs' =>
      let s' := snd (zns_lsm_flush_worker s) in
      g_flushing_memtable (l_tables (snd s')) = None /\ flushes_complete evs' s'
  end.

(** Serving bios keeps the disk and the log. *)
Lemma service_keeps_log N table su evs s D :
  no_enodata -> 0 <= N < 4294967296 -> represents_with N (keeps_log table su) s D ->
  Forall (event_valid N) evs -> flushes_complete evs s ->
  let '(rs, s') := run_events params evs s in
  exists D', disk_run D evs rs D' /\ represents_with N (keeps_log table su) s' D'.
Proof.
  intros Hne HN. revert s D. induction evs as [|[b|] evs IH]; intros s D Hrep Hev Hfl;
    cbn [run_events flushes_complete] in *.
  - exists D. split; [constructor|done].
  - apply Forall_cons_1 in Hev as [Hb Hev].
    pose proof (io_worker_outcome params N (keeps_log table su) (keeps_log_frame table su)
      Hne ltac:(lia) D b s Hrep Hb) as Hio.
    destruct (zns_lsm_io_worker params b s) as [r s1]. destruct Hio as (D1 & Hrep1 & Hstep & _).
    specialize (IH s1 D1 Hrep1 Hev Hfl). destruct (run_events params evs s1) as [rs s2].
    destruct IH as (D2 & Hrun & Hrep2). exists D2. split; [by econstructor|done].
  - apply Forall_cons_1 in Hev as [_ Hev]. destruct Hfl as [Hnone Hfl].
    pose proof (flush_worker_log N table su s D Hne HN Hrep Hnone) as Hrep1.
    specialize (IH _ D Hrep1 Hev Hfl). destruct (run_events params evs _) as [rs s2].
    destruct IH as (D2 & Hrun & Hrep2). exists D2. split; [by constructor|done].
Qed.

(** The zones a start finds are those the engine [l] left: the log ends at [wp], and
    what the engine knew as written still is. *)
Record left_by (N : Z) (l : zns_lsm) (table table' : zns_zone_table) (su : zns_super) (wp : Z) : Prop := {
  lb_first : meta_first table' = meta_first table;
  lb_pointer : meta_pointer table' = wp;
  lb_super : super_in_range su /\ same_geometry su (device_super table' 0 (8 * N));
  lb_located : forall p i s, located (l_allocator l) p i s -> located (data_allocator table') p i s;
}.

Lemma restart_outcome N table table' su l phys uuid d wp D ts w :
  no_einval -> 0 <= N < 4294967296 -> 0 < zns_lsm_memtable_threshold params -> phys mod 8 = 0 ->
  stopped N table su (l_allocator l) d wp D ts -> left_by N l table table' su wp ->
  same_blocks d (w_dev w) -> reports (w_dev w) table' -> device_ok table' ->
  let '(r, w') := lsm_engine_init params (8 * N) phys 8 uuid w in
  same_blocks (w_dev w) (w_dev w') /\
  match r with
  | Ok l' => represents_with N (keeps_log table' su) (w', l') D
  | Err e => faulty w e \/ (e = - ENOSPC /\ no_empty_zone table')
  end.
Proof.
  intros Hne HN Hth Hphys [Hb Hs Hlog Hmap Hfull Hdisk] [Hfirst Hptr [Hsr Hgeo] Hloc] Hsame Hrep Hdv.
  assert (Hdisk' : forall k, log_disk (w_dev w) (log_view ts) k = D k).
  { intros k. rewrite <- Hdisk. unfold log_disk. destruct (log_view ts !! k); [apply Hsame|done]. }
  rewrite <- Hfirst in Hb, Hs, Hlog. rewrite <- Hsame in Hs.
  pose proof (start_outcome params N table' phys uuid su ts w Hne HN Hth Hphys Hrep Hdv Hsr Hgeo Hs) as Hout.
  rewrite Hptr in Hout. specialize (Hout ltac:(lia)).
  assert (Hlog' : log_on (w_dev w) (meta_first table' + 8) wp ts).
  { eapply log_on_frame; [exact Hlog|]. intros a _ _. apply Hsame. }
  assert (Hmap' : restorable N (data_allocator table') (log_view ts)).
  { destruct Hmap as [Hr Hl Hi]. constructor; [done| |done]. intros k p Hk.
    destruct (Hl k p Hk) as (i & s & ?). eauto. }
  assert (Hbf : blocks_full (w_dev w) (log_view ts)).
  { intros k p Hk. specialize (Hdisk' k). unfold log_disk in Hdisk'. rewrite Hk in Hdisk'.
    rewrite Hdisk'. apply Hfull. }
  specialize (Hout Hlog' Hmap' Hbf).
  destruct (lsm_engine_init params (8 * N) phys 8 uuid w) as [[l'|e] w']; destruct Hout as [Hs' Hr];
    (split; [done|]); [|done].
  eapply represents_ext; [exact Hr|done|exact Hdisk'].
Qed.


End RoundTrip.


End Lifecycle.

(** ** Concrete runs *)
Module LifecycleExamples.
Import EngineExamples.
#[local] Existing Instance eio_device | 0.
#[local] Existing Instance eio_device_laws | 0.
#[local] Existing Instance greedy_policy.

(** The table of a device's report. *)
Definition table_of (d : ram) : zns_zone_table :=
  let n := zlen (rd_zones d) in
  mk_zone_table (imap (fun k z => zone_of_report (Z.of_nat k) z) (fst (ram_report d 0 n))) n.

(** A blank device: three data zones of two blocks and a metadata zone of eight. *)
Definition blank_dev : ram :=
  mk_ram ∅ [mk_blk_zone 0 16 16 0 BLK_ZONE_TYPE_SEQWRITE_REQ BLK_ZONE_COND_EMPTY;
            mk_blk_zone 16 16 16 16 BLK_ZONE_TYPE_SEQWRITE_REQ BLK_ZONE_COND_EMPTY;
            mk_blk_zone 32 16 16 32 BLK_ZONE_TYPE_SEQWRITE_REQ BLK_ZONE_COND_EMPTY;
            mk_blk_zone 48 64 64 48 BLK_ZONE_TYPE_SEQWRITE_REQ BLK_ZONE_COND_EMPTY] [].
Definition blank_world : world := mk_world [] (blank_dev : bdev).

(** Every MemTable of two blocks is flushed. *)
Definition small_tables : lsm_params := mk_params 2 0 0 0.

Definition demo_start (w : world) : result zns_lsm * world :=
  lsm_engine_init small_tables (8 * 4) (8 * 14) 8 7 w.

Lemma demo_start_run w : demo_start w = lsm_engine_init small_tables (8 * 4) (8 * 14) 8 7 w.
Proof. done. Qed.

Definition demo_super : zns_super := device_super (table_of blank_dev) 7 (8 * 4).

Lemma blank_reports : reports blank_dev (table_of blank_dev).
Proof. by constructor. Qed.

Lemma blank_device_ok : device_ok (table_of blank_dev).
Proof. apply device_check. vm_compute. reflexivity. Qed.

Lemma fresh_start_formats_witness :
  match demo_start blank_world with
  | (Ok l, w') => represents 4 (w', l) (fun _ => zero_block) /\
      dev_block (w_dev w') 48 = zns_super_encode demo_super
  | (Err _, _) => False
  end.
Proof.
  assert (Hok : is_ok (fst (demo_start blank_world)) = true) by (vm_compute; reflexivity).
  pose proof (fresh_start_formats small_tables 4 (table_of blank_dev) (8 * 14) 7 blank_world
    eio_device_no_einval ltac:(lia) ltac:(done) eq_refl blank_reports blank_device_ok eq_refl) as Hout.
  unfold demo_start in *.
  destruct (lsm_engine_init small_tables (8 * 4) (8 * 14) 8 7 blank_world) as [[l|e] w'];
    [apply Hout|discriminate Hok].
Defined.

(** The target after its first start, after serving bios, and the device it leaves. *)
Definition demo_state : world * zns_lsm :=
  match demo_start blank_world with
  | (Ok l, w) => (w, l)
  | (Err _, w) => (w, demo_engine)
  end.
Definition served : list (result bio) * (world * zns_lsm) :=
  run_events small_tables DiskExamples.demo_events demo_state.
Definition left_world : world := snd (lsm_engine_exit (snd (snd served)) (fst (snd served))).
Definition left_table : zns_zone_table := table_of (w_dev left_world).

Lemma demo_state_represents :
  represents_with 4 (keeps_log (table_of blank_dev) demo_super) demo_state (fun _ => zero_block).
Proof.
  assert (Hok : is_ok (fst (demo_start blank_world)) = true) by (vm_compute; reflexivity).
  pose proof (fresh_start_outcome small_tables 4 (table_of blank_dev) (8 * 14) 7 blank_world
    eio_device_no_einval ltac:(lia) ltac:(done) eq_refl blank_reports blank_device_ok eq_refl) as Hout.
  unfold demo_state, demo_start in *.
  destruct (lsm_engine_init small_tables (8 * 4) (8 * 14) 8 7 blank_world) as [[l|e] w'];
    [apply Hout|discriminate Hok].
Qed.

Lemma demo_flushes_complete : flushes_complete small_tables DiskExamples.demo_events demo_state.
Proof. vm_compute. split; reflexivity. Qed.

Lemma served_represents :
  exists D, disk_run (fun _ => zero_block) DiskExamples.demo_events (fst served) D /\
    represents_with 4 (keeps_log (table_of blank_dev) demo_super) (snd served) D.
Proof.
  pose proof (service_keeps_log small_tables 4 (table_of blank_dev) demo_super
    DiskExamples.demo_events demo_state _ eio_device_no_enodata ltac:(lia) demo_state_represents
    DiskExamples.demo_events_valid demo_flushes_complete) as Hsv.
  unfold served. by destruct (run_events _ _ _) as [rs s].
Qed.

(** The shutdown of the demonstration wrote everything. *)
Lemma demo_written : m_meta_wp (l_meta (snd (snd (zns_lsm_flush_all_sync (snd served))))) =
  shutdown_end (snd (snd served)).
Proof. vm_compute. reflexivity. Qed.

Lemma left_world_flushed : left_world = fst (snd (zns_lsm_flush_all_sync (snd served))).
Proof. unfold left_world. rewrite engine_exit_world. by destruct served as [rs [w l]]. Qed.

Lemma left_device_ok : device_ok left_table.
Proof. apply device_check. vm_compute. reflexivity. Qed.

Lemma left_reports : reports (w_dev left_world) left_table.
Proof. constructor; vm_compute; reflexivity. Qed.

Lemma demo_left_by :
  left_by 4 (snd (snd served)) (table_of blank_dev) left_table demo_super (shutdown_end (snd (snd served))).
Proof.
  constructor; try (vm_compute; reflexivity).
  - split; vm_compute; repeat split; discriminate.
  - intros p i s. apply zones_cover_located. apply (bool_decide_eq_true_1 (zones_cover _ _)).
    vm_compute. reflexivity.
Qed.

Lemma left_stopped :
  exists D ts, disk_run (fun _ => zero_block) DiskExamples.demo_events (fst served) D /\
    stopped 4 (table_of blank_dev) demo_super (l_allocator (snd (snd served)))
      (w_dev left_world) 88 D ts.
Proof.
  destruct served_represents as (D & Hrun & Hrep). exists D. rewrite left_world_flushed.
  pose proof demo_written as Hw. 
  destruct (snd served) as [w l] eqn:Es.
  pose proof (shutdown_outcome 4 (table_of blank_dev) demo_super w l D
    eio_device_no_enodata ltac:(lia) Hrep) as Hout.
  destruct (zns_lsm_flush_all_sync (w, l)) as [r [w' l']].
  destruct Hout as (_ & _ & _ & Hts). cbn [fst snd] in *.
  destruct (Hts Hw) as [ts Hstop]. exists ts. split; [exact Hrun|].
  assert (H88 : shutdown_end l = 88).
  { replace l with (snd (snd served)) by (by rewrite Es). vm_compute. reflexivity. }
  rewrite H88 in Hstop. exact Hstop.
Qed.



Lemma start_restores_disk_witness :
  exists D, disk_run (fun _ => zero_block) DiskExamples.demo_events (fst served) D /\
    match demo_start left_world with
    | (Ok l3, w3) => exists D3, represents 4 (w3, l3) D3 /\ forall k, D3 k = D k
    | (Err _, _) => False
    end.
Proof.
  destruct left_stopped as (D & ts & Hrun & [Hb Hs Hlog Hmap Hfull Hdisk]).
  exists D. split; [exact Hrun|].
  assert (Hok : is_ok (fst (demo_start left_world)) = true) by (vm_compute; reflexivity).
  destruct demo_left_by as [_ _ [Hsr Hgeo] Hloc].
  assert (Hmap' : restorable 4 (data_allocator left_table) (log_view ts)).
  { destruct Hmap as [Hr Hl Hi]. constructor; [done| |done]. intros k p Hk.
    destruct (Hl k p Hk) as (i & s & Hloc'). eauto. }
  assert (Hbf : blocks_full (w_dev left_world) (log_view ts)).
  { intros k p Hk. specialize (Hdisk k). unfold log_disk in Hdisk. rewrite Hk in Hdisk.
    rewrite Hdisk. apply Hfull. }
  assert (Hp : meta_pointer left_table = 88) by (vm_compute; reflexivity).
  assert (Hf : meta_first left_table = meta_first (table_of blank_dev)) by (vm_compute; reflexivity).
  rewrite <- Hf in Hs, Hlog, Hb. rewrite <- Hp in Hlog, Hb.
  pose proof (start_restores_disk small_tables 4 left_table (8 * 14) 7 demo_super ts left_world
    eio_device_no_einval ltac:(lia) ltac:(done) eq_refl left_reports left_device_ok Hsr Hgeo Hs
    (proj1 Hb) Hlog Hmap' Hbf) as Hout.
  rewrite demo_start_run in Hok |- *.
  destruct (lsm_engine_init _ _ _ 8 7 left_world) as [[l3|e] w3]; [|discriminate Hok].
  exists (log_disk (w_dev left_world) (log_view ts)). split; [apply Hout|exact Hdisk].
Defined.

(** *** A flush that failed once

    Three blocks are written; the first flush of blocks 0 and 1 writes its header, then
    the device fails the payload write once.  The retry behind it succeeds. *)
Definition block_write (k : Z) (c : Byte.byte) : event :=
  EvBio (mk_bio (opf REQ_OP_WRITE) (8 * k) 4096 [pattern c]).
Definition torn_writes : list event :=
  [block_write 0 Byte.x41; block_write 1 Byte.x42; block_write 2 Byte.x43].

(** The next requests of the device fail as listed. *)
Definition inject (fs : list Z) (s : world * zns_lsm) : world * zns_lsm :=
  (mk_world (w_mem (fst s))
     (mk_ram (rd_blocks (w_dev (fst s))) (rd_zones (w_dev (fst s))) fs : bdev), snd s).

Definition torn_state : world * zns_lsm :=
  snd (zns_lsm_flush_worker (inject [0; - EIO] (snd (run_events small_tables torn_writes demo_state)))).
Definition retried_state : world * zns_lsm := snd (zns_lsm_flush_worker torn_state).
Definition torn_left : world := snd (lsm_engine_exit (snd retried_state) (fst retried_state)).


End LifecycleExamples.
