(* ===== verification/LsmService.v ===== *)
(** From power-on to service.  On a working machine a start succeeds, on an empty
    metadata zone as well as on a log left by an earlier run, and the engine it yields
    is one that [LsmProgress] shows to serve every request. *)
From S2P Require Import Prelude Kernel ZonedRam Zone Allocator GcPolicy XArray Bytes RbTree.
From S2P Require Import Memtable Sstable Super Lsm LsmIndex LsmFlush LsmView Bio LsmIo LsmRecovery.
From S2P Require Import LsmConcurrency LsmRefine Disk LsmServe LsmDisk LsmHealth LsmProgress LsmRestart.

(** ** The start leaves the data zones alone *)
Section Kept.
Context `{ZonedDeviceLaws} `{Crc32} `{XArrayLaws} `{RbTreeLaws}.
Context (C : Z) (a : zns_allocator) (t : attempts) (A : zns_allocator -> Prop).

(** The machine works, the device matches the zones of [a], nothing was attempted, and
    the allocator of the engine satisfies [A]. *)
Definition kept (s : world * zns_lsm) : Prop :=
  healthy (matching C a) (fst s) /\ l_attempts (snd s) = t /\ A (l_allocator (snd s)).

Lemma kept_world {B} (m : M world B) : preserves (healthy (matching C a)) m -> preserves kept (on_world m).
Proof. apply preserves_zoom; [by intros s []|by intros w s Hw []]. Qed.

Lemma kept_modify f :
  (forall l, l_allocator (f l) = l_allocator l /\ l_attempts (f l) = l_attempts l) -> preserves kept (lsm_modify f).
Proof.
  intros Hf. apply preserves_modify. intros s (Hs & Ht & Ha). destruct (Hf (snd s)) as [E1 E2].
  unfold kept. cbn [fst snd]. by rewrite E1, E2.
Qed.

Lemma kept_latest {B} (m : M (mem * xarray) B) :
  preserves (fun s => no_fail (fst s)) m -> preserves kept (on_latest m).
Proof.
  intros Hm. unfold on_latest. eapply preserves_zoom; [..|exact Hm].
  - by intros s [[Hn _] _].
  - intros [b x] s Hn ([_ Hd] & Ht & Ha). by split.
Qed.

Lemma kept_get {B} (f : zns_lsm -> B) : preserves kept (lsm_get f).
Proof. apply preserves_gets. Qed.

Lemma kept_read sector b : preserves (healthy (matching C a)) (zns_block_read sector b).
Proof. apply (block_read_healthy _ (tracked_quiet C a)). Qed.

#[local] Hint Resolve kept_world kept_latest kept_get kept_read : keeps.

Ltac kept := repeat (progress keeps || (apply kept_modify; intros ?; done)).

Lemma map_zones_kept spb zs : preserves no_fail (gc_map_zones spb zs).
Proof. induction zs as [|z zs IH]; cbn [gc_map_zones]; keeps. Qed.
#[local] Hint Resolve map_zones_kept : keeps.

Lemma gc_map_init_kept : preserves kept zns_lsm_gc_map_init.
Proof. unfold zns_lsm_gc_map_init. kept. Qed.

Lemma load_table_kept sector limit : preserves (healthy (matching C a)) (zns_sst_load sector limit).
Proof. unfold zns_sst_load. keeps. Qed.
#[local] Hint Resolve load_table_kept : keeps.

Lemma recover_kept : preserves kept zns_lsm_recover_sstables.
Proof.
  assert (Hloop : forall fuel cursor, preserves kept (recover_loop fuel cursor)).
  { induction fuel as [|fuel IH]; intros cursor; cbn [recover_loop]; unfold modify_meta; kept. }
  unfold zns_lsm_recover_sstables. kept.
Qed.

Lemma restore_entry_kept k p : preserves kept (zns_lsm_gc_restore_entry k p).
Proof. unfold zns_lsm_gc_restore_entry. kept. Qed.
#[local] Hint Resolve restore_entry_kept : keeps.

Lemma restore_entries_kept b js : preserves kept (restore_entries b js).
Proof. induction js as [|j js IH]; cbn [restore_entries]; keeps. Qed.
#[local] Hint Resolve restore_entries_kept : keeps.

Lemma rebuild_kept : preserves kept zns_lsm_gc_rebuild.
Proof.
  assert (Hpages : forall sst js crc b, preserves kept (rebuild_pages sst js crc b)).
  { intros sst js. induction js as [|j js IH]; intros crc b; cbn [rebuild_pages]; keeps. }
  assert (Htables : forall ssts b, preserves kept (rebuild_tables ssts b)).
  { intros ssts. induction ssts as [|sst ssts IH]; intros b; cbn [rebuild_tables]; keeps. }
  unfold zns_lsm_gc_rebuild. keeps.
Qed.

(** Opening the metadata zone writes the superblock, if anything. *)
Lemma open_kept table ls uuid :
  takes_writes (meta_first table) (meta_first table + 8) (matching C a) -> device_ok table ->
  preserves kept (zns_lsm_open_metadata table ls uuid).
Proof.
  intros HW Hdv. unfold zns_lsm_open_metadata. fold (meta_zone table). fold (meta_first table).
  unfold zns_super_read, zns_super_write, modify_meta. kept.
  - apply kept_world. keeps.
  - apply kept_world. keeps. eapply write_within; [exact HW|lia..].
Qed.

End Kept.

(** ** A start succeeds *)
Section Start.
Context `{ZonedDeviceLaws} `{Crc32} `{XArrayLaws} `{RbTreeLaws}.
Context (params : lsm_params) (N C : Z) (table : zns_zone_table).
Context (Hdv : device_ok table) (Hth : 0 < zns_lsm_memtable_threshold params).

(** A machine to start on: memory and device work, the data zones have [C] blocks each
    and are as the table says, one is empty, and without the reserve there is room for
    more than [N] blocks. *)
Record ready (w : world) : Prop := {
  rd_works : healthy dev_works w;
  rd_zones : tracked C (w_dev w) (data_allocator table);
  rd_nr : zt_nr_zones table <= 2147483649;
  rd_room : 0 <= N < (zt_nr_zones table - 2) * C;
  rd_empty : exists id, 0 <= id < zt_nr_zones table - 1 /\
    zns_zone_is_writable (a_zones (data_allocator table)).[id] = true /\
    z_write_pointer (a_zones (data_allocator table)).[id] = z_start_sector (a_zones (data_allocator table)).[id];
}.

Lemma ready_reserve w : ready w -> ~ no_empty_zone table.
Proof.
  intros [_ Hz _ Hroom (id & Hid & Hw & Hp)] Hno. destruct (Hno id Hid) as (e & He). revert He.
  unfold zns_allocator_set_reserve. cbn [a_mode a_nr_zones a_sectors_per_block data_allocator].
  rewrite bool_decide_eq_true_2, (proj2 (Z.leb_gt _ _)) by (done || lia). cbn [negb orb].
  rewrite Hw, Hp, Z.eqb_refl. pose proof (tracked_capacity C _ _ (Hz id Hid)).
  destruct (dv_nr _ Hdv) as [Hnr _]. assert (0 < C) by nia. rewrite (proj2 (Z.ltb_ge _ _)) by lia. done.
Qed.

(** The superblock is not in a data zone. *)
Lemma superblock_apart : takes_writes (meta_first table) (meta_first table + 8) (matching C (data_allocator table)).
Proof.
  intros fl s b Hlo Hhi d [Hd Ht]. split; [by apply zd_works|]. apply tracked_request; [done|done|].
  right. intros i Hi. cbn [rq_sector]. pose proof (alloc_wf_zone _ i (data_allocator_wf _ Hdv) Hi) as [_ Hcap _ _ _].
  cbn [a_nr_zones data_allocator] in Hi. destruct (dv_nr _ Hdv) as [Hnr _]. destruct (dv_meta _ Hdv) as ([Hm1 Hm2] & _).
  pose proof (dv_apart _ Hdv i (zt_nr_zones table - 1) ltac:(lia) ltac:(lia) ltac:(lia)) as Hap. cbv zeta in Hap.
  fold (meta_zone table) in Hap. fold (meta_first table) in Hap.
  assert (Hz : (a_zones (data_allocator table)).[i] = (zt_zones table).[i]) by (by apply data_allocator_zone).
  rewrite Hz in *. lia.
Qed.

(** The reserve a start selected. *)
Definition reserved (x : zns_allocator) : Prop :=
  exists id, 0 <= id < zt_nr_zones table - 1 /\ x = set_reserve_zone id (data_allocator table) /\
    zns_zone_is_writable (a_zones x).[id] = true /\
    z_write_pointer (a_zones x).[id] = z_start_sector (a_zones x).[id].

Lemma kept_serving w s :
  ready w -> kept C (data_allocator table) (mk_attempts 0 0 0 false) reserved s -> serving N C 0 s.
Proof.
  intros [_ _ Hnr Hroom _] ([Hm [Hd Ht]] & Hat & id & Hid & Heq & Hw & Hp).
  constructor; rewrite ?Hat, ?Heq; cbn [a_nr_zones set_reserve_zone data_allocator]; [done|done| |done|lia].
  rewrite Heq in Hw, Hp. constructor; cbn [a_reserve_zone set_reserve_zone a_nr_zones data_allocator] in *; [lia|..].
  - by apply writable_not_full.
  - rewrite Hp. lia.
Qed.

(** Whatever is in the log, a start that succeeds leads to an engine in order. *)
Lemma load_serving w s :
  ready w -> kept C (data_allocator table) (mk_attempts 0 0 0 false) (fun _ => True) s ->
  ends (lsm_load table 8 s) (fun _ s' => serving N C 0 s') (fun _ _ => True).
Proof.
  intros Hrd Hs. set (a := data_allocator table) in *. set (t := mk_attempts 0 0 0 false) in *.
  assert (Hmod : forall A f, (forall l, l_allocator (f l) = l_allocator l /\ l_attempts (f l) = l_attempts l) ->
    preserves (kept C a t A) (lsm_modify f)) by (intros; by apply kept_modify).
  unfold lsm_load. eapply ends_bind with (ok := fun x s => x = a /\ kept C a t (fun _ => True) s).
  { destruct s as [w0 l]. unfold on_world, zoom. cbn [fst snd].
    destruct (on_mem (zns_allocator_init_zoned _ _ 8) w0) as [r1 w1] eqn:E1.
    pose proof (init_zoned_outcome table w0 r1 w1 Hdv E1) as (_ & _ & He). destruct r1 as [x|e]; [|done].
    split; [done|]. destruct Hs as (Hh & Ha & _). split; [|done].
    assert (Hp : preserves (healthy (matching C a)) (on_mem (zns_allocator_init_zoned (zt_zones table)
      (u32 (zt_nr_zones table - 1)) 8))) by (apply on_mem_healthy; unfold zns_allocator_init_zoned; keeps).
    eapply (preserves_run _ _ _ _ _ Hp E1 Hh). }
  intros x s1 [-> Hs1]. eapply ends_bind with (ok := fun _ => kept C a t (fun x => x = a)).
  { destruct s1 as [w1 l1], Hs1 as (Hh & Ha & _). by split. }
  intros [] s2 Hs2. apply (ends_preserved _ _ _ _ _ (gc_map_init_kept C a t _) Hs2). clear s2 Hs2. intros [] s2 Hs2.
  apply (ends_preserved _ _ _ _ _ (recover_kept C a t _) Hs2). clear s2 Hs2. intros [] s2 Hs2.
  apply (ends_preserved _ _ _ _ _ (rebuild_kept C a t _) Hs2). clear s2 Hs2.
  intros [] [w5 l5] (Hh5 & Ht5 & Ha5). cbn [fst snd] in *.
  eapply ends_bind with (ok := fun _ => kept C a t reserved).
  { pose proof (select_reserve_outcome (reverse (seqZ 0 (a_nr_zones a))) w5 l5) as Hsel.
    destruct (select_reserve _ (w5, l5)) as [[[]|e] [w6 l6]]; [|done]. destruct Hsel as [-> (id & Hid & -> & Hw & Hp)].
    apply elem_of_reverse, elem_of_seqZ in Hid. rewrite Ha5 in Hw, Hp |- *. split; [done|]. split; [done|].
    exists id. split; [cbn in Hid; lia|done]. }
  intros [] s6 Hs6. match goal with |- ends (?m s6) _ _ => assert (Hp : preserves (kept C a t reserved) m) end.
  { unfold modify_tables. keeps; try by apply Hmod. all: apply kept_world; keeps. }
  specialize (Hp s6 Hs6). destruct ((active <- _ ;; _) s6) as [[[]|e] s7]; [|done]. by eapply kept_serving.
Qed.

Lemma start_serving phys uuid w :
  phys mod 8 = 0 -> reports (w_dev w) table -> ready w ->
  ends (lsm_engine_init params (8 * N) phys 8 uuid w) (fun l w' => serving N C 0 (w', l)) (fun _ _ => True).
Proof.
  intros Hphys Hrep Hrd. destruct (dv_nr _ Hdv) as [Hnr _].
  destruct (engine_init_steps params table N phys uuid w Hrep Hnr Hth Hphys)
    as [(e & w1 & Heq & _)|(w1 & Hd1 & _ & Hn1 & Heq)]; rewrite Heq; [done|].
  destruct (rd_works _ Hrd) as [Hm Hd]. pose proof (rd_zones _ Hrd) as Ht.
  set (I := kept C (data_allocator table) (mk_attempts 0 0 0 false) (fun _ => True)).
  assert (HI : I (w1, lsm_start params (8 * N) 8)).
  { split; [|done]. split; [by apply Hn1|]. cbn [fst]. rewrite Hd1. by split. }
  assert (Hend : ends (lsm_bring_up table (8 * N) 8 uuid (w1, lsm_start params (8 * N) 8))
    (fun _ s' => serving N C 0 s') (fun _ _ => True)).
  { apply (ends_preserved I); [|exact HI|intros [] s Hs; by eapply load_serving].
    apply open_kept; [apply superblock_apart|done]. }
  destruct (lsm_bring_up _ _ _ _ _) as [[[]|e] [w2 l2]]; [exact Hend|done].
Qed.

(** Nothing is in the way of the superblock of an empty metadata zone. *)
Lemma super_write_works su cap w :
  healthy dev_works w -> dev_zone (w_dev w) (meta_first table) = Some (cap, meta_first table) -> 8 <= cap ->
  exists w', zns_super_write (meta_first table) su w = (Ok tt, w').
Proof.
  intros Hw Hz Hcap. destruct (works_kmalloc w Hw) as (w1 & E1 & Hw1 & Hd1).
  destruct (works_kmalloc w1 Hw1) as (w2 & E2 & [Hm2 Hwk] & Hd2). rewrite <- Hd1, <- Hd2 in Hz.
  pose proof (zd_write 0 _ _ _ (zns_super_encode su) _ Hwk Hz ltac:(lia) ltac:(lia) (length_super_encode su)) as Hr.
  unfold zns_super_write, zns_block_write, zns_submit_block, bind. rewrite E1, E2. cbn.
  rewrite zd_pages by done. cbn. unfold on_dev, zoom, opf.
  destruct (submit_bio_wait _ (w_dev w2)) as [[x|e] d']; destruct Hr as [Hok _]; [|done]. by eexists.
Qed.

Lemma fresh_start_succeeds phys uuid cap w :
  no_einval -> N < 4294967296 -> phys mod 8 = 0 -> reports (w_dev w) table -> ready w ->
  meta_pointer table = meta_first table ->
  dev_zone (w_dev w) (meta_first table) = Some (cap, meta_first table) -> 8 <= cap ->
  is_ok (fst (lsm_engine_init params (8 * N) phys 8 uuid w)) = true.
Proof.
  intros Hne HN Hphys Hrep Hrd Hptr Hz Hcap. destruct (dv_nr _ Hdv) as [Hnr _]. pose proof (rd_room _ Hrd) as [HN0 _].
  pose proof (rd_works _ Hrd) as [Hm Hd].
  destruct (engine_init_steps params table N phys uuid w Hrep Hnr Hth Hphys)
    as [(e & w1 & _ & _ & Hf)|(w1 & Hd1 & _ & Hn1 & Heq)]; [by destruct (works_no_fault w e)|].
  rewrite Heq. assert (Hw1 : healthy dev_works w1) by (split; [by apply Hn1|by rewrite Hd1]).
  unfold lsm_bring_up, bind. rewrite <- Hd1 in Hz.
  destruct (super_write_works (device_super table uuid (8 * N)) cap w1 Hw1 Hz Hcap) as (w2 & E2).
  assert (Hk : kept C (data_allocator table) (mk_attempts 0 0 0 false) (fun _ => True) (w1, lsm_start params (8 * N) 8)).
  { split; [|done]. split; [apply Hw1|]. cbn [fst]. rewrite Hd1. split; [done|apply Hrd]. }
  apply (open_kept C _ _ _ table (8 * N) uuid superblock_apart Hdv) in Hk.
  pose proof (open_fresh table (8 * N) uuid w1 (lsm_start params (8 * N) 8) Hdv eq_refl Hptr) as Hop.
  rewrite open_metadata_geometry, Hptr, Z.eqb_refl in Hop, Hk |- * by done. cbn [negb] in Hop, Hk |- *.
  unfold bind, on_world, zoom in Hop, Hk |- *. cbn [fst snd] in Hop, Hk |- *. rewrite E2 in Hop, Hk |- *.
  cbn [fst snd modify_meta lsm_modify modify] in Hop, Hk |- *.
  destruct Hop as (_ & _ & ->). pose proof (fresh_load_outcome params N table uuid w2 Hne Hdv ltac:(lia) Hth) as Hl.
  cbv zeta in Hl. destruct (lsm_load table 8 (w2, _)) as [[[]|e] [w3 l3]]; [done|].
  destruct Hl as (_ & [Hf|[_ Hno]]); [|by destruct (ready_reserve w)].
  destruct Hk as ([Hm2 [Hd2 _]] & _). by destruct (works_no_fault w2 e).
Qed.

(** A first start. *)
Lemma fresh_start_serves phys uuid cap w :
  no_einval -> N < 4294967296 -> phys mod 8 = 0 -> reports (w_dev w) table -> ready w ->
  meta_pointer table = meta_first table ->
  dev_zone (w_dev w) (meta_first table) = Some (cap, meta_first table) -> 8 <= cap ->
  ends (lsm_engine_init params (8 * N) phys 8 uuid w)
    (fun l w' => represents_with N (keeps_log table (device_super table uuid (8 * N))) (w', l) (fun _ => zero_block) /\
       serving N C 0 (w', l)) (fun _ _ => False).
Proof.
  intros Hne HN Hphys Hrep Hrd Hptr Hz Hcap. pose proof (rd_room _ Hrd) as [HN0 _].
  pose proof (fresh_start_succeeds phys uuid cap w Hne HN Hphys Hrep Hrd Hptr Hz Hcap) as Hok.
  pose proof (fresh_start_outcome params N table phys uuid w Hne (conj HN0 HN) Hth Hphys Hrep Hdv Hptr) as Hr.
  pose proof (start_serving phys uuid w Hphys Hrep Hrd) as Hs.
  destruct (lsm_engine_init _ _ _ _ _ w) as [[l|e] w']; [|done]. by destruct Hr.
Qed.

(** A start on the log of an earlier run. *)
Lemma restart_serves phys uuid su ts w :
  no_einval -> N < 4294967296 -> phys mod 8 = 0 -> reports (w_dev w) table -> ready w ->
  super_in_range su -> same_geometry su (device_super table 0 (8 * N)) ->
  dev_block (w_dev w) (meta_first table) = zns_super_encode su ->
  meta_first table + 8 <= meta_pointer table ->
  log_on (w_dev w) (meta_first table + 8) (meta_pointer table) ts ->
  restorable N (data_allocator table) (log_view ts) -> blocks_full (w_dev w) (log_view ts) ->
  ends (lsm_engine_init params (8 * N) phys 8 uuid w)
    (fun l w' => represents_with N (keeps_log table su) (w', l) (log_disk (w_dev w) (log_view ts)) /\
       serving N C 0 (w', l)) (fun _ _ => False).
Proof.
  intros Hne HN Hphys Hrep Hrd Hsr Hgeo Hb Hptr Hlog Hrs Hfull. pose proof (rd_room _ Hrd) as [HN0 _].
  pose proof (start_outcome params N table phys uuid su ts w Hne (conj HN0 HN) Hth Hphys Hrep Hdv Hsr Hgeo Hb Hptr
    Hlog Hrs Hfull) as Hr.
  pose proof (start_serving phys uuid w Hphys Hrep Hrd) as Hs.
  destruct (lsm_engine_init _ _ _ _ _ w) as [[l|e] w']; destruct Hr as [_ Hr]; [by split|].
  destruct (rd_works _ Hrd) as [Hm Hd]. destruct Hr as [Hf|[_ Hno]]; [by destruct (works_no_fault w e)|].
  by destruct (ready_reserve w).
Qed.

End Start.
