(* ===== verification/LsmEngine.v ===== *)
(** The LSM engine as an instance of the engine interface: what the target sees of
    [src/engines/zns-engine-lsm.c].  The usable capacity, the bios it accepts and the
    status line. *)
From S2P Require Import Prelude Kernel ZonedRam Zone Allocator GcPolicy XArray Bytes Bio Engine.
From S2P Require Import RbTree Memtable Sstable Super Lsm LsmIndex LsmFlush LsmIo LsmRecovery LsmView.
From S2P Require Import LsmConcurrency LsmRefine Disk LsmServe LsmDisk LsmRestart LsmLifecycle.

Section LsmEngine.
Context `{BlockDevice} `{Crc32} `{XArray} `{RbTree} `{ZnsGcPolicy}.

(** A number in a status line. *)
Definition lsm_field (name : string) (value : Z) : string := " " +:+ name +:+ "=" +:+ pretty value.

Definition lsm_status_text (lsm : zns_lsm) : string :=
  let g := l_tables lsm in
  let m := l_meta lsm in
  "lsm" +:+
  lsm_field "active" (memtable_size (g_active_memtable g)) +:+
  lsm_field "immutable" (memtable_size (g_immutable_memtable g)) +:+
  lsm_field "flushing" (memtable_size (g_flushing_memtable g)) +:+
  lsm_field "sstables" (m_nr_sstables m) +:+
  lsm_field "sst_entries" (m_nr_sst_entries m) +:+
  lsm_field "meta_used" (u64 (m_meta_wp m - m_meta_start m)) +:+
  lsm_field "writes_stopped" (if t_writes_stopped (l_attempts lsm) then 1 else 0) +:+
  " gc_policy=" +:+ policy_name +:+
  lsm_field "reserve_zone" (a_reserve_zone (l_allocator lsm)) +:+
  lsm_field "valid_blocks" (gi_valid_blocks (l_gc lsm)) +:+
  lsm_field "gc_runs" (gi_runs (l_gc lsm)) +:+
  lsm_field "gc_moved" (gi_moved (l_gc lsm)) +:+
  lsm_field "zone_resets" (gi_resets (l_gc lsm)).

Definition lsm_engine_status (lsm : zns_lsm) (maxlen : Z) : string :=
  dmemit maxlen (lsm_status_text lsm) "".

Definition lsm_engine_name : string := "lsm".

(** [uuid] is what [get_random_u64] returns should the metadata zone be formatted. *)
Definition lsm_engine (params : lsm_params) (uuid : Z) : ZnsEngine := {|
  engine := zns_lsm;
  zns_engine_init := fun logical_sectors physical_sectors sectors_per_block =>
    lsm_engine_init params logical_sectors physical_sectors sectors_per_block uuid;
  zns_engine_exit := lsm_engine_exit;
  zns_engine_map := lsm_engine_map;
  zns_engine_status := lsm_engine_status;
  zns_engine_name := lsm_engine_name;
  zns_engine_capacity := lsm_engine_capacity;
|}.

#[export] Instance lsm_engine_laws params uuid : @ZnsEngineLaws _ (lsm_engine params uuid).
Proof.
  constructor.
  - intros w. cbn. unfold lsm_engine_capacity, bind, attempt.
    destruct (zns_zone_table_init w) as [[table|e] w']; [|by do 2 eexists].
    destruct (_ <=? _); [by do 2 eexists|]. destruct (foldl _ _ _). by do 2 eexists.
  - intros e maxlen Hm. by apply dmemit_fits.
Qed.

(** ** Accepting bios *)

(** A bio a target of [N] blocks serves: a flush, or whole sectors inside the target. *)
Definition bio_servable (N : Z) (b : bio) : bool :=
  match bio_op b with
  | REQ_OP_FLUSH => true
  | REQ_OP_READ | REQ_OP_WRITE =>
      (0 <? bi_size b) && (bi_size b mod 512 =? 0) && (bi_sector b + bio_sectors b <=? 8 * N)
  | REQ_OP_OTHER => false
  end.

Lemma sector_mask size : 0 <= size -> Z.land size (Z.shiftl 1 SECTOR_SHIFT - 1) = size mod 512.
Proof. intros. change (Z.shiftl 1 SECTOR_SHIFT - 1) with (Z.ones 9). by rewrite Z.land_ones. Qed.

Lemma bio_sectors_div b : 0 <= bi_size b -> bio_sectors b = bi_size b / 512.
Proof. intros. unfold bio_sectors. by rewrite Z.shiftr_div_pow2. Qed.

(** The guard of [zns_engine_map] is the range check, without the wrap-around. *)
Lemma range_guard N b :
  0 <= N < 1152921504606846976 -> 0 <= bi_sector b < 18446744073709551616 -> 0 <= bi_size b ->
  (bi_size b =? 0) || negb (bi_size b mod 512 =? 0) || (8 * N <=? bi_sector b) ||
    (u64 (8 * N - bi_sector b) <? bio_sectors b) =
  negb ((0 <? bi_size b) && (bi_size b mod 512 =? 0) && (bi_sector b + bio_sectors b <=? 8 * N)).
Proof.
  intros HN Hsec Hsize. pose proof (bio_sectors_div b Hsize) as Hbs.
  pose proof (Z.div_pos (bi_size b) 512 ltac:(lia) ltac:(lia)) as Hb0.
  destruct (Z.eqb_spec (bi_size b) 0), (Z.ltb_spec 0 (bi_size b)); try (exfalso; lia); try done. cbn [orb andb].
  destruct (Z.eqb_spec (bi_size b mod 512) 0) as [Hm|]; [|done]. cbn [orb andb negb].
  assert (0 < bio_sectors b).
  { rewrite Hbs. pose proof (Z_div_exact_full_2 (bi_size b) 512 ltac:(lia) Hm). lia. }
  destruct (Z.leb_spec (8 * N) (bi_sector b)); cbn [orb].
  - by rewrite (proj2 (Z.leb_gt _ _)) by lia.
  - rewrite u64_id by lia. destruct (Z.ltb_spec (8 * N - bi_sector b) (bio_sectors b)),
      (Z.leb_spec (bi_sector b + bio_sectors b) (8 * N)); try lia; done.
Qed.

Lemma queue_io_outcome b w l :
  let '(r, (w', l')) := (r <- zns_lsm_queue_io b ;;
    match r with None => ret DM_MAPIO_KILL | Some b => ret (DM_MAPIO_SUBMITTED b) end) (w, l) in
  w_dev w' = w_dev w /\ l' = l /\
  (r = Ok (DM_MAPIO_SUBMITTED b) \/ r = Ok DM_MAPIO_KILL /\ ~ no_fail (w_mem w)).
Proof.
  unfold zns_lsm_queue_io, attempt, on_world, on_mem, zoom, bind. cbn [fst snd].
  destruct (kmalloc_cases (w_mem w)) as [(a' & -> & _)|(a' & -> & Hn)]; cbn; auto.
Qed.

(** What the target answers, by whether the bio is servable. *)
Lemma engine_map_outcome N b w l :
  su_logical_sectors (m_super (l_meta l)) = 8 * N -> 0 <= N < 1152921504606846976 ->
  0 <= bi_sector b < 18446744073709551616 -> 0 <= bi_size b ->
  let '(r, (w', l')) := lsm_engine_map b (w, l) in
  w_dev w' = w_dev w /\ l' = l /\
  (r = Ok (DM_MAPIO_SUBMITTED b) /\ bio_servable N b = true \/
   r = Ok DM_MAPIO_KILL /\ (bio_servable N b = false \/ ~ no_fail (w_mem w))).
Proof.
  intros Hsu HN Hsec Hsize. unfold lsm_engine_map, bio_servable, bind at 1, lsm_get, gets. cbn [snd].
  rewrite Hsu, sector_mask by lia. pose proof (queue_io_outcome b w l) as Hq. cbv zeta.
  destruct (bio_op b).
  1,2: rewrite (range_guard N b HN Hsec Hsize); destruct (_ && _ && _); cbn [negb]; [|by cbn; auto 6].
  1-3: match type of Hq with (let '(_, _) := ?t in _) => destruct t as [r [w' l']] end;
    destruct Hq as (? & ? & [?|[? ?]]); auto 6.
  cbn. auto 6.
Qed.

(** A servable bio that describes its pages is one the I/O worker serves as a disk does. *)
Lemma servable_valid N b :
  0 <= bi_size b < 4294967296 -> bio_servable N b = true -> bio_wf b -> bio_valid N b.
Proof.
  intros Hsize Hs Hwf. constructor; [done|lia|]. intros Hop. unfold bio_servable in Hs.
  destruct Hop as [Hop|Hop]; rewrite Hop in Hs; guards; lia.
Qed.

(** C19.  The LSM target accepts exactly what it can serve.  A flush, and a read or write
    of whole sectors inside the logical device, is queued unless there is no memory for
    the work item; everything else, an empty bio and one past the end included, is
    refused; the engine is not touched either way.  A queued bio that describes its
    pages is one the I/O worker serves as a disk does. *)
Theorem lsm_map_accepts_servable N b w l :
  su_logical_sectors (m_super (l_meta l)) = 8 * N -> 0 <= N < 1152921504606846976 ->
  0 <= bi_sector b < 18446744073709551616 -> 0 <= bi_size b < 4294967296 ->
  let '(r, (w', l')) := lsm_engine_map b (w, l) in
  w_dev w' = w_dev w /\ l' = l /\
  (r = Ok (DM_MAPIO_SUBMITTED b) /\ bio_servable N b = true \/
   r = Ok DM_MAPIO_KILL /\ (bio_servable N b = false \/ ~ no_fail (w_mem w))) /\
  (bio_servable N b = true -> bio_wf b -> bio_valid N b).
Proof.
  intros Hsu HN Hsec Hsize. pose proof (engine_map_outcome N b w l Hsu HN Hsec ltac:(lia)) as Hout.
  destruct (lsm_engine_map b (w, l)) as [r [w' l']]. destruct Hout as (Hd & Hl & Hr).
  split; [done|]. split; [done|]. split; [done|]. by apply servable_valid.
Qed.

(** ** Capacity *)

(** The sectors of a zone that hold whole blocks, and of several zones. *)
Definition usable (z : zns_zone) : Z := z_capacity z - z_capacity z mod 8.
Definition total_usable (zs : list zns_zone) : Z := foldr (fun z n => usable z + n) 0 zs.
Definition data_zones (table : zns_zone_table) : list zns_zone :=
  take (Z.to_nat (zt_nr_zones table - 1)) (zt_zones table).

Lemma usable_bounds z : zone_u64 z -> 0 <= usable z < 18446744073709551616 /\ usable z mod 8 = 0.
Proof.
  intros (_ & _ & Hc & _). unfold usable, is_u64 in *.
  pose proof (Z.mod_pos_bound (z_capacity z) 8 ltac:(lia)).
  pose proof (Z.mod_le (z_capacity z) 8 ltac:(lia) ltac:(lia)). split; [lia|].
  by rewrite Zminus_mod, Zmod_mod, Z.sub_diag.
Qed.

Lemma total_usable_nonneg zs : Forall zone_u64 zs -> 0 <= total_usable zs.
Proof.
  induction 1 as [|z zs Hz _ IH]; [done|]. pose proof (usable_bounds z Hz).
  change (0 <= usable z + total_usable zs). lia.
Qed.

Lemma capacity_foldl zs n m :
  Forall zone_u64 zs -> 0 <= n -> 0 <= m <= n -> m mod 8 = 0 -> n mod 8 = 0 ->
  n + total_usable zs < 18446744073709551616 ->
  exists m', foldl capacity_step (n, m) zs = (n + total_usable zs, m') /\
    m <= m' <= n + total_usable zs /\ m' mod 8 = 0 /\ (n + total_usable zs) mod 8 = 0 /\
    Forall (fun z => usable z <= m') zs /\ (m' = m \/ exists z, z ∈ zs /\ m' = usable z).
Proof.
  revert n m. induction zs as [|z zs IH]; intros n m Hall Hn Hm Hm8 Hn8 Hfit.
  { exists m. cbn. rewrite Z.add_0_r. split_and!; auto; lia. }
  apply Forall_cons_1 in Hall as [Hz Hzs]. pose proof (usable_bounds z Hz) as [Hu Hu8].
  pose proof (total_usable_nonneg zs Hzs) as Htot.
  cbn [foldl total_usable foldr] in *. fold (total_usable zs) in *. unfold capacity_step at 2. cbn [fst snd].
  change ZNS_BASE_BLOCK_SECTORS with 8. fold (usable z). rewrite (u64_id (usable z)), u64_id by lia.
  destruct (IH (n + usable z) (Z.max m (usable z)) Hzs) as (m' & -> & Hm' & Hm8' & Htot8 & Hall' & Hwhich);
    [lia|lia| | |lia|].
  { destruct (Z.max_spec m (usable z)) as [[_ ->]|[_ ->]]; done. }
  { by rewrite Zplus_mod, Hn8, Hu8. }
  exists m'. rewrite Z.add_assoc. split; [done|]. split; [lia|]. split; [done|]. split; [done|].
  split; [constructor; [lia|done]|].
  destruct Hwhich as [->|(z' & Hin & ->)]; [|right; exists z'; split; [by right|done]].
  destruct (Z.max_spec m (usable z)) as [[_ ->]|[_ ->]]; [right; exists z; split; [by left|done]|by left].
Qed.


End LsmEngine.

(** ** Concrete runs *)
Module LsmEngineExamples.
Import EngineExamples LifecycleExamples.
#[local] Existing Instance eio_device | 0.
#[local] Existing Instance eio_device_laws | 0.
#[local] Existing Instance greedy_policy.

Lemma lsm_map_accepts_servable_witness :
  fst (lsm_engine_map DiskExamples.demo_write (demo_world [], demo_engine)) =
    Ok (DM_MAPIO_SUBMITTED DiskExamples.demo_write) /\ bio_valid 4 DiskExamples.demo_write.
Proof.
  pose proof (lsm_map_accepts_servable 4 DiskExamples.demo_write (demo_world []) demo_engine
    eq_refl ltac:(lia) ltac:(cbn; lia) ltac:(cbn; lia)) as Hmap.
  assert (Hok : fst (lsm_engine_map DiskExamples.demo_write (demo_world [], demo_engine)) =
    Ok (DM_MAPIO_SUBMITTED DiskExamples.demo_write)) by reflexivity.
  destruct (lsm_engine_map DiskExamples.demo_write (demo_world [], demo_engine)) as [r [w' l']].
  split; [exact Hok|]. destruct Hmap as (_ & _ & [[_ Hs]|[-> _]] & Hv); [|discriminate Hok].
  apply Hv; [exact Hs|by constructor].
Defined.


(** The status line of a fresh target, whole and cut off. *)
Lemma status_text :
  lsm_engine_status demo_engine 300 =
    "lsm active=0 immutable=0 flushing=0 sstables=0 sst_entries=0 meta_used=8 writes_stopped=0 gc_policy=greedy reserve_zone=2 valid_blocks=0 gc_runs=0 gc_moved=0 zone_resets=0" /\
  lsm_engine_status demo_engine 13 = "lsm active=0".
Proof. split; vm_compute; reflexivity. Qed.

End LsmEngineExamples.
