(* ===== verification/Append4k.v ===== *)
(** The append engine: [src/engines/zns-engine-append4k.c].  Every logical block has an
    entry in an array of sectors; a write takes the next sectors of the device. *)
From S2P Require Import Prelude Kernel Bio Engine.

(** [(sector_t)-1] *)
Definition ZNS_APPEND4K_UNMAPPED : Z := SECTOR_MAX.

Record zns_append4k : Type := mk_append4k {
  p_addr_mapping : list Z;
  p_next_append_sector : Z;
  p_nr_logical_blocks : Z;
  p_sectors_per_block : Z;
  p_nr_physical_sectors : Z;
}.

Definition zns_append4k_is_aligned_io (m : zns_append4k) (logical_sector sectors : Z) : bool :=
  (sectors =? p_sectors_per_block m) && (logical_sector mod p_sectors_per_block m =? 0).

Definition zns_append4k_read (logical_sector sectors : Z) : M zns_append4k Z := fun m =>
  if negb (zns_append4k_is_aligned_io m logical_sector sectors) then (Err (- EINVAL), m)
  else
    let logical_block := logical_sector / p_sectors_per_block m in
    if p_nr_logical_blocks m <=? logical_block then (Err (- EINVAL), m)
    else
      let physical_sector := (p_addr_mapping m).[logical_block] in
      if physical_sector =? ZNS_APPEND4K_UNMAPPED then (Err (- ENODATA), m)
      else (Ok physical_sector, m).

Definition zns_append4k_write (logical_sector sectors : Z) : M zns_append4k Z := fun m =>
  if negb (zns_append4k_is_aligned_io m logical_sector sectors) then (Err (- EINVAL), m)
  else
    let logical_block := logical_sector / p_sectors_per_block m in
    if p_nr_logical_blocks m <=? logical_block then (Err (- EINVAL), m)
    else if p_nr_physical_sectors m <? u64 (p_next_append_sector m + p_sectors_per_block m)
    then (Err (- ENOSPC), m)
    else
      let physical_sector := p_next_append_sector m in
      (Ok physical_sector,
       mk_append4k (p_addr_mapping m).[logical_block := physical_sector]
         (u64 (p_next_append_sector m + p_sectors_per_block m)) (p_nr_logical_blocks m)
         (p_sectors_per_block m) (p_nr_physical_sectors m)).

Section Engine.
Context `{BlockDevice}.

Definition append4k_init (logical_sectors physical_sectors sectors_per_block : Z)
    : M world zns_append4k := fun w =>
  if (sectors_per_block =? 0) || negb (logical_sectors mod sectors_per_block =? 0) ||
     negb (physical_sectors mod sectors_per_block =? 0)
  then (Err (- EINVAL), w)
  else
    (on_mem kmalloc ;;;
     on_mem kmalloc ;;;
     let nr_logical_blocks := logical_sectors / sectors_per_block in
     ret (mk_append4k (replicate (Z.to_nat nr_logical_blocks) ZNS_APPEND4K_UNMAPPED) 0
            nr_logical_blocks sectors_per_block physical_sectors)) w.

(** Only memory is released. *)
Definition append4k_exit (_ : zns_append4k) : M world unit := ret tt.

Definition on_append4k {A} (m : M zns_append4k A) : M (world * zns_append4k) A :=
  zoom snd (fun p s => (fst s, p)) m.

Definition append4k_map (b : bio) : M (world * zns_append4k) map_result :=
  match bio_op b with
  | REQ_OP_FLUSH => ret (DM_MAPIO_REMAPPED b)
  | REQ_OP_READ =>
      r <- attempt (on_append4k (zns_append4k_read (bi_sector b) (bio_sectors b))) ;;
      match r with
      | Err e =>
          if e =? - ENODATA then ret (DM_MAPIO_SUBMITTED (zero_fill_bio b))
          else ret DM_MAPIO_KILL
      | Ok physical_sector => ret (DM_MAPIO_REMAPPED (set_sector physical_sector b))
      end
  | REQ_OP_WRITE =>
      r <- attempt (on_append4k (zns_append4k_write (bi_sector b) (bio_sectors b))) ;;
      match r with
      | Err _ => ret DM_MAPIO_KILL
      | Ok physical_sector => ret (DM_MAPIO_REMAPPED (set_sector physical_sector b))
      end
  | REQ_OP_OTHER => ret DM_MAPIO_KILL
  end.

Definition append4k_name : string := "append4k".
Definition append4k_status (_ : zns_append4k) (maxlen : Z) : string := dmemit maxlen append4k_name "".
Definition append4k_capacity : M world Z := fun w => (Ok (bdev_nr_sectors (w_dev w)), w).

Definition append4k_engine : ZnsEngine := {|
  engine := zns_append4k;
  zns_engine_init := append4k_init;
  zns_engine_exit := append4k_exit;
  zns_engine_map := append4k_map;
  zns_engine_status := append4k_status;
  zns_engine_name := append4k_name;
  zns_engine_capacity := append4k_capacity;
|}.

End Engine.
