(* ===== verification/Append4kAlloc.v ===== *)
(** The append engine with its own allocator:
    [src/engines/zns-engine-append4k-alloc.c].  The mapping is that of [Append4k]; the
    sectors come from the linear mode of the physical allocator. *)
From S2P Require Import Prelude Kernel Allocator Bio Engine.

(** [(sector_t)-1] *)
Definition ZNS_APPEND4K_ALLOC_UNMAPPED : Z := SECTOR_MAX.

Record zns_append4k_alloc : Type := mk_append4k_alloc {
  q_addr_mapping : list Z;
  q_nr_logical_blocks : Z;
  q_sectors_per_block : Z;
  q_allocator : zns_allocator;
}.

Definition zns_append4k_alloc_is_aligned_io (m : zns_append4k_alloc) (logical_sector sectors : Z)
    : bool :=
  (sectors =? q_sectors_per_block m) && (logical_sector mod q_sectors_per_block m =? 0).

Definition zns_append4k_alloc_read (logical_sector sectors : Z) : M zns_append4k_alloc Z := fun m =>
  if negb (zns_append4k_alloc_is_aligned_io m logical_sector sectors) then (Err (- EINVAL), m)
  else
    let logical_block := logical_sector / q_sectors_per_block m in
    if q_nr_logical_blocks m <=? logical_block then (Err (- EINVAL), m)
    else
      let physical_sector := (q_addr_mapping m).[logical_block] in
      if physical_sector =? ZNS_APPEND4K_ALLOC_UNMAPPED then (Err (- ENODATA), m)
      else (Ok physical_sector, m).

Definition set_q_allocator (a : zns_allocator) (m : zns_append4k_alloc) : zns_append4k_alloc :=
  mk_append4k_alloc (q_addr_mapping m) (q_nr_logical_blocks m) (q_sectors_per_block m) a.
Definition put_addr (logical_block physical_sector : Z) (m : zns_append4k_alloc)
    : zns_append4k_alloc :=
  mk_append4k_alloc (q_addr_mapping m).[logical_block := physical_sector]
    (q_nr_logical_blocks m) (q_sectors_per_block m) (q_allocator m).

Definition zns_append4k_alloc_write (logical_sector sectors : Z) : M zns_append4k_alloc Z :=
  m <- get ;;
  if negb (zns_append4k_alloc_is_aligned_io m logical_sector sectors) then Prelude.fail (- EINVAL)
  else
    let logical_block := logical_sector / q_sectors_per_block m in
    if q_nr_logical_blocks m <=? logical_block then Prelude.fail (- EINVAL)
    else
      physical_sector <- zoom q_allocator set_q_allocator zns_allocator_alloc ;;
      modify (put_addr logical_block physical_sector) ;;;
      ret physical_sector.

Section Engine.
Context `{BlockDevice}.

Definition append4k_alloc_init (logical_sectors physical_sectors sectors_per_block : Z)
    : M world zns_append4k_alloc := fun w =>
  if (sectors_per_block =? 0) || negb (logical_sectors mod sectors_per_block =? 0) ||
     negb (physical_sectors mod sectors_per_block =? 0)
  then (Err (- EINVAL), w)
  else
    (on_mem kmalloc ;;;
     on_mem kmalloc ;;;
     let nr_logical_blocks := logical_sectors / sectors_per_block in
     allocator <- lift (zns_allocator_init physical_sectors sectors_per_block) ;;
     ret (mk_append4k_alloc
            (replicate (Z.to_nat nr_logical_blocks) ZNS_APPEND4K_ALLOC_UNMAPPED)
            nr_logical_blocks sectors_per_block allocator)) w.

(** Only memory is released. *)
Definition append4k_alloc_exit (_ : zns_append4k_alloc) : M world unit := ret tt.

Definition on_append4k_alloc {A} (m : M zns_append4k_alloc A) : M (world * zns_append4k_alloc) A :=
  zoom snd (fun p s => (fst s, p)) m.

Definition append4k_alloc_map (b : bio) : M (world * zns_append4k_alloc) map_result :=
  match bio_op b with
  | REQ_OP_FLUSH => ret (DM_MAPIO_REMAPPED b)
  | REQ_OP_READ =>
      r <- attempt (on_append4k_alloc (zns_append4k_alloc_read (bi_sector b) (bio_sectors b))) ;;
      match r with
      | Err e =>
          if e =? - ENODATA then ret (DM_MAPIO_SUBMITTED (zero_fill_bio b))
          else ret DM_MAPIO_KILL
      | Ok physical_sector => ret (DM_MAPIO_REMAPPED (set_sector physical_sector b))
      end
  | REQ_OP_WRITE =>
      r <- attempt (on_append4k_alloc (zns_append4k_alloc_write (bi_sector b) (bio_sectors b))) ;;
      match r with
      | Err _ => ret DM_MAPIO_KILL
      | Ok physical_sector => ret (DM_MAPIO_REMAPPED (set_sector physical_sector b))
      end
  | REQ_OP_OTHER => ret DM_MAPIO_KILL
  end.

Definition append4k_alloc_name : string := "append4k-alloc".
Definition append4k_alloc_status (_ : zns_append4k_alloc) (maxlen : Z) : string :=
  dmemit maxlen append4k_alloc_name "".
Definition append4k_alloc_capacity : M world Z := fun w => (Ok (bdev_nr_sectors (w_dev w)), w).

Definition append4k_alloc_engine : ZnsEngine := {|
  engine := zns_append4k_alloc;
  zns_engine_init := append4k_alloc_init;
  zns_engine_exit := append4k_alloc_exit;
  zns_engine_map := append4k_alloc_map;
  zns_engine_status := append4k_alloc_status;
  zns_engine_name := append4k_alloc_name;
  zns_engine_capacity := append4k_alloc_capacity;
|}.

End Engine.
