(* ===== verification/AppendRefine.v ===== *)
(** The append engines: what they store, and that they are interchangeable.  The
    specification is an append disk, whose writes use up space, whose blocks may be
    lost by a failed write, and which serves nothing but whole aligned blocks. *)
From S2P Require Import Prelude Kernel ZonedRam Allocator Bio Engine Append4k Append4kAlloc.

(** ** The specification *)

(** The blocks ([None]: whatever the device holds) and the number of writes served. *)
Record append_disk : Type := mk_append_disk { ad_block : Z -> option block; ad_used : Z }.

(** The logical block of a bio of one whole block below [N]. *)
Definition block_of (N : Z) (b : bio) : option Z :=
  if (bio_sectors b =? 8) && (bi_sector b mod 8 =? 0) && (bi_sector b / 8 <? N)
  then Some (bi_sector b / 8) else None.

(** The disk after another write, of block [k]. *)
Definition ad_write (k : Z) (o : option block) (D : append_disk) : append_disk :=
  mk_append_disk (fun j => if bool_decide (j = k) then o else ad_block D j) (ad_used D + 1).

(** Serving one bio, on a device with room for [P] sectors. *)
Inductive append_step `{BlockDevice} (N P : Z) (D : append_disk) (b : bio)
    : result bio -> append_disk -> Prop :=
| ap_read k b' :
    bio_op b = REQ_OP_READ -> block_of N b = Some k ->
    (forall data, ad_block D k = Some data ->
       length <$> bi_vecs b' = length <$> bi_vecs b /\ gather (bi_vecs b') = data) ->
    append_step N P D b (Ok b') D
| ap_read_failed k e :
    bio_op b = REQ_OP_READ -> block_of N b = Some k -> dev_error e -> append_step N P D b (Err e) D
| ap_write k b' :
    bio_op b = REQ_OP_WRITE -> block_of N b = Some k -> 8 * (ad_used D + 1) <= P ->
    append_step N P D b (Ok b') (ad_write k (Some (gather (bi_vecs b))) D)
| ap_write_failed k e :
    bio_op b = REQ_OP_WRITE -> block_of N b = Some k -> 8 * (ad_used D + 1) <= P -> dev_error e ->
    append_step N P D b (Err e) (ad_write k None D)
| ap_full k :
    bio_op b = REQ_OP_WRITE -> block_of N b = Some k -> P < 8 * (ad_used D + 1) ->
    append_step N P D b (Err (- EIO)) D
| ap_outside :
    bio_op b = REQ_OP_READ \/ bio_op b = REQ_OP_WRITE -> block_of N b = None ->
    append_step N P D b (Err (- EIO)) D
| ap_flush r : bio_op b = REQ_OP_FLUSH -> append_step N P D b r D
| ap_other : bio_op b = REQ_OP_OTHER -> append_step N P D b (Err (- EIO)) D.

Inductive append_run `{BlockDevice} (N P : Z)
    : append_disk -> list bio -> list (result bio) -> append_disk -> Prop :=
| ar_nil D : append_run N P D [] [] D
| ar_cons D D1 D2 b r bs rs :
    append_step N P D b r D1 -> append_run N P D1 bs rs D2 ->
    append_run N P D (b :: bs) (r :: rs) D2.

(** ** Serving bios through an engine that remaps *)
Section Serve.
Context `{ZnsEngine}.

(** What becomes of a bio after the answer to [map]: it goes on to the lower device, it
    is complete, or it fails. *)
Definition finish_bio (a : map_result) (b : bio) : M world bio :=
  match a with
  | DM_MAPIO_REMAPPED b' => b' <- submit_bio b' ;; ret (set_vecs (bi_vecs b') b)
  | DM_MAPIO_SUBMITTED b' => ret b'
  | DM_MAPIO_KILL => Prelude.fail (- EIO)
  end.

Definition serve_bio (b : bio) : M (world * engine) bio :=
  a <- zns_engine_map b ;;
  zoom fst (fun w s => (w, snd s)) (finish_bio a b).

Fixpoint serve_bios (bs : list bio) (s : world * engine) : list (result bio) * (world * engine) :=
  match bs with
  | [] => ([], s)
  | b :: bs' =>
      let '(r, s1) := serve_bio b s in
      let '(rs, s2) := serve_bios bs' s1 in (r :: rs, s2)
  end.

End Serve.

#[export] Instance append4k_engine_laws `{BlockDevice} : @ZnsEngineLaws _ append4k_engine.
Proof.
  constructor; [by do 2 eexists|]. intros e maxlen Hm. by apply dmemit_fits.
Qed.

#[export] Instance append4k_alloc_engine_laws `{BlockDevice} : @ZnsEngineLaws _ append4k_alloc_engine.
Proof.
  constructor; [by do 2 eexists|]. intros e maxlen Hm. by apply dmemit_fits.
Qed.

(** ** The append engine stores an append disk *)
Section Append.
Context `{BlockDeviceLaws}.
#[local] Existing Instance append4k_engine.

(** [N] logical blocks on [P] sectors. *)
Record append_wf (N P : Z) (m : zns_append4k) : Prop := {
  aw_nr : p_nr_logical_blocks m = N;
  aw_len : zlen (p_addr_mapping m) = N;
  aw_spb : p_sectors_per_block m = 8;
  aw_physical : p_nr_physical_sectors m = P;
  aw_limit : P < 18446744073709551608;
  aw_next : 0 <= p_next_append_sector m <= P;
  aw_mapped : forall k p, 0 <= k < N -> (p_addr_mapping m).[k] = p -> p <> SECTOR_MAX ->
    exists i, p = 8 * i /\ 0 <= i /\ p + 8 <= p_next_append_sector m;
  aw_distinct : forall j k, 0 <= j < N -> 0 <= k < N -> j <> k ->
    (p_addr_mapping m).[j] <> SECTOR_MAX -> (p_addr_mapping m).[j] <> (p_addr_mapping m).[k];
}.

(** The blocks on the device. *)
Record append_holds (N P : Z) (s : world * zns_append4k) (D : append_disk) : Prop := {
  ah_wf : append_wf N P (snd s);
  ah_used : p_next_append_sector (snd s) = 8 * ad_used D;
  ah_block : forall k data, 0 <= k < N -> ad_block D k = Some data ->
    zlen data = 4096 /\
    if (p_addr_mapping (snd s)).[k] =? SECTOR_MAX then data = zero_block
    else dev_block (w_dev (fst s)) (p_addr_mapping (snd s)).[k] = data;
  ah_known : forall k, 0 <= k < N -> (p_addr_mapping (snd s)).[k] = SECTOR_MAX ->
    ad_block D k = Some zero_block;
}.

Lemma aligned_block N P m b :
  append_wf N P m ->
  zns_append4k_is_aligned_io m (bi_sector b) (bio_sectors b) &&
    negb (p_nr_logical_blocks m <=? bi_sector b / p_sectors_per_block m) =
  match block_of N b with Some _ => true | None => false end.
Proof.
  intros [Hnr _ Hspb _ _ _ _ _]. unfold zns_append4k_is_aligned_io, block_of.
  rewrite Hspb, Hnr, Z.leb_antisym, negb_involutive. by destruct (_ && _ && _).
Qed.

Lemma submit_outcome b w r w' :
  submit_bio b w = (r, w') ->
  match r with
  | Ok b' => exists data d', submit_bio_wait (mk_request (bi_opf b) (bi_sector b) (gather (bi_vecs b)))
      (w_dev w) = (Ok data, d') /\ w' = set_dev d' w /\ b' = set_vecs (scatter data (bi_vecs b)) b
  | Err e => exists d', submit_bio_wait (mk_request (bi_opf b) (bi_sector b) (gather (bi_vecs b)))
      (w_dev w) = (Err e, d') /\ w' = set_dev d' w
  end.
Proof.
  unfold submit_bio, bind, on_dev, zoom. destruct (submit_bio_wait _ (w_dev w)) as [[data|e] d'] eqn:E.
  - intros [= <- <-]. by exists data, d'.
  - intros [= <- <-]. by exists d'.
Qed.

Lemma submit_error b w e w' : submit_bio b w = (Err e, w') -> dev_error e.
Proof. intros (d' & Hs & _)%submit_outcome. by do 3 eexists. Qed.

(** Reads and flushes leave the blocks where they are. *)
Lemma submit_frame b w r w' :
  bio_op b = REQ_OP_READ \/ bio_op b = REQ_OP_FLUSH -> submit_bio b w = (r, w') ->
  same_blocks (w_dev w) (w_dev w').
Proof.
  intros Hop Hs. apply submit_outcome in Hs.
  assert (Hd : exists r' d', submit_bio_wait (mk_request (bi_opf b) (bi_sector b) (gather (bi_vecs b)))
    (w_dev w) = (r', d') /\ w' = set_dev d' w).
  { destruct r; [destruct Hs as (x & d' & H1 & H2 & _)|destruct Hs as (d' & H1 & H2)]; eauto. }
  destruct Hd as (r' & d' & Hsub & ->). intros a. cbn. unfold bio_op in Hop.
  destruct (bi_opf b) as [op fl]. cbn in Hop.
  destruct Hop as [-> | ->]; [by eapply dev_read_frame|by eapply dev_flush_frame].
Qed.

Lemma holds_same_blocks N P w w' m D :
  same_blocks (w_dev w) (w_dev w') -> append_holds N P (w, m) D -> append_holds N P (w', m) D.
Proof.
  intros Hs [Hwf Hu Hb Hk]. constructor; cbn [fst snd] in *; try done. intros k data Hk' Hd.
  destruct (Hb k data Hk' Hd) as [Hl Hc]. split; [done|].
  destruct (_ =? _); [done|by rewrite Hs].
Qed.

Lemma block_of_some N b k :
  bio_wf b -> block_of N b = Some k ->
  bio_sectors b = 8 /\ bi_sector b = 8 * k /\ 0 <= k < N /\ zlen (gather (bi_vecs b)) = 4096.
Proof.
  intros [Hsz Hsc Hst] Hb. unfold block_of in Hb.
  destruct (_ && _ && _) eqn:E; [|done]. injection Hb as <-. guards.
  pose proof (Z.div_pos (bi_sector b) 8 Hst ltac:(lia)).
  split; [done|]. split; [apply Z_div_exact_full_2; [lia|done]|]. lia.
Qed.

(** The two engine functions, on a bio of block [k] and on any other. *)
Lemma append_read_run N P m b :
  append_wf N P m ->
  zns_append4k_read (bi_sector b) (bio_sectors b) m =
    (match block_of N b with
     | Some k => if (p_addr_mapping m).[k] =? SECTOR_MAX then Err (- ENODATA)
                 else Ok (p_addr_mapping m).[k]
     | None => Err (- EINVAL)
     end, m).
Proof.
  intros Hwf. pose proof (aligned_block N P m b Hwf) as Ha. unfold zns_append4k_read.
  destruct (zns_append4k_is_aligned_io _ _ _); cbn [negb andb] in *.
  - rewrite (aw_spb _ _ _ Hwf) in Ha |- *. destruct (_ <=? _); cbn [negb] in Ha.
    + by destruct (block_of N b).
    + unfold block_of in *. destruct (_ && _ && _); [|done]. unfold ZNS_APPEND4K_UNMAPPED.
      by destruct (_ =? SECTOR_MAX).
  - by destruct (block_of N b).
Qed.

Definition append_put (k : Z) (m : zns_append4k) : zns_append4k :=
  mk_append4k (p_addr_mapping m).[k := p_next_append_sector m] (p_next_append_sector m + 8)
    (p_nr_logical_blocks m) (p_sectors_per_block m) (p_nr_physical_sectors m).

Lemma append_write_run N P m b :
  append_wf N P m ->
  zns_append4k_write (bi_sector b) (bio_sectors b) m =
    match block_of N b with
    | Some k => if P <? p_next_append_sector m + 8 then (Err (- ENOSPC), m)
                else (Ok (p_next_append_sector m), append_put k m)
    | None => (Err (- EINVAL), m)
    end.
Proof.
  intros Hwf. pose proof (aligned_block N P m b Hwf) as Ha. unfold zns_append4k_write, append_put.
  pose proof (aw_next _ _ _ Hwf). pose proof (aw_limit _ _ _ Hwf).
  destruct (zns_append4k_is_aligned_io _ _ _); cbn [negb andb] in *.
  - rewrite (aw_spb _ _ _ Hwf), (aw_physical _ _ _ Hwf) in *. destruct (_ <=? _); cbn [negb] in Ha.
    + by destruct (block_of N b).
    + unfold block_of in *. destruct (_ && _ && _); [|done]. by rewrite u64_id by lia.
  - by destruct (block_of N b).
Qed.

(** Taking the next sectors for block [k]. *)
Lemma append_put_wf N P m k i :
  append_wf N P m -> 0 <= k < N -> p_next_append_sector m = 8 * i ->
  p_next_append_sector m + 8 <= P -> append_wf N P (append_put k m).
Proof.
  intros [Hnr Hlen Hspb Hp Hlim Hn Hm Hd] Hk Hi Hroom. constructor; cbn; try done.
  - by rewrite zlen_update.
  - lia.
  - intros j p Hj. rewrite zupdate_lookup by lia. case_bool_decide; intros <- Hne.
    + exists i. lia.
    + destruct (Hm j _ Hj eq_refl Hne) as (i' & ? & ? & ?). exists i'. lia.
  - intros j j' Hj Hj' Hne. rewrite !zupdate_lookup by lia.
    destruct (bool_decide_reflect (k = j)), (bool_decide_reflect (k = j')); try congruence.
    + intros _ Heq. destruct (Hm j' _ Hj' eq_refl ltac:(unfold SECTOR_MAX; lia)) as (? & ? & ? & ?). lia.
    + intros Hx Heq. destruct (Hm j _ Hj eq_refl Hx) as (? & ? & ? & ?). lia.
    + by apply Hd.
Qed.

(** The disk once the device has answered a write of [data] to block [k]: the new
    block is [data] if the write succeeded, all others are where they were. *)
Lemma append_put_holds N P w m D k data d' ok :
  append_holds N P (w, m) D -> 0 <= k < N -> p_next_append_sector m + 8 <= P -> zlen data = 4096 ->
  (forall a, a + 8 <= p_next_append_sector m \/ p_next_append_sector m + 8 <= a ->
     dev_block d' a = dev_block (w_dev w) a) ->
  (ok = true -> dev_block d' (p_next_append_sector m) = data) ->
  append_holds N P (set_dev d' w, append_put k m)
    (ad_write k (if (ok : bool) then Some data else None) D).
Proof.
  intros [Hwf Hu Hb Hkn] Hk Hroom Hl Hframe Hok. cbn [fst snd] in *.
  pose proof (append_put_wf N P m k _ Hwf Hk Hu Hroom) as Hwf'.
  destruct Hwf as [Hnr Hlen Hspb Hp Hlim Hn Hm Hd].
  constructor; cbn [fst snd append_put p_addr_mapping p_next_append_sector ad_write ad_used ad_block]; [done|lia| |].
  - intros j x Hj. rewrite zupdate_lookup by lia.
    destruct (bool_decide_reflect (j = k)) as [->|Hjk].
    + rewrite bool_decide_eq_true_2 by done. destruct ok; [|done]. intros [= <-]. split; [done|].
      rewrite (proj2 (Z.eqb_neq _ _)) by (unfold SECTOR_MAX; lia). by apply Hok.
    + rewrite bool_decide_eq_false_2 by congruence. intros Hx. destruct (Hb j x Hj Hx) as [Hxl Hc].
      split; [done|]. destruct (Z.eqb_spec (p_addr_mapping m).[j] SECTOR_MAX) as [|Hne]; [done|].
      rewrite <- Hc. apply Hframe. destruct (Hm j _ Hj eq_refl Hne) as (? & ? & ? & ?). by left.
  - intros j Hj. rewrite zupdate_lookup by lia.
    destruct (bool_decide_reflect (j = k)) as [->|Hjk].
    + rewrite bool_decide_eq_true_2 by done. unfold SECTOR_MAX. lia.
    + rewrite bool_decide_eq_false_2 by congruence. by apply Hkn.
Qed.

Lemma serve_read N P s D b :
  append_holds N P s D -> bio_wf b -> bio_op b = REQ_OP_READ ->
  let '(r, s') := serve_bio b s in append_holds N P s' D /\ append_step N P D b r D.
Proof.
  destruct s as [w m]. intros Hh Hb Hop. pose proof (ah_wf _ _ _ _ Hh) as Hwf. cbn [snd] in Hwf.
  unfold serve_bio. cbn [zns_engine_map append4k_engine]. unfold append4k_map. rewrite Hop.
  unfold bind at 1 2, attempt, on_append4k, zoom. cbn [fst snd].
  rewrite (append_read_run N P m b Hwf).
  destruct (block_of N b) as [k|] eqn:Hbk; cbn; [|split; [done|apply ap_outside; auto]].
  destruct (block_of_some N b k Hb Hbk) as (Hsc & Hsec & Hk & Hgl).
  destruct (Z.eqb_spec (p_addr_mapping m).[k] SECTOR_MAX) as [Hun|Hmap]; cbn.
  { split; [done|]. apply (ap_read _ _ _ _ k); [done|done|].
    intros data Hd. rewrite (ah_known _ _ _ _ Hh k Hk Hun) in Hd. injection Hd as <-. split.
    - cbn. rewrite <- list_fmap_compose. apply list_fmap_ext. intros ? v _. apply length_replicate.
    - cbn. rewrite zero_fill_gather, zero_block_bytes. f_equal. unfold zlen in Hgl. lia. }
  unfold bind. destruct (submit_bio (set_sector _ b) w) as [r w'] eqn:E.
  assert (Hs : same_blocks (w_dev w) (w_dev w')) by exact (submit_frame (set_sector (p_addr_mapping m).[k] b) w r w' (or_introl Hop) E).
  pose proof (holds_same_blocks N P w w' m D Hs Hh) as Hh'.
  destruct r as [b'|e]; cbn.
  2:{ split; [done|]. apply (ap_read_failed _ _ _ _ k); [done|done|by eapply submit_error]. }
  split; [done|]. apply (ap_read _ _ _ _ k); [done|done|].
  apply submit_outcome in E as (data & d' & Hsub & -> & ->); cbn.
  intros blk Hd. destruct (ah_block _ _ _ _ Hh k blk Hk Hd) as [Hl Hc]. cbn [fst snd] in Hc.
  rewrite (proj2 (Z.eqb_neq _ _) Hmap) in Hc.
  unfold bio_op in Hop. cbn in Hsub. destruct (bi_opf b) as [op fl]. cbn in Hop. subst op.
  apply dev_read_ok in Hsub. subst data. rewrite Hc. unfold zlen in *.
  split; [apply scatter_lengths; lia|apply gather_scatter; lia].
Qed.

Lemma serve_write N P s D b :
  append_holds N P s D -> bio_wf b -> bio_op b = REQ_OP_WRITE ->
  let '(r, s') := serve_bio b s in exists D', append_holds N P s' D' /\ append_step N P D b r D'.
Proof.
  destruct s as [w m]. intros Hh Hb Hop. pose proof (ah_wf _ _ _ _ Hh) as Hwf. cbn [snd] in Hwf.
  unfold serve_bio. cbn [zns_engine_map append4k_engine]. unfold append4k_map. rewrite Hop.
  unfold bind at 1 2, attempt, on_append4k, zoom. cbn [fst snd].
  rewrite (append_write_run N P m b Hwf).
  destruct (block_of N b) as [k|] eqn:Hbk; cbn; [|exists D; split; [done|apply ap_outside; auto]].
  destruct (block_of_some N b k Hb Hbk) as (Hsc & Hsec & Hk & Hgl).
  pose proof (ah_used _ _ _ _ Hh) as Hu. cbn [snd] in Hu.
  destruct (Z.ltb_spec P (p_next_append_sector m + 8)) as [Hfull|Hroom]; cbn.
  { exists D. split; [done|]. apply (ap_full _ _ _ _ k); [done|done|lia]. }
  unfold bind. destruct (submit_bio (set_sector _ b) w) as [r w'] eqn:E.
  assert (Hframe : exists r' d', submit_bio_wait (mk_request (bi_opf b) (p_next_append_sector m)
    (gather (bi_vecs b))) (w_dev w) = (r', d') /\ w' = set_dev d' w /\ is_ok r' = is_ok r).
  { apply submit_outcome in E. destruct r as [b'|e].
    - destruct E as (data & d' & ? & ? & _). by exists (Ok data), d'.
    - destruct E as (d' & ? & ?). by exists (Err e), d'. }
  destruct Hframe as (r' & d' & Hsub & -> & Hr').
  unfold bio_op in Hop. destruct (bi_opf b) as [op fl] eqn:Hopf. cbn in Hop. subst op.
  pose proof (append_put_holds N P w m D k (gather (bi_vecs b)) d' (is_ok r) Hh Hk Hroom Hgl) as Hput.
  assert (Hop' : bio_op b = REQ_OP_WRITE) by (unfold bio_op; by rewrite Hopf).
  destruct r as [b'|e]; cbn [is_ok] in *; cbn; eexists; (split; [apply Hput|]).
  - intros a Ha. eapply dev_write_frame; [exact Hsub|lia].
  - intros _. destruct r' as [x|]; [|done]. by eapply dev_write_ok.
  - apply ap_write; [done|done|lia].
  - intros a Ha. eapply dev_write_frame; [exact Hsub|lia].
  - done.
  - apply ap_write_failed; [done|done|lia|by eapply submit_error].
Qed.

(** C17.  The append engine stores an append disk.  Serving any bios through it, a read
    of a whole aligned block returns what was last written to it, zeros if nothing
    was; a write is stored in sectors of its own as long as the device has room for
    another block, and fails without effect afterwards; a write the device fails loses
    the old contents of its block; everything that is not one aligned block inside the
    target fails without effect. *)
Theorem append4k_refines_append_disk N P bs s D :
  append_holds N P s D -> Forall bio_wf bs ->
  let '(rs, s') := serve_bios bs s in exists D', append_run N P D bs rs D' /\ append_holds N P s' D'.
Proof.
  revert s D. induction bs as [|b bs IH]; intros s D Hh Hb; cbn [serve_bios].
  { exists D. split; [constructor|done]. }
  apply Forall_cons_1 in Hb as [Hb Hbs].
  assert (Hstep : let '(r, s1) := serve_bio b s in
    exists D1, append_holds N P s1 D1 /\ append_step N P D b r D1).
  { destruct (bio_op b) eqn:Hop.
    - pose proof (serve_read N P s D b Hh Hb Hop) as Hr. destruct (@serve_bio _ append4k_engine b s). by exists D.
    - by apply serve_write.
    - destruct s as [w m]. unfold serve_bio. cbn [zns_engine_map append4k_engine].
      unfold append4k_map, bind, zoom. rewrite Hop. cbn. unfold bind.
      destruct (submit_bio b w) as [r w'] eqn:E.
      assert (Hs : same_blocks (w_dev w) (w_dev w')) by exact (submit_frame b w r w' (or_intror Hop) E).
      destruct r; cbn; exists D; (split; [by eapply holds_same_blocks|by apply ap_flush]).
    - destruct s as [w m]. unfold serve_bio. cbn [zns_engine_map append4k_engine].
      unfold append4k_map, bind, zoom. rewrite Hop. cbn. exists D. split; [done|by apply ap_other]. }
  destruct (@serve_bio _ append4k_engine b s) as [r s1]. destruct Hstep as (D1 & Hh1 & Hst).
  specialize (IH s1 D1 Hh1 Hbs). destruct (@serve_bios _ append4k_engine bs s1) as [rs s2].
  destruct IH as (D2 & Hrun & Hh2). exists D2. split; [by econstructor|done].
Qed.

(** An engine just initialised holds zeros. *)
Lemma append_fresh N P w w' m :
  0 <= N -> 0 <= P < 18446744073709551608 -> append4k_init (8 * N) P 8 w = (Ok m, w') ->
  append_holds N P (w', m) (mk_append_disk (fun _ => Some zero_block) 0).
Proof.
  intros HN HP Hrun. unfold append4k_init in Hrun. destruct (_ || _ || _); [done|].
  unfold bind in Hrun. destruct (on_mem kmalloc w) as [[[]|e] w1]; [|done].
  destruct (on_mem kmalloc w1) as [[[]|e] w2]; [|done]. injection Hrun as <- <-.
  assert (Hdiv : 8 * N / 8 = N) by (rewrite Z.mul_comm; by apply Z_div_mult).
  assert (Hall : forall k, 0 <= k < N -> (replicate (Z.to_nat (8 * N / 8)) SECTOR_MAX).[k] = SECTOR_MAX).
  { intros k Hk. apply list_lookup_total_correct, lookup_replicate. rewrite Hdiv. split; [done|lia]. }
  constructor; cbn [fst snd p_addr_mapping p_next_append_sector ad_used ad_block]; [|done| |done].
  - constructor; cbn; try done; try lia.
    + unfold zlen. rewrite length_replicate. lia.
    + intros k p Hk <- Hne. by rewrite Hall in Hne.
    + intros j k Hj Hk _ Hne. by rewrite Hall in Hne.
  - intros k data Hk [= <-]. split; [unfold zlen; by rewrite length_zero_block|]. rewrite Hall by done. done.
Qed.

End Append.

(** ** The two append engines are interchangeable *)
Section Equivalence.
Context `{BlockDevice}.

(** The same mapping and the same position, in the fields of either engine. *)
Record same_append (m : zns_append4k) (q : zns_append4k_alloc) : Prop := {
  sa_mapping : q_addr_mapping q = p_addr_mapping m;
  sa_nr : q_nr_logical_blocks q = p_nr_logical_blocks m;
  sa_spb : q_sectors_per_block q = p_sectors_per_block m;
  sa_allocator : q_allocator q = mk_allocator (p_next_append_sector m) (p_nr_physical_sectors m)
    [] 0 0 UINT_MAX (p_sectors_per_block m) ZNS_ALLOCATOR_LINEAR;
  sa_block : 0 < p_sectors_per_block m;
  sa_next : 0 <= p_next_append_sector m <= p_nr_physical_sectors m;
  sa_limit : p_nr_physical_sectors m + p_sectors_per_block m < 18446744073709551616;
}.

Lemma same_append_read m q sector sectors :
  same_append m q ->
  fst (zns_append4k_read sector sectors m) = fst (zns_append4k_alloc_read sector sectors q) /\
  snd (zns_append4k_read sector sectors m) = m /\
  snd (zns_append4k_alloc_read sector sectors q) = q.
Proof.
  intros [Hm Hn Hs _ _ _ _]. unfold zns_append4k_read, zns_append4k_alloc_read,
    zns_append4k_is_aligned_io, zns_append4k_alloc_is_aligned_io. rewrite Hm, Hn, Hs.
  change ZNS_APPEND4K_ALLOC_UNMAPPED with ZNS_APPEND4K_UNMAPPED.
  destruct (negb _); [done|]. destruct (_ <=? _); [done|]. by destruct (_ =? ZNS_APPEND4K_UNMAPPED).
Qed.

Lemma same_append_write m q sector sectors :
  same_append m q ->
  fst (zns_append4k_write sector sectors m) = fst (zns_append4k_alloc_write sector sectors q) /\
  same_append (snd (zns_append4k_write sector sectors m)) (snd (zns_append4k_alloc_write sector sectors q)).
Proof.
  intros Hsa. pose proof Hsa as [Hm Hn Hs Ha Hb Hnx Hlim].
  unfold zns_append4k_write, zns_append4k_alloc_write, zns_append4k_is_aligned_io,
    zns_append4k_alloc_is_aligned_io, get, bind, zoom. rewrite Hn, Hs.
  destruct (negb _); [done|]. destruct (_ <=? _); [done|].
  unfold zns_allocator_alloc. rewrite Ha. cbn [a_mode a_physical_sectors a_next_sector a_sectors_per_block].
  rewrite bool_decide_eq_false_2 by done. rewrite (proj2 (Z.ltb_ge (p_nr_physical_sectors m) (p_next_append_sector m))) by lia. cbn [orb].
  rewrite !u64_id by lia.
  destruct (Z.ltb_spec (p_nr_physical_sectors m) (p_next_append_sector m + p_sectors_per_block m)),
    (Z.ltb_spec (p_nr_physical_sectors m - p_next_append_sector m) (p_sectors_per_block m)); try lia.
  - split; [done|]. cbn. destruct q. cbn in *. by subst.
  - cbn. split; [done|]. constructor; cbn; try done; [by rewrite Hm|lia].
Qed.

Lemma same_append_map m q b w :
  same_append m q ->
  let '(r, (w1, m')) := append4k_map b (w, m) in
  let '(r', (w2, q')) := append4k_alloc_map b (w, q) in
  r = r' /\ w1 = w /\ w2 = w /\ same_append m' q'.
Proof.
  intros Hsa. unfold append4k_map, append4k_alloc_map.
  destruct (bio_op b); [| |done|done];
    unfold bind, attempt, on_append4k, on_append4k_alloc, zoom; cbn [fst snd].
  - destruct (same_append_read m q (bi_sector b) (bio_sectors b) Hsa) as (Hr & Hm & Hq).
    destruct (zns_append4k_read _ _ m) as [r m1], (zns_append4k_alloc_read _ _ q) as [r' q1].
    cbn in *. subst. destruct r' as [p|e]; [done|]. by destruct (_ =? _).
  - destruct (same_append_write m q (bi_sector b) (bio_sectors b) Hsa) as (Hr & Hs).
    destruct (zns_append4k_write _ _ m) as [r m1], (zns_append4k_alloc_write _ _ q) as [r' q1].
    cbn in *. subst. by destruct r'.
Qed.

Lemma same_append_serve m q bs w :
  same_append m q ->
  let '(rs, (w1, m')) := @serve_bios _ append4k_engine bs (w, m) in
  let '(rs', (w2, q')) := @serve_bios _ append4k_alloc_engine bs (w, q) in
  rs = rs' /\ w1 = w2 /\ same_append m' q'.
Proof.
  revert m q w. induction bs as [|b bs IH]; intros m q w Hsa; cbn [serve_bios]; [done|].
  unfold serve_bio, bind, zoom. cbn [zns_engine_map append4k_engine append4k_alloc_engine].
  pose proof (same_append_map m q b w Hsa) as Hmap.
  destruct (append4k_map b (w, m)) as [r [w1 m1]], (append4k_alloc_map b (w, q)) as [r' [w2 q1]].
  destruct Hmap as (-> & -> & -> & Hsa1). destruct r' as [a|e]; cbn [fst snd].
  - destruct (finish_bio a b w) as [r w3]. specialize (IH m1 q1 w3 Hsa1).
    cbn [engine append4k_engine append4k_alloc_engine] in *.
    destruct (@serve_bios _ append4k_engine bs (w3, m1)) as [rs [w4 m2]],
      (@serve_bios _ append4k_alloc_engine bs (w3, q1)) as [rs' [w5 q2]].
    destruct IH as (-> & -> & Hsa2). done.
  - specialize (IH m1 q1 w Hsa1). cbn [engine append4k_engine append4k_alloc_engine] in *.
    destruct (@serve_bios _ append4k_engine bs (w, m1)) as [rs [w4 m2]],
      (@serve_bios _ append4k_alloc_engine bs (w, q1)) as [rs' [w5 q2]].
    destruct IH as (-> & -> & Hsa2). done.
Qed.

(** C18.  The two append engines are interchangeable.  On a device whose size leaves room
    for one more block in 64 bits they start alike, with the same errors, and from
    then on answer every sequence of bios alike and leave the device in the same
    state: the allocator behind the second one changes nothing. *)
Theorem append_engines_equivalent logical physical spb w :
  0 <= spb -> 0 <= physical -> physical + spb < 18446744073709551616 ->
  match append4k_init logical physical spb w, append4k_alloc_init logical physical spb w with
  | (Ok m, w1), (Ok q, w2) =>
      w1 = w2 /\ forall bs,
        let '(rs, (w1', _)) := @serve_bios _ append4k_engine bs (w1, m) in
        let '(rs', (w2', _)) := @serve_bios _ append4k_alloc_engine bs (w2, q) in
        rs = rs' /\ w1' = w2'
  | (Err e, w1), (Err e', w2) => e = e' /\ w1 = w2
  | _, _ => False
  end.
Proof.
  intros Hspb HP Hlim. unfold append4k_init, append4k_alloc_init.
  destruct (Z.eqb_spec spb 0) as [|Hne]; [by split|]. cbn [orb].
  destruct (negb (logical mod spb =? 0)); [by split|]. cbn [orb].
  destruct (Z.eqb_spec (physical mod spb) 0) as [Hmod|]; [|by split]. cbn [negb]. unfold bind.
  destruct (on_mem kmalloc w) as [[[]|e] w1]; [|by split].
  destruct (on_mem kmalloc w1) as [[[]|e] w2]; [|by split].
  unfold lift, zns_allocator_init. rewrite (proj2 (Z.eqb_neq _ _) Hne), Hmod. cbn.
  split; [done|]. intros bs.
  set (m := mk_append4k _ _ _ _ _). set (q := mk_append4k_alloc _ _ _ _).
  assert (Hsa : same_append m q) by (constructor; cbn; try done; lia).
  pose proof (same_append_serve m q bs w2 Hsa) as Hs.
  cbn [engine append4k_engine append4k_alloc_engine] in *.
  destruct (@serve_bios _ append4k_engine bs _) as [rs [w3 m2]],
    (@serve_bios _ append4k_alloc_engine bs _) as [rs' [w4 q2]].
  by destruct Hs as (-> & -> & _).
Qed.

End Equivalence.

(** ** Concrete runs *)
Module AppendExamples.
#[local] Existing Instance eio_device | 0.
#[local] Existing Instance eio_device_laws | 0.

(** One zone of four blocks under a target of two. *)
Definition one_zone (faults : list Z) : world :=
  mk_world [] (mk_ram ∅ [mk_blk_zone 0 32 32 0 BLK_ZONE_TYPE_SEQWRITE_REQ BLK_ZONE_COND_EMPTY]
    faults : bdev).

Definition whole_block (op : req_op) (k : Z) (byte : Byte.byte) : bio :=
  mk_bio (opf op) (8 * k) 4096 [replicate 4096 byte].

Lemma whole_block_wf op k byte : 0 <= k -> bio_wf (whole_block op k byte).
Proof. intros Hk. constructor; [reflexivity|reflexivity|]. cbn. lia. Qed.

Definition demo_bios : list bio :=
  [whole_block REQ_OP_WRITE 0 Byte.x41; whole_block REQ_OP_WRITE 1 Byte.x42;
   whole_block REQ_OP_WRITE 0 Byte.x43; whole_block REQ_OP_READ 0 Byte.x00;
   whole_block REQ_OP_WRITE 5 Byte.x44].

Definition demo_append4k (faults : list Z) : world * zns_append4k :=
  match append4k_init 16 32 8 (one_zone faults) with
  | (Ok m, w) => (w, m)
  | (Err _, w) => (w, mk_append4k [] 0 0 0 0)
  end.

Lemma demo_holds faults :
  append_holds 2 32 (demo_append4k faults) (mk_append_disk (fun _ => Some zero_block) 0).
Proof.
  pose proof (append_fresh 2 32 (one_zone faults) (one_zone faults)
    (snd (demo_append4k faults)) ltac:(lia) ltac:(lia) eq_refl) as Hf. exact Hf.
Qed.

Lemma append4k_refines_append_disk_witness :
  exists D', append_run 2 32 (mk_append_disk (fun _ => Some zero_block) 0) demo_bios
    (fst (@serve_bios _ append4k_engine demo_bios (demo_append4k []))) D' /\
    map is_ok (fst (@serve_bios _ append4k_engine demo_bios (demo_append4k []))) =
      [true; true; true; true; false].
Proof.
  assert (Hwf : Forall bio_wf demo_bios).
  { repeat apply Forall_cons_2; [..|apply Forall_nil_2]; apply whole_block_wf; lia. }
  pose proof (append4k_refines_append_disk 2 32 demo_bios (demo_append4k []) _ (demo_holds []) Hwf) as Hrun.
  assert (Hok : map is_ok (fst (@serve_bios _ append4k_engine demo_bios (demo_append4k []))) =
    [true; true; true; true; false]) by (vm_compute; reflexivity).
  destruct (@serve_bios _ append4k_engine demo_bios (demo_append4k [])) as [rs s'].
  destruct Hrun as (D' & Hrun & _). exists D'. split; [exact Hrun|exact Hok].
Defined.

Lemma append_engines_equivalent_witness :
  match append4k_init 16 32 8 (one_zone []), append4k_alloc_init 16 32 8 (one_zone []) with
  | (Ok m, w1), (Ok q, w2) =>
      fst (@serve_bios _ append4k_engine demo_bios (w1, m)) =
      fst (@serve_bios _ append4k_alloc_engine demo_bios (w2, q))
  | _, _ => False
  end.
Proof.
  pose proof (append_engines_equivalent 16 32 8 (one_zone []) ltac:(lia) ltac:(lia) ltac:(lia)) as He.
  assert (Hok : is_ok (fst (append4k_init 16 32 8 (one_zone []))) = true) by reflexivity.
  destruct (append4k_init 16 32 8 (one_zone [])) as [[m|e] w1],
    (append4k_alloc_init 16 32 8 (one_zone [])) as [[q|e'] w2]; try done.
  destruct He as [_ He]. specialize (He demo_bios).
  cbn [engine append4k_engine append4k_alloc_engine] in *.
  destruct (@serve_bios _ append4k_engine demo_bios (w1, m)) as [rs [w3 m3]],
    (@serve_bios _ append4k_alloc_engine demo_bios (w2, q)) as [rs' [w4 q4]]. apply He.
Defined.

(** A write the device fails takes the old contents of its block with it: the mapping
    already leads to the sector that was never written. *)
Lemma failed_write_loses_block :
  let bios := [whole_block REQ_OP_WRITE 0 Byte.x41; whole_block REQ_OP_WRITE 0 Byte.x42;
               whole_block REQ_OP_READ 0 Byte.x00] in
  match fst (@serve_bios _ append4k_engine bios (demo_append4k [0; - EIO])) with
  | [Ok _; Err e; Ok b] => e = - EIO /\ gather (bi_vecs b) = replicate 4096 Byte.x00
  | _ => False
  end.
Proof. vm_compute. split; reflexivity. Qed.

End AppendExamples.
