(* ===== verification/Target.v ===== *)
(** The device-mapper target: [src/dm-zns-base-main.c].  The constructor checks its
    argument, takes the lower device, asks the engine what it can offer, starts it and
    attaches it; every failure undoes what was done before.  The target knows engines
    only through [Engine], and the device mapper only through [DeviceMapper]. *)
From S2P Require Import Prelude Kernel Bio Engine.

(** ** The device mapper *)

(** What the target calls.  [dm_core] is the state of the device mapper. *)
Class DeviceMapper : Type := {
  dm_core : Type;
  dm_dev : Type;
  dm_dev_name : dm_dev -> string;
  dm_get_device : string -> M dm_core dm_dev;
  dm_put_device : dm_dev -> dm_core -> dm_core;
  dm_set_target_max_io_len : Z -> M dm_core unit;
}.

(** Devices are counted: a successful get takes a reference, a put returns it. *)
Class DeviceMapperLaws `{DeviceMapper} : Type := {
  dm_references : dm_core -> Z;
  dm_get_counts : forall name c r c', dm_get_device name c = (r, c') ->
    dm_references c' = dm_references c + (if is_ok r then 1 else 0);
  dm_put_counts : forall dev c, dm_references (dm_put_device dev c) = dm_references c - 1;
  dm_max_io_counts : forall n c r c', dm_set_target_max_io_len n c = (r, c') ->
    dm_references c' = dm_references c;
}.

Section Target.
Context `{ZnsEngine} `{DeviceMapper}.

Record zns_base_c : Type := mk_base { c_dev : dm_dev; c_engine : engine }.

(** The fields of [struct dm_target] that the target uses. *)
Record dm_target : Type := mk_target {
  ti_len : Z;
  ti_error : option string;
  ti_private : option zns_base_c;
  ti_num_flush_bios : Z;
}.

(** A target with the device mapper and the machine it runs on. *)
Record system : Type := mk_system { sy_world : world; sy_core : dm_core; sy_target : dm_target }.

Definition on_machine {A} (m : M world A) : M system A :=
  zoom sy_world (fun w s => mk_system w (sy_core s) (sy_target s)) m.
Definition on_core {A} (m : M dm_core A) : M system A :=
  zoom sy_core (fun c s => mk_system (sy_world s) c (sy_target s)) m.
Definition put_device (dev : dm_dev) : M system unit :=
  modify (fun s => mk_system (sy_world s) (dm_put_device dev (sy_core s)) (sy_target s)).
Definition set_error (message : string) : M system unit :=
  modify (fun s => mk_system (sy_world s) (sy_core s)
    (mk_target (ti_len (sy_target s)) (Some message) (ti_private (sy_target s))
       (ti_num_flush_bios (sy_target s)))).
Definition attach (c : zns_base_c) : M system unit :=
  modify (fun s => mk_system (sy_world s) (sy_core s)
    (mk_target (ti_len (sy_target s)) (ti_error (sy_target s)) (Some c) 1)).

(** The constructor, with the error messages of the code. *)
Definition zns_base_ctr (argv : list string) : M system unit :=
  match argv with
  | [name] =>
      ti <- gets sy_target ;;
      r <- attempt (on_machine (on_mem kmalloc)) ;;
      match r with
      | Err _ => set_error "out of memory" ;;; Prelude.fail (- ENOMEM)
      | Ok _ =>
          r <- attempt (on_core (dm_get_device name)) ;;
          match r with
          | Err e => set_error "failed to open underlying device" ;;; Prelude.fail e
          | Ok dev =>
              capacity <- on_machine zns_engine_capacity ;;
              if (capacity =? 0) || (capacity <? ti_len ti)
              then
                set_error "target exceeds usable logical capacity" ;;;
                put_device dev ;;;
                Prelude.fail (- EINVAL)
              else
                r <- attempt (on_machine
                       (zns_engine_init (ti_len ti) (ti_len ti) ZNS_BASE_BLOCK_SECTORS)) ;;
                match r with
                | Err e =>
                    set_error "failed to initialize ZNS engine" ;;;
                    put_device dev ;;;
                    Prelude.fail e
                | Ok e =>
                    r <- attempt (on_core (dm_set_target_max_io_len ZNS_BASE_BLOCK_SECTORS)) ;;
                    match r with
                    | Err err =>
                        set_error "failed to set target max io length" ;;;
                        attempt (on_machine (zns_engine_exit e)) ;;;
                        put_device dev ;;;
                        Prelude.fail err
                    | Ok _ => attach (mk_base dev e)
                    end
                end
          end
      end
  | _ => set_error "expected one argument: underlying device" ;;; Prelude.fail (- EINVAL)
  end.

(** The other operations run on an attached target only; [None] stands for the call that
    the device mapper never makes. *)
Definition zns_base_dtr : M system unit :=
  ti <- gets sy_target ;;
  match ti_private ti with
  | None => Prelude.fail (- ENODEV)
  | Some c => attempt (on_machine (zns_engine_exit (c_engine c))) ;;; put_device (c_dev c)
  end.

Definition set_engine (e : engine) (ti : dm_target) : dm_target :=
  mk_target (ti_len ti) (ti_error ti)
    (match ti_private ti with Some c => Some (mk_base (c_dev c) e) | None => None end)
    (ti_num_flush_bios ti).

Definition zns_base_map (b : bio) : M system map_result := fun s =>
  match ti_private (sy_target s) with
  | None => (Err (- ENODEV), s)
  | Some c =>
      let '(r, (w, e)) := zns_engine_map b (sy_world s, c_engine c) in
      (r, mk_system w (sy_core s) (set_engine e (sy_target s)))
  end.

Inductive status_type : Type :=
| STATUSTYPE_INFO
| STATUSTYPE_TABLE
| STATUSTYPE_IMA.

(** The buffer afterwards. *)
Definition zns_base_status (c : zns_base_c) (type : status_type) (maxlen : Z) (result : string)
    : string :=
  if maxlen =? 0 then result
  else
    match type with
    | STATUSTYPE_INFO => zns_engine_status (c_engine c) maxlen
    | STATUSTYPE_TABLE => dmemit maxlen (dm_dev_name (c_dev c)) ""
    | STATUSTYPE_IMA => ""
    end.

(** ** The life of a target *)
Section Laws.
Context `{!ZnsEngineLaws} `{!DeviceMapperLaws}.

Definition references (s : system) : Z := dm_references (sy_core s).

(** The fields of the target that are not the error message. *)
Definition same_target (ti ti' : dm_target) : Prop :=
  ti_len ti' = ti_len ti /\ ti_private ti' = ti_private ti /\
  ti_num_flush_bios ti' = ti_num_flush_bios ti.

(** A constructor that failed: a message, and nothing held. *)
Record refused (s s' : system) : Prop := {
  rf_message : exists m, ti_error (sy_target s') = Some m;
  rf_target : same_target (sy_target s) (sy_target s');
  rf_references : references s' = references s;
}.

(** A constructor that succeeded: the engine was started on a device that is large
    enough, and one reference is held. *)
Record attached (s s' : system) : Prop := {
  at_private : exists dev e, ti_private (sy_target s') = Some (mk_base dev e) /\
    exists w1 w2 capacity, on_mem kmalloc (sy_world s) = (Ok tt, w1) /\
      zns_engine_capacity w1 = (Ok capacity, w2) /\ capacity <> 0 /\
      ti_len (sy_target s) <= capacity /\
      zns_engine_init (ti_len (sy_target s)) (ti_len (sy_target s)) 8 w2 = (Ok e, sy_world s');
  at_len : ti_len (sy_target s') = ti_len (sy_target s);
  at_error : ti_error (sy_target s') = ti_error (sy_target s);
  at_flush : ti_num_flush_bios (sy_target s') = 1;
  at_references : references s' = references s + 1;
}.

Ltac refuse := constructor; cbn; [by eexists|done|].

Lemma ctr_outcome name s :
  let '(r, s') := zns_base_ctr [name] s in
  match r with Ok _ => attached s s' | Err _ => refused s s' end.
Proof.
  destruct s as [w c ti]. unfold zns_base_ctr, bind at 1, gets. cbn [sy_target].
  unfold bind at 1, attempt, on_machine, zoom. cbn [sy_world].
  destruct (on_mem kmalloc w) as [[[]|e] w1] eqn:Emem; [|by refuse]. cbn.
  unfold bind at 1, attempt, on_core, zoom. cbn.
  destruct (dm_get_device name c) as [r c1] eqn:Eget. pose proof (dm_get_counts _ _ _ _ Eget) as Hget.
  destruct r as [dev|e]; cbn in *; [|refuse; unfold references; cbn; lia].
  destruct (engine_capacity_total w1) as (capacity & w2 & Ecap).
  unfold bind at 1, on_machine, zoom. cbn. rewrite Ecap.
  destruct ((capacity =? 0) || (capacity <? ti_len ti)) eqn:Eroom.
  { refuse. unfold references. cbn. rewrite dm_put_counts. lia. }
  guards. unfold bind at 1, attempt, on_machine, zoom. cbn. change ZNS_BASE_BLOCK_SECTORS with 8.
  destruct (zns_engine_init (ti_len ti) (ti_len ti) 8 w2) as [[e|e] w3] eqn:Einit.
  2:{ refuse. unfold references. cbn. rewrite dm_put_counts. lia. }
  unfold bind at 1, attempt, on_core, zoom. cbn.
  destruct (dm_set_target_max_io_len 8 c1) as [r c2] eqn:Emax.
  pose proof (dm_max_io_counts _ _ _ _ Emax) as Hmax. destruct r as [[]|err]; cbn.
  - constructor; cbn; try done; [|unfold references; cbn; lia].
    exists dev, e. split; [done|]. by exists w1, w2, capacity.
  - unfold bind, attempt, on_machine, zoom. cbn.
    destruct (zns_engine_exit e w3) as [r4 w4]. cbn. refuse.
    unfold references. cbn. rewrite dm_put_counts. lia.
Qed.


Lemma dtr_outcome s c :
  ti_private (sy_target s) = Some c ->
  let '(r, s') := zns_base_dtr s in
  r = Ok tt /\ references s' = references s - 1 /\
  sy_world s' = snd (zns_engine_exit (c_engine c) (sy_world s)).
Proof.
  destruct s as [w co ti]. cbn. intros Hp. unfold zns_base_dtr, bind, gets. cbn [sy_target]. rewrite Hp.
  unfold attempt, on_machine, zoom. cbn. destruct (zns_engine_exit (c_engine c) w) as [r w']. cbn.
  split; [done|]. split; [|done]. unfold references. cbn. apply dm_put_counts.
Qed.

(** Serving bios neither takes nor returns devices and keeps the target attached. *)
Lemma map_outcome s b dev e :
  ti_private (sy_target s) = Some (mk_base dev e) ->
  let '(r, s') := zns_base_map b s in
  references s' = references s /\ exists e', ti_private (sy_target s') = Some (mk_base dev e').
Proof.
  intros Hp. unfold zns_base_map. rewrite Hp. cbn [c_engine].
  destruct (zns_engine_map b (sy_world s, e)) as [r [w e']]. split; [done|]. exists e'. cbn. by rewrite Hp.
Qed.

Fixpoint map_bios (bs : list bio) (s : system) : system :=
  match bs with
  | [] => s
  | b :: bs' => map_bios bs' (snd (zns_base_map b s))
  end.

Lemma map_bios_outcome bs s dev e :
  ti_private (sy_target s) = Some (mk_base dev e) ->
  references (map_bios bs s) = references s /\
  exists e', ti_private (sy_target (map_bios bs s)) = Some (mk_base dev e').
Proof.
  revert s e. induction bs as [|b bs IH]; intros s e Hp; [split; [done|by exists e]|]. cbn [map_bios].
  pose proof (map_outcome s b dev e Hp) as Hm. destruct (zns_base_map b s) as [r s1].
  destruct Hm as (Hr & e1 & Hp1). cbn [snd]. destruct (IH s1 e1 Hp1) as [Hr2 He2].
  split; [by rewrite Hr2|done].
Qed.

(** C16.  A target returns what it took.  Whatever bios it maps in between, constructing a
    target and destructing it again leaves the device mapper with as many references
    to devices as before, and the destructor always succeeds. *)
Theorem detach_returns_device argv bs s :
  is_ok (fst (zns_base_ctr argv s)) = true ->
  let s1 := snd (zns_base_ctr argv s) in
  let '(r, s2) := zns_base_dtr (map_bios bs s1) in
  r = Ok tt /\ references s2 = references s.
Proof.
  intros Hok. destruct argv as [|name [|name2 argv]]; [done| |done].
  pose proof (ctr_outcome name s) as Hc. destruct (zns_base_ctr [name] s) as [[[]|e] s1]; [|done].
  cbn [snd]. destruct Hc as [(dev & e & Hp & _) _ _ _ Href].
  destruct (map_bios_outcome bs s1 dev e Hp) as [Hr (e' & Hp')].
  pose proof (dtr_outcome (map_bios bs s1) _ Hp') as Hd.
  destruct (zns_base_dtr (map_bios bs s1)) as [r s2]. destruct Hd as (-> & Hr2 & _).
  split; [done|lia].
Qed.

(** The status never overruns its buffer.  Whatever the kind of status, the text the
    target leaves in a buffer of [maxlen] bytes is shorter than the buffer, so that its
    terminator fits; a buffer of no bytes is not touched. *)
Theorem status_fits_buffer c type maxlen result :
  0 <= maxlen ->
  if maxlen =? 0 then zns_base_status c type maxlen result = result
  else Z.of_nat (String.length (zns_base_status c type maxlen result)) < maxlen.
Proof.
  intros Hm. unfold zns_base_status. destruct (Z.eqb_spec maxlen 0); [done|].
  destruct type; [apply engine_status_fits; lia|apply dmemit_fits; cbn; lia|cbn; lia].
Qed.

End Laws.
End Target.

(** ** A device mapper that counts *)
Module TargetExamples.

(** Every name but the empty one opens a device. *)
Definition counting_mapper : DeviceMapper := {|
  dm_core := Z;
  dm_dev := string;
  dm_dev_name := fun name => name;
  dm_get_device := fun name n =>
    if bool_decide (name = "") then (Err (- ENODEV), n) else (Ok name, n + 1);
  dm_put_device := fun _ n => n - 1;
  dm_set_target_max_io_len := fun len n =>
    if u32 len =? len then (Ok tt, n) else (Err (- EINVAL), n);
|}.

Definition counting_mapper_laws : @DeviceMapperLaws counting_mapper.
Proof.
  refine (@Build_DeviceMapperLaws counting_mapper (fun n : Z => n) _ _ _); cbn.
  - intros name c r c'. case_bool_decide; intros [= <- <-]; cbn; lia.
  - done.
  - intros n c r c'. destruct (_ =? _); by intros [= _ <-].
Defined.

End TargetExamples.
