(* ===== verification/LsmTarget.v ===== *)
(** The module with the LSM engine linked in, from its entry points: the target of
    [Target] over the engine of [LsmEngine].  A bio the map function queues is served by
    the I/O worker later; what users of the target see is a disk. *)
From S2P Require Import Prelude Kernel ZonedRam Zone Allocator GcPolicy XArray Bytes Bio Engine.
From S2P Require Import RbTree Memtable Sstable Super Lsm LsmIndex LsmFlush LsmIo LsmRecovery LsmView.
From S2P Require Import LsmConcurrency LsmRefine Disk LsmServe LsmDisk LsmRestart LsmLifecycle LsmEngine LsmHealth.
From S2P Require Import LsmProgress LsmService Append4k AppendRefine Target.

Section LsmTarget.
Context `{BlockDeviceLaws} `{Crc32} `{XArrayLaws} `{RbTreeLaws} `{ZnsGcPolicy} `{DeviceMapperLaws}.
Context (params : lsm_params) (uuid N : Z).
#[local] Instance the_engine : ZnsEngine := lsm_engine params uuid.

(** The engine was made for [N] blocks. *)
Definition sized (_ : list (list lsm_entry)) (s : world * zns_lsm) : Prop :=
  su_logical_sectors (m_super (l_meta (snd s))) = 8 * N.

Lemma sized_frame ess s s' : meta_frame s s' -> sized ess s -> sized ess s'.
Proof. unfold sized. by intros [-> _ _]. Qed.

Definition engine_holds : world * zns_lsm -> disk -> Prop := represents_with N sized.

(** An attached target of [N] blocks that holds [D]. *)
Definition target_holds (s : system) (D : disk) : Prop :=
  exists dev (l : zns_lsm), ti_private (sy_target s) = Some (mk_base dev (l : engine)) /\
    engine_holds (sy_world s, l) D.

(** A bio in the ranges of its C types. *)
Record bio_sane (b : bio) : Prop := {
  bs_wf : bio_wf b;
  bs_sector : bi_sector b < 18446744073709551616;
  bs_size : bi_size b < 4294967296;
}.

(** The I/O worker takes a queued bio. *)
Definition work_on (b : bio) (s : system) : result bio * system :=
  match ti_private (sy_target s) with
  | None => (Err (- ENODEV), s)
  | Some c =>
      let '(r, (w, l)) := zns_lsm_io_worker params b (sy_world s, c_engine c : zns_lsm) in
      (r, mk_system w (sy_core s) (set_engine (l : engine) (sy_target s)))
  end.

(** The flush worker runs. *)
Definition flush_behind (s : system) : system :=
  match ti_private (sy_target s) with
  | None => s
  | Some c =>
      let '(_, (w, l)) := zns_lsm_flush_worker (sy_world s, c_engine c : zns_lsm) in
      mk_system w (sy_core s) (set_engine (l : engine) (sy_target s))
  end.

(** A bio arrives: [None] when the map function kills it. *)
Definition serve (b : bio) (s : system) : option (result bio) * system :=
  let '(a, s1) := zns_base_map b s in
  match a with
  | Ok (DM_MAPIO_SUBMITTED b') => let '(r, s2) := work_on b' s1 in (Some r, s2)
  | _ => (None, s1)
  end.

(** Bios are served in the order in which they arrive, with background flushes. *)
Fixpoint run_target (evs : list event) (s : system) : list (option (result bio)) * system :=
  match evs with
  | [] => ([], s)
  | EvFlush :: evs' => run_target evs' (flush_behind s)
  | EvBio b :: evs' =>
      let '(r, s1) := serve b s in
      let '(rs, s2) := run_target evs' s1 in (r :: rs, s2)
  end.

(** What that means for a disk.  [fails]: allocations may fail. *)
Inductive target_run (fails : Prop) : disk -> list event -> list (option (result bio)) -> disk -> Prop :=
| tr_nil D : target_run fails D [] [] D
| tr_served D D1 D2 b r evs rs :
    bio_servable N b = true -> disk_step D b r D1 -> target_run fails D1 evs rs D2 ->
    target_run fails D (EvBio b :: evs) (Some r :: rs) D2
| tr_killed D D1 b evs rs :
    bio_servable N b = false \/ fails -> target_run fails D evs rs D1 ->
    target_run fails D (EvBio b :: evs) (None :: rs) D1
| tr_flush D D1 evs rs :
    target_run fails D evs rs D1 -> target_run fails D (EvFlush :: evs) rs D1.

Definition event_sane (ev : event) : Prop :=
  match ev with EvBio b => bio_sane b | EvFlush => True end.

(** ** Each step *)

Definition memory_ok (s : system) : Prop := no_fail (w_mem (sy_world s)).

(** Operations of the engine never make memory fail. *)
Lemma keeps_memory {A} (m : M (world * zns_lsm) A) s r s' :
  preserves (healthy_with (fun _ => True)) m -> m s = (r, s') ->
  no_fail (w_mem (fst s)) -> no_fail (w_mem (fst s')).
Proof. intros Hm Hr Hn. by destruct (preserves_run _ m s r s' Hm Hr (conj Hn I)). Qed.

Lemma any_device_steady : steady (fun _ : bdev => True).
Proof. by constructor. Qed.

Lemma holds_intro w core ti dev e l D :
  ti_private ti = Some (mk_base dev e) -> engine_holds (w, l) D ->
  target_holds (mk_system w core (set_engine (l : engine) ti)) D.
Proof. intros Hp Hh. exists dev, l. cbn. by rewrite Hp. Qed.

Lemma flush_keeps_super su :
  preserves (fun s : world * zns_lsm => m_super (l_meta (snd s)) = su) zns_lsm_flush_worker.
Proof.
  assert (Hget : forall A (f : zns_lsm -> A),
    preserves (fun s : world * zns_lsm => m_super (l_meta (snd s)) = su) (lsm_get f)) by (intros; apply preserves_gets).
  assert (Hworld : forall A (m : M world A),
    preserves (fun s : world * zns_lsm => m_super (l_meta (snd s)) = su) (on_world m)).
  { intros A m. by apply (preserves_zoom _ (fun _ => True)). }
  assert (Hmod : forall f, (forall l, m_super (l_meta (f l)) = m_super (l_meta l)) ->
    preserves (fun s : world * zns_lsm => m_super (l_meta (snd s)) = su) (lsm_modify f)).
  { intros f Hf. apply preserves_modify. intros s Hs. cbn. by rewrite Hf. }
  assert (Hloop : preserves (fun s : world * zns_lsm => m_super (l_meta (snd s)) = su) (flush_loop 3)).
  { generalize 3%nat. intros n. induction n as [|n IH]; cbn [flush_loop];
      unfold zns_lsm_claim_flush_victim, zns_lsm_advance_meta_wp, zns_lsm_publish_sstable,
        zns_lsm_release_flush_victim, modify_tables, modify_meta;
      keeps; apply Hmod; intros ?; cbn; try case_match; done. }
  unfold zns_lsm_flush_worker, zns_lsm_maybe_queue_flush, modify_tables. keeps; by apply Hmod.
Qed.

Lemma map_run b w core ti dev (l : zns_lsm) :
  ti_private ti = Some (mk_base dev (l : engine)) ->
  zns_base_map b (mk_system w core ti) =
    let '(r, (w', l')) := lsm_engine_map b (w, l) in
    (r, mk_system w' core (set_engine (l' : engine) ti)).
Proof. intros Hp. unfold zns_base_map. cbn [sy_target sy_world sy_core]. by rewrite Hp. Qed.

Lemma map_step b s D :
  0 <= N < 4294967296 -> target_holds s D -> bio_sane b ->
  let '(a, s1) := zns_base_map b s in
  target_holds s1 D /\ (memory_ok s -> memory_ok s1) /\
  (a = Ok (DM_MAPIO_SUBMITTED b) /\ bio_servable N b = true /\ bio_valid N b \/
   a = Ok DM_MAPIO_KILL /\ (bio_servable N b = false \/ ~ memory_ok s)).
Proof.
  intros HN (dev & l & Hp & Hh) [Hwf Hsec Hsize]. destruct s as [w core ti]. cbn in Hp, Hh.
  rewrite (map_run b w core ti dev l Hp).
  pose proof Hh as (_ & ess & _ & _ & Hsz). unfold sized in Hsz. cbn [snd] in Hsz.
  pose proof (bwf_start b Hwf). assert (0 <= bi_size b) by (rewrite (bwf_size b Hwf); apply zlen_nonneg).
  pose proof (engine_map_outcome N b w l Hsz ltac:(lia) ltac:(lia) ltac:(done)) as Hm.
  pose proof (keeps_memory _ (w, l) _ _ (engine_map_healthy _ b) (surjective_pairing _)) as Hmem.
  pose proof (servable_valid N b ltac:(lia)) as Hv.
  destruct (lsm_engine_map b (w, l)) as [a [w' l']]. destruct Hm as (Hd & -> & Ha).
  split; [|split; [exact Hmem|]].
  - eapply holds_intro; [exact Hp|]. eapply represents_mem; [apply sized_frame|exact Hd|exact Hh].
  - unfold memory_ok. cbn. destruct Ha as [[-> Hs]|[-> Hk]]; [left|by right]. auto.
Qed.

Lemma work_step b s D :
  no_enodata -> 0 <= N < 4294967296 -> target_holds s D -> bio_valid N b ->
  let '(r, s1) := work_on b s in
  (memory_ok s -> memory_ok s1) /\ exists D', target_holds s1 D' /\ disk_step D b r D'.
Proof.
  intros Hne HN (dev & l & Hp & Hh) Hv. destruct s as [w core ti]. cbn in Hp, Hh.
  unfold work_on. cbn [sy_target sy_world sy_core]. rewrite Hp. cbn [c_engine].
  pose proof (io_worker_outcome params N sized sized_frame Hne ltac:(lia) D b (w, l) Hh Hv) as Hio.
  pose proof (keeps_memory _ (w, l) _ _ (io_worker_healthy params _ any_device_steady b)
    (surjective_pairing _)) as Hmem.
  destruct (zns_lsm_io_worker params b (w, l)) as [r [w' l']]. split; [exact Hmem|].
  destruct Hio as (D' & Hh' & Hst & _). exists D'. split; [|done]. by eapply holds_intro.
Qed.

Lemma flush_keeps_engine w l D :
  no_enodata -> 0 <= N < 4294967296 -> engine_holds (w, l) D ->
  engine_holds (snd (zns_lsm_flush_worker (w, l))) D.
Proof.
  intros Hne HN Hh. pose proof (flush_worker_disk N D (w, l) Hne HN (represents_weaken N _ _ _ Hh)) as Hfl.
  pose proof (flush_keeps_super _ (w, l) eq_refl) as Hsu.
  destruct (zns_lsm_flush_worker (w, l)) as [r [w' l']]. cbn [snd] in *.
  destruct Hfl as (_ & Hf & ess & Hew & Hc & _). destruct Hh as (_ & ess0 & _ & _ & Hsz).
  split; [done|]. exists ess. split; [done|]. split; [done|]. unfold sized in *. cbn [snd] in *. by rewrite Hsu.
Qed.

Lemma flush_step s D :
  no_enodata -> 0 <= N < 4294967296 -> target_holds s D ->
  target_holds (flush_behind s) D /\ (memory_ok s -> memory_ok (flush_behind s)).
Proof.
  intros Hne HN (dev & l & Hp & Hh). destruct s as [w core ti]. cbn in Hp, Hh.
  unfold flush_behind. cbn [sy_target sy_world sy_core]. rewrite Hp. cbn [c_engine].
  pose proof (flush_keeps_engine w l D Hne HN Hh) as Hh'.
  pose proof (keeps_memory _ (w, l) _ _ (flush_worker_healthy _ any_device_steady)
    (surjective_pairing _)) as Hmem.
  destruct (zns_lsm_flush_worker (w, l)) as [r [w' l']]. split; [|exact Hmem]. by eapply holds_intro.
Qed.

Lemma serve_step b s D :
  no_enodata -> 0 <= N < 4294967296 -> target_holds s D -> bio_sane b ->
  let '(r, s1) := serve b s in
  (memory_ok s -> memory_ok s1) /\
  match r with
  | Some r => bio_servable N b = true /\ exists D', target_holds s1 D' /\ disk_step D b r D'
  | None => (bio_servable N b = false \/ ~ memory_ok s) /\ target_holds s1 D
  end.
Proof.
  intros Hne HN Hh Hb. unfold serve. pose proof (map_step b s D HN Hh Hb) as Hm.
  destruct (zns_base_map b s) as [a s1].
  destruct Hm as (Hh1 & Hmem1 & [(-> & Hs & Hv)|[-> Hk]]); [|done].
  pose proof (work_step b s1 D Hne HN Hh1 Hv) as Hw. destruct (work_on b s1) as [r s2].
  destruct Hw as (Hmem2 & D' & Hh2 & Hst). split; [auto|]. split; [done|]. by exists D'.
Qed.

Lemma target_run_weaken (fails fails' : Prop) D evs rs D' :
  (fails -> fails') -> target_run fails D evs rs D' -> target_run fails' D evs rs D'.
Proof. intros Hf. induction 1; [constructor|by econstructor|constructor; tauto|by constructor]. Qed.

Lemma run_target_outcome evs s D :
  no_enodata -> 0 <= N < 4294967296 -> target_holds s D -> Forall event_sane evs ->
  let '(rs, s') := run_target evs s in
  exists D', target_run (~ memory_ok s) D evs rs D' /\ target_holds s' D'.
Proof.
  intros Hne HN. revert s D. induction evs as [|[b|] evs IH]; intros s D Hh Hev; cbn [run_target].
  - exists D. split; [constructor|done].
  - apply Forall_cons_1 in Hev as [Hb Hev]. pose proof (serve_step b s D Hne HN Hh Hb) as Hs.
    destruct (serve b s) as [r s1]. destruct Hs as [Hmem Hs].
    assert (Hf : ~ memory_ok s1 -> ~ memory_ok s) by tauto. destruct r as [r|].
    + destruct Hs as (Hsv & D1 & Hh1 & Hst). specialize (IH s1 D1 Hh1 Hev).
      destruct (run_target evs s1) as [rs s2]. destruct IH as (D2 & Hrun & Hh2).
      exists D2. split; [|done]. eapply tr_served; eauto using target_run_weaken.
    + destruct Hs as (Hk & Hh1). specialize (IH s1 D Hh1 Hev).
      destruct (run_target evs s1) as [rs s2]. destruct IH as (D2 & Hrun & Hh2).
      exists D2. split; [|done]. apply tr_killed; eauto using target_run_weaken.
  - apply Forall_cons_1 in Hev as [_ Hev]. destruct (flush_step s D Hne HN Hh) as [Hh1 Hmem].
    specialize (IH _ D Hh1 Hev). destruct (run_target evs (flush_behind s)) as [rs s2].
    destruct IH as (D2 & Hrun & Hh2). exists D2. split; [|done]. apply tr_flush.
    eapply target_run_weaken; [|exact Hrun]. tauto.
Qed.

(** ** From the constructor on *)

(** Reading the capacity only allocates. *)
Lemma capacity_keeps w :
  let w' := snd (lsm_engine_capacity w) in
  w_dev w' = w_dev w /\ (no_fail (w_mem w) -> no_fail (w_mem w')).
Proof.
  assert (Ht : forall w0 r w1, zns_zone_table_init w0 = (r, w1) ->
    w_dev w1 = w_dev w0 /\ (no_fail (w_mem w0) -> no_fail (w_mem w1))).
  { intros w0 r w1. unfold zns_zone_table_init, bind. cbv zeta.
    destruct (negb _); [by intros [= _ <-]|]. destruct (_ =? 0); [by intros [= _ <-]|].
    destruct (on_mem kmalloc w0) as [r2 w2] eqn:E.
    pose proof (preserves_run _ _ _ _ _ (on_mem_healthy (fun d => d = w_dev w0) _ kmalloc_healthy) E) as Hk.
    apply on_mem_dev in E as [Hd _]. assert (Hn : no_fail (w_mem w0) -> no_fail (w_mem w2)) by (intros; by apply Hk).
    destruct r2 as [[]|e]; [|by intros [= _ <-]].
    destruct (blkdev_report_zones _ _ _ _ _) as [[n|e] t']; [|by intros [= _ <-]].
    destruct (negb _); by intros [= _ <-]. }
  unfold lsm_engine_capacity, bind, attempt.
  destruct (zns_zone_table_init w) as [[table|e] w1] eqn:E; apply Ht in E; [|done].
  destruct (_ <=? _); [done|]. by destruct (foldl _ _ _).
Qed.

(** What the constructor does on success, for the engine. *)
Lemma ctr_starts name s :
  is_ok (fst (zns_base_ctr [name] s)) = true ->
  let s1 := snd (zns_base_ctr [name] s) in
  exists dev (l : zns_lsm) w, ti_private (sy_target s1) = Some (mk_base dev (l : engine)) /\
    w_dev w = w_dev (sy_world s) /\ (no_fail (w_mem (sy_world s)) -> no_fail (w_mem w)) /\
    lsm_engine_init params (ti_len (sy_target s)) (ti_len (sy_target s)) 8 uuid w = (Ok l, sy_world s1).
Proof.
  intros Hok. pose proof (ctr_outcome name s) as Hc. destruct (zns_base_ctr [name] s) as [[[]|e] s1]; [|done].
  destruct Hc as [(dev & e & Hp & w1 & w2 & cap & Hmem & Hcap & _ & _ & Hin) _ _ _ _].
  exists dev, e, w2. split; [exact Hp|].
  pose proof (preserves_run _ _ _ _ _ (on_mem_healthy (fun _ => True) _ kmalloc_healthy) Hmem) as Hn.
  apply on_mem_dev in Hmem as [<- _]. pose proof (capacity_keeps w1) as [Hd Hn2].
  cbn in Hcap. rewrite Hcap in Hd, Hn2. split; [exact Hd|]. split; [|exact Hin].
  intros Hnf. by apply Hn2, Hn.
Qed.


End LsmTarget.

(** ** Concrete runs *)
Module LsmTargetExamples.
Import EngineExamples LifecycleExamples TargetExamples.
#[local] Existing Instance eio_device | 0.
#[local] Existing Instance eio_device_laws | 0.
#[local] Existing Instance greedy_policy.
#[local] Existing Instance counting_mapper.
#[local] Existing Instance counting_mapper_laws.
#[local] Instance demo_lsm : ZnsEngine := lsm_engine small_tables 7.

(** A table of four blocks is loaded on the blank device. *)
Definition demo_system : system :=
  mk_system blank_world (0 : dm_core) (mk_target (8 * 4) None None 0).

Lemma demo_attached : is_ok (fst (zns_base_ctr ["dev"] demo_system)) = true.
Proof. vm_compute. reflexivity. Qed.


Lemma detach_returns_device_witness :
  references (snd (zns_base_dtr (map_bios [DiskExamples.demo_write; DiskExamples.demo_read]
    (snd (zns_base_ctr ["dev"] demo_system))))) = 0.
Proof.
  pose proof (detach_returns_device ["dev"] [DiskExamples.demo_write; DiskExamples.demo_read]
    demo_system demo_attached) as Hd. cbv zeta in Hd.
  destruct (zns_base_dtr (map_bios _ (snd (zns_base_ctr ["dev"] demo_system)))) as [r s2].
  exact (proj2 Hd).
Defined.

Lemma demo_event_sane : Forall event_sane DiskExamples.demo_events.
Proof.
  repeat constructor; try (vm_compute; reflexivity); try (vm_compute; discriminate).
Qed.


End LsmTargetExamples.
